(* ===== verification/_CoqProject ===== *)
-Q . S2P
Prelude.v
GoStrings.v
GoErrors.v
Prog.v
Link.v
Once.v
Sha256.v
GoFormat.v
GoTime.v
EnvCfg.v
Utils.v
Json.v
GoFloat.v
OciConfig.v
Resource.v
NetUtil.v
Instance.v
K8s.v
GoPath.v
Volumes.v
Event.v
GuestCfg.v
NodeIO.v
Stores.v
MacOS.v
MacOSProofs.v
Permits.v
Overlap.v
SshConn.v
SshAuth.v
VmConfig.v
ClientApi.v
VmStats.v
PodStatus.v
DockerData.v
Docker.v
DockerProofs.v
Client.v
ClientProofs.v
Manager.v
ManagerProofs.v
Disk.v
DiskFrame.v
Oci.v
OciLocks.v
OciProofs.v
ImageStore.v
Downloader.v
DownloaderProofs.v
PullSecrets.v
Provider.v
System.v
SystemProofs.v
Metrics.v
NodeCfg.v
Main.v
