(* ===== verification/Prelude.v ===== *)
(** * macOS-vz-kubelet: a verification development

    macOS-vz-kubelet is a virtual-kubelet provider: it runs each pod as one macOS
    virtual machine, and the pod's other containers as Docker sidecars, on an Apple
    Silicon host.  This library models its Go code, file by file, and proves what the
    parts promise to each other.

    ** The program and its layers

    virtual-kubelet calls the provider ([src/pkg/provider]).  The provider asks the API
    server for credentials and the client ([src/pkg/client]) for virtualization groups,
    one per pod.  The client has two resource managers ([src/pkg/resourcemanager]): the
    macOS one, which downloads an image ([src/pkg/downloader], [src/pkg/oci],
    [src/internal/disk]), takes one of two permits, starts a machine ([src/pkg/vm]) and
    talks to it over one SSH connection ([src/internal/sshconn], [src/internal/ssh]);
    and the Docker one.  Both keep their entries in concurrent maps
    ([src/internal/data]) that a creation, running in its own goroutine, shares with
    deletions and queries.

    ** How effects are modelled

    [Prog] is the common base.  A Go function with effects is a [prog E A], a tree of
    atomic operations: those on the component's own state act through [local], the
    others, calls into code that is not under [src/], are answered by an [oracle], a
    function of the operation and of the number of operations before it.  A theorem
    that holds for every oracle holds for every behaviour of that code, failures and
    changes over time included.  [run] executes one goroutine, [wp] and [twp] are its
    partial and total correctness, and the trace records every call with its answer.
    Interleavings are pools of programs ([pool_step]) that perform one operation at a
    time in any order, goroutines started on the way included; [sched] follows a given
    schedule and evaluates.  [Once] has the shared argument for what a [sync.Once]
    guards.  [Link] puts components together: it replaces a caller's operations by the
    programs that the component below runs for them, and carries over to the whole what
    the caller's theorems, which hold for every oracle, say of it.  What a theorem
    assumes of other code along a run is a handler that blocks where that code would
    break its contract ([traced_run_mono]).  Errors are trees ([GoErrors]), panics and
    blocked operations are explicit, integers wrap where Go's do ([wrap_i64] and its kin
    below).

    ** Files

    - [Prelude], [GoStrings], [GoErrors], [GoFormat], [GoFloat], [GoTime], [GoPath],
      [Sha256], [Json]: the parts of Go and of its standard library that the program
      uses, executable: quoting, integers and floats read from text, paths, JSON.
    - [Prog], [Link], [Once]: effects, handlers, the composition of components, pools.
    - [EnvCfg], [Utils], [NetUtil], [GuestCfg], [NodeIO], [Volumes]: the helper packages
      under [src/internal]: timeouts, command lines, addresses, the guest's host name and
      readiness probe, exec streams and sessions, mounts.
    - [Resource], [K8s], [Event], [ClientApi]: the values that the layers exchange.
    - [Stores]: [src/internal/data], the two concurrent maps, the nested one with the
      specification that it refines.
    - [Instance], [VmConfig]: [src/pkg/vm], its configurations and
      [src/internal/utils/clonefile.go].
    - [SshConn]: [src/internal/sshconn/connection.go].
    - [MacOS], [MacOSProofs], [Permits], [Overlap], [SshAuth], [VmStats]:
      [src/pkg/resourcemanager/macos*.go].
    - [DockerData], [Docker], [DockerProofs]: [src/pkg/resourcemanager/docker.go].
    - [Disk], [DiskFrame], [OciConfig], [Oci], [OciLocks], [OciProofs], [ImageStore],
      [Downloader], [DownloaderProofs], [Manager], [ManagerProofs]: [src/internal/disk],
      [src/pkg/oci], [src/pkg/downloader]; [DiskFrame] says what the operations on images leave alone,
      [OciLocks] how calls of the store overlap, [ImageStore] what the store keeps of the
      images it has recorded.
    - [Client], [ClientProofs]: [src/pkg/client/vz.go].
    - [PodStatus], [PullSecrets], [Provider], [NodeCfg]: [src/pkg/provider].
    - [System], [SystemProofs]: the client over its two managers, and the provider over
      the client: what [vz.go] calls in [macos.go] and [docker.go] runs here.
    - [Metrics]: [src/pkg/metrics].  [Main]: [src/cmd/virtual-kubelet].

    A definition that translates Go code is preceded by a comment with its file and its
    symbol.  Where Go's methods of one name meet, the Module tells them apart.

    ** What the theorems show

    - Virtual machines: the permits bound the number of live machines for any number of
      pods, each working on its own entry, but for the machines whose stop failed
      ([Permits.permits_sound]): a deletion gives the permit back whatever the framework
      answered, so these count no longer, and one of them is enough for a third live
      machine ([failed_stop_admits_third_machine]); a creation always ends, gives its
      permit back or leaves a running machine, and records its error
      ([creation_outcome]); the wait for SSH runs its probe until an answer decides
      ([readiness_wait]); a deletion stops what there is and forgets the entry
      ([delete_outcome]); starting an instance leaves no orphan ([Start_no_orphan]), and
      stopping it removes its files and names every failure ([Stop_complete]).  When a
      pod's deletion overlaps its creation, what is left behind
      ([deletion_during_setup], [deleted_machine_runs_on]) breaks the bound, as a run
      shows ([overlapping_delete_admits_third_machine]).
    - A machine from its image: it runs on clones, the image can only be changed through
      a writable mount that covers it, and its instance names exactly the clones that
      stopping removes ([machine_runs_on_clones]); its configuration has the devices that
      were asked for, and fails exactly when one of its parts does
      ([configuration_built]); the manager's operations are these constructors (the lemma
      [setupVM_implements]).
    - The SSH connection: an invariant of every interleaving (one client, one keepalive,
      no client leaked or used after a close: [connection_safe]), and a session request
      that dials a bounded number of times ([NewSession_bounded]); the methods it
      authenticates with ([ssh_auth_methods]).
    - Sidecars: every call that a creation makes, what it reports and the entry that it
      leaves ([docker_creation_outcome]), removal ([remove_containers_spec]) and listing
      ([containers_listed]), names that are parsed back, statistics within range (lemmas of
      [DockerData] and [DockerProofs]); and the entry that survives a removal ([creation_outlives_removal]).
    - Groups: creation of what is acceptable, for every container of the pod, with its
      cleanup ([client_create_outcome]), deletion with its
      table of errors ([client_delete_outcome]), one deletion for any number of callers
      ([group_deleted_once]); and how a rejected creation makes a group forgotten
      ([rejected_create_forgets_group]).
    - The parts together: every run of the client over the managers is a run of the
      client that its theorems cover (the lemma [system_refines_client]); a deletion, from the
      client down to the stores, leaves nothing of the pod and nothing else changed
      ([deleted_group_is_gone]), happens once however the steps of all components
      interleave ([group_dropped_once]), and precedes the pod's removal from Kubernetes
      ([deleted_pod_is_gone]).  A creation that fails after the machine was asked for
      leaves a machine that nobody can delete or create again
      ([failed_sidecar_orphans_machine], [orphan_is_stuck]).
    - Images: from the downloader down to the disk, what a successful download hands out
      carries the digests that the image announced, through retries, failed pushes and
      stale files ([downloaded_image]), provided that the contents of the image have
      titles of their own ([shared_title_replaces]); one download for any number of
      subscribers ([download_once]) and its two races; a subscriber that is told of a
      success has the configuration that the downloader answered for its own reference
      ([subscriber_given_its_image]), with the credentials of whoever came first
      ([joined_uses_first_credentials]); a title taken once, and no
      deadlock, however the store's calls overlap ([titles_taken_once]); decompression writes the bytes it
      checked ([decompress_faithful]); the store records a path only for vouched bytes
      ([push_vouches], [exists_vouches]); a configuration is read back as it was written
      ([config_read_back]); and the padding that nobody checks ([padded_image_accepted]).
    - Pods: when a pod is Ready, the coherence of its status, its start time
      ([PodStatus]); a deletion with pre-stop hooks ([handle_delete_outcome]), queries
      that do not take live groups away ([reads_keep_live_groups]), tokens that stay with
      their registries ([tokens_belong_to_entries]).
    - The node: what is registered, all of it answers of the host, and which step failed
      ([configure_node]); the options that the process
      passes to the library, whose order leaves the API without authentication
      ([started_node]); the metrics against a sequential reference ([summary_equiv]); what
      a guest reports about itself, as numbers within range ([stats_line_read]).
    - Helpers: the CPU model as the value of a label ([cpu_label_type]), the container store against an abstract map ([container_store_refines]),
      mounts, quoting and probe commands that a shell reads as intended, credentials.

    ** Bounds

    Recursion over strings uses their length as fuel, which suffices because each step
    consumes a byte.  Loops that wait (a poll, a ticker, a back-off, the reads of a
    stream) run a number of rounds that the oracle chooses, so that theorems hold for
    every number; where the code bounds the rounds (the back-off's steps) the model takes
    the minimum.  The goroutines of an errgroup run one after the other in an order that
    the oracle chooses.

    ** What is not modelled

    The parsing of the flags and the help texts (cobra), the bindings of
    Virtualization.framework behind their constructors, x/crypto/ssh, the Docker client,
    oras and the Kubernetes libraries (all operations that the oracle answers, or
    parameters with the laws the program relies on: [JsonText], [Errdefs], [Nodeutil]),
    spans and log entries, constructors that only fill a struct, mocks and tests.  The
    copy of an image makes its calls on the store one after the other in [Downloader]:
    that they may overlap is the subject of [OciLocks], for the titles only.  In
    [System] the goroutines of creations do not run, only the calls that start them: what
    they do is in [MacOSProofs], [Permits] and [DockerProofs].  A stream that hands out
    bytes together with its end is not one of [Disk]'s: the readers that the program uses
    do not.  Paths are compared as they are written, links are not followed.  In [Json] a
    number is read as an integer or kept as text, which is what the program's types need.
    Contexts are names: deadlines and cancellations appear as answers
    of the oracle.  Quantities of the API server are known by their integer value. *)
From Stdlib Require Import ZArith Lia.
From stdpp Require Export base list gmap strings.

(** ** Scopes and notations *)

Declare Scope go_scope.
Delimit Scope go_scope with go.

(** ** Machine integers

    Go's [uint], [uint64] and [int64] are 64 bits wide on darwin/arm64, the only
    platform the binary is built for.  A value is a [Z]; a conversion wraps. *)

Definition wrap_u64 (z : Z) : Z := z mod 2 ^ 64.
Definition wrap_u32 (z : Z) : Z := z mod 2 ^ 32.

Definition wrap_i64 (z : Z) : Z := (z + 2 ^ 63) mod 2 ^ 64 - 2 ^ 63.
Definition wrap_i32 (z : Z) : Z := (z + 2 ^ 31) mod 2 ^ 32 - 2 ^ 31.

Definition is_u64 (z : Z) : Prop := (0 <= z < 2 ^ 64)%Z.
Definition is_i64 (z : Z) : Prop := (- 2 ^ 63 <= z < 2 ^ 63)%Z.

Create HintDb go.

Lemma wrap_u64_range z : is_u64 (wrap_u64 z).
Proof. unfold is_u64, wrap_u64. apply Z.mod_pos_bound. lia. Qed.

Lemma wrap_u64_id z : is_u64 z -> wrap_u64 z = z.
Proof. intros H. unfold wrap_u64. apply Z.mod_small. exact H. Qed.

Lemma wrap_i64_range z : is_i64 (wrap_i64 z).
Proof.
  unfold is_i64, wrap_i64.
  pose proof (Z.mod_pos_bound (z + 2 ^ 63) (2 ^ 64) ltac:(lia)). lia.
Qed.

Lemma wrap_i64_id z : is_i64 z -> wrap_i64 z = z.
Proof.
  unfold is_i64, wrap_i64. intros H. rewrite Z.mod_small by lia. lia.
Qed.

#[export] Hint Resolve wrap_u64_range wrap_i64_range : go.

(** ** Options and lists *)

Definition is_some {A} (o : option A) : bool := match o with Some _ => true | None => false end.

Lemma is_some_true {A} (o : option A) : is_some o = true <-> is_Some o.
Proof. destruct o; simpl; split; intros H; eauto; [done | by destruct H]. Qed.

(** [range] loops that stop at the first hit. *)
Definition find_first {A} (f : A -> bool) : list A -> option A :=
  fix go l := match l with [] => None | x :: l => if f x then Some x else go l end.

Lemma find_first_Some {A} (f : A -> bool) l x :
  find_first f l = Some x -> x ∈ l /\ f x = true.
Proof.
  induction l as [|y l IH]; simpl; [done|].
  destruct (f y) eqn:E.
  - intros [= <-]. split; [left | done].
  - intros H. destruct (IH H). split; [by right | done].
Qed.

Lemma find_first_None {A} (f : A -> bool) l :
  find_first f l = None <-> forall x, x ∈ l -> f x = false.
Proof.
  induction l as [|y l IH]; simpl.
  - split; [|done]. intros _ x Hx. by apply not_elem_of_nil in Hx.
  - destruct (f y) eqn:E; split.
    + done.
    + intros H. rewrite (H y) in E; [done | left].
    + intros H x [->|Hx]%elem_of_cons; [done | by apply IH].
    + intros H. apply IH. intros x Hx. apply H. by right.
Qed.

(** What a list holds after one element was replaced: the threads of a pool, one of
    which has made a step. *)
Lemma lookup_upd {A} (l : list A) i x' j y :
  <[i := x']> l !! j = Some y -> (j = i /\ y = x') \/ (j <> i /\ l !! j = Some y).
Proof. intros Hj. apply list_lookup_insert_Some in Hj as [(-> & -> & _) | [Hne Hj]]; [by left | by right; split; [congruence|]]. Qed.

(** Every element of a list before the first hit fails the test. *)
Lemma find_first_split {A} (f : A -> bool) l x :
  find_first f l = Some x ->
  exists l1 l2, l = l1 ++ x :: l2 /\ f x = true /\ forall y, y ∈ l1 -> f y = false.
Proof.
  induction l as [|y l IH]; simpl; [done|].
  destruct (f y) eqn:E.
  - intros [= <-]. exists [], l. split_and!; [done | done |].
    intros z Hz. by apply not_elem_of_nil in Hz.
  - intros H. destruct (IH H) as (l1 & l2 & -> & Hx & Hl1).
    exists (y :: l1), l2. split_and!; [done | done |].
    intros z [->|Hz]%elem_of_cons; [done | by apply Hl1].
Qed.

(** ** Tactics *)

(** Split every [match] and [if] of the goal and hypotheses, then simplify. *)
Ltac case_all :=
  repeat (case_match; simplify_eq/=; try done).

(** Close a goal about booleans that come from arithmetic tests. *)
Ltac bool_lia :=
  repeat match goal with
  | H : (_ =? _)%Z = true |- _ => apply Z.eqb_eq in H
  | H : (_ =? _)%Z = false |- _ => apply Z.eqb_neq in H
  | H : (_ <? _)%Z = true |- _ => apply Z.ltb_lt in H
  | H : (_ <? _)%Z = false |- _ => apply Z.ltb_ge in H
  | H : (_ <=? _)%Z = true |- _ => apply Z.leb_le in H
  | H : (_ <=? _)%Z = false |- _ => apply Z.leb_gt in H
  | H : (_ =? _)%nat = true |- _ => apply Nat.eqb_eq in H
  | H : (_ =? _)%nat = false |- _ => apply Nat.eqb_neq in H
  | H : (_ <? _)%nat = true |- _ => apply Nat.ltb_lt in H
  | H : (_ <? _)%nat = false |- _ => apply Nat.ltb_ge in H
  end; lia.
