(* ===== verification/GoStrings.v ===== *)
(** * The parts of Go's string library the program uses

    Go strings are byte sequences; here a byte is an [ascii] and a string is
    Stdlib's [string].  The functions follow [strings], [strconv], [unicode/utf8]
    and [encoding/hex] on the arguments the program passes (single-byte
    separators, ASCII cut sets). *)
From Stdlib Require Import ZArith Lia.
From Stdlib Require Import Ascii String.
From stdpp Require Import base list strings.
From S2P Require Import Prelude.
Local Open Scope string_scope.

Module Str.

Definition nl : ascii := "010"%char.
Definition dquote : ascii := "034"%char.
Definition dquote_s : string := String dquote EmptyString.
Definition newline : string := String nl EmptyString.

Definition byte (c : ascii) : Z := Z.of_N (N_of_ascii c).
Definition chr (z : Z) : ascii := ascii_of_N (Z.to_N z).

(** ** Character classes (ASCII) *)

Definition in_range (lo hi : ascii) (c : ascii) : bool :=
  (byte lo <=? byte c)%Z && (byte c <=? byte hi)%Z.
Definition is_upper := in_range "A" "Z".
Definition is_lower := in_range "a" "z".
Definition is_digit := in_range "0" "9".
Definition is_alnum (c : ascii) : bool := is_upper c || is_lower c || is_digit c.

Definition to_lower1 (c : ascii) : ascii := if is_upper c then chr (byte c + 32) else c.
Definition to_upper1 (c : ascii) : ascii := if is_lower c then chr (byte c - 32) else c.

Fixpoint map_str (f : ascii -> ascii) (s : string) : string :=
  match s with EmptyString => EmptyString | String c s => String (f c) (map_str f s) end.

Definition to_lower := map_str to_lower1.
Definition to_upper := map_str to_upper1.

Fixpoint all_chars (f : ascii -> bool) (s : string) : bool :=
  match s with EmptyString => true | String c s => f c && all_chars f s end.

Fixpoint count_char (c : ascii) (s : string) : nat :=
  match s with
  | EmptyString => 0
  | String d s => (if Ascii.eqb c d then 1 else 0) + count_char c s
  end.

(** ** Prefixes, substrings *)

Fixpoint has_prefix (p s : string) : bool :=
  match p, s with
  | EmptyString, _ => true
  | String a p, String b s => Ascii.eqb a b && has_prefix p s
  | _, _ => false
  end.

Fixpoint drop (n : nat) (s : string) : string :=
  match n, s with
  | O, _ => s
  | S n, String _ s => drop n s
  | S _, EmptyString => EmptyString
  end.

Fixpoint take (n : nat) (s : string) : string :=
  match n, s with
  | O, _ => EmptyString
  | S n, String c s => String c (take n s)
  | S _, EmptyString => EmptyString
  end.

(** [strings.TrimPrefix] *)
Definition trim_prefix (s p : string) : string :=
  if has_prefix p s then drop (String.length p) s else s.

(** [strings.Contains] *)
Fixpoint contains (s sub : string) : bool :=
  has_prefix sub s || match s with EmptyString => false | String _ s => contains s sub end.

(** ** Split and join *)

(** [strings.Split] with a one-byte separator: never empty. *)
Fixpoint split (sep : ascii) (s : string) : list string :=
  match s with
  | EmptyString => [EmptyString]
  | String c s' =>
      if Ascii.eqb c sep then EmptyString :: split sep s'
      else match split sep s' with
           | [] => [String c EmptyString]
           | p :: ps => String c p :: ps
           end
  end.

(** The text before the first separator and, if there is one, what follows it. *)
Fixpoint cut (sep : ascii) (s : string) : string * option string :=
  match s with
  | EmptyString => (EmptyString, None)
  | String c s' =>
      if Ascii.eqb c sep then (EmptyString, Some s')
      else let '(a, b) := cut sep s' in (String c a, b)
  end.

(** [strings.SplitN] with a one-byte separator and a positive count. *)
Fixpoint splitN (sep : ascii) (s : string) (n : nat) : list string :=
  match n with
  | O => []
  | S O => [s]
  | S n' =>
      match cut sep s with
      | (a, None) => [a]
      | (a, Some b) => a :: splitN sep b n'
      end
  end.

(** [strings.Join] *)
Fixpoint join (sep : string) (l : list string) : string :=
  match l with
  | [] => EmptyString
  | [s] => s
  | s :: l => s ++ sep ++ join sep l
  end.

(** ** Trimming *)

Fixpoint trim_left (f : ascii -> bool) (s : string) : string :=
  match s with
  | String c s' => if f c then trim_left f s' else s
  | EmptyString => EmptyString
  end.

Fixpoint trim_right (f : ascii -> bool) (s : string) : string :=
  match s with
  | EmptyString => EmptyString
  | String c s' =>
      match trim_right f s' with
      | EmptyString => if f c then EmptyString else String c EmptyString
      | r => String c r
      end
  end.

Definition trim (f : ascii -> bool) (s : string) : string := trim_right f (trim_left f s).

Definition in_set (cs : string) (c : ascii) : bool := Nat.ltb 0 (count_char c cs).

(** [strings.Trim] with an ASCII cut set. *)
Definition trim_cutset (s cs : string) : string := trim (in_set cs) s.

(** ** UTF-8 decoding, as [range] over a string does it: each step yields a code
    point and its bytes; an invalid byte yields [None] and is one byte wide. *)

Definition cont (c : ascii) : bool := (128 <=? byte c)%Z && (byte c <=? 191)%Z.
Definition between (lo hi : Z) (c : ascii) : bool := (lo <=? byte c)%Z && (byte c <=? hi)%Z.

(** The accepted range of the second byte, by leading byte ([utf8.acceptRanges]). *)
Definition second_ok (b0 : Z) (c1 : ascii) : bool :=
  if (b0 =? 224)%Z then between 160 191 c1
  else if (b0 =? 237)%Z then between 128 159 c1
  else if (b0 =? 240)%Z then between 144 191 c1
  else if (b0 =? 244)%Z then between 128 143 c1
  else cont c1.

Definition bits6 (c : ascii) : Z := Z.land (byte c) 63.

(** The code point that starts the string and how many bytes it takes. *)
Definition decode_rune (s : string) : option Z * nat :=
  match s with
  | EmptyString => (None, 0)
  | String c0 s0 =>
      let b0 := byte c0 in
      if (b0 <? 128)%Z then (Some b0, 1)
      else if (b0 <? 194)%Z then (None, 1)
      else if (b0 <? 224)%Z then
        match s0 with
        | String c1 _ =>
            if cont c1 then (Some (Z.lor (Z.shiftl (Z.land b0 31) 6) (bits6 c1)), 2) else (None, 1)
        | _ => (None, 1)
        end
      else if (b0 <? 240)%Z then
        match s0 with
        | String c1 (String c2 _) =>
            if second_ok b0 c1 && cont c2
            then (Some (Z.lor (Z.shiftl (Z.land b0 15) 12)
                          (Z.lor (Z.shiftl (bits6 c1) 6) (bits6 c2))), 3)
            else (None, 1)
        | _ => (None, 1)
        end
      else if (b0 <? 245)%Z then
        match s0 with
        | String c1 (String c2 (String c3 _)) =>
            if second_ok b0 c1 && cont c2 && cont c3
            then (Some (Z.lor (Z.shiftl (Z.land b0 7) 18)
                          (Z.lor (Z.shiftl (bits6 c1) 12)
                             (Z.lor (Z.shiftl (bits6 c2) 6) (bits6 c3)))), 4)
            else (None, 1)
        | _ => (None, 1)
        end
      else (None, 1)
  end.

(** The runes of a string; [fuel] is its length, since every rune takes a byte. *)
Fixpoint runes_fuel (fuel : nat) (s : string) : list (option Z * string) :=
  match fuel with
  | O => []
  | S fuel =>
      match s with
      | EmptyString => []
      | _ => let '(r, n) := decode_rune s in (r, take n s) :: runes_fuel fuel (drop n s)
      end
  end.

Definition runes (s : string) : list (option Z * string) := runes_fuel (String.length s) s.

(** [unicode.IsSpace] *)
Definition is_space_rune (r : option Z) : bool :=
  match r with
  | None => false
  | Some z =>
      ((9 <=? z) && (z <=? 13)) || (z =? 32) || (z =? 133) || (z =? 160) || (z =? 5760)
      || ((8192 <=? z) && (z <=? 8202)) || (z =? 8232) || (z =? 8233) || (z =? 8239)
      || (z =? 8287) || (z =? 12288)
  end%Z.

Fixpoint drop_spaces (l : list (option Z * string)) : list (option Z * string) :=
  match l with
  | (r, b) :: l' => if is_space_rune r then drop_spaces l' else l
  | [] => []
  end.

(** [strings.TrimSpace] *)
Definition trim_space (s : string) : string :=
  String.concat "" (map snd (rev (drop_spaces (rev (drop_spaces (runes s)))))).

Fixpoint fields_from (cur : string) (l : list (option Z * string)) : list string :=
  match l with
  | [] => match cur with EmptyString => [] | _ => [cur] end
  | (r, b) :: l =>
      if is_space_rune r
      then match cur with EmptyString => fields_from EmptyString l | _ => cur :: fields_from EmptyString l end
      else fields_from (cur ++ b) l
  end.

(** [strings.Fields] *)
Definition fields (s : string) : list string := fields_from EmptyString (runes s).

(** ** Numbers *)

Definition digit (z : Z) : ascii := chr (48 + z).

Fixpoint itoa_pos (fuel : nat) (z : Z) (acc : string) : string :=
  match fuel with
  | O => acc
  | S fuel =>
      let acc := String (digit (z mod 10)) acc in
      if (z <? 10)%Z then acc else itoa_pos fuel (z / 10) acc
  end.

(** [strconv.Itoa]; twenty digits are enough for 64-bit integers. *)
Definition itoa (z : Z) : string :=
  if (z <? 0)%Z then String "-" (itoa_pos 20 (- z) EmptyString) else itoa_pos 20 z EmptyString.

(** ** Hexadecimal *)

Definition hex_digit (z : Z) : ascii := if (z <? 10)%Z then chr (48 + z) else chr (87 + z).

Definition hex_byte (z : Z) : string :=
  String (hex_digit (Z.shiftr z 4)) (String (hex_digit (Z.land z 15)) EmptyString).

(** [hex.EncodeToString] of a byte slice *)
Fixpoint hex (bs : list Z) : string :=
  match bs with [] => EmptyString | b :: bs => hex_byte b ++ hex bs end.

(** The bytes of a string: Go's [\[\]byte(s)]. *)
Fixpoint bytes (s : string) : list Z :=
  match s with EmptyString => [] | String c s => byte c :: bytes s end.

Fixpoint of_bytes (bs : list Z) : string :=
  match bs with [] => EmptyString | b :: bs => String (chr b) (of_bytes bs) end.

(** ** Lemmas *)

Lemma app_cons c (a b : string) : String c a ++ b = String c (a ++ b).
Proof. done. Qed.

Lemma length_app (a b : string) : String.length (a ++ b) = (String.length a + String.length b)%nat.
Proof. induction a as [|c a IH]; rewrite ?app_cons; simpl; [done | by rewrite IH]. Qed.

Lemma app_nil_r (a : string) : a ++ EmptyString = a.
Proof. induction a as [|c a IH]; rewrite ?app_cons; simpl; [done | by rewrite IH]. Qed.

Lemma app_assoc (a b c : string) : a ++ (b ++ c) = (a ++ b) ++ c.
Proof. induction a as [|x a IH]; rewrite ?app_cons; simpl; [done | by rewrite IH]. Qed.

Lemma app_inj_l (a b c : string) : a ++ c = b ++ c -> a = b.
Proof.
  revert b. induction a as [|x a IH]; intros [|y b]; simpl; intros Heq; [done|..].
  - apply (f_equal String.length) in Heq. rewrite !length_app in Heq. simpl in Heq. lia.
  - apply (f_equal String.length) in Heq. rewrite !length_app in Heq. simpl in Heq. lia.
  - rewrite !app_cons in Heq. injection Heq as -> Heq. f_equal. by apply IH.
Qed.

Lemma all_chars_app f (a b : string) : all_chars f (a ++ b) = all_chars f a && all_chars f b.
Proof. induction a as [|c a IH]; rewrite ?app_cons; simpl; [done | by rewrite IH, andb_assoc]. Qed.

Lemma all_chars_impl (f g : ascii -> bool) (s : string) :
  (forall c, f c = true -> g c = true) -> all_chars f s = true -> all_chars g s = true.
Proof.
  intros H. induction s as [|c s IH]; simpl; [done|].
  rewrite !andb_true_iff. intros [Hc Hs]. auto.
Qed.

Lemma count_char_app c (a b : string) : count_char c (a ++ b) = (count_char c a + count_char c b)%nat.
Proof. induction a as [|d a IH]; rewrite ?app_cons; simpl; [done | rewrite IH; lia]. Qed.

Lemma has_prefix_app (p s : string) : has_prefix p (p ++ s) = true.
Proof. induction p as [|c p IH]; rewrite ?app_cons; simpl; [done | by rewrite Ascii.eqb_refl]. Qed.

Lemma has_prefix_spec (p s : string) : has_prefix p s = true <-> exists r, s = (p ++ r)%string.
Proof.
  split; [|intros (r & ->); apply has_prefix_app].
  revert s. induction p as [|a p IH]; intros s; [by exists s|]. destruct s as [|b s]; [done|].
  cbn [has_prefix]. intros [E H]%andb_true_iff. apply Ascii.eqb_eq in E as ->. apply IH in H as (r & ->). by exists r.
Qed.

Lemma contains_spec (s sub : string) : contains s sub = true <-> exists l r, s = (l ++ sub ++ r)%string.
Proof.
  split.
  - induction s as [|a s IH]; cbn [contains]; intros [H|H]%orb_true_iff.
    + apply has_prefix_spec in H as (r & ->). by exists ""%string, r.
    + done.
    + apply has_prefix_spec in H as (r & ->). by exists ""%string, r.
    + apply IH in H as (l & r & ->). by exists (String a l), r.
  - intros (l & r & ->). induction l as [|a l IH].
    + change (contains (sub ++ r)%string sub = true). pose proof (has_prefix_app sub r) as H.
      destruct (sub ++ r)%string; cbn [contains]; by rewrite H.
    + rewrite app_cons. cbn [contains]. by rewrite IH, orb_true_r.
Qed.

Lemma drop_app (p s : string) : drop (String.length p) (p ++ s) = s.
Proof. by induction p. Qed.

Lemma length_drop_le n (s : string) : (String.length (drop n s) <= String.length s)%nat.
Proof. revert s. induction n as [|n IH]; intros [|c s]; simpl; try lia. specialize (IH s). lia. Qed.

Lemma trim_prefix_app (p s : string) : trim_prefix (p ++ s) p = s.
Proof. unfold trim_prefix. by rewrite has_prefix_app, drop_app. Qed.

(** A piece without the separator is cut off whole. *)
Lemma cut_app sep (a b : string) :
  count_char sep a = 0%nat -> cut sep (a ++ String sep b) = (a, Some b).
Proof.
  induction a as [|c a IH]; rewrite ?app_cons; simpl.
  - by rewrite Ascii.eqb_refl.
  - rewrite Ascii.eqb_sym. destruct (Ascii.eqb c sep) eqn:E; simpl; [lia|].
    intros H. rewrite IH by lia. done.
Qed.

Lemma cut_none sep (a : string) : count_char sep a = 0%nat -> cut sep a = (a, None).
Proof.
  induction a as [|c a IH]; rewrite ?app_cons; simpl; [done|].
  rewrite Ascii.eqb_sym. destruct (Ascii.eqb c sep) eqn:E; simpl; [lia|].
  intros H. by rewrite IH by lia.
Qed.

(** Splitting undoes joining when no piece holds the separator. *)
Lemma split_none sep (a : string) : count_char sep a = 0%nat -> split sep a = [a].
Proof.
  induction a as [|c a IH]; simpl; [done|].
  rewrite Ascii.eqb_sym. destruct (Ascii.eqb c sep); simpl; [lia|].
  intros H. by rewrite IH.
Qed.

Lemma split_app sep (a b : string) :
  count_char sep a = 0%nat -> split sep (a ++ String sep b) = a :: split sep b.
Proof.
  induction a as [|c a IH]; rewrite ?app_cons; simpl.
  - by rewrite Ascii.eqb_refl.
  - rewrite Ascii.eqb_sym. destruct (Ascii.eqb c sep) eqn:E; simpl; [lia|].
    intros H. by rewrite IH by lia.
Qed.

Lemma split_join sep (l : list string) :
  l <> [] -> Forall (fun a => count_char sep a = 0%nat) l ->
  split sep (join (String sep EmptyString) l) = l.
Proof.
  induction l as [|a l IH]; [done|]. intros _ H. inversion_clear H as [|? ? Ha Hl].
  destruct l as [|b l]; [by apply split_none|].
  cbn [join]. rewrite app_cons. rewrite split_app by done.
  f_equal. by apply IH.
Qed.

Lemma length_hex bs : String.length (hex bs) = (2 * List.length bs)%nat.
Proof. induction bs as [|b bs IH]; [done|]. cbn [hex]. rewrite length_app, IH. simpl. lia. Qed.

Lemma length_take n (s : string) : (n <= String.length s)%nat -> String.length (take n s) = n.
Proof. revert s. induction n; intros [|c s]; simpl; intros H; try lia. by rewrite IHn by lia. Qed.

Lemma all_chars_take f n (s : string) : all_chars f s = true -> all_chars f (take n s) = true.
Proof.
  revert s. induction n; intros [|c s]; simpl; try done.
  rewrite !andb_true_iff. intros [? ?]. auto.
Qed.

(** A property of every byte can be checked by running through the 256 of them. *)
Lemma ascii_forall (P : ascii -> bool) :
  forallb (fun n => P (ascii_of_nat n)) (seq 0 256) = true -> forall c, P c = true.
Proof.
  intros H c. rewrite forallb_forall in H.
  rewrite <- (ascii_nat_embedding c). apply H, in_seq.
  pose proof (nat_ascii_bounded c). lia.
Qed.

End Str.

(** Decide a statement about one arbitrary byte by evaluating it on all of them. *)
Ltac by_bytes :=
  match goal with
  | |- forall c, ?P = true => apply (Str.ascii_forall (fun c => P)); vm_compute; reflexivity
  end.
