(* ===== verification/GoErrors.v ===== *)
(** * Go error values

    An error is a tree: a leaf made by [errors.New], a [%w] wrapper, an
    [errors.Join] node, one of the [context] sentinels, an error that an exit
    status comes with, or a value that code outside the repository returned
    (known only by an identity and a message).  [option error] is Go's [error]
    with [None] for [nil].

    The predicates of virtual-kubelet's [errdefs] are not code of this
    repository: they are the operations of the class [Errdefs], and the laws the
    program relies on are the class [ErrdefsLaws]. *)
From Stdlib Require Import ZArith.
From Stdlib Require Import List String.
From stdpp Require Import base list strings.
From S2P Require Import Prelude GoStrings.
Local Open Scope string_scope.

#[warnings="-register-all"]
Inductive error : Type :=
| errMsg (msg : string)                    (* errors.New, fmt.Errorf without %w *)
| errWrap (prefix : string) (e : error)    (* fmt.Errorf("prefix: %w", e) *)
| errJoin (es : list error)                (* errors.Join *)
| errCanceled                              (* context.Canceled *)
| errDeadline                              (* context.DeadlineExceeded *)
| errNotFound (msg : string)               (* errdefs.NotFound *)
| errInvalidInput (e : error)              (* errdefs.InvalidInput, errdefs.AsInvalidInput *)
| errExitStatus (code : Z) (msg : string)  (* a value with an ExitStatus method, such as ssh.ExitError *)
| errCodeExit (e : error) (code : Z)       (* utilexec.CodeExitError{Err: e, Code: code} *)
| errOpenChannel (msg : string)            (* ssh.OpenChannelError *)
| errExternal (id : Z) (msg : string).     (* anything else returned by other code *)

Fixpoint error_eq_dec (x y : error) {struct x} : {x = y} + {x <> y}.
Proof.
  decide equality; try apply String.string_dec; try apply Z.eq_dec.
  apply (List.list_eq_dec error_eq_dec).
Defined.

#[export] Instance error_eq_decision : EqDecision error := error_eq_dec.

Definition errNew (msg : string) : error := errMsg msg.
Definition InvalidInput (msg : string) : error := errInvalidInput (errMsg msg).
Definition AsInvalidInput (e : error) : error := errInvalidInput e.

(** The text of [err.Error()]. *)
Fixpoint Error (e : error) : string :=
  match e with
  | errMsg m => m
  | errWrap p e => p ++ ": " ++ Error e
  | errJoin es => Str.join Str.newline (map Error es)
  | errCanceled => "context canceled"
  | errDeadline => "context deadline exceeded"
  | errNotFound m => m
  | errInvalidInput e => Error e
  | errExitStatus _ m => m
  | errCodeExit e _ => Error e
  | errOpenChannel m => m
  | errExternal _ m => m
  end.

(** The immediate children that [errors.Is] and [errors.As] follow: [%w] and
    [Join] only.  The [errdefs] wrappers have a [Cause] method and no [Unwrap]. *)
Fixpoint errors_Is (e target : error) : bool :=
  bool_decide (e = target) ||
  match e with
  | errWrap _ e => errors_Is e target
  | errJoin es => existsb (fun e => errors_Is e target) es
  | _ => false
  end.

(** [errors.Is] on a possibly nil error. *)
Definition isErr (o : option error) (target : error) : bool :=
  match o with Some e => errors_Is e target | None => false end.

(** [errors.Join]: nil arguments are dropped, and nothing left is nil. *)
Definition errors_Join (es : list (option error)) : option error :=
  match omap id es with [] => None | es => Some (errJoin es) end.

(** [fmt.Errorf("prefix: %w", e)] on a non-nil error. *)
Definition Errorf (prefix : string) (e : error) : error := errWrap prefix e.

Class Errdefs : Type := {
  isNotFoundErr : error -> bool;
  isInvalidInputErr : error -> bool;
}.

(** What the program relies on of [errdefs]: the constructors are recognised, the
    [Cause] chain is walked, a [%w] wrapper or a [Join] is not looked through, and
    the two kinds are disjoint. *)
Class ErrdefsLaws {ED : Errdefs} : Prop := {
  NotFound_is m : isNotFoundErr (errNotFound m) = true;
  NotFound_not_invalid m : isInvalidInputErr (errNotFound m) = false;
  InvalidInput_is e : isInvalidInputErr (errInvalidInput e) = true;
  InvalidInput_msg_not_found m : isNotFoundErr (errInvalidInput (errMsg m)) = false;
  wrap_not_found p e : isNotFoundErr (errWrap p e) = false;
  wrap_not_invalid p e : isInvalidInputErr (errWrap p e) = false;
  join_not_found es : isNotFoundErr (errJoin es) = false;
  join_not_invalid es : isInvalidInputErr (errJoin es) = false;
  ctx_not_found : isNotFoundErr errCanceled = false /\ isNotFoundErr errDeadline = false;
  ctx_not_invalid : isInvalidInputErr errCanceled = false /\ isInvalidInputErr errDeadline = false;
}.

Definition IsNotFound `{Errdefs} (o : option error) : bool :=
  match o with Some e => isNotFoundErr e | None => false end.

Definition IsInvalidInput `{Errdefs} (o : option error) : bool :=
  match o with Some e => isInvalidInputErr e | None => false end.

(** A concrete reading of [errdefs], for the witnesses. *)
Fixpoint cause_not_found (e : error) : bool :=
  match e with errNotFound _ => true | errInvalidInput e => cause_not_found e | _ => false end.

Definition cause_invalid (e : error) : bool :=
  match e with errInvalidInput _ => true | _ => false end.

Definition errdefs_model : Errdefs :=
  {| isNotFoundErr := cause_not_found; isInvalidInputErr := cause_invalid |}.

Lemma errdefs_model_laws : @ErrdefsLaws errdefs_model.
Proof. by split. Qed.

Create HintDb errs.

Lemma errors_Is_refl e : errors_Is e e = true.
Proof.
  assert (bool_decide (e = e) = true) as H by by apply bool_decide_eq_true_2.
  destruct e; cbn [errors_Is]; by rewrite H.
Qed.

Lemma errors_Is_wrap p e t : errors_Is e t = true -> errors_Is (errWrap p e) t = true.
Proof. cbn [errors_Is]. intros ->. by rewrite orb_true_r. Qed.

Lemma errors_Is_join es e t :
  e ∈ es -> errors_Is e t = true -> errors_Is (errJoin es) t = true.
Proof.
  intros Hin He. cbn [errors_Is]. rewrite orb_true_iff. right. apply existsb_exists.
  exists e. split; [by apply list_elem_of_In | done].
Qed.

Lemma isErr_refl e : isErr (Some e) e = true.
Proof. apply errors_Is_refl. Qed.

#[export] Hint Resolve errors_Is_refl errors_Is_wrap errors_Is_join isErr_refl : errs.

(** An error that [IsInvalidInput] recognises is not a context's end in disguise. *)
Lemma invalid_not_deadline `{ErrdefsLaws} e :
  isInvalidInputErr e = true -> errors_Is e errDeadline = false.
Proof.
  intros Hi. destruct e; cbn [errors_Is]; try (rewrite bool_decide_eq_false_2 by done; done).
  - by rewrite wrap_not_invalid in Hi.
  - by rewrite join_not_invalid in Hi.
  - by rewrite (proj2 ctx_not_invalid) in Hi.
Qed.

Lemma errors_Join_None es : errors_Join es = None <-> forall o, o ∈ es -> o = None.
Proof.
  unfold errors_Join. split.
  - intros H o Ho. destruct o as [e|]; [|done].
    destruct (omap id es) as [|x l] eqn:E; [|done].
    assert (e ∈ omap id es) as Hin by (apply list_elem_of_omap; by exists (Some e)).
    rewrite E in Hin. by apply not_elem_of_nil in Hin.
  - intros H. destruct (omap id es) as [|x l] eqn:E; [done|].
    assert (x ∈ omap id es) as Hin by (rewrite E; left).
    apply list_elem_of_omap in Hin as (o & Ho & Hx).
    rewrite (H o Ho) in Hx. done.
Qed.

Lemma errors_Join_Is es e t :
  Some e ∈ es -> errors_Is e t = true -> isErr (errors_Join es) t = true.
Proof.
  intros Hin He. unfold errors_Join.
  assert (e ∈ omap id es) as H by (apply list_elem_of_omap; by exists (Some e)).
  destruct (omap id es) as [|x l] eqn:E.
  - by apply not_elem_of_nil in H.
  - exact (errors_Is_join (x :: l) e t H He).
Qed.
