(* ===== verification/Prog.v ===== *)
(** * Effectful code as trees of atomic effects

    A Go function with effects is a [prog]: a tree whose nodes are the atomic
    operations it performs (an [xsync.Map] operation, a channel operation, a call
    into another package) and whose branches are the answers.  A handler gives
    each operation its meaning on a state; [None] means that the operation blocks.

    [run] executes one program alone.  A pool of programs is executed one
    operation at a time, in any order ([pool_step]); [sched] follows a given
    schedule and can be evaluated. *)
From stdpp Require Import base list relations.
From S2P Require Import Prelude.

Inductive prog (E : Type -> Type) (A : Type) : Type :=
| Ret (a : A)
| Do {X : Type} (e : E X) (k : X -> prog E A).

Arguments Ret {E A} a.
Arguments Do {E A X} e k.

Fixpoint bind {E A B} (p : prog E A) (f : A -> prog E B) : prog E B :=
  match p with
  | Ret a => f a
  | Do e k => Do e (fun x => bind (k x) f)
  end.

Definition perform {E X} (e : E X) : prog E X := Do e Ret.

Notation "x <- c ;; k" := (bind c (fun x => k))
  (at level 100, c at next level, right associativity) : go_scope.
Notation "c1 ;; c2" := (bind c1 (fun _ => c2))
  (at level 100, right associativity) : go_scope.

(** [for _, x := range l { f x }] *)
Fixpoint forM {E A} (l : list A) (f : A -> prog E unit) : prog E unit :=
  match l with
  | [] => Ret tt
  | x :: l => bind (f x) (fun _ => forM l f)
  end.

(** A program over one set of operations, seen as one over a larger set. *)
Fixpoint lift {E F : Type -> Type} (f : forall X, E X -> F X) {A} (p : prog E A) : prog F A :=
  match p with
  | Ret a => Ret a
  | Do e k => Do (f _ e) (fun x => lift f (k x))
  end.

(** A loop that threads an accumulator. *)
Fixpoint foldM {E A B} (f : B -> A -> prog E B) (l : list A) (b : B) : prog E B :=
  match l with
  | [] => Ret b
  | x :: l => bind (f b x) (fun b => foldM f l b)
  end.

(** A loop that stops at the first error. *)
Fixpoint foldR {E A B R} (f : B -> A -> prog E (R + B)) (l : list A) (b : B) : prog E (R + B) :=
  match l with
  | [] => Ret (inr b)
  | x :: l => bind (f b x) (fun r => match r with inl e => Ret (inl e) | inr b => foldR f l b end)
  end.

(** Every operation the program can perform, whatever the answers, satisfies [P]. *)
Fixpoint all_ops {E A} (P : forall X, E X -> Prop) (p : prog E A) : Prop :=
  match p with
  | Ret _ => True
  | Do e k => P _ e /\ forall x, all_ops P (k x)
  end.

Lemma all_ops_bind {E A B} P (p : prog E A) (f : A -> prog E B) :
  all_ops P p -> (forall a, all_ops P (f a)) -> all_ops P (bind p f).
Proof. induction p as [a|X e k IH]; simpl; [auto|]. intros [He Hk] Hf. split; auto. Qed.

Lemma all_ops_perform {E X} (P : forall X, E X -> Prop) (e : E X) : P _ e -> all_ops P (perform e).
Proof. split; [done | by intros]. Qed.

Lemma all_ops_mono {E A} (P Q : forall X, E X -> Prop) (p : prog E A) :
  (forall X (e : E X), P X e -> Q X e) -> all_ops P p -> all_ops Q p.
Proof. intros H. induction p as [a|X e k IH]; simpl; [auto|]. intros [He Hk]. split; auto. Qed.

Lemma all_ops_any {E A} (P : forall X, E X -> Prop) (p : prog E A) : (forall X e, P X e) -> all_ops P p.
Proof. intros H. induction p as [a|X e k IH]; simpl; auto. Qed.

(** Every result the program can return, whatever the answers, satisfies [P]. *)
Fixpoint all_results {E A} (P : A -> Prop) (p : prog E A) : Prop :=
  match p with
  | Ret a => P a
  | Do e k => forall x, all_results P (k x)
  end.

Lemma all_results_bind {E A B} (P : A -> Prop) (Q : B -> Prop) (p : prog E A) (f : A -> prog E B) :
  all_results P p -> (forall a, P a -> all_results Q (f a)) -> all_results Q (bind p f).
Proof. induction p as [a|X e k IH]; simpl; auto. Qed.

Lemma all_results_and {E A} (P Q R : A -> Prop) (p : prog E A) :
  all_results P p -> all_results Q p -> (forall a, P a -> Q a -> R a) -> all_results R p.
Proof. induction p as [a|X e k IH]; simpl; auto. Qed.

Lemma all_results_lift {E F} (f : forall X, E X -> F X) {A} P (p : prog E A) :
  all_results P p -> all_results P (lift f p).
Proof. induction p as [a|X e k IH]; simpl; auto. Qed.

Lemma all_ops_lift {E F} (f : forall X, E X -> F X) {A} (P : forall X, F X -> Prop) (p : prog E A) :
  (forall X e, P X (f X e)) -> all_ops P (lift f p).
Proof. intros H. induction p as [a|X e k IH]; simpl; auto. Qed.

Lemma all_results_foldR {E A B R} (P : R -> Prop) (f : B -> A -> prog E (R + B)) l b :
  (forall b a, a ∈ l -> all_results (fun r => match r with inl e => P e | inr _ => True end) (f b a)) ->
  all_results (fun r => match r with inl e => P e | inr _ => True end) (foldR f l b).
Proof.
  revert b. induction l as [|a l IH]; intros b Hf; simpl; [done|].
  eapply all_results_bind; [apply Hf; left|]. intros [e|b'] He; simpl; [done|].
  apply IH. intros b1 a1 Ha1. apply Hf. by right.
Qed.

(** ** Programs that may fail *)

(** [x, err := c; if err != nil { return ..., wrap(err) }; k x] *)
Definition attempt {E A B} (wrap : A -> A) {R} (c : prog E (B + A)) (k : B -> prog E (R + A)) : prog E (R + A) :=
  bind c (fun r => match r with inl x => k x | inr e => Ret (inr (wrap e)) end).

(** Every value a success can have, whatever the answers, satisfies [P]. *)
Definition succeeds {E A R} (P : R -> Prop) (p : prog E (R + A)) : Prop :=
  all_results (fun r => match r with inl a => P a | inr _ => True end) p.

Lemma succeeds_attempt {E A B R} (P : B -> Prop) (Q : R -> Prop) (w : A -> A) (c : prog E (B + A)) k :
  succeeds P c -> (forall x, P x -> succeeds Q (k x)) -> succeeds Q (attempt w c k).
Proof.
  intros Hc Hk. eapply all_results_bind; [exact Hc|]. intros [x|e] Hx; [by apply Hk | done].
Qed.

Lemma all_results_any {E A} (p : prog E A) : all_results (fun _ => True) p.
Proof. induction p; simpl; auto. Qed.

Lemma succeeds_any {E A R} (p : prog E (R + A)) : succeeds (fun _ => True) p.
Proof. unfold succeeds. induction p as [[a|e]|X e k IH]; simpl; auto. Qed.

Lemma all_ops_bind_res {E A B} (T : A -> Prop) P (p : prog E A) (f : A -> prog E B) :
  all_ops P p -> all_results T p -> (forall a, T a -> all_ops P (f a)) -> all_ops P (bind p f).
Proof.
  intros Hp HT Hf. induction p as [a|X e k IH]; simpl in *; [by apply Hf|].
  destruct Hp as [He Hk]. split; [done|]. intros x. by apply IH.
Qed.

Lemma all_ops_attempt {E A B R} (T : B -> Prop) P (w : A -> A) (c : prog E (B + A)) (k : B -> prog E (R + A)) :
  all_ops P c -> succeeds T c -> (forall x, T x -> all_ops P (k x)) -> all_ops P (attempt w c k).
Proof.
  intros Hc Hs Hk. eapply all_ops_bind_res; [exact Hc | exact Hs|]. intros [x|e] Hx; [by apply Hk | done].
Qed.

Section Run.
Context {E : Type -> Type} {S : Type}.

Definition handler : Type := forall X, E X -> S -> option (X * S).

Variable h : handler.

Fixpoint run {A} (p : prog E A) (s : S) : option (A * S) :=
  match p with
  | Ret a => Some (a, s)
  | Do e k => match h _ e s with Some (x, s') => run (k x) s' | None => None end
  end.

Lemma run_bind {A B} (p : prog E A) (f : A -> prog E B) s :
  run (bind p f) s = match run p s with Some (a, s') => run (f a) s' | None => None end.
Proof.
  revert s. induction p as [a|X e k IH]; intros s; simpl; [done|].
  destruct (h X e s) as [[x s']|]; [apply IH | done].
Qed.

Lemma run_perform {X} (e : E X) s : run (perform e) s = h X e s.
Proof. unfold perform. simpl. by destruct (h X e s) as [[x s']|]. Qed.

(** ** Weakest preconditions: every state the program ends in satisfies [Q]. *)

Fixpoint wp {A} (p : prog E A) (Q : A -> S -> Prop) (s : S) : Prop :=
  match p with
  | Ret a => Q a s
  | Do e k => match h _ e s with Some (x, s') => wp (k x) Q s' | None => True end
  end.

Lemma wp_run {A} (p : prog E A) Q s a s' : wp p Q s -> run p s = Some (a, s') -> Q a s'.
Proof.
  revert s. induction p as [b|X e k IH]; simpl; intros s Hwp Hrun.
  - congruence.
  - destruct (h X e s) as [[x s1]|]; [eauto | done].
Qed.

Lemma run_wp {A} (p : prog E A) (Q : A -> S -> Prop) s :
  (forall a s', run p s = Some (a, s') -> Q a s') -> wp p Q s.
Proof.
  revert s. induction p as [b|X e k IH]; simpl; intros s H; [auto|].
  destruct (h X e s) as [[x s1]|]; auto.
Qed.

Lemma wp_bind {A B} (p : prog E A) (f : A -> prog E B) Q s :
  wp (bind p f) Q s <-> wp p (fun a s' => wp (f a) Q s') s.
Proof.
  revert s. induction p as [a|X e k IH]; intros s; simpl; [done|].
  destruct (h X e s) as [[x s']|]; [apply IH | done].
Qed.

Lemma wp_mono {A} (p : prog E A) (Q Q' : A -> S -> Prop) s :
  (forall a s', Q a s' -> Q' a s') -> wp p Q s -> wp p Q' s.
Proof.
  intros H. revert s. induction p as [a|X e k IH]; intros s; simpl; [apply H|].
  destruct (h X e s) as [[x s']|]; auto.
Qed.

Lemma wp_and {A} (p : prog E A) (Q R : A -> S -> Prop) s :
  wp p Q s -> wp p R s -> wp p (fun a s' => Q a s' /\ R a s') s.
Proof. intros HQ HR. apply run_wp. intros a s' Hr. split; by eapply wp_run. Qed.

(** A loop invariant for [forM]. *)
Lemma wp_forM {A} (l : list A) (f : A -> prog E unit) (I : S -> Prop) s :
  (forall x s', x ∈ l -> I s' -> wp (f x) (fun _ => I) s') ->
  I s -> wp (forM l f) (fun _ => I) s.
Proof.
  revert s. induction l as [|x l IH]; intros s Hf HI; simpl; [done|].
  apply wp_bind. eapply wp_mono; [|apply Hf; [left | done]].
  intros [] s' HI'. apply IH; [|done]. intros y s1 Hy. apply Hf. by right.
Qed.

Lemma all_results_run {A} (P : A -> Prop) (p : prog E A) s a s' :
  all_results P p -> run p s = Some (a, s') -> P a.
Proof.
  revert s. induction p as [b|X e k IH]; simpl; intros s HP Hrun; [congruence|].
  destruct (h X e s) as [[x s1]|]; [eauto | done].
Qed.

(** ** Total correctness: the program returns, in a state that satisfies [Q]. *)

Fixpoint twp {A} (p : prog E A) (Q : A -> S -> Prop) (s : S) : Prop :=
  match p with
  | Ret a => Q a s
  | Do e k => match h _ e s with Some (x, s') => twp (k x) Q s' | None => False end
  end.

Lemma twp_run {A} (p : prog E A) Q s : twp p Q s -> exists a s', run p s = Some (a, s') /\ Q a s'.
Proof.
  revert s. induction p as [b|X e k IH]; simpl; intros s H; [eauto|].
  destruct (h X e s) as [[x s1]|]; [eauto | done].
Qed.

Lemma run_twp {A} (p : prog E A) (Q : A -> S -> Prop) s a s' : run p s = Some (a, s') -> Q a s' -> twp p Q s.
Proof.
  revert s. induction p as [b|X e k IH]; simpl; intros s Hr HQ; [by injection Hr as -> ->|].
  destruct (h X e s) as [[x s1]|]; [by apply IH | done].
Qed.

Lemma twp_bind {A B} (p : prog E A) (f : A -> prog E B) Q s :
  twp p (fun a s' => twp (f a) Q s') s -> twp (bind p f) Q s.
Proof.
  revert s. induction p as [a|X e k IH]; intros s; simpl; [done|].
  destruct (h X e s) as [[x s']|]; [apply IH | done].
Qed.

Lemma twp_unbind {A B} (p : prog E A) (f : A -> prog E B) Q s :
  twp (bind p f) Q s -> twp p (fun a s' => twp (f a) Q s') s.
Proof.
  revert s. induction p as [a|X e k IH]; intros s; simpl; [done|].
  destruct (h X e s) as [[x s']|]; [apply IH | done].
Qed.

Lemma twp_ret {A} (a : A) (Q : A -> S -> Prop) s : Q a s -> twp (Ret a) Q s.
Proof. done. Qed.

Lemma twp_mono {A} (p : prog E A) (Q Q' : A -> S -> Prop) s :
  (forall a s', Q a s' -> Q' a s') -> twp p Q s -> twp p Q' s.
Proof.
  intros H. revert s. induction p as [a|X e k IH]; intros s; simpl; [apply H|].
  destruct (h X e s) as [[x s']|]; auto.
Qed.

(** ** A handler that never blocks makes every program return. *)

Definition total : Prop := forall X (e : E X) s, is_Some (h X e s).

Lemma run_total {A} (p : prog E A) s : total -> is_Some (run p s).
Proof.
  intros Ht. revert s. induction p as [a|X e k IH]; intros s; simpl; [eauto|].
  destruct (Ht X e s) as [[x s'] ->]. apply IH.
Qed.

(** ** Pools *)

(** Programs that an operation starts in the background ([go f()]). *)
Variable A : Type.
Variable spawns : forall X, E X -> list (prog E A).

Definition config : Type := list (prog E A) * S.

(** Thread [i] performs its next operation. *)
Definition step_thread (i : nat) (c : config) : option config :=
  let '(ps, s) := c in
  match ps !! i with
  | Some (Do e k) =>
      match h _ e s with
      | Some (x, s') => Some (<[i := k x]> ps ++ spawns _ e, s')
      | None => None
      end
  | _ => None
  end.

Definition pool_step (c c' : config) : Prop := exists i, step_thread i c = Some c'.

Fixpoint sched (js : list nat) (c : config) : option config :=
  match js with
  | [] => Some c
  | i :: js => match step_thread i c with Some c' => sched js c' | None => None end
  end.

Lemma step_thread_do i ps s X (e : E X) k x s' :
  ps !! i = Some (Do e k) -> h X e s = Some (x, s') ->
  step_thread i (ps, s) = Some (<[i := k x]> ps ++ spawns _ e, s').
Proof. intros Hp Hh. unfold step_thread. change (fun H : Type => E H) with E. by rewrite Hp, Hh. Qed.

Lemma sched_rtc js c c' : sched js c = Some c' -> rtc pool_step c c'.
Proof.
  revert c. induction js as [|i js IH]; simpl; intros c H; [by simplify_eq|].
  destruct (step_thread i c) as [c1|] eqn:E1; [|done].
  eapply rtc_l; [by exists i | by apply IH].
Qed.

(** An invariant of one step holds in every reachable configuration. *)
Lemma pool_invariant (I : config -> Prop) c c' :
  (forall c1 c2, I c1 -> pool_step c1 c2 -> I c2) -> I c -> rtc pool_step c c' -> I c'.
Proof. intros Hstep HI Hrtc. induction Hrtc; eauto. Qed.

End Run.

Arguments handler E S : clear implicits.
Arguments wp {E S} h {A} p Q s.
Arguments twp {E S} h {A} p Q s.
Arguments run {E S} h {A} p s.

#[export] Hint Resolve wp_mono : go.

(** ** Handlers that record what was called

    An operation of other code is answered by an oracle, a function of the number of
    operations performed so far: a theorem that holds for every oracle holds for
    every behaviour of that code, changes over time included.  A component's own
    operations are given by a function on its state, which may consult the oracle
    (the choice of a [select], say).  The trace lists the calls, the last one first. *)

Inductive call (E : Type -> Type) : Type :=
| Call {X : Type} (e : E X) (x : X).

Arguments Call {E X} e x.

(** The operation of a call satisfies [P]. *)
Definition on_call {E : Type -> Type} (P : forall X, E X -> Prop) (c : call E) : Prop :=
  match c with Call e _ => P _ e end.

Definition oracle (E : Type -> Type) : Type := forall X, nat -> E X -> X.

Record traced (E : Type -> Type) (S : Type) := Traced {
  clock : nat;
  trace : list (call E);
  own : S
}.

Arguments Traced {E S} clock trace own.
Arguments clock {E S} t.
Arguments trace {E S} t.
Arguments own {E S} t.

Section TracedHandler.
Context {E : Type -> Type} {S : Type}.

(** The component's part of the handler: the operation, the oracle's answer to it,
    the state; [None] when the operation blocks. *)
Definition local_handler : Type := forall X, E X -> X -> S -> option (X * S).

Variable local : local_handler.
Variable env : oracle E.

Definition traced_handler : handler E (traced E S) :=
  fun X e s =>
    match local X e (env X (clock s) e) (own s) with
    | Some (x, u) => Some (x, Traced (Datatypes.S (clock s)) (Call e x :: trace s) u)
    | None => None
    end.

Lemma traced_total :
  (forall X (e : E X) x u, is_Some (local X e x u)) -> total traced_handler.
Proof.
  intros Hl X e s. unfold traced_handler.
  destruct (Hl X e (env X (clock s) e) (own s)) as [[x u] ->]. eauto.
Qed.

(** Operations that neither block nor touch the component's state only add to the
    trace. *)
Lemma twp_quiet_acc {A} (P : forall X, E X -> Prop) (p : prog E A) Q n tr0 u acc :
  (forall X (e : E X) x, P X e -> exists x', local X e x u = Some (x', u)) ->
  all_ops P p -> Forall (on_call P) acc ->
  (forall a n tr, Forall (on_call P) tr -> Q a (Traced n (tr ++ tr0) u)) ->
  twp traced_handler p Q (Traced n (acc ++ tr0) u).
Proof.
  intros Hq Hp Hacc HQ. revert n acc Hacc.
  induction p as [a|X e k IH]; intros n acc Hacc; simpl; [by apply HQ|].
  destruct Hp as [He Hk]. unfold traced_handler. simpl.
  destruct (Hq X e (env X n e) He) as [x' ->].
  apply (IH x' (Hk x') (Datatypes.S n) (Call e x' :: acc)). by constructor.
Qed.

(** The same, with what is known of the results. *)
Lemma twp_quiet_res {A} (P : forall X, E X -> Prop) (R : A -> Prop) (p : prog E A) Q s :
  (forall X (e : E X) x, P X e -> exists x', local X e x (own s) = Some (x', own s)) ->
  all_ops P p -> all_results R p ->
  (forall a n tr, R a -> Forall (on_call P) tr -> Q a (Traced n (tr ++ trace s) (own s))) ->
  twp traced_handler p Q s.
Proof.
  intros Hq Hp HR HQ. destruct s as [n tr0 u]. simpl in *.
  assert (forall acc, Forall (on_call P) acc -> twp traced_handler p Q (Traced n (acc ++ tr0) u)) as H.
  2: { apply (H []). constructor. }
  revert n. induction p as [a|X e k IH]; intros n acc Hacc; simpl; [by apply HQ|].
  destruct Hp as [He Hk]. unfold traced_handler. simpl.
  destruct (Hq X e (env X n e) He) as [x' ->].
  apply (IH x' (Hk x') (HR x') (Datatypes.S n) (Call e x' :: acc)). by constructor.
Qed.

Lemma twp_quiet {A} (P : forall X, E X -> Prop) (p : prog E A) Q s :
  (forall X (e : E X) x, P X e -> exists x', local X e x (own s) = Some (x', own s)) ->
  all_ops P p ->
  (forall a n tr, Forall (on_call P) tr -> Q a (Traced n (tr ++ trace s) (own s))) ->
  twp traced_handler p Q s.
Proof.
  intros Hq Hp HQ. destruct s as [n tr u].
  apply (twp_quiet_acc P p Q n tr u []); [done | done | constructor | done].
Qed.

(** What every operation of a program keeps, the program keeps. *)
Lemma wp_stable {A} (I : S -> Prop) (P : forall X, E X -> Prop) (p : prog E A) s :
  (forall X (e : E X) x u y u', P X e -> I u -> local X e x u = Some (y, u') -> I u') ->
  all_ops P p -> I (own s) -> wp traced_handler p (fun _ s' => I (own s')) s.
Proof.
  intros HI. revert s. induction p as [a|X e k IH]; intros s Hp Hs; [done|]. destruct Hp as [He Hk]. simpl.
  unfold traced_handler. destruct (local X e _ (own s)) as [[y u']|] eqn:El; [|done]. apply IH; [done|]. by eapply HI.
Qed.

Lemma traced_run_total {A} (p : prog E A) s :
  (forall X (e : E X) x u, is_Some (local X e x u)) -> is_Some (run traced_handler p s).
Proof. intros Hl. apply run_total, traced_total, Hl. Qed.

(** What every operation of a program satisfies holds of the calls it adds. *)
Lemma traced_on_calls {A} (P : forall X, E X -> Prop) (p : prog E A) s a s' :
  all_ops P p -> run traced_handler p s = Some (a, s') ->
  Forall (on_call P) (trace s) -> Forall (on_call P) (trace s').
Proof.
  revert s. induction p as [x|X e k IH]; intros s Hp Hr Hs; simpl in *; [by injection Hr as <- <-|].
  destruct Hp as [He Hk]. unfold traced_handler in Hr at 1.
  destruct (local X e _ (own s)) as [[x u]|]; [|done].
  apply (IH x _ (Hk x) Hr). simpl. by constructor.
Qed.

End TracedHandler.

Arguments local_handler E S : clear implicits.

(** A handler that blocks more often: the runs that it lets end are runs. *)
Lemma traced_run_mono {E S A} (l1 l2 : local_handler E S) env (p : prog E A) s r :
  (forall X e x u y, l1 X e x u = Some y -> l2 X e x u = Some y) ->
  run (traced_handler l1 env) p s = Some r -> run (traced_handler l2 env) p s = Some r.
Proof.
  intros Hl. revert s. induction p as [a|X e k IH]; intros s; simpl; [done|]. unfold traced_handler at 1 3.
  destruct (l1 X e _ (own s)) as [[x u]|] eqn:E1; [|done]. rewrite (Hl _ _ _ _ _ E1). apply IH.
Qed.

(** An initial state. *)
Definition start {E S} (u : S) : traced E S := Traced 0 [] u.
