(* ===== verification/Link.v ===== *)
(** * Components put together

    A component is a program over its own operations, some of which are calls into
    the component below it.  [linked] replaces each of those by the program that the
    lower component runs for it; the result is a program over both sets of operations
    ([over]), and its state is the pair of the two states.

    [link_refines] relates the whole to its parts: what the linked program does, the
    upper component does alone under some oracle, that is, under one of the behaviours
    its own theorems quantify over; and the lower state changes by the calls in that
    run's trace and by nothing else ([evolves]).  [link_total] is the other direction:
    when the upper component returns under every oracle and the lower programs return,
    the linked program returns. *)
From Stdlib Require Import Lia.
From stdpp Require Import base list.
From S2P Require Import Prelude Prog.

Inductive over (F E : Type -> Type) (X : Type) : Type :=
| Below (e : F X)
| Here (e : E X).

Arguments Below {F E X} e.
Arguments Here {F E X} e.

(** Every operation replaced by a program. *)
Fixpoint interp {E F : Type -> Type} (f : forall X, E X -> prog F X) {A} (p : prog E A) : prog F A :=
  match p with
  | Ret a => Ret a
  | Do e k => bind (f _ e) (fun x => interp f (k x))
  end.

(** ** A component inside a larger one

    [inj] makes a component's operations operations of the whole, and [get] and [put]
    are its part of the whole's state. *)
Record embedding {F G : Type -> Type} {T U : Type} (lF : local_handler F T) (lG : local_handler G U) := {
  inj : forall X, F X -> G X;
  get : U -> T;
  put : T -> U -> U;
  inj_local X (e : F X) x u :
    lG X (inj X e) x u = match lF X e x (get u) with Some (y, t) => Some (y, put t u) | None => None end;
  get_put t u : get (put t u) = t;
  put_get u : put (get u) u = u;
  put_put t t' u : put t (put t' u) = put t u
}.

Arguments inj {F G T U lF lG} _ X _.
Arguments get {F G T U lF lG} _ _.
Arguments put {F G T U lF lG} _ _ _.

Section Embedding.
Context {F G : Type -> Type} {T U : Type} {lF : local_handler F T} {lG : local_handler G U}.
Variables (em : embedding lF lG) (env : oracle G).

(** The oracle's part for the component, from the [n]th operation on. *)
Definition env_inj (n : nat) : oracle F := fun X m e => env X (n + m) (inj em X e).

Definition call_inj (c : call F) : call G := match c with Call e x => Call (inj em _ e) x end.

Lemma handler_inj {X} (e : F X) n m tr0 acc u :
  traced_handler lG env X (inj em X e) (Traced (n + m) (map call_inj acc ++ tr0) u) =
  match traced_handler lF (env_inj n) X e (Traced m acc (get em u)) with
  | Some (x, s1) => Some (x, Traced (n + clock s1) (map call_inj (trace s1) ++ tr0) (put em (own s1) u))
  | None => None
  end.
Proof.
  unfold traced_handler, env_inj. cbn [clock own trace]. rewrite inj_local.
  destruct (lF X e _ (get em u)) as [[x t1]|]; [|done]. cbn [clock own trace map app call_inj].
  by rewrite Nat.add_succ_r.
Qed.

(** A program of the component runs in the whole as it runs alone. *)
Lemma run_inj_acc {A} (q : prog F A) n m tr0 acc u :
  run (traced_handler lG env) (lift (inj em) q) (Traced (n + m) (map call_inj acc ++ tr0) u) =
  match run (traced_handler lF (env_inj n)) q (Traced m acc (get em u)) with
  | Some (x, s1) => Some (x, Traced (n + clock s1) (map call_inj (trace s1) ++ tr0) (put em (own s1) u))
  | None => None
  end.
Proof.
  revert m acc u. induction q as [a|X e k IH]; intros m acc u; cbn [lift run].
  - cbn [clock own trace]. by rewrite put_get.
  - rewrite handler_inj. destruct (traced_handler lF (env_inj n) X e _) as [[x [m1 acc1 t1]]|]; [|done].
    cbn [clock own trace]. rewrite IH, get_put.
    destruct (run _ _ _) as [[y s1]|]; [|done]. by rewrite put_put.
Qed.

Lemma run_inj {A} (q : prog F A) s :
  run (traced_handler lG env) (lift (inj em) q) s =
  match run (traced_handler lF (env_inj (clock s))) q (start (get em (own s))) with
  | Some (x, s1) => Some (x, Traced (clock s + clock s1) (map call_inj (trace s1) ++ trace s) (put em (own s1) (own s)))
  | None => None
  end.
Proof.
  destruct s as [n tr u]. pose proof (run_inj_acc q n 0 tr [] u) as H. rewrite Nat.add_0_r in H. exact H.
Qed.

Lemma wp_inj {A} (q : prog F A) (Q : A -> traced G U -> Prop) s :
  wp (traced_handler lF (env_inj (clock s))) q
    (fun a s1 => Q a (Traced (clock s + clock s1) (map call_inj (trace s1) ++ trace s) (put em (own s1) (own s))))
    (start (get em (own s))) ->
  wp (traced_handler lG env) (lift (inj em) q) Q s.
Proof.
  intros Hq. apply run_wp. intros a s' Hr. rewrite run_inj in Hr.
  destruct (run _ q _) as [[x s1]|] eqn:E; [|done]. injection Hr as <- <-. exact (wp_run _ _ _ _ _ _ Hq E).
Qed.

End Embedding.

(** ** A component over the one below it *)

Section Link.
Context {E F : Type -> Type} {S T : Type}.
Variables (lE : local_handler E S) (lF : local_handler F T).
(** The program that the lower component runs for an operation; [None] for the
    operations that are not calls into it. *)
Variable calls : forall X, E X -> option (prog F X).

Definition over_local : local_handler (over F E) (T * S) := fun X e =>
  match e with
  | Below e => fun x s => match lF X e x (fst s) with Some (y, t) => Some (y, (t, snd s)) | None => None end
  | Here e => fun x s => match lE X e x (snd s) with Some (y, u) => Some (y, (fst s, u)) | None => None end
  end.

Program Definition below_embedding : embedding lF over_local :=
  {| inj := fun X e => Below e; get := fst; put := fun t s => (t, snd s) |}.
Solve Obligations with (intros; try done; by destruct u).

Definition below {A} (q : prog F A) : prog (over F E) A := lift (fun X e => Below e) q.

Definition link X (e : E X) : prog (over F E) X :=
  match calls X e with Some q => below q | None => perform (Here e) end.

Definition linked {A} (p : prog E A) : prog (over F E) A := interp link p.

(** How the lower component's state changes over one call, and over a sequence of
    them, the first one first. *)
Definition effect (c : call E) (t t' : T) : Prop :=
  match c with
  | @Call _ X e x =>
      match calls X e with
      | Some q => exists env s1, run (traced_handler lF env) q (start t) = Some (x, s1) /\ t' = own s1
      | None => t' = t
      end
  end.

Fixpoint evolves (cs : list (call E)) (t t' : T) : Prop :=
  match cs with
  | [] => t' = t
  | c :: cs => exists t1, effect c t t1 /\ evolves cs t1 t'
  end.

Lemma evolves_app cs1 cs2 t t' : evolves (cs1 ++ cs2) t t' <-> exists t1, evolves cs1 t t1 /\ evolves cs2 t1 t'.
Proof.
  revert t. induction cs1 as [|c cs1 IH]; simpl; intros t.
  - split; [intros H; by exists t | by intros (t1 & -> & H)].
  - split.
    + intros (t1 & H1 & H2). apply IH in H2 as (t2 & H2 & H3). eauto.
    + intros (t2 & (t1 & H1 & H2) & H3). exists t1. split; [done|]. apply IH. eauto.
Qed.

(** What the lower component's state does over calls that satisfy [P], when it does so
    over each of them. *)
Lemma evolves_rel (R : T -> T -> Prop) `{!Reflexive R, !Transitive R} (P : forall X, E X -> Prop) cs t t' :
  (forall X (e : E X) q env t x s1, P X e -> calls X e = Some q ->
     run (traced_handler lF env) q (start t) = Some (x, s1) -> R t (own s1)) ->
  evolves cs t t' -> Forall (on_call P) cs -> R t t'.
Proof.
  intros Hq. revert t. induction cs as [|[X e x] cs IH]; simpl; intros t He Hp; [by subst|].
  inversion_clear Hp as [|? ? Hpe Hp']. destruct He as (t1 & He1 & He). etrans; [|by apply IH].
  destruct (calls X e) as [q|] eqn:Ec; [|by subst]. destruct He1 as (env & s1 & Hr & ->). by eapply Hq.
Qed.

(** The same, with the state around one of the calls. *)
Lemma evolves_elem (R : T -> T -> Prop) `{!Reflexive R, !Transitive R} (P : forall X, E X -> Prop) c cs t t' :
  (forall X (e : E X) q env t x s1, P X e -> calls X e = Some q ->
     run (traced_handler lF env) q (start t) = Some (x, s1) -> R t (own s1)) ->
  evolves cs t t' -> Forall (on_call P) cs -> c ∈ cs ->
  exists t1 t2, R t t1 /\ effect c t1 t2 /\ R t2 t'.
Proof.
  intros Hq He Hp (cs1 & cs2 & ->)%list_elem_of_split. apply evolves_app in He as (t1 & He1 & t2 & Hc & He2).
  apply Forall_app in Hp as [Hp1 Hp2]. inversion_clear Hp2 as [|? ? _ Hp3].
  exists t1, t2. split_and!; [by eapply evolves_rel | done | by eapply evolves_rel].
Qed.

Section Env.
Variable env : oracle (over F E).
Abbreviation hdl := (traced_handler over_local env).

(** The state of the whole before the upper component's [n]th operation. *)
Fixpoint at_op {A} (p : prog E A) (n : nat) (s : traced (over F E) (T * S)) : traced (over F E) (T * S) :=
  match n, p with
  | Datatypes.S n, Do e k => match run hdl (link _ e) s with Some (x, s1) => at_op (k x) n s1 | None => s end
  | _, _ => s
  end.

Lemma run_below {A} (q : prog F A) s :
  run hdl (below q) s =
  match run (traced_handler lF (env_inj below_embedding env (clock s))) q (start (fst (own s))) with
  | Some (x, s1) =>
      Some (x, Traced (clock s + clock s1) (map (call_inj below_embedding) (trace s1) ++ trace s) (own s1, snd (own s)))
  | None => None
  end.
Proof. apply (run_inj below_embedding). Qed.

(** The calls of the whole that the upper component makes itself. *)
Definition here_call (c : call (over F E)) : option (call E) :=
  match c with @Call _ X e x => match e in over _ _ _ return X -> option (call E) with
                                | Below _ => fun _ => None
                                | Here e => fun x => Some (Call e x)
                                end x end.

Definition is_own (c : call E) : bool := match c with @Call _ X e _ => negb (is_some (calls X e)) end.

Lemma here_below tr : omap here_call (map (call_inj below_embedding) tr) = [].
Proof. induction tr as [|[X e x] tr IH]; [done|]. cbn. exact IH. Qed.

(** What the upper component is told when it asks in a state of the whole. *)
Definition answer (s : traced (over F E) (T * S)) X (e : E X) : X :=
  match calls X e with
  | Some q => match run hdl (below q) s with Some (x, _) => x | None => env X (clock s) (Here e) end
  | None => env X (clock s) (Here e)
  end.

(** The oracle that the upper component sees. *)
Definition seen_oracle {A} (p : prog E A) (s : traced (over F E) (T * S)) : oracle E :=
  fun X n e => answer (at_op p n s) X e.

(** The upper component does not act on its own state when it calls the lower one. *)
Hypothesis passive : forall X (e : E X) q x u, calls X e = Some q -> lE X e x u = Some (x, u).

Definition matches {A} (p : prog E A) (s : traced (over F E) (T * S)) (m : nat) (env' : oracle E) : Prop :=
  forall X n (e : E X), env' X (m + n) e = answer (at_op p n s) X e.

Lemma matches_step {X A} (e : E X) (k : X -> prog E A) s m env' x s1 :
  matches (Do e k) s m env' -> run hdl (link X e) s = Some (x, s1) -> matches (k x) s1 (Datatypes.S m) env'.
Proof.
  intros Hm Hr Y n d. specialize (Hm Y (Datatypes.S n) d). cbn [at_op] in Hm. rewrite Hr in Hm.
  rewrite <- Hm. by rewrite Nat.add_succ_r.
Qed.

Lemma matches_now {X A} (e : E X) (k : X -> prog E A) s m env' :
  matches (Do e k) s m env' -> env' X m e = answer s X e.
Proof. intros Hm. specialize (Hm X 0 e). by rewrite Nat.add_0_r in Hm. Qed.

(** One operation, in the whole and in the upper component. *)
Lemma link_step {X} (e : E X) s x s1 m tr env' :
  run hdl (link X e) s = Some (x, s1) -> env' X m e = answer s X e ->
  traced_handler lE env' X e (Traced m tr (snd (own s))) =
    Some (x, Traced (Datatypes.S m) (Call e x :: tr) (snd (own s1))) /\
  effect (Call e x) (fst (own s)) (fst (own s1)) /\
  omap here_call (trace s1) = (if is_own (Call e x) then [Call e x] else []) ++ omap here_call (trace s).
Proof.
  intros Hr Ha. unfold traced_handler. cbn [own clock trace effect is_own]. rewrite Ha. unfold answer, link in *.
  destruct (calls X e) as [q|] eqn:Ec.
  - rewrite Hr, (passive X e q) by done. rewrite run_below in Hr.
    destruct (run (traced_handler lF _) q _) as [[y sq]|] eqn:Eq; [|done]. injection Hr as <- <-. simpl.
    split_and!; [done | by eexists _, _ |]. by rewrite omap_app, here_below.
  - rewrite run_perform in Hr. unfold traced_handler in Hr. cbn [over_local] in Hr.
    destruct (lE X e (env X (clock s) (Here e)) (snd (own s))) as [[y u]|]; [|done]. injection Hr as <- <-. simpl.
    by split_and!.
Qed.

(** What the whole does, the upper component does under the oracle it sees. *)
Lemma linked_run {A} (p : prog E A) s a s' m tr env' :
  run hdl (linked p) s = Some (a, s') -> matches p s m env' ->
  exists c' cs, run (traced_handler lE env') p (Traced m tr (snd (own s))) = Some (a, c') /\
    own c' = snd (own s') /\ trace c' = rev cs ++ tr /\ evolves cs (fst (own s)) (fst (own s')) /\
    omap here_call (trace s') = List.filter is_own (rev cs) ++ omap here_call (trace s).
Proof.
  revert s m tr. induction p as [b|X e k IH]; intros s m tr Hr Hm.
  - injection Hr as -> ->. eexists _, []. by split_and!.
  - unfold linked in Hr. cbn [interp] in Hr. rewrite run_bind in Hr.
    destruct (run hdl (link X e) s) as [[x s1]|] eqn:E1; [|done].
    destruct (link_step e s x s1 m tr env' E1 (matches_now e k s m env' Hm)) as (Hh & Hev & Htr).
    destruct (IH x s1 (Datatypes.S m) (Call e x :: tr) Hr (matches_step e k s m env' x s1 Hm E1))
      as (c' & cs & Hc & Ho & Ht & He & Htr').
    exists c', (Call e x :: cs). split_and!; [|done | | by eexists |].
    + cbn [run]. by rewrite Hh.
    + rewrite Ht. simpl. by rewrite <- app_assoc.
    + rewrite Htr', Htr. cbn [rev]. rewrite List.filter_app, <- app_assoc. by f_equal.
Qed.

(** When the upper component returns under the oracle it sees, and the lower programs
    return, the whole returns. *)
Lemma linked_returns {A} (I : T -> Prop) (P : forall X, E X -> Prop) (p : prog E A) s m tr env' :
  (forall X (e : E X) q fenv t, P X e -> calls X e = Some q -> I t ->
     exists x s1, run (traced_handler lF fenv) q (start t) = Some (x, s1) /\ I (own s1)) ->
  all_ops P p -> I (fst (own s)) -> matches p s m env' ->
  is_Some (run (traced_handler lE env') p (Traced m tr (snd (own s)))) -> is_Some (run hdl (linked p) s).
Proof.
  intros Hq. revert s m tr. induction p as [b|X e k IH]; intros s m tr Hp Hi Hm Hs; [by eexists|].
  destruct Hp as [He Hk]. unfold linked. cbn [interp]. rewrite run_bind.
  assert (exists x s1, run hdl (link X e) s = Some (x, s1) /\ I (fst (own s1))) as (x & s1 & E1 & Hi1).
  { unfold link. destruct (calls X e) as [q|] eqn:Ec.
    - destruct (Hq X e q (env_inj below_embedding env (clock s)) _ He Ec Hi) as (x & sq & Hr & Hi1).
      rewrite run_below, Hr. by eexists _, _.
    - rewrite run_perform. cbn [run] in Hs. unfold traced_handler in Hs at 1. cbn [own clock] in Hs.
      rewrite (matches_now e k s m env' Hm) in Hs. unfold answer in Hs. rewrite Ec in Hs.
      unfold traced_handler. cbn [over_local].
      destruct (lE X e _ (snd (own s))) as [[y u]|]; [by eexists _, _ | by destruct Hs]. }
  rewrite E1. destruct (link_step e s x s1 m tr env' E1 (matches_now e k s m env' Hm)) as [Hh _].
  cbn [run] in Hs. rewrite Hh in Hs.
  by apply (IH x s1 (Datatypes.S m) (Call e x :: tr) (Hk x) Hi1 (matches_step e k s m env' x s1 Hm E1)).
Qed.

Lemma seen_matches {A} (p : prog E A) s : matches p s 0 (seen_oracle p s).
Proof. done. Qed.

End Env.

Hypothesis passive : forall X (e : E X) q x u, calls X e = Some q -> lE X e x u = Some (x, u).

(** Refinement: a run of the whole is a run of the upper component under some oracle,
    and the lower state changes by that run's calls. *)
Lemma link_refines {A} env (p : prog E A) t u a s' :
  run (traced_handler over_local env) (linked p) (start (t, u)) = Some (a, s') ->
  exists env' c', run (traced_handler lE env') p (start u) = Some (a, c') /\ own c' = snd (own s') /\
    evolves (rev (trace c')) t (fst (own s')) /\ omap here_call (trace s') = List.filter is_own (trace c').
Proof.
  intros Hr. exists (seen_oracle env p (start (t, u))).
  destruct (linked_run env passive p _ a s' 0 [] _ Hr (seen_matches env p _)) as (c' & cs & Hc & Ho & Ht & He & Hh).
  rewrite app_nil_r in Ht, Hh. exists c'. split_and!; [exact Hc | done | |]; rewrite Ht; [by rewrite rev_involutive | exact Hh].
Qed.

(** Total: the same, for a program whose lower calls return. *)
Lemma link_total {A} (I : T -> Prop) (P : forall X, E X -> Prop) env (p : prog E A) t u :
  (forall X (e : E X) q fenv t, P X e -> calls X e = Some q -> I t ->
     exists x s1, run (traced_handler lF fenv) q (start t) = Some (x, s1) /\ I (own s1)) ->
  all_ops P p -> I t -> (forall env', is_Some (run (traced_handler lE env') p (start u))) ->
  exists a s', run (traced_handler over_local env) (linked p) (start (t, u)) = Some (a, s') /\
    exists env' c', run (traced_handler lE env') p (start u) = Some (a, c') /\ own c' = snd (own s') /\
      evolves (rev (trace c')) t (fst (own s')) /\ omap here_call (trace s') = List.filter is_own (trace c').
Proof.
  intros Hq Hp Hi Hs.
  destruct (linked_returns env passive I P p (start (t, u)) 0 [] _ Hq Hp Hi (seen_matches env p _) (Hs _)) as [[a s'] Hr].
  exists a, s'. split; [exact Hr|]. by eapply link_refines.
Qed.

End Link.

Arguments linked {E F} calls {A} p.
Arguments below {E F A} q.
