(* ===== verification/Once.v ===== *)
(** * What a [sync.Once] guards happens once

    A pool of programs in which an operation is only performed by the program that won
    a [sync.Once]: however the programs interleave, it is performed at most once.  The
    clients of this file say which operation is guarded ([isD]), which answers mean
    that the once was won or lost ([won]), and when the once is still fresh.  The
    winner may leave the operation to a program that it starts ([cost]). *)
From Stdlib Require Import Lia.
From stdpp Require Import base list relations.
From S2P Require Import Prelude Prog Link.

Section Once.
Context {E : Type -> Type} {S A : Type}.
Variables (local : local_handler E S) (env : oracle E).
Variable spawns : forall X, E X -> list (prog E A).

(** The guarded operation; the outcome of trying the once, for an operation and its
    answer; operations that no program of the pool performs. *)
Variable isD : forall X, E X -> bool.
Variable won : forall X, E X -> X -> option bool.
Variable banned : forall X, E X -> bool.

(** How many guarded operations the programs that an operation starts may perform. *)
Variable cost : forall X, E X -> nat.
Definition price X (e : E X) : nat := (if isD X e then 1 else 0) + cost X e.

(** An invariant of the state, and what it says of the answers. *)
Variable J : S -> Prop.
Variable adm : forall X, E X -> X -> Prop.
Variable fresh : S -> Prop.

(** At most [n] guarded operations on every path, and no use of the once. *)
Fixpoint crit {B} (n : nat) (p : prog E B) : Prop :=
  match p with
  | Ret _ => True
  | Do e k =>
      banned _ e = false /\ (forall x, won _ e x = None) /\ (price _ e <= n)%nat /\
      forall x, crit (n - price _ e) (k x)
  end.

(** No guarded operation before the once is won, and one at most after. *)
Fixpoint guarded {B} (p : prog E B) : Prop :=
  match p with
  | Ret _ => True
  | Do e k =>
      banned _ e = false /\ price _ e = 0%nat /\
      forall x, adm _ e x ->
        match won _ e x with Some true => crit 1 (k x) | Some false => crit 0 (k x) | None => guarded (k x) end
  end.

Lemma crit_mono {B} (p : prog E B) n m : (n <= m)%nat -> crit n p -> crit m p.
Proof.
  revert n m. induction p as [a|X e k IH]; intros n m Hle; simpl; [done|]. intros (He & Ho & Hp & Hk).
  split_and!; [done | done | lia |]. intros x. apply (IH x (n - price _ e)%nat); [lia | done].
Qed.

Lemma crit_bind {B C} (p : prog E B) (f : B -> prog E C) n m :
  crit n p -> (forall a, crit m (f a)) -> crit (n + m) (bind p f).
Proof.
  revert n. induction p as [a|X e k IH]; intros n; simpl; [intros _ Hf; by apply (crit_mono _ m); [lia|]|].
  intros (He & Ho & Hp & Hk) Hf. split_and!; [done | done | lia |]. intros x.
  replace (n + m - price X e)%nat with (n - price X e + m)%nat by lia. by apply IH.
Qed.

Lemma guarded_bind {B C} (p : prog E B) (f : B -> prog E C) :
  crit 0 p -> (forall a, guarded (f a)) -> guarded (bind p f).
Proof.
  induction p as [a|X e k IH]; simpl; [by intros _ Hf|]. intros (He & Ho & Hp & Hk) Hf.
  split_and!; [done | lia|]. intros x _. rewrite Ho. apply IH; [apply (crit_mono _ (0 - price X e)); [lia | apply Hk] | done].
Qed.

(** A thread may perform [w] more guarded operations. *)
Definition allowed (w : nat) (p : prog E A) : Prop := crit w p \/ w = 0%nat /\ guarded p.

Definition isDc (c : call E) : bool := match c with Call e _ => isD _ e end.
Definition count (s : traced E S) : nat := length (List.filter isDc (trace s)).

Hypothesis H_J : forall X (e : E X) x0 u x u',
  J u -> banned _ e = false -> local X e x0 u = Some (x, u') -> J u' /\ adm X e x.
Hypothesis H_won : forall X (e : E X) x0 u x u',
  won X e x = Some true -> local X e x0 u = Some (x, u') -> fresh u /\ ~ fresh u'.
Hypothesis H_other : forall X (e : E X) x0 u x u',
  banned _ e = false -> local X e x0 u = Some (x, u') -> fresh u' -> fresh u.
Hypothesis H_spawns : forall X (e : E X),
  exists ws, Forall2 (fun w p => crit w p) ws (spawns X e) /\ (sum_list ws <= cost X e)%nat.

Record inv (c : config (E := E) (S := traced E S) A) : Prop := {
  inv_J : J (own (snd c));
  inv_threads : exists ws, Forall2 allowed ws (fst c) /\ (count (snd c) + sum_list ws <= 1)%nat /\
    (fresh (own (snd c)) -> count (snd c) = 0%nat /\ Forall (fun w => w = 0%nat) ws)
}.

Lemma sum_list_insert ws i a b : ws !! i = Some a -> (sum_list (<[i:=b]> ws) + a = sum_list ws + b)%nat.
Proof.
  revert i. induction ws as [|w ws IH]; intros i; [done|]. destruct i as [|i]; simpl; [intros [= ->]; lia|].
  intros H'. specialize (IH i H'). lia.
Qed.

Lemma sum_list_zeros {B} (l : list B) : sum_list (map (fun _ => 0%nat) l) = 0%nat.
Proof. induction l; simpl; lia. Qed.

Lemma sum_list_0 ws : sum_list ws = 0%nat -> Forall (fun w => w = 0%nat) ws.
Proof. induction ws as [|w ws IH]; simpl; [constructor|]. intros Hs. constructor; [lia | apply IH; lia]. Qed.

Lemma sum_list_all0 ws : Forall (fun w => w = 0%nat) ws -> sum_list ws = 0%nat.
Proof. induction 1; simpl; lia. Qed.

Lemma allowed_banned w X (e : E X) k : allowed w (Do e k) -> banned X e = false.
Proof. intros [(He & _)|(_ & He & _)]; exact He. Qed.

(** One operation of one thread, and the weight that is left to it. *)
Lemma allowed_step w X (e : E X) (k : X -> prog E A) u x0 x u' :
  allowed w (Do e k) -> local X e x0 u = Some (x, u') -> adm X e x ->
  exists w', allowed w' (k x) /\
    ((w' + price _ e = w)%nat \/ w = 0%nat /\ w' = 1%nat /\ price _ e = 0%nat /\ fresh u /\ ~ fresh u').
Proof.
  intros [(He & Ho & Hp & Hk)|(-> & He & HD & Hk)] Hl Ha.
  - exists (w - price _ e)%nat. split; [left; apply Hk | left; lia].
  - specialize (Hk x Ha). destruct (won X e x) as [[]|] eqn:Ew.
    + exists 1%nat. split; [by left|]. right. split_and!; try done; by eapply H_won.
    + exists 0%nat. split; [by left | left; lia].
    + exists 0%nat. split; [by right | left; lia].
Qed.

Lemma inv_step c c' : inv c -> pool_step (traced_handler local env) A spawns c c' -> inv c'.
Proof.
  intros [HJ (ws & Hws & Hsum & Hfresh)] (i & Hst). destruct c as [ps s]. unfold step_thread in Hst. simpl in *.
  destruct (ps !! i) as [[|X e k]|] eqn:Ei; try done. unfold traced_handler in Hst.
  destruct (local X e (env X (clock s) e) (own s)) as [[x u']|] eqn:El; [|done].
  injection Hst as <-.
  destruct (Forall2_lookup_r _ _ _ _ _ Hws Ei) as (w & Hw & Ha).
  pose proof (allowed_banned _ _ _ _ Ha) as Hf.
  destruct (H_J _ _ _ _ _ _ HJ Hf El) as [HJ' Hadm].
  destruct (allowed_step w X e k (own s) _ x u' Ha El Hadm) as (w' & Ha' & Hc).
  pose proof (sum_list_insert ws i w w' Hw) as Hs'.
  assert (count {| clock := Datatypes.S (clock s); trace := Call e x :: trace s; own := u' |} =
          ((if isD _ e then 1 else 0) + count s)%nat) as Ec.
  { unfold count. cbn [trace List.filter isDc]. by destruct (isD X e). }
  split; simpl; [done|].
  destruct (H_spawns X e) as (sw & Hsw & Hcost). unfold price in Hc.
  exists (<[i:=w']> ws ++ sw). rewrite Ec, sum_list_with_app. split_and!.
  - apply Forall2_app; [by apply Forall2_insert|]. eapply Forall2_impl; [exact Hsw|]. intros; by left.
  - destruct Hc as [Hc|(-> & -> & Hp & Ho & _)]; [destruct (isD _ e); lia|].
    destruct (Hfresh Ho) as [Hc0 Hz]. rewrite Hc0. pose proof (sum_list_all0 ws Hz). destruct (isD _ e); lia.
  - intros Ho'. destruct Hc as [Hc|(_ & _ & _ & _ & Ho)]; [|done].
    destruct (Hfresh (H_other _ e _ _ _ _ Hf El Ho')) as [Hc0 Hz].
    assert (w = 0%nat) as -> by exact (Forall_lookup_1 _ _ _ _ Hz Hw).
    assert (w' = 0%nat) as -> by lia. split; [destruct (isD _ e); lia|].
    apply Forall_app. split; [by apply Forall_insert|]. apply sum_list_0. lia.
Qed.

(** From a pool whose programs are all guarded, the operation is performed at most
    once. *)
Lemma at_most_once ps u c :
  J u -> Forall guarded ps ->
  rtc (pool_step (traced_handler local env) A spawns) (ps, start u) c -> (count (snd c) <= 1)%nat.
Proof.
  intros HJ Hps Hr.
  assert (inv c) as [_ (ws & _ & Hsum & _)]; [|lia].
  eapply (pool_invariant (traced_handler local env) A spawns inv); [intros c1 c2; apply inv_step | | exact Hr].
  split; simpl; [done|]. exists (map (fun _ => 0%nat) ps). rewrite sum_list_zeros. unfold count. simpl. split_and!.
  - clear -Hps. induction Hps; simpl; constructor; [by right | done].
  - lia.
  - intros _. split; [done|]. by apply Forall_map, Forall_true.
Qed.

End Once.

(** ** The same over a lower component

    The guarded operation of the upper component is a call, and the program behind it
    performs an operation [isDF] of the lower one at most once; nothing else that the
    programs call does. *)
Section Linked.
Context {E F : Type -> Type}.
Variable calls : forall X, E X -> option (prog F X).
Variables (isD : forall X, E X -> bool) (won : forall X, E X -> X -> option bool) (banned : forall X, E X -> bool).
Variable adm : forall X, E X -> X -> Prop.
Variable isDF : forall X, F X -> bool.
(** The operations that the programs perform. *)
Variable P : forall X, E X -> Prop.

Definition free {G : Type -> Type} : forall X, G X -> nat := fun _ _ => 0.

Definition isD_over X (e : over F E X) : bool := match e with Below e => isDF X e | Here _ => false end.
Definition won_over X (e : over F E X) : X -> option bool := match e with Below _ => fun _ => None | Here e => won X e end.
Definition banned_over X (e : over F E X) : bool := match e with Below _ => false | Here e => banned X e end.
Definition adm_over X (e : over F E X) : X -> Prop := match e with Below _ => fun _ => True | Here e => adm X e end.

(** At most [n] of the lower operation on every path. *)
Abbreviation atMost := (crit isDF (fun _ _ _ => None) (fun _ _ => false) free).

Hypothesis H_call : forall X (e : E X) q, P X e -> calls X e = Some q ->
  (forall x, won X e x = None) /\ (forall x, adm X e x) /\ atMost (if isD X e then 1 else 0) q.

Lemma atMost_none {A} (q : prog F A) : all_ops (fun X e => isDF X e = false) q -> atMost 0 q.
Proof. induction q as [a|X e k IH]; simpl; [done|]. intros [He Hk]. unfold price, free. rewrite He. by split_and!; auto. Qed.

Lemma atMost_lift {G : Type -> Type} (g : forall X, G X -> F X) (isDG : forall X, G X -> bool) {A} (q : prog G A) n :
  (forall X (e : G X), isDF X (g X e) = isDG X e) ->
  crit isDG (fun _ _ _ => None) (fun _ _ => false) free n q -> atMost n (lift g q).
Proof.
  intros Hg. revert n. induction q as [a|X e k IH]; intros n; simpl; [done|]. unfold price, free.
  intros (_ & _ & Hp & Hk). rewrite Hg. split_and!; [done | done | done |]. intros x. by apply IH.
Qed.

Lemma crit_below {A} (q : prog F A) n : atMost n q -> crit isD_over won_over banned_over free n (below q).
Proof.
  revert n. induction q as [a|X e k IH]; intros n; simpl; [done|]. intros (_ & _ & Hp & Hk).
  split_and!; [done | done | exact Hp |]. intros x. by apply IH.
Qed.

Lemma crit_link X (e : E X) n :
  P X e -> banned X e = false -> (forall x, won X e x = None) -> (price isD free X e <= n)%nat ->
  crit isD_over won_over banned_over free n (link calls X e).
Proof.
  intros HP Hb Hw Hp. unfold link. destruct (calls X e) as [q|] eqn:Eq.
  - destruct (H_call X e q HP Eq) as (_ & _ & Hq). apply crit_below. apply (crit_mono _ _ _ _ _ (if isD X e then 1 else 0)); [|done].
    unfold price, free in Hp. lia.
  - simpl. split_and!; [done | done | unfold price, free; simpl; lia | done].
Qed.

Lemma crit_linked {A} (p : prog E A) n :
  all_ops P p -> crit isD won banned free n p -> crit isD_over won_over banned_over free n (linked calls p).
Proof.
  revert n. induction p as [a|X e k IH]; intros n; simpl; [done|]. intros [HP HPk] (Hb & Hw & Hp & Hk).
  replace n with (price isD free X e + (n - price isD free X e))%nat by lia.
  apply crit_bind; [by apply crit_link|]. intros x. apply IH; [apply HPk | apply Hk].
Qed.

Lemma guarded_linked {A} (p : prog E A) :
  all_ops P p -> guarded isD won banned free adm p ->
  guarded isD_over won_over banned_over free adm_over (linked calls p).
Proof.
  induction p as [a|X e k IH]; simpl; [done|]. intros [HP HPk] (Hb & Hp & Hk).
  unfold linked. cbn [interp]. destruct (calls X e) as [q|] eqn:Eq.
  - destruct (H_call X e q HP Eq) as (Hw & Ha & _). apply guarded_bind; [by apply crit_link; [..|lia]|].
    intros x. apply IH; [apply HPk|]. specialize (Hk x (Ha x)). by rewrite Hw in Hk.
  - unfold link. rewrite Eq. simpl. split_and!; [done | done|]. intros x Hx. specialize (Hk x Hx).
    destruct (won X e x) as [[]|]; [by apply crit_linked | by apply crit_linked | by apply IH].
Qed.

(** However the steps of both components interleave, the lower operation is performed
    at most once. *)
Context {S T A : Type}.
Variables (lE : local_handler E S) (lF : local_handler F T) (env : oracle (over F E)).
Variables (J fresh : S -> Prop).

Hypothesis H_J : forall X (e : E X) x0 u x u',
  J u -> banned _ e = false -> lE X e x0 u = Some (x, u') -> J u' /\ adm X e x.
Hypothesis H_won : forall X (e : E X) x0 u x u',
  won X e x = Some true -> lE X e x0 u = Some (x, u') -> fresh u /\ ~ fresh u'.
Hypothesis H_other : forall X (e : E X) x0 u x u',
  banned _ e = false -> lE X e x0 u = Some (x, u') -> fresh u' -> fresh u.

Lemma at_most_once_linked (ps : list (prog E A)) t u c :
  J u -> Forall (fun p => all_ops P p /\ guarded isD won banned free adm p) ps ->
  rtc (pool_step (traced_handler (over_local lE lF) env) A (fun _ _ => [])) (map (linked calls) ps, start (t, u)) c ->
  (count (S := T * S) isD_over (snd c) <= 1)%nat.
Proof.
  intros HJ Hps.
  apply (at_most_once (over_local lE lF) env (fun _ _ => []) isD_over won_over banned_over free (fun s => J (snd s)) adm_over
    (fun s => fresh (snd s))); [| | | by exists [] | done |].
  - intros X [e|e] x0 [a b] x [a' b'] HJ1 Hb Hl; cbn in Hl.
    + destruct (lF X e x0 a) as [[y v]|]; [|done]. by injection Hl as <- <- <-.
    + destruct (lE X e x0 b) as [[y v]|] eqn:El; [|done]. injection Hl as <- <- <-. by eapply H_J.
  - intros X [e|e] x0 [a b] x [a' b'] Hw Hl; cbn in Hl; [done|]. destruct (lE X e x0 b) as [[y v]|] eqn:El; [|done].
    injection Hl as <- <- <-. by eapply H_won.
  - intros X [e|e] x0 [a b] x [a' b'] Hb Hl; cbn in Hl.
    + destruct (lF X e x0 a) as [[y v]|]; [|done]. by injection Hl as <- <- <-.
    + destruct (lE X e x0 b) as [[y v]|] eqn:El; [|done]. injection Hl as <- <- <-. by eapply H_other.
  - apply Forall_map. eapply Forall_impl; [exact Hps|]. intros p [Hp Hg]. by apply guarded_linked.
Qed.

End Linked.
