(* ===== verification/Sha256.v ===== *)
(** * SHA-256 ([crypto/sha256]), executable

    [GetContainerID] and [hostName] hash short strings with the standard
    library's SHA-256; the function is written out over 32-bit words so that both
    evaluate.  The two test vectors are those of FIPS 180-2. *)
From Stdlib Require Import ZArith Lia.
From Stdlib Require Import Ascii String.
From stdpp Require Import base list strings.
From S2P Require Import Prelude GoStrings.
Local Open Scope Z_scope.

Module Sha256.

Definition w32 (z : Z) : Z := Z.land z 4294967295.
Definition add32 (a b : Z) : Z := w32 (a + b).
Definition not32 (a : Z) : Z := Z.lxor a 4294967295.
Definition rotr (n x : Z) : Z := Z.lor (Z.shiftr x n) (w32 (Z.shiftl x (32 - n))).

Definition K : list Z :=
  [1116352408; 1899447441; 3049323471; 3921009573; 961987163; 1508970993; 2453635748; 2870763221;
   3624381080; 310598401; 607225278; 1426881987; 1925078388; 2162078206; 2614888103; 3248222580;
   3835390401; 4022224774; 264347078; 604807628; 770255983; 1249150122; 1555081692; 1996064986;
   2554220882; 2821834349; 2952996808; 3210313671; 3336571891; 3584528711; 113926993; 338241895;
   666307205; 773529912; 1294757372; 1396182291; 1695183700; 1986661051; 2177026350; 2456956037;
   2730485921; 2820302411; 3259730800; 3345764771; 3516065817; 3600352804; 4094571909; 275423344;
   430227734; 506948616; 659060556; 883997877; 958139571; 1322822218; 1537002063; 1747873779;
   1955562222; 2024104815; 2227730452; 2361852424; 2428436474; 2756734187; 3204031479; 3329325298].

Definition H0 : list Z :=
  [1779033703; 3144134277; 1013904242; 2773480762; 1359893119; 2600822924; 528734635; 1541459225].

Definition ch x y z := Z.lxor (Z.land x y) (Z.land (not32 x) z).
Definition maj x y z := Z.lxor (Z.lxor (Z.land x y) (Z.land x z)) (Z.land y z).
Definition bsig0 x := Z.lxor (Z.lxor (rotr 2 x) (rotr 13 x)) (rotr 22 x).
Definition bsig1 x := Z.lxor (Z.lxor (rotr 6 x) (rotr 11 x)) (rotr 25 x).
Definition ssig0 x := Z.lxor (Z.lxor (rotr 7 x) (rotr 18 x)) (Z.shiftr x 3).
Definition ssig1 x := Z.lxor (Z.lxor (rotr 17 x) (rotr 19 x)) (Z.shiftr x 10).

(** Message schedule; [w] is kept newest first. *)
Fixpoint extend (n : nat) (w : list Z) : list Z :=
  match n with
  | O => w
  | S n =>
      let at_ i := nth i w 0 in
      extend n (add32 (add32 (ssig1 (at_ 1%nat)) (at_ 6%nat)) (add32 (ssig0 (at_ 14%nat)) (at_ 15%nat)) :: w)
  end.

Definition schedule (block : list Z) : list Z := rev (extend 48 (rev block)).

Definition round (st : list Z) (kw : Z * Z) : list Z :=
  match st with
  | [a; b; c; d; e; f; g; h] =>
      let t1 := add32 (add32 h (bsig1 e)) (add32 (ch e f g) (add32 (fst kw) (snd kw))) in
      let t2 := add32 (bsig0 a) (maj a b c) in
      [add32 t1 t2; a; b; c; add32 d t1; e; f; g]
  | _ => st
  end.

Definition compress (st block : list Z) : list Z :=
  zip_with add32 st (foldl round st (combine K (schedule block))).

Definition word (bs : list Z) : Z := foldl (fun acc b => acc * 256 + b) 0 bs.

Fixpoint chunks (fuel n : nat) (l : list Z) : list (list Z) :=
  match fuel, l with
  | O, _ | _, [] => []
  | S fuel, _ => take n l :: chunks fuel n (drop n l)
  end.

Definition be_bytes (n : nat) (z : Z) : list Z :=
  rev (map (fun i => Z.land (Z.shiftr z (8 * Z.of_nat i)) 255) (seq 0 n)).

(** A one bit, zeros up to 56 modulo 64 bytes, the bit length in eight bytes. *)
Definition pad (m : list Z) : list Z :=
  let len := length m in
  let zeros := Z.to_nat ((55 - Z.of_nat len) mod 64) in
  m ++ [128] ++ replicate zeros 0 ++ be_bytes 8 (8 * Z.of_nat len).

Definition blocks (m : list Z) : list (list Z) :=
  let p := pad m in
  map (fun b => map word (chunks 16 4 b)) (chunks (length p) 64 p).

Definition fix8 (st : list Z) : list Z := take 8 (st ++ replicate 8 0).

(** [sha256.Sum256]: 32 bytes. *)
Definition Sum256 (m : list Z) : list Z :=
  concat (map (be_bytes 4) (fix8 (foldl compress H0 (blocks m)))).

Definition hexdigest (s : string) : string := Str.hex (Sum256 (Str.bytes s)).

Example sha_empty :
  hexdigest "" = "e3b0c44298fc1c149afbf4c8996fb92427ae41e4649b934ca495991b7852b855"%string.
Proof. vm_compute. reflexivity. Qed.

Example sha_abc :
  hexdigest "abc" = "ba7816bf8f01cfea414140de5dae2223b00361a396177a9cb410ff61f20015ad"%string.
Proof. vm_compute. reflexivity. Qed.

Lemma length_be_bytes n z : length (be_bytes n z) = n.
Proof. unfold be_bytes. by rewrite length_rev, length_map, length_seq. Qed.

Lemma length_fix8 st : length (fix8 st) = 8%nat.
Proof. unfold fix8. rewrite length_take, length_app, length_replicate. lia. Qed.

Lemma length_Sum256 m : length (Sum256 m) = 32%nat.
Proof.
  unfold Sum256.
  pose proof (length_fix8 (foldl compress H0 (blocks m))) as Hl.
  destruct (fix8 _) as [|? [|? [|? [|? [|? [|? [|? [|? [|]]]]]]]]]; try done.
Qed.

Lemma be_bytes_range n z b : b ∈ be_bytes n z -> 0 <= b < 256.
Proof.
  unfold be_bytes. rewrite list_elem_of_In, <- in_rev, in_map_iff.
  intros (i & <- & _). change 255 with (Z.ones 8). rewrite Z.land_ones by lia.
  apply Z.mod_pos_bound. lia.
Qed.

Lemma Sum256_range m b : b ∈ Sum256 m -> 0 <= b < 256.
Proof.
  unfold Sum256. rewrite list_elem_of_In, in_concat.
  intros (l & Hl & Hb). apply in_map_iff in Hl as (w & <- & _).
  eapply be_bytes_range, list_elem_of_In, Hb.
Qed.

(** A hash in hexadecimal is 64 characters of [0-9a-f]. *)
Definition is_hex_char (c : Ascii.ascii) : bool := Str.is_digit c || Str.in_range "a"%char "f"%char c.

Lemma hex_digit_ok z : 0 <= z < 16 -> is_hex_char (Str.hex_digit z) = true.
Proof.
  intros H.
  assert (z ∈ map Z.of_nat (seq 0 16)) as Hin.
  { apply list_elem_of_In, in_map_iff. exists (Z.to_nat z). rewrite in_seq. lia. }
  revert Hin. generalize z. clear. intros z Hin.
  assert (Forall (fun z => is_hex_char (Str.hex_digit z) = true) (map Z.of_nat (seq 0 16))) as HF
    by (vm_compute; repeat constructor).
  rewrite Forall_forall in HF. by apply HF.
Qed.

Lemma hex_chars bs :
  (forall b, b ∈ bs -> 0 <= b < 256) -> Str.all_chars is_hex_char (Str.hex bs) = true.
Proof.
  induction bs as [|b bs IH]; intros H; [done|].
  cbn [Str.hex]. rewrite Str.all_chars_app, IH; [|intros ? ?; apply H; by right].
  assert (0 <= b < 256) as Hb by (apply H; left).
  unfold Str.hex_byte. cbn [Str.all_chars].
  rewrite !hex_digit_ok; [done | |].
  - change 15 with (Z.ones 4). rewrite Z.land_ones by lia. apply Z.mod_pos_bound. lia.
  - rewrite Z.shiftr_div_pow2 by lia. split; [apply Z.div_pos; lia | apply Z.div_lt_upper_bound; lia].
Qed.

Lemma hexdigest_length s : String.length (hexdigest s) = 64%nat.
Proof. unfold hexdigest. by rewrite Str.length_hex, length_Sum256. Qed.

Lemma hexdigest_chars s : Str.all_chars is_hex_char (hexdigest s) = true.
Proof. apply hex_chars. intros b. apply Sum256_range. Qed.

End Sha256.
