(* ===== verification/GoFormat.v ===== *)
(** * Formatting and number conversion of the Go standard library

    [strconv.Quote] (also [fmt]'s [%q]), IEEE-754 doubles as [SpecFloat] defines
    them (no axioms), the conversions between doubles and integers, and [ParseInt]. *)
From Stdlib Require Import ZArith Lia.
From Stdlib Require Import Ascii String.
From Stdlib Require Import SpecFloat.
From stdpp Require Import base list strings.
From S2P Require Import Prelude GoStrings GoErrors.
Local Open Scope string_scope.

(** ** strconv.Quote *)

(** [unicode.IsPrint] above ASCII is a table of the Unicode version Go ships with;
    nothing below depends on its contents. *)
Class PrintTable : Type := is_print_high : Z -> bool.

Module Quote.

Definition backslash : ascii := "092"%char.

Definition is_print `{PrintTable} (r : Z) : bool :=
  if (r <? 128)%Z then ((32 <=? r) && (r <=? 126))%Z else is_print_high r.

Definition esc1 (c : ascii) : string := String backslash (String c EmptyString).

Fixpoint hexn (n : nat) (z : Z) : string :=
  match n with
  | O => EmptyString
  | S n => hexn n (Z.shiftr z 4) ++ String (Str.hex_digit (Z.land z 15)) EmptyString
  end.

(** One rune of the input, [bs] being its bytes. *)
Definition escape `{PrintTable} (r : option Z) (bs : string) : string :=
  match r with
  | None =>
      String backslash (String "x" (match bs with String c _ => hexn 2 (Str.byte c) | _ => EmptyString end))
  | Some r =>
      if ((r =? 34) || (r =? 92))%Z then String backslash bs
      else if is_print r then bs
      else if (r =? 7)%Z then esc1 "a" else if (r =? 8)%Z then esc1 "b"
      else if (r =? 12)%Z then esc1 "f" else if (r =? 10)%Z then esc1 "n"
      else if (r =? 13)%Z then esc1 "r" else if (r =? 9)%Z then esc1 "t"
      else if (r =? 11)%Z then esc1 "v"
      else if ((r <? 32) || (r =? 127))%Z then String backslash (String "x" (hexn 2 r))
      else if (r <? 65536)%Z then String backslash (String "u" (hexn 4 r))
      else String backslash (String "U" (hexn 8 r))
  end.

Definition quote `{PrintTable} (s : string) : string :=
  Str.dquote_s ++ String.concat "" (map (fun '(r, bs) => escape r bs) (Str.runes s)) ++ Str.dquote_s.

(** What a double-quoted word holds can not close the quotes or run on to the next
    line: no newline, and every double quote comes right after a backslash. *)
Fixpoint closed_quotes (esc : bool) (s : string) : bool :=
  match s with
  | EmptyString => negb esc
  | String c s =>
      if esc then closed_quotes false s
      else if Ascii.eqb c backslash then closed_quotes true s
      else negb (Ascii.eqb c Str.dquote) && negb (Ascii.eqb c Str.nl) && closed_quotes false s
  end.

End Quote.

(** ** float64 *)

Module F64.
Local Open Scope Z_scope.

Definition prec := 53.
Definition emax := 1024.

Definition t := spec_float.

(** [float64(n)]: round to nearest, ties to even. *)
Definition of_Z (n : Z) : t := binary_normalize prec emax n 0 false.
Definition mul : t -> t -> t := SFmul prec emax.
Definition div : t -> t -> t := SFdiv prec emax.
Definition ltb : t -> t -> bool := SFltb.

(** Truncation toward zero; [None] for infinities and NaN. *)
Definition trunc (x : t) : option Z :=
  match x with
  | S754_zero _ => Some 0
  | S754_finite s m e =>
      let v := if 0 <=? e then Z.pos m * 2 ^ e else Z.pos m / 2 ^ (- e) in
      Some (if s then - v else v)
  | _ => None
  end.

(** [uint64(x)].  Go leaves a value out of range to the implementation; on
    darwin/arm64 the conversion instruction saturates, NaN giving 0. *)
Definition to_u64 (x : t) : Z :=
  match x with
  | S754_nan => 0
  | S754_infinity s => if s then 0 else 2 ^ 64 - 1
  | _ => match trunc x with
         | Some z => Z.max 0 (Z.min z (2 ^ 64 - 1))
         | None => 0
         end
  end.

Example div_mul : to_u64 (mul (div (of_Z 1) (of_Z 4)) (of_Z 1000)) = 250.
Proof. reflexivity. Qed.

Lemma to_u64_range x : is_u64 (to_u64 x).
Proof.
  unfold is_u64, to_u64. destruct x as [s|s| |s m e]; [| destruct s | |]; try lia;
    destruct (trunc _); lia.
Qed.

End F64.

(** ** strconv *)
Module Strconv.

(** The value of a run of decimal digits; a value beyond 64 bits stops the reading at
    the largest one. *)
Fixpoint digitsValue (acc : Z) (s : string) : option Z :=
  match s with
  | EmptyString => Some acc
  | String c s =>
      if Str.is_digit c then
        let v := (acc * 10 + (Str.byte c - 48))%Z in
        if (2 ^ 64 <=? v)%Z then Some (2 ^ 64 - 1)%Z else digitsValue v s
      else None
  end.

(** [strconv.ParseInt(s, 10, 64)] *)
Definition ParseInt `{PrintTable} (s : string) : Z + error :=
  let numErr m := inr (errMsg ("strconv.ParseInt: parsing " ++ Quote.quote s ++ ": " ++ m)) in
  let '(neg, digits) := match s with
    | String c t => if Ascii.eqb c "-" then (true, t) else if Ascii.eqb c "+" then (false, t) else (false, s)
    | EmptyString => (false, s)
    end in
  if String.eqb digits "" then numErr "invalid syntax"
  else
    match digitsValue 0 digits with
    | None => numErr "invalid syntax"
    | Some v =>
        if (if neg : bool then (2 ^ 63 <? v)%Z else (2 ^ 63 <=? v)%Z) then numErr "value out of range"
        else inl (if neg then (- v)%Z else v)
    end.

Lemma digitsValue_bounds s acc v :
  (0 <= acc < 2 ^ 64)%Z -> digitsValue acc s = Some v -> (0 <= v < 2 ^ 64)%Z.
Proof.
  revert acc. induction s as [|c s IH]; intros acc Hacc; cbn [digitsValue]; [by intros [= <-]|].
  destruct (Str.is_digit c) eqn:Ed; [|done].
  assert (48 <= Str.byte c)%Z as Hc.
  { revert Ed. destruct c as [[] [] [] [] [] [] [] []]; intros Ed; first [done | vm_compute in Ed; discriminate Ed]. }
  destruct (2 ^ 64 <=? _)%Z eqn:E; [intros [= <-]; lia|]. apply IH. lia.
Qed.

Lemma ParseInt_range `{PrintTable} s v : ParseInt s = inl v -> is_i64 v.
Proof.
  unfold ParseInt. destruct (match s with EmptyString => _ | _ => _ end) as [neg d].
  destruct (String.eqb d ""); [done|]. destruct (digitsValue 0 d) as [w|] eqn:E; [|done].
  pose proof (digitsValue_bounds d 0 w ltac:(lia) E). unfold is_i64.
  destruct neg; destruct (_ : bool) eqn:Eb; try done; intros [= <-]; lia.
Qed.

(** *** Decimal text and its value *)

Lemma digit_byte z : (0 <= z < 10)%Z -> Str.byte (Str.digit z) = (48 + z)%Z.
Proof. intros Hz. unfold Str.digit, Str.chr, Str.byte. rewrite N_ascii_embedding by lia. lia. Qed.

Lemma digit_is_digit z : (0 <= z < 10)%Z -> Str.is_digit (Str.digit z) = true.
Proof.
  intros Hz. unfold Str.is_digit, Str.in_range. rewrite digit_byte by done.
  change (Str.byte "0") with 48%Z. change (Str.byte "9") with 57%Z. lia.
Qed.

Lemma digitsValue_digit a z s : (0 <= z < 10)%Z ->
  digitsValue a (String (Str.digit z) s) =
  if (2 ^ 64 <=? a * 10 + z)%Z then Some (2 ^ 64 - 1)%Z else digitsValue (a * 10 + z) s.
Proof.
  intros Hz. cbn [digitsValue]. rewrite digit_is_digit, digit_byte by done.
  by replace (a * 10 + (48 + z - 48))%Z with (a * 10 + z)%Z by lia.
Qed.

Lemma digitsValue_itoa_pos fuel z rest :
  (0 <= z < 10 ^ Z.of_nat fuel)%Z -> (z < 2 ^ 64)%Z ->
  digitsValue 0 (Str.itoa_pos fuel z rest) = digitsValue z rest.
Proof.
  revert z rest. induction fuel as [|fuel IH]; intros z rest Hz Hu.
  { simpl. by replace z with 0%Z by (simpl in Hz; lia). }
  pose proof (Z.mod_pos_bound z 10 ltac:(lia)) as Hm. pose proof (Z.div_mod z 10 ltac:(lia)) as Hdm.
  cbn [Str.itoa_pos]. destruct (z <? 10)%Z eqn:E.
  - rewrite Z.mod_small, digitsValue_digit by lia. replace (2 ^ 64 <=? 0 * 10 + z)%Z with false by lia. done.
  - rewrite IH, digitsValue_digit; [|done| |lia].
    + replace (2 ^ 64 <=? z / 10 * 10 + z mod 10)%Z with false by lia. f_equal. lia.
    + rewrite Nat2Z.inj_succ, Z.pow_succ_r in Hz by lia. split; [apply Z.div_pos; lia|].
      apply Z.div_lt_upper_bound; lia.
Qed.

(** The text of a number has no leading zero. *)
Definition canonical_digits (s : string) : bool :=
  match s with
  | EmptyString => false
  | String c r => Str.all_chars Str.is_digit s && (String.eqb r "" || negb (Ascii.eqb c "0"))
  end.

Lemma itoa_pos_canonical fuel z rest :
  (0 < z < 10 ^ Z.of_nat fuel)%Z -> Str.all_chars Str.is_digit rest = true ->
  exists c r, Str.itoa_pos fuel z rest = String c r /\
    Str.all_chars Str.is_digit (String c r) = true /\ Ascii.eqb c "0" = false.
Proof.
  revert z rest. induction fuel as [|fuel IH]; intros z rest Hz Hr; [simpl in Hz; lia|].
  pose proof (Z.mod_pos_bound z 10 ltac:(lia)) as Hm.
  assert (Str.all_chars Str.is_digit (String (Str.digit (z mod 10)) rest) = true) as Ha.
  { cbn [Str.all_chars]. by rewrite digit_is_digit, Hr. }
  cbn [Str.itoa_pos]. destruct (z <? 10)%Z eqn:E.
  - eexists _, _. split_and!; [done | done |]. rewrite Z.mod_small by lia.
    destruct (Ascii.eqb_spec (Str.digit z) "0") as [Hc|]; [|done].
    apply (f_equal Str.byte) in Hc. rewrite digit_byte in Hc by lia. vm_compute (Str.byte "0") in Hc. lia.
  - apply IH; [|done]. rewrite Nat2Z.inj_succ, Z.pow_succ_r in Hz by lia.
    assert (1 <= z / 10)%Z by (apply Z.div_le_lower_bound; lia).
    assert (z / 10 < 10 ^ Z.of_nat fuel)%Z by (apply Z.div_lt_upper_bound; lia). lia.
Qed.

Lemma itoa_canonical z : (0 <= z < 2 ^ 64)%Z -> canonical_digits (Str.itoa z) = true.
Proof.
  intros Hz. unfold Str.itoa. replace (z <? 0)%Z with false by lia.
  destruct (decide (z = 0)%Z) as [->|]; [done|].
  destruct (itoa_pos_canonical 20 z "") as (c & r & -> & Ha & Hc); [simpl; lia | done |].
  unfold canonical_digits. rewrite Ha, Hc. by destruct (String.eqb r "").
Qed.

(** [ParseInt] reads the text of a number back, and refuses a number that does not
    fit. *)
Lemma ParseInt_itoa `{PrintTable} z : (0 <= z < 2 ^ 63)%Z -> ParseInt (Str.itoa z) = inl z.
Proof.
  intros Hz. pose proof (itoa_canonical z ltac:(lia)) as Hc.
  unfold ParseInt. destruct (Str.itoa z) as [|c r] eqn:E; [done|].
  assert (Str.is_digit c = true) as Hd.
  { unfold canonical_digits in Hc. cbn [Str.all_chars] in Hc. by destruct (Str.is_digit c). }
  replace (Ascii.eqb c "-") with false by (destruct c as [[] [] [] [] [] [] [] []]; done).
  replace (Ascii.eqb c "+") with false by (destruct c as [[] [] [] [] [] [] [] []]; done).
  change (String.eqb (String c r) "") with false. cbv iota.
  rewrite <- E. unfold Str.itoa. replace (z <? 0)%Z with false by lia.
  rewrite digitsValue_itoa_pos by (simpl; lia). cbn [digitsValue].
  by replace (2 ^ 63 <=? z)%Z with false by lia.
Qed.

End Strconv.
