(* ===== verification/GoTime.v ===== *)
(** * Go's [time] package, as far as the program uses it

    An instant is the number of nanoseconds since the zero [time.Time]
    (1 January of year 1, UTC), so [IsZero] is a comparison with 0; a
    [time.Duration] is a signed 64-bit number of nanoseconds. *)
From Stdlib Require Import ZArith Lia.
From Stdlib Require Import Ascii String.
From stdpp Require Import base list strings.
From S2P Require Import Prelude GoStrings GoFormat.
Local Open Scope Z_scope.

Module Time.

Definition t := Z.
Definition zero : t := 0.
Definition IsZero (x : t) : bool := x =? 0.
Definition Before (x y : t) : bool := x <? y.
Definition After (x y : t) : bool := y <? x.

Definition Second : Z := 1000000000.
Definition Millisecond : Z := 1000000.

(** ** Calendar *)

Definition leap (y : Z) : bool := (y mod 4 =? 0) && (negb (y mod 100 =? 0) || (y mod 400 =? 0)).

Definition days_in (m y : Z) : Z :=
  if m =? 2 then (if leap y then 29 else 28)
  else if (m =? 4) || (m =? 6) || (m =? 9) || (m =? 11) then 30 else 31.

(** Days before January 1 of year [y], counted from year 1. *)
Definition days_before_year (y : Z) : Z :=
  let p := y - 1 in 365 * p + p / 4 - p / 100 + p / 400.

Definition days_before_month (m y : Z) : Z :=
  foldl (fun acc k => acc + (if Z.of_nat k <? m then days_in (Z.of_nat k) y else 0)) 0 (seq 1 12).

Definition date (y mo d h mi s ns off : Z) : t :=
  ((days_before_year y + days_before_month mo y + (d - 1)) * 86400 + h * 3600 + mi * 60 + s - off)
    * Second + ns.

(** ** time.Parse(time.RFC3339, s): [None] stands for an error *)

Local Open Scope string_scope.

Definition num (c : ascii) : option Z := if Str.is_digit c then Some (Str.byte c - 48)%Z else None.

(** [getnum]: two digits, or one when [fixed] is false and the second is none. *)
Definition getnum (fixed : bool) (s : string) : option (Z * string) :=
  match s with
  | String a s1 =>
      x ← num a;
      match s1 with
      | String b s2 =>
          match num b with
          | Some y => Some (10 * x + y, s2)%Z
          | None => if fixed then None else Some (x, s1)
          end
      | EmptyString => if fixed then None else Some (x, s1)
      end
  | EmptyString => None
  end.

Definition lit (c : ascii) (s : string) : option string :=
  match s with String d s => if Ascii.eqb c d then Some s else None | _ => None end.

Definition year4 (s : string) : option (Z * string) :=
  match s with
  | String a (String b (String c (String d s))) =>
      w ← num a; x ← num b; y ← num c; z ← num d;
      Some (1000 * w + 100 * x + 10 * y + z, s)%Z
  | _ => None
  end.

Fixpoint digits (s : string) : list Z * string :=
  match s with
  | String c s' => match num c with
                   | Some x => let '(l, r) := digits s' in (x :: l, r)
                   | None => ([], s)
                   end
  | EmptyString => ([], s)
  end.

(** At most nine digits of a fraction count. *)
Definition nanos (ds : list Z) : Z :=
  foldl (fun acc x => 10 * acc + x)%Z 0%Z (take 9 (ds ++ replicate 9 0%Z)).

(** A fraction after the seconds is accepted though the layout has none. *)
Definition fraction (s : string) : Z * string :=
  match s with
  | String p (String c _ as s') =>
      if (Ascii.eqb p "." || Ascii.eqb p ",") && Str.is_digit c
      then let '(ds, r) := digits s' in (nanos ds, r)
      else (0%Z, s)
  | _ => (0%Z, s)
  end.

(** The offset in seconds. *)
Definition zone (s : string) : option (Z * string) :=
  match s with
  | String "Z" s => Some (0%Z, s)
  | String sg s =>
      sign ← (if Ascii.eqb sg "+" then Some 1%Z else if Ascii.eqb sg "-" then Some (-1)%Z else None);
      '(h, s) ← getnum true s;
      s ← lit ":" s;
      '(m, s) ← getnum true s;
      if ((h <=? 24) && (m <=? 60))%Z then Some (sign * (h * 3600 + m * 60), s)%Z else None
  | EmptyString => None
  end.

Definition in_rng (lo x hi : Z) : option unit :=
  if ((lo <=? x) && (x <=? hi))%Z then Some tt else None.

Definition parseRFC3339 (s : string) : option t :=
  '(y, s) ← year4 s; s ← lit "-" s;
  '(mo, s) ← getnum true s; _ ← in_rng 1 mo 12; s ← lit "-" s;
  '(d, s) ← getnum true s; s ← lit "T" s;
  '(h, s) ← getnum false s; _ ← in_rng 0 h 23; s ← lit ":" s;
  '(mi, s) ← getnum true s; _ ← in_rng 0 mi 59; s ← lit ":" s;
  '(se, s) ← getnum true s; _ ← in_rng 0 se 59;
  let '(ns, s) := fraction s in
  '(off, s) ← zone s;
  _ ← in_rng 1 d (days_in mo y);
  match s with EmptyString => Some (date y mo d h mi se ns off) | _ => None end.

Example parse_zero : parseRFC3339 "0001-01-01T00:00:00Z" = Some 0%Z.
Proof. reflexivity. Qed.

Example parse_frac :
  parseRFC3339 "2024-02-29T23:59:59.5+01:00" = Some (date 2024 2 29 23 59 59 500000000 3600).
Proof. reflexivity. Qed.

Example parse_bad_day : parseRFC3339 "2023-02-29T00:00:00Z" = None.
Proof. reflexivity. Qed.

(** ** time.ParseDuration: [None] stands for an error *)

Definition two63 : Z := 9223372036854775808.

(** [leadingInt]: the leading digits; [None] on overflow. *)
Fixpoint leadingInt (x : Z) (s : string) : option (Z * string) :=
  match s with
  | String c s' =>
      match num c with
      | Some k =>
          if (two63 / 10 <? x)%Z then None
          else let x := (x * 10 + k)%Z in
               if (two63 <? x)%Z then None else leadingInt x s'
      | None => Some (x, s)
      end
  | EmptyString => Some (x, s)
  end.

(** [leadingFraction]: digits beyond 63 bits are dropped. *)
Fixpoint leadingFraction (overflow : bool) (x : Z) (scale : F64.t) (s : string)
  : Z * F64.t * string :=
  match s with
  | String c s' =>
      match num c with
      | Some k =>
          if overflow then leadingFraction true x scale s'
          else if ((two63 - 1) / 10 <? x)%Z then leadingFraction true x scale s'
          else let y := (x * 10 + k)%Z in
               if (two63 <? y)%Z then leadingFraction true x scale s'
               else leadingFraction false y (F64.mul scale (F64.of_Z 10)) s'
      | None => (x, scale, s)
      end
  | EmptyString => (x, scale, s)
  end.

Fixpoint take_unit (s : string) : string * string :=
  match s with
  | String c s' =>
      if Ascii.eqb c "." || Str.is_digit c then (EmptyString, s)
      else let '(u, r) := take_unit s' in (String c u, r)
  | EmptyString => (EmptyString, s)
  end.

(** U+00B5 and U+03BC, the two spellings of micro. *)
Definition micro1 : string := String "194" (String "181" "s").
Definition micro2 : string := String "206" (String "188" "s").

Definition unit_of (u : string) : option Z :=
  if String.eqb u "ns" then Some 1%Z
  else if String.eqb u "us" || String.eqb u micro1 || String.eqb u micro2 then Some 1000%Z
  else if String.eqb u "ms" then Some 1000000%Z
  else if String.eqb u "s" then Some 1000000000%Z
  else if String.eqb u "m" then Some 60000000000%Z
  else if String.eqb u "h" then Some 3600000000000%Z
  else None.

(** One [number unit] group. *)
Definition group (s : string) : option (Z * string) :=
  match s with
  | String c _ =>
      if Ascii.eqb c "." || Str.is_digit c then
        '(v, s1) ← leadingInt 0 s;
        let pre := negb (String.length s =? String.length s1)%nat in
        let '(f, scale, s2, post) :=
          match s1 with
          | String "." s1' =>
              let '(f, scale, r) := leadingFraction false 0 (F64.of_Z 1) s1' in
              (f, scale, r, negb (String.length s1' =? String.length r)%nat)
          | _ => (0%Z, F64.of_Z 1, s1, false)
          end in
        if pre || post then
          let '(u, s3) := take_unit s2 in
          unit ← unit_of u;
          if (two63 / unit <? v)%Z then None
          else
            let v := (v * unit)%Z in
            let v := if (0 <? f)%Z
                     then wrap_u64 (v + F64.to_u64 (F64.mul (F64.of_Z f) (F64.div (F64.of_Z unit) scale)))
                     else v in
            if ((0 <? f) && (two63 <? v))%Z then None else Some (v, s3)
        else None
      else None
  | EmptyString => None
  end.

(** The loop over the groups; each takes at least a byte, so the length of the
    string is enough fuel. *)
Fixpoint groups (fuel : nat) (d : Z) (s : string) : option Z :=
  match s with
  | EmptyString => Some d
  | _ =>
      match fuel with
      | O => None
      | S fuel =>
          '(v, s) ← group s;
          let d := wrap_u64 (d + v) in
          if (two63 <? d)%Z then None else groups fuel d s
      end
  end.

Definition ParseDuration (s : string) : option Z :=
  let '(neg, s) := match s with
                   | String "-" s => (true, s)
                   | String "+" s => (false, s)
                   | _ => (false, s)
                   end in
  if String.eqb s "0" then Some 0%Z
  else if String.eqb s "" then None
  else
    d ← groups (String.length s) 0 s;
    if neg then Some (wrap_i64 (- wrap_i64 d))
    else if (two63 - 1 <? d)%Z then None else Some d.

Example dur1 : ParseDuration "1h2m3.5s" = Some 3723500000000%Z.
Proof. vm_compute. reflexivity. Qed.

Example dur2 : ParseDuration "-5s" = Some (-5000000000)%Z.
Proof. vm_compute. reflexivity. Qed.

Example dur3 : ParseDuration "5" = None.
Proof. vm_compute. reflexivity. Qed.

(** [Duration] values fit a signed 64-bit integer. *)
Lemma ParseDuration_range s d : ParseDuration s = Some d -> is_i64 d.
Proof.
  unfold ParseDuration.
  destruct (match s with EmptyString => _ | _ => _ end) as [neg s'].
  destruct (String.eqb s' "0"); [intros [= <-]; unfold is_i64; lia|].
  destruct (String.eqb s' ""); [done|].
  assert (forall fuel acc r x, (0 <= acc <= two63)%Z -> groups fuel acc r = Some x -> (0 <= x <= two63)%Z) as Hg.
  { induction fuel as [|fuel IH]; intros acc r x Hacc; destruct r as [|c r]; cbn [groups]; try done.
    - by intros [= <-].
    - by intros [= <-].
    - destruct (group _) as [[v s1]|]; simpl; [|done].
      destruct (two63 <? wrap_u64 (acc + v))%Z eqn:E; [done|].
      apply IH. pose proof (wrap_u64_range (acc + v)). unfold is_u64 in *. bool_lia. }
  destruct (groups _ _ _) as [x|] eqn:Eg; simpl; [|done].
  apply Hg in Eg; [|unfold two63; lia]. destruct neg.
  - intros [= <-]. apply wrap_i64_range.
  - destruct (two63 - 1 <? x)%Z eqn:E; [done|]. intros [= <-]. unfold is_i64, two63 in *. bool_lia.
Qed.

(** ** [Duration.String] *)

(** The digits of [v mod 10^prec], without trailing zeros, behind a point. *)
Fixpoint pad_digits (n : nat) (v : Z) : string :=
  match n with
  | O => EmptyString
  | S n => pad_digits n (v / 10)%Z ++ String (Str.digit (v mod 10)%Z) EmptyString
  end.

Definition frac (v : Z) (prec : nat) : string :=
  match Str.trim_right (fun c => Ascii.eqb c "0") (pad_digits prec v) with
  | EmptyString => EmptyString
  | ds => "." ++ ds
  end.

Definition micro_s : string := String "194" (String "181" "s").   (* the micro sign in UTF-8 *)

Definition Duration_String (d : Z) : string :=
  let u := Z.abs d in
  let body :=
    if (u =? 0)%Z then "0s"
    else if (u <? 1000)%Z then Str.itoa u ++ "ns"
    else if (u <? 1000000)%Z then Str.itoa (u / 1000)%Z ++ frac u 3 ++ micro_s
    else if (u <? Second)%Z then Str.itoa (u / 1000000)%Z ++ frac u 6 ++ "ms"
    else
      let s := (u / Second)%Z in
      let secs := Str.itoa (s mod 60)%Z ++ frac u 9 ++ "s" in
      let m := (s / 60)%Z in
      if (m =? 0)%Z then secs
      else
        let mins := Str.itoa (m mod 60)%Z ++ "m" ++ secs in
        let h := (m / 60)%Z in
        if (h =? 0)%Z then mins else Str.itoa h ++ "h" ++ mins in
  if (d <? 0)%Z then "-" ++ body else body.

Example duration_1 : Duration_String (60 * Second)%Z = "1m0s".
Proof. vm_compute. reflexivity. Qed.

Example duration_2 : Duration_String 1500000000 = "1.5s".
Proof. vm_compute. reflexivity. Qed.

Example duration_3 : Duration_String (- 3661 * Second - 20000000)%Z = "-1h1m1.02s".
Proof. vm_compute. reflexivity. Qed.

End Time.
