(* ===== verification/EnvCfg.v ===== *)
(** * internal/envcfg: durations from environment variables

    [ResolveDuration] and the three timeouts built on it.  An environment is a
    function from names to values ([os.Getenv] gives the empty string for an unset
    name).  The text of [time.ParseDuration]'s own error is not modelled. *)
From Stdlib Require Import ZArith Lia.
From Stdlib Require Import String.
From stdpp Require Import base strings.
From S2P Require Import Prelude GoStrings GoFormat GoErrors GoTime.
Local Open Scope string_scope.

Module EnvCfg.

Definition environ := string -> string.

Section EnvCfg.
Context `{PrintTable}.

(* src/internal/envcfg/envcfg.go : ResolveDuration *)
Definition ResolveDuration (envValue : string) (def : Z) : Z * option error :=
  let v := Str.trim_space envValue in
  if String.eqb v "" then (def, None)
  else
    match Time.ParseDuration v with
    | None => (def, Some (Errorf ("invalid duration " ++ Quote.quote v)
                            (errMsg "time: invalid duration")))
    | Some d =>
        if (d <=? 0)%Z
        then (def, Some (errMsg ("duration " ++ Quote.quote v ++ " must be positive")))
        else (d, None)
    end.

(* src/internal/envcfg/sshdialtimeout.go : 12-12 defaultSSHDialTimeout *)
Definition defaultSSHDialTimeout : Z := 5 * Time.Second.

(* src/internal/envcfg/sshdialtimeout.go : SSHDialTimeout *)
Definition SSHDialTimeout (Getenv : environ) : Z :=
  fst (ResolveDuration (Getenv "VZ_SSH_DIAL_TIMEOUT") defaultSSHDialTimeout).

(* src/internal/envcfg/poststarttimeout.go : 17-17 defaultPostStartTimeout *)
Definition defaultPostStartTimeout : Z := 10 * Time.Second.

(* src/internal/envcfg/poststarttimeout.go : PostStartTimeoutChecked *)
Definition PostStartTimeoutChecked (Getenv : environ) : Z * option error :=
  ResolveDuration (Getenv "VZ_POSTSTART_TIMEOUT") defaultPostStartTimeout.

(* src/internal/envcfg/sshreadinesstimeout.go : 16-16 defaultSSHReadinessTimeout *)
Definition defaultSSHReadinessTimeout : Z := 60 * Time.Second.

(* src/internal/envcfg/sshreadinesstimeout.go : SSHReadinessTimeout *)
Definition SSHReadinessTimeout (Getenv : environ) : Z :=
  fst (ResolveDuration (Getenv "VZ_SSH_READINESS_TIMEOUT") defaultSSHReadinessTimeout).

(** ** Every outcome of [ResolveDuration] *)

(** The result is the default, or a positive duration that the value denotes. *)
Lemma ResolveDuration_cases s def :
  (fst (ResolveDuration s def) = def) \/
  (snd (ResolveDuration s def) = None /\
   Time.ParseDuration (Str.trim_space s) = Some (fst (ResolveDuration s def)) /\
   (0 < fst (ResolveDuration s def))%Z).
Proof.
  unfold ResolveDuration. destruct (String.eqb _ ""); [by left|].
  destruct (Time.ParseDuration _) as [d|]; [|by left].
  destruct (d <=? 0)%Z eqn:E; [by left|]. right. simpl. split_and!; [done | done | bool_lia].
Qed.

Lemma ResolveDuration_ok s def :
  (0 < def)%Z -> is_i64 def ->
  (0 < fst (ResolveDuration s def))%Z /\ is_i64 (fst (ResolveDuration s def)).
Proof.
  intros Hd Hr. destruct (ResolveDuration_cases s def) as [->|(_ & Hp & Hpos)]; [done|].
  split; [done | by eapply Time.ParseDuration_range].
Qed.

(** Whatever the environment holds, each of the three timeouts is a positive
    duration that fits 64 bits, and one that comes with an error is the default. *)
Lemma timeouts_positive (Getenv : environ) :
  (0 < SSHDialTimeout Getenv)%Z /\ is_i64 (SSHDialTimeout Getenv) /\
  (0 < SSHReadinessTimeout Getenv)%Z /\ is_i64 (SSHReadinessTimeout Getenv) /\
  (0 < fst (PostStartTimeoutChecked Getenv))%Z /\ is_i64 (fst (PostStartTimeoutChecked Getenv)) /\
  (is_Some (snd (PostStartTimeoutChecked Getenv)) ->
   fst (PostStartTimeoutChecked Getenv) = defaultPostStartTimeout).
Proof.
  unfold SSHDialTimeout, SSHReadinessTimeout, PostStartTimeoutChecked.
  assert (forall k d, (0 < d < 1000)%Z -> let r := fst (ResolveDuration (Getenv k) (d * Time.Second)) in
                 (0 < r)%Z /\ is_i64 r) as Hok.
  { intros k d Hd. apply ResolveDuration_ok; unfold Time.Second, is_i64; lia. }
  destruct (Hok "VZ_SSH_DIAL_TIMEOUT" 5%Z) as [? ?]; [lia|].
  destruct (Hok "VZ_SSH_READINESS_TIMEOUT" 60%Z) as [? ?]; [lia|].
  destruct (Hok "VZ_POSTSTART_TIMEOUT" 10%Z) as [? ?]; [lia|].
  split_and!; try done.
  destruct (ResolveDuration_cases (Getenv "VZ_POSTSTART_TIMEOUT") defaultPostStartTimeout)
    as [->|(-> & _)]; [done | by intros []].
Qed.

End EnvCfg.

Example resolve_1500ms :
  @ResolveDuration (fun _ => true) " 1500ms " 7 = (1500000000, None)%Z.
Proof. vm_compute. reflexivity. Qed.

Example resolve_negative :
  fst (@ResolveDuration (fun _ => true) "-5s" 7) = 7%Z.
Proof. vm_compute. reflexivity. Qed.

End EnvCfg.
