(* ===== verification/Utils.v ===== *)
(** * internal/utils: container ids, label values, resource requests, shell commands

    One Module per file of the package ([clonefile.go], a system call, is left out). *)
From Stdlib Require Import ZArith Lia.
From Stdlib Require Import Ascii String.
From stdpp Require Import base list gmap strings.
From S2P Require Import Prelude GoStrings GoFormat GoErrors Sha256.
Local Open Scope string_scope.

(** ** vz.go *)

Module ContainerID.

(* src/internal/utils/vz.go : GetContainerID *)
Definition GetContainerID (protocol containerName : string) : string :=
  let containerResourceID := "containers/" ++ containerName in
  protocol ++ "://" ++ Sha256.hexdigest (Str.to_upper containerResourceID).

(** The id is the protocol, [://] and 64 hexadecimal digits, whatever the name. *)
Lemma GetContainerID_shape protocol name :
  exists h, GetContainerID protocol name = protocol ++ "://" ++ h /\
    String.length h = 64%nat /\ Str.all_chars Sha256.is_hex_char h = true.
Proof.
  exists (Sha256.hexdigest (Str.to_upper ("containers/" ++ name))).
  split_and!; [done | apply Sha256.hexdigest_length | apply Sha256.hexdigest_chars].
Qed.

End ContainerID.

(** ** apple_cpu.go *)

Module AppleCPU.

(** [strings.ReplaceAll(s, old, EmptyString)] for a non-empty [old]. *)
Fixpoint remove_all (fuel : nat) (old s : string) : string :=
  match fuel, s with
  | O, _ | _, EmptyString => s
  | S fuel, String c s' =>
      if Str.has_prefix old s then remove_all fuel old (Str.drop (String.length old) s)
      else String c (remove_all fuel old s')
  end.

Definition valid_char (c : ascii) : bool :=
  Str.is_alnum c || Ascii.eqb c "_" || Ascii.eqb c "." || Ascii.eqb c "-".

(** [regexp [^a-zA-Z0-9_.-]+ -> _]: a run of bytes outside the class becomes one
    underscore; [inrun] says that the previous byte was one of them. *)
Fixpoint collapse (inrun : bool) (s : string) : string :=
  match s with
  | EmptyString => EmptyString
  | String c s =>
      if valid_char c then String c (collapse false s)
      else if inrun then collapse true s else String "_" (collapse true s)
  end.

(* src/internal/utils/apple_cpu.go : SanitizeAppleCPUModelForK8sLabel *)
Definition SanitizeAppleCPUModelForK8sLabel (name : string) : string :=
  let model := remove_all (String.length name) "Apple " name in
  let model := collapse false model in
  Str.trim_cutset model "_-.".

Example sanitize_m1 : SanitizeAppleCPUModelForK8sLabel "Apple M1 Max (Virtual)" = "M1_Max_Virtual".
Proof. vm_compute. reflexivity. Qed.

Lemma collapse_valid b s : Str.all_chars valid_char (collapse b s) = true.
Proof.
  revert b. induction s as [|c s IH]; intros b; simpl; [done|].
  destruct (valid_char c) eqn:E; [simpl; by rewrite E, IH|].
  destruct b; [apply IH | simpl; by rewrite IH].
Qed.

(** The syntax of a label's value: empty, or made of the allowed characters with a
    letter or a digit at both ends. *)
Fixpoint last_char (c : ascii) (s : string) : ascii :=
  match s with String d s => last_char d s | EmptyString => c end.

Definition label_value (s : string) : bool :=
  match s with
  | EmptyString => true
  | String c r => Str.all_chars valid_char s && Str.is_alnum c && Str.is_alnum (last_char c r)
  end.

Lemma trim_left_keeps f g s : Str.all_chars g s = true -> Str.all_chars g (Str.trim_left f s) = true.
Proof.
  induction s as [|c s IH]; [done|]. cbn [Str.trim_left]. destruct (f c); [|done].
  cbn [Str.all_chars]. rewrite andb_true_iff. intros [_ H]. by apply IH.
Qed.

Lemma trim_right_keeps f g s : Str.all_chars g s = true -> Str.all_chars g (Str.trim_right f s) = true.
Proof.
  induction s as [|c s IH]; [done|]. cbn [Str.trim_right Str.all_chars]. intros [Hc Hs]%andb_true_iff.
  specialize (IH Hs). destruct (Str.trim_right f s) as [|d r]; [destruct (f c); cbn; by rewrite ?Hc|].
  cbn [Str.all_chars] in *. by rewrite Hc, IH.
Qed.

Lemma trim_left_head f s c r : Str.trim_left f s = String c r -> f c = false.
Proof.
  induction s as [|d s IH]; [done|]. cbn [Str.trim_left]. destruct (f d) eqn:E; [done|]. by intros [= <- <-].
Qed.

Lemma trim_right_last f s c r : Str.trim_right f s = String c r -> f (last_char c r) = false.
Proof.
  revert c r. induction s as [|d s IH]; intros c r; [done|]. cbn [Str.trim_right].
  destruct (Str.trim_right f s) as [|e t]; [destruct (f d) eqn:E; [done|]; by intros [= <- <-]|].
  intros [= <- <-]. cbn. by apply IH.
Qed.

Lemma trim_right_head f s c r : Str.trim_right f s = String c r -> exists r', s = String c r'.
Proof.
  destruct s as [|d s]; [done|]. cbn [Str.trim_right].
  destruct (Str.trim_right f s); [destruct (f d)|]; intros [= <- <-]; eauto.
Qed.

Lemma last_char_in f c r : Str.all_chars f (String c r) = true -> f (last_char c r) = true.
Proof.
  revert c. induction r as [|d r IH]; intros c; cbn [last_char]; [cbn; by destruct (f c)|].
  cbn [Str.all_chars]. rewrite !andb_true_iff. intros (_ & Hd & Hr). apply IH. cbn. by rewrite Hd.
Qed.

Lemma valid_not_cut c : valid_char c = true -> Str.in_set "_-." c = false -> Str.is_alnum c = true.
Proof. destruct c as [[] [] [] [] [] [] [] []]; intros H1 H2; vm_compute in H1, H2; done. Qed.

(** Every CPU model becomes the value of a label. *)
Lemma sanitize_label name : label_value (SanitizeAppleCPUModelForK8sLabel name) = true.
Proof.
  unfold SanitizeAppleCPUModelForK8sLabel, Str.trim_cutset, Str.trim.
  set (s := collapse _ _). set (t := Str.trim_left _ s).
  assert (Str.all_chars valid_char t = true) as Ht by apply trim_left_keeps, collapse_valid.
  destruct (Str.trim_right (Str.in_set "_-.") t) as [|c r] eqn:E; [done|].
  pose proof (trim_right_keeps (Str.in_set "_-.") _ _ Ht) as Hv. rewrite E in Hv.
  unfold label_value. rewrite Hv. cbn [andb].
  rewrite (valid_not_cut (last_char c r)) by (exact (last_char_in _ _ _ Hv) || exact (trim_right_last _ _ _ _ E)).
  rewrite andb_true_r. destruct (trim_right_head _ _ _ _ E) as [r' Hr'].
  apply valid_not_cut; [|exact (trim_left_head _ _ _ _ Hr')].
  cbn [Str.all_chars] in Hv. by destruct (valid_char c).
Qed.

(** *** A label value is left as it is *)

Lemma has_prefix_chars f p s : Str.has_prefix p s = true -> Str.all_chars f s = true -> Str.all_chars f p = true.
Proof.
  revert s. induction p as [|c p IH]; intros [|d s]; cbn [Str.has_prefix Str.all_chars]; try done.
  intros [Hc Hp]%andb_true_iff [Hd Hs]%andb_true_iff. apply Ascii.eqb_eq in Hc as ->. by rewrite Hd, (IH s).
Qed.

Lemma remove_all_valid n s : Str.all_chars valid_char s = true -> remove_all n "Apple " s = s.
Proof.
  revert s. induction n as [|n IH]; intros [|c s] Hs; try done. cbn [remove_all].
  destruct (Str.has_prefix "Apple " (String c s)) eqn:E.
  - by pose proof (has_prefix_chars _ _ _ E Hs).
  - f_equal. apply IH. cbn [Str.all_chars] in Hs. by apply andb_true_iff in Hs as [_ ?].
Qed.

Lemma collapse_id b s : Str.all_chars valid_char s = true -> collapse b s = s.
Proof.
  revert b. induction s as [|c s IH]; intros b; [done|]. cbn [Str.all_chars collapse].
  intros [Hc Hs]%andb_true_iff. by rewrite Hc, IH.
Qed.

Lemma trim_right_id f c r : f (last_char c r) = false -> Str.trim_right f (String c r) = String c r.
Proof.
  revert c. induction r as [|d r IH]; intros c H; cbn [last_char] in H.
  - cbn. by rewrite H.
  - cbn [Str.trim_right]. specialize (IH d H). cbn [Str.trim_right] in IH. by rewrite IH.
Qed.

Lemma alnum_not_cut c : Str.is_alnum c = true -> Str.in_set "_-." c = false.
Proof. destruct c as [[] [] [] [] [] [] [] []]; intros H; vm_compute in H |- *; done. Qed.

Lemma sanitize_fixed s : label_value s = true -> SanitizeAppleCPUModelForK8sLabel s = s.
Proof.
  unfold SanitizeAppleCPUModelForK8sLabel, Str.trim_cutset, Str.trim. destruct s as [|c r]; [done|].
  unfold label_value. intros [[Hv Hc]%andb_true_iff Hl]%andb_true_iff.
  rewrite remove_all_valid, collapse_id by done. cbn [Str.trim_left].
  rewrite (alnum_not_cut c Hc). apply trim_right_id, alnum_not_cut, Hl.
Qed.

Lemma remove_all_length n old s : (String.length (remove_all n old s) <= String.length s)%nat.
Proof.
  revert s. induction n as [|n IH]; intros [|c s]; cbn [remove_all String.length]; try lia.
  destruct (Str.has_prefix old (String c s)).
  - etrans; [apply IH|]. apply (Str.length_drop_le _ (String c s)).
  - cbn [String.length]. specialize (IH s). lia.
Qed.

Lemma collapse_length b s : (String.length (collapse b s) <= String.length s)%nat.
Proof.
  revert b. induction s as [|c s IH]; intros b; cbn [collapse String.length]; [lia|].
  destruct (valid_char c); [|destruct b]; cbn [String.length]; [specialize (IH false) | specialize (IH true) ..]; lia.
Qed.

Lemma trim_length f s : (String.length (Str.trim f s) <= String.length s)%nat.
Proof.
  unfold Str.trim. transitivity (String.length (Str.trim_left f s)).
  - induction (Str.trim_left f s) as [|c t IH]; cbn [Str.trim_right String.length]; [lia|].
    destruct (Str.trim_right f t); [destruct (f c); cbn; lia | cbn [String.length] in *; lia].
  - induction s as [|c s IH]; cbn [Str.trim_left String.length]; [lia|]. destruct (f c); cbn [String.length]; lia.
Qed.

(** *** What becomes of a name *)

(** [t] is [s] without the occurrences of [old], found from the left. *)
Inductive Removed (old : string) : string -> string -> Prop :=
| Removed_nil : Removed old "" ""
| Removed_hit s t : Removed old s t -> Removed old (old ++ s) t
| Removed_keep c s t : (forall r, String c s <> old ++ r) -> Removed old s t -> Removed old (String c s) (String c t).

Lemma remove_all_Removed old n s :
  old <> "" -> (String.length s <= n)%nat -> Removed old s (remove_all n old s).
Proof.
  intros Ho. revert s. induction n as [|n IH]; intros [|c s] Hl; cbn [String.length] in Hl; try lia; try constructor.
  cbn [remove_all]. destruct (Str.has_prefix old (String c s)) eqn:E.
  - apply Str.has_prefix_spec in E as (r & E). rewrite E, Str.drop_app. constructor. apply IH.
    apply (f_equal String.length) in E. rewrite Str.length_app in E. cbn [String.length] in E.
    destruct old; [done|]. cbn [String.length] in E. lia.
  - constructor; [|apply IH; lia]. intros r Hr. rewrite Hr, Str.has_prefix_app in E. done.
Qed.

Definition invalid_run (r : string) : Prop := Str.all_chars (fun c => negb (valid_char c)) r = true.
Definition starts_valid (s : string) : Prop := match s with "" => True | String c _ => valid_char c = true end.

(** [t] is [s] with each run of characters outside the class turned into one underscore. *)
Inductive Replaced : string -> string -> Prop :=
| Replaced_nil : Replaced "" ""
| Replaced_keep c s t : valid_char c = true -> Replaced s t -> Replaced (String c s) (String c t)
| Replaced_run r s t : r <> "" -> invalid_run r -> starts_valid s -> Replaced s t -> Replaced (r ++ s) ("_" ++ t).

Lemma collapse_Replaced s :
  Replaced s (collapse false s) /\
  exists r s', s = r ++ s' /\ invalid_run r /\ starts_valid s' /\ collapse true s = collapse false s' /\
    Replaced s' (collapse false s').
Proof.
  induction s as [|c s [IH1 (r & s' & -> & Hr & Hs' & Hc & IH2)]].
  - split; [constructor|]. exists "", "". split_and!; try done. constructor.
  - cbn [collapse]. destruct (valid_char c) eqn:E.
    + split; [by constructor|]. exists "", (String c (r ++ s')). cbn [collapse]. rewrite E. split_and!; try done. by constructor.
    + assert (invalid_run (String c r)) as Hcr by (unfold invalid_run; cbn [Str.all_chars]; by rewrite E).
      split; [rewrite Hc; by apply (Replaced_run (String c r))|]. exists (String c r), s'. by split_and!.
Qed.

Lemma trim_left_split f s : exists l, s = l ++ Str.trim_left f s /\ Str.all_chars f l = true.
Proof.
  induction s as [|c s (l & E & Hl)]; [by exists ""|]. cbn [Str.trim_left]. destruct (f c) eqn:Ec; [|by exists ""].
  exists (String c l). cbn [Str.all_chars]. rewrite Ec, Hl. split; [|done]. change (String c s = String c (l ++ Str.trim_left f s)).
  by rewrite <- E.
Qed.

Lemma trim_right_split f s : exists r, s = Str.trim_right f s ++ r /\ Str.all_chars f r = true.
Proof.
  induction s as [|c s (r & E & Hr)]; [by exists ""|]. cbn [Str.trim_right].
  destruct (Str.trim_right f s) as [|d t] eqn:Et.
  - change ("" ++ r) with r in E. subst r. destruct (f c) eqn:Ec; [|by exists s].
    exists (String c s). cbn [Str.all_chars]. by rewrite Ec.
  - exists r. split; [|done]. change (String c s = String c (String d t ++ r)). by rewrite <- E.
Qed.

Lemma trim_split f s : exists l r, s = l ++ Str.trim f s ++ r /\ Str.all_chars f l = true /\ Str.all_chars f r = true.
Proof.
  destruct (trim_left_split f s) as (l & El & Hl). destruct (trim_right_split f (Str.trim_left f s)) as (r & Er & Hr).
  exists l, r. split_and!; [|done|done]. unfold Str.trim. by rewrite <- Er.
Qed.

(** C32: a CPU model name becomes text of the type of a label value, empty or made of
    the allowed characters with a letter or a digit at both ends, and it is
    obtained from the name alone: each [Apple ] is removed, each run of other characters
    becomes one underscore, and only underscores, dashes and dots are cut off the two
    ends.  It is no longer than the name, so that a name within the length limit stays
    within it; and a name that already is of that type is left as it is, so that
    sanitising twice changes nothing. *)
Theorem cpu_label_type name :
  let v := SanitizeAppleCPUModelForK8sLabel name in
  label_value v = true /\
  (exists m t l r, Removed "Apple " name m /\ Replaced m t /\ t = l ++ v ++ r /\
     Str.all_chars (Str.in_set "_-.") l = true /\ Str.all_chars (Str.in_set "_-.") r = true) /\
  (String.length v <= String.length name)%nat /\
  (label_value name = true -> v = name) /\
  SanitizeAppleCPUModelForK8sLabel v = v.
Proof.
  intros v. split_and!; [apply sanitize_label | | | apply sanitize_fixed | apply sanitize_fixed, sanitize_label].
  - destruct (trim_split (Str.in_set "_-.") (collapse false (remove_all (String.length name) "Apple " name)))
      as (l & r & H1 & H2 & H3).
    do 2 eexists. exists l, r. split_and!; [by apply remove_all_Removed | apply collapse_Replaced | exact H1 | done | done].
  - unfold v, SanitizeAppleCPUModelForK8sLabel, Str.trim_cutset.
    etrans; [apply trim_length|]. etrans; [apply collapse_length | apply remove_all_length].
Qed.

Lemma cpu_label_type_witness :
  label_value "M2_Pro" = true /\ SanitizeAppleCPUModelForK8sLabel "M2_Pro" = "M2_Pro".
Proof.
  split; [reflexivity|]. destruct (cpu_label_type "M2_Pro") as (_ & _ & _ & H & _). exact (H eq_refl).
Defined.

End AppleCPU.

(** ** resource_extractor.go *)

(** A [resource.Quantity] is a value of apimachinery; the code asks it for an exact
    64-bit integer. *)
Class QuantityOps (Q : Type) : Type := {
  zeroQuantity : Q;
  AsInt64 : Q -> option Z;
}.

Module Requests.
Section Requests.
Context {Q : Type} `{QuantityOps Q}.

Abbreviation ResourceList := (gmap string Q).

(** Indexing a Go map with an absent key gives the zero value. *)
Definition rl_get (rl : ResourceList) (k : string) : Q := default zeroQuantity (rl !! k).

(* src/internal/utils/resource_extractor.go : ExtractCPURequest *)
Definition ExtractCPURequest (rl : ResourceList) : Z * option error :=
  match AsInt64 (rl_get rl "cpu") with
  | None => (0%Z, Some (errMsg "failed to parse CPU request"))
  | Some cpu => (wrap_u64 cpu, None)
  end.

(* src/internal/utils/resource_extractor.go : ExtractMemoryRequest *)
Definition ExtractMemoryRequest (rl : ResourceList) : Z * option error :=
  match AsInt64 (rl_get rl "memory") with
  | None => (0%Z, Some (errMsg "failed to parse memory request"))
  | Some memory => (wrap_u64 memory, None)
  end.

Lemma ExtractCPURequest_range rl : is_u64 (fst (ExtractCPURequest rl)).
Proof.
  unfold ExtractCPURequest. destruct (AsInt64 _); simpl; [apply wrap_u64_range|].
  unfold is_u64; lia.
Qed.

End Requests.
End Requests.

(** ** cmd.go *)

Record EnvVar := { env_name : string; env_value : string }.

Module Cmd.
Section Cmd.
Context `{PrintTable}.

(* src/internal/utils/cmd.go : BuildExportEnvCommand *)
Definition BuildExportEnvCommand (env : EnvVar) : string :=
  let value :=
    if (Str.count_char Str.nl (env_value env) =? 0)%nat
    then Quote.quote (env_value env)
    else "$(cat <<'ESCAPE_EOF'" ++ Str.newline ++ env_value env ++ Str.newline
           ++ "ESCAPE_EOF" ++ Str.newline ++ ")" in
  "export " ++ env_name env ++ "=" ++ value ++ Str.newline.

(* src/internal/utils/cmd.go : BuildExecCommandString *)
Definition BuildExecCommandString (cmd : list string) (env : list EnvVar) : string * option error :=
  match cmd with
  | c0 :: c1 :: c2 :: args =>
      if negb (String.eqb c1 "-c")
      then ("", Some (errMsg "command is not a shell exec command"))
      else
        let cmdStr := foldl (fun acc e => acc ++ BuildExportEnvCommand e) "" env in
        let cmdStr := cmdStr ++ c0 ++ " " ++ c1 in
        let cmdStr := cmdStr ++ " $'" ++ c2 ++ "'" in
        (foldl (fun acc a => acc ++ " " ++ Quote.quote a) cmdStr args, None)
  | _ => ("", Some (errMsg "command is not a shell exec command"))
  end.

(** *** Quoting is closed *)

(** Facts on one rune of the input, by running through the bytes. *)
Definition plain (c : ascii) : bool :=
  negb (Ascii.eqb c Quote.backslash) && negb (Ascii.eqb c Str.dquote) && negb (Ascii.eqb c Str.nl).

Lemma closed_app_plain s t :
  Str.all_chars plain s = true -> Quote.closed_quotes false (s ++ t) = Quote.closed_quotes false t.
Proof.
  induction s as [|c s IH]; [done|]. rewrite Str.app_cons. cbn [Str.all_chars Quote.closed_quotes].
  rewrite andb_true_iff. intros [Hc Hs]. unfold plain in Hc.
  destruct (Ascii.eqb c Quote.backslash); [done|].
  destruct (Ascii.eqb c Str.dquote), (Ascii.eqb c Str.nl); try done. simpl. by apply IH.
Qed.

Lemma closed_esc c s t :
  Str.all_chars plain s = true ->
  Quote.closed_quotes false (String Quote.backslash (String c s) ++ t) = Quote.closed_quotes false t.
Proof. intros Hs. rewrite !Str.app_cons. simpl. by apply closed_app_plain. Qed.

Lemma hex_digit_plain z : (0 <= z < 16)%Z -> plain (Str.hex_digit z) = true.
Proof.
  intros Hz.
  assert (Forall (fun z => plain (Str.hex_digit z) = true) (map Z.of_nat (seq 0 16))) as HF
    by (vm_compute; repeat constructor).
  rewrite Forall_forall in HF. apply HF, list_elem_of_In, in_map_iff.
  exists (Z.to_nat z). rewrite in_seq. lia.
Qed.

Lemma hexn_plain n z : Str.all_chars plain (Quote.hexn n z) = true.
Proof.
  revert z. induction n as [|n IH]; intros z; [done|].
  cbn [Quote.hexn]. rewrite Str.all_chars_app, IH. cbn [Str.all_chars].
  rewrite hex_digit_plain; [done|].
  change 15%Z with (Z.ones 4). rewrite Z.land_ones by lia. apply Z.mod_pos_bound. lia.
Qed.

Definition high (c : ascii) : bool := (128 <=? Str.byte c)%Z.

Lemma high_plain s : Str.all_chars high s = true -> Str.all_chars plain s = true.
Proof.
  apply Str.all_chars_impl. intros c.
  assert (forall c, implb (high c) (plain c) = true) as H1 by by_bytes.
  specialize (H1 c). by destruct (high c).
Qed.

(** An ASCII rune is its own byte; any other rune is made of bytes above 127. *)
Definition rune_ok (r : option Z) (bs : string) : Prop :=
  match r with
  | None => True
  | Some z => (bs = String (Str.chr z) EmptyString /\ (0 <= z < 128)%Z) \/
              (Str.all_chars high bs = true /\ (128 <= z)%Z)
  end.

(** Lower bounds of the multi-byte code points: over all pairs of bytes. *)
Definition pairs_ok (f : ascii -> ascii -> bool) : bool :=
  forallb (fun i => forallb (fun j => f (ascii_of_nat i) (ascii_of_nat j)) (seq 0 256)) (seq 0 256).

Lemma pairs_forall f : pairs_ok f = true -> forall a b, f a b = true.
Proof.
  unfold pairs_ok. rewrite forallb_forall. intros Hf a b.
  pose proof (nat_ascii_bounded a). pose proof (nat_ascii_bounded b).
  specialize (Hf (nat_of_ascii a)). rewrite forallb_forall in Hf.
  specialize (Hf ltac:(apply in_seq; lia) (nat_of_ascii b) ltac:(apply in_seq; lia)).
  by rewrite !ascii_nat_embedding in Hf.
Qed.

Definition two_ok (a b : ascii) : bool :=
  implb ((194 <=? Str.byte a) && (Str.byte a <? 224))%Z
    (128 <=? Z.lor (Z.shiftl (Z.land (Str.byte a) 31) 6) (Str.bits6 b))%Z.

Definition three_ok (a b : ascii) : bool :=
  implb (((224 <=? Str.byte a) && (Str.byte a <? 240))%Z && Str.second_ok (Str.byte a) b)
    (128 <=? Z.lor (Z.shiftl (Z.land (Str.byte a) 15) 12) (Z.shiftl (Str.bits6 b) 6))%Z.

Definition four_ok (a b : ascii) : bool :=
  implb (((240 <=? Str.byte a) && (Str.byte a <? 245))%Z && Str.second_ok (Str.byte a) b)
    (128 <=? Z.lor (Z.shiftl (Z.land (Str.byte a) 7) 18) (Z.shiftl (Str.bits6 b) 12))%Z.

Definition second_high (a b : ascii) : bool := implb (Str.second_ok (Str.byte a) b) (high b).

Lemma two_ok_all : forall a b, two_ok a b = true.
Proof. apply pairs_forall. vm_compute. reflexivity. Qed.

Lemma three_ok_all : forall a b, three_ok a b = true.
Proof. apply pairs_forall. vm_compute. reflexivity. Qed.

Lemma four_ok_all : forall a b, four_ok a b = true.
Proof. apply pairs_forall. vm_compute. reflexivity. Qed.

Lemma second_high_all : forall a b, second_high a b = true.
Proof. apply pairs_forall. vm_compute. reflexivity. Qed.

Lemma lor_ge a b c : (c <= a)%Z -> (0 <= a)%Z -> (0 <= b)%Z -> (c <= Z.lor a b)%Z.
Proof.
  intros Hc Ha Hb.
  assert (0 <= a <= Z.lor a b)%Z; [|lia].
  apply Z.ldiff_le; [apply Z.lor_nonneg; lia|].
  apply Z.bits_inj'. intros n _. rewrite Z.ldiff_spec, Z.lor_spec, Z.bits_0.
  by destruct (Z.testbit a n), (Z.testbit b n).
Qed.

Lemma byte_nonneg c : (0 <= Str.byte c)%Z.
Proof. unfold Str.byte. lia. Qed.

Lemma chr_byte c : Str.chr (Str.byte c) = c.
Proof. unfold Str.chr, Str.byte. rewrite N2Z.id. apply ascii_N_embedding. Qed.

(** Non-negativity of the pieces a code point is put together from. *)
Ltac bit_pos :=
  repeat first [ apply Z.shiftl_nonneg | apply Z.land_nonneg; right | apply Z.lor_nonneg; split
               | apply Z.land_nonneg; left; apply byte_nonneg | lia ].

Lemma cont_high c : Str.cont c = true -> high c = true.
Proof. unfold Str.cont, high. rewrite andb_true_iff. tauto. Qed.

Lemma second_high' a c : Str.second_ok (Str.byte a) c = true -> high c = true.
Proof. intros H1. pose proof (second_high_all a c) as H2. unfold second_high in H2. by rewrite H1 in H2. Qed.

(** *** [decode_rune] satisfies [rune_ok] *)
Lemma decode_ok s r n :
  s <> EmptyString -> Str.decode_rune s = (r, n) -> rune_ok r (Str.take n s).
Proof.
  destruct s as [|a s]; [done|]. intros _. unfold Str.decode_rune.
  destruct (Str.byte a <? 128)%Z eqn:E0.
  { intros [= <- <-]. left. simpl. rewrite chr_byte. split; [done|].
    pose proof (byte_nonneg a). bool_lia. }
  assert (high a = true) as Ha by (unfold high; apply Z.leb_le; bool_lia).
  destruct (Str.byte a <? 194)%Z eqn:E1; [by intros [= <- <-]|].
  destruct (Str.byte a <? 224)%Z eqn:E2.
  { destruct s as [|b s]; [by intros [= <- <-]|].
    destruct (Str.cont b) eqn:Eb; [|by intros [= <- <-]].
    intros [= <- <-]. right. simpl. rewrite Ha, (cont_high _ Eb). split; [done|].
    pose proof (two_ok_all a b) as H2. unfold two_ok in H2.
    rewrite E2, (proj2 (Z.leb_le 194 (Str.byte a)) ltac:(bool_lia)) in H2. simpl in H2. bool_lia. }
  destruct (Str.byte a <? 240)%Z eqn:E3.
  { destruct s as [|b [|c s]]; try (by intros [= <- <-]).
    destruct (Str.second_ok _ b && Str.cont c) eqn:Eb; [|by intros [= <- <-]].
    apply andb_true_iff in Eb as [Eb Ec].
    intros [= <- <-]. right. simpl. rewrite Ha, (second_high' _ _ Eb), (cont_high _ Ec). split; [done|].
    pose proof (three_ok_all a b) as H3. unfold three_ok in H3.
    rewrite E3, Eb, (proj2 (Z.leb_le 224 (Str.byte a)) ltac:(bool_lia)) in H3. simpl in H3.
    rewrite Z.lor_assoc. unfold Str.bits6 in *. apply lor_ge; [bool_lia | bit_pos | bit_pos]. }
  destruct (Str.byte a <? 245)%Z eqn:E4; [|by intros [= <- <-]].
  destruct s as [|b [|c [|d s]]]; try (by intros [= <- <-]).
  destruct (Str.second_ok _ b && Str.cont c && Str.cont d) eqn:Eb; [|by intros [= <- <-]].
  apply andb_true_iff in Eb as [Eb Ed]. apply andb_true_iff in Eb as [Eb Ec].
  intros [= <- <-]. right. simpl.
  rewrite Ha, (second_high' _ _ Eb), (cont_high _ Ec), (cont_high _ Ed). split; [done|].
  pose proof (four_ok_all a b) as H4. unfold four_ok in H4.
  rewrite E4, Eb, (proj2 (Z.leb_le 240 (Str.byte a)) ltac:(bool_lia)) in H4. simpl in H4.
  rewrite Z.lor_assoc. unfold Str.bits6 in *. apply lor_ge; [bool_lia | bit_pos | bit_pos].
Qed.

Lemma escape_closed r bs t :
  rune_ok r bs -> Quote.closed_quotes false (Quote.escape r bs ++ t) = Quote.closed_quotes false t.
Proof.
  destruct r as [z|]; cbn [rune_ok].
  - intros Hok. unfold Quote.escape.
    destruct ((z =? 34) || (z =? 92))%Z eqn:Eq.
    { destruct Hok as [[-> Hz]|[Hh Hz]].
      - apply orb_true_iff in Eq as [->%Z.eqb_eq| ->%Z.eqb_eq]; by apply closed_esc.
      - exfalso. apply orb_true_iff in Eq. rewrite !Z.eqb_eq in Eq. lia. }
    destruct (Quote.is_print z) eqn:Ep.
    { destruct Hok as [[-> Hz]|[Hh Hz]]; [|by apply closed_app_plain, high_plain].
      apply closed_app_plain. cbn [Str.all_chars]. rewrite andb_true_r.
      unfold Quote.is_print in Ep. rewrite (proj2 (Z.ltb_lt z 128) ltac:(lia)) in Ep.
      assert (forall c, implb ((32 <=? Str.byte c)%Z && negb (Ascii.eqb c Str.dquote)
                            && negb (Ascii.eqb c Quote.backslash)) (plain c) = true) as Hall by by_bytes.
      specialize (Hall (Str.chr z)).
      assert (Str.byte (Str.chr z) = z) as Hb.
      { unfold Str.byte, Str.chr. rewrite N_ascii_embedding by lia. lia. }
      assert (forall k, (z =? k)%Z = false -> Ascii.eqb (Str.chr z) (Str.chr k) = false \/ ~ (0 <= k < 128)%Z) as Hne.
      { intros k Hk. destruct (Ascii.eqb_spec (Str.chr z) (Str.chr k)) as [Heq|]; [|by left].
        right. intros Hkr. apply (f_equal Str.byte) in Heq. rewrite Hb in Heq.
        unfold Str.byte, Str.chr in Heq. rewrite N_ascii_embedding in Heq by lia. bool_lia. }
      apply orb_false_iff in Eq as [E1 E2].
      change Str.dquote with (Str.chr 34) in Hall. change Quote.backslash with (Str.chr 92) in Hall.
      destruct (Hne _ E1) as [Hx|]; [|lia]. destruct (Hne _ E2) as [Hy|]; [|lia].
      rewrite Hb, Hx, Hy in Hall. destruct (32 <=? z)%Z; [done|]. done. }
    repeat match goal with |- context [if ?b then _ else _] => destruct b end;
      unfold Quote.esc1; apply closed_esc;
      try reflexivity; cbn [Str.all_chars]; apply hexn_plain.
  - intros _. unfold Quote.escape. destruct bs as [|c bs]; apply closed_esc; [done | apply (hexn_plain 2)].
Qed.

Lemma runes_fuel_closed n s t :
  Quote.closed_quotes false
    (String.concat "" (map (fun '(r, bs) => Quote.escape r bs) (Str.runes_fuel n s)) ++ t)
  = Quote.closed_quotes false t.
Proof.
  revert s. induction n as [|n IH]; intros s; [done|].
  destruct s as [|c s]; [done|]. cbn [Str.runes_fuel].
  destruct (Str.decode_rune (String c s)) as [r k] eqn:E.
  assert (rune_ok r (Str.take k (String c s))) as Hok by (by apply decode_ok).
  cbn [map]. specialize (IH (Str.drop k (String c s))).
  set (rest := map _ (Str.runes_fuel n _)) in *.
  assert (forall x l, String.concat "" (x :: l) = x ++ String.concat "" l) as Hc.
  { intros x [|y l]; simpl; [by rewrite Str.app_nil_r | done]. }
  rewrite Hc, <- Str.app_assoc, escape_closed by done. exact IH.
Qed.

(** The text between the quotes of [strconv.Quote] can not end them early. *)
Lemma quote_closed s :
  exists body, Quote.quote s = Str.dquote_s ++ body ++ Str.dquote_s /\
    Quote.closed_quotes false body = true.
Proof.
  unfold Quote.quote. eexists. split; [done|].
  unfold Str.runes. rewrite <- (Str.app_nil_r (String.concat _ _)). apply runes_fuel_closed.
Qed.

(** The export command of a one-line value is [export NAME="body"] and a
    newline, where [body] has no raw newline and no unescaped double quote: the value
    can not leave its quotes and start another statement. *)
Lemma export_quotes_closed (env : EnvVar) :
  Str.count_char Str.nl (env_value env) = 0%nat ->
  exists body,
    BuildExportEnvCommand env
      = "export " ++ env_name env ++ "=" ++ Str.dquote_s ++ body ++ Str.dquote_s ++ Str.newline /\
    Quote.closed_quotes false body = true.
Proof.
  intros Hnl. unfold BuildExportEnvCommand. rewrite Hnl, Nat.eqb_refl.
  destruct (quote_closed (env_value env)) as (body & -> & Hc).
  exists body. split; [by rewrite <- !Str.app_assoc | done].
Qed.

(** The command string exists exactly for [x -c script ...], and it then ends every
    exported variable before the command word. *)
Lemma BuildExecCommandString_error cmd env :
  is_Some (snd (BuildExecCommandString cmd env)) <->
  (List.length cmd < 3)%nat \/ cmd !! 1%nat <> Some "-c".
Proof.
  destruct cmd as [|c0 [|c1 [|c2 args]]]; simpl; try (split; [intros _; left; lia | eauto]).
  destruct (String.eqb_spec c1 "-c") as [->|Hne]; simpl.
  - split; [by intros [] | intros [?|?]; [lia | done]].
  - split; [intros _; right; congruence | eauto].
Qed.

End Cmd.

Lemma export_quotes_closed_witness :
  exists body,
    @BuildExportEnvCommand (fun _ => true) {| env_name := "A"; env_value := "x" ++ Str.dquote_s ++ "; rm" |}
      = "export A=" ++ Str.dquote_s ++ body ++ Str.dquote_s ++ Str.newline /\
    Quote.closed_quotes false body = true.
Proof.
  exact (@export_quotes_closed (fun _ => true) {| env_name := "A"; env_value := "x" ++ Str.dquote_s ++ "; rm" |} eq_refl).
Defined.

Example exec_string :
  @BuildExecCommandString (fun _ => true) ["sh"; "-c"; "true"; "a b"]
    [{| env_name := "X"; env_value := "1" |}]
  = ("export X=" ++ Str.dquote_s ++ "1" ++ Str.dquote_s ++ Str.newline ++ "sh -c $'true' "
       ++ Str.dquote_s ++ "a b" ++ Str.dquote_s, None).
Proof. vm_compute. reflexivity. Qed.

End Cmd.
