(* ===== verification/Json.v ===== *)
(** * encoding/json: documents, their text, and decoding into Go values

    Module [Json]: the values of a document, the scanner ([parse], with Go's limit on
    nesting), the text of strings as [json.Marshal] writes it, field names that match
    without case, and how a value is stored into a [string] or [json.Number] field.
    Recursion is bounded by the length of the text: every call consumes a byte.  Which
    text an error has is not modelled ([JsonText]), only when there is one. *)
From Stdlib Require Import ZArith Lia.
From Stdlib Require Import Ascii String.
From stdpp Require Import base list strings.
From S2P Require Import Prelude GoStrings GoFormat GoErrors Utils.
Local Open Scope string_scope.

(** The texts of the decoder's errors, by the document. *)
Class JsonText : Type := {
  syntax_text : string -> string;    (* json.SyntaxError, io.ErrUnexpectedEOF, io.EOF *)
  type_text : string -> string       (* json.UnmarshalTypeError, an invalid json.Number *)
}.

Module Json.
Import Cmd.

(** An object keeps its members in order, repeated names included; a number is its
    literal. *)
#[warnings="-register-all"]
Inductive value : Type :=
| VNull
| VBool (b : bool)
| VNum (lit : string)
| VStr (s : string)
| VArr (l : list value)
| VObj (l : list (string * value)).

Definition is_ws (c : ascii) : bool := Str.in_set (String " " (String "009" (String "010" (String "013" "")))) c.

Fixpoint skip_ws (s : string) : string :=
  match s with
  | String c s' => if is_ws c then skip_ws s' else s
  | EmptyString => EmptyString
  end.

(** ** Code points *)

(** [utf8.AppendRune]; surrogates and values out of range become U+FFFD. *)
Definition encode_rune (z : Z) : string :=
  let b n := Str.chr n in
  let tail n := Str.chr (128 + Z.land n 63) in
  let z := if ((55296 <=? z) && (z <=? 57343) || (1114111 <? z))%Z then 65533%Z else z in
  if (z <? 128)%Z then String (b z) ""
  else if (z <? 2048)%Z then String (b (192 + Z.shiftr z 6)%Z) (String (tail z) "")
  else if (z <? 65536)%Z
  then String (b (224 + Z.shiftr z 12)%Z) (String (tail (Z.shiftr z 6)) (String (tail z) ""))
  else String (b (240 + Z.shiftr z 18)%Z)
         (String (tail (Z.shiftr z 12)) (String (tail (Z.shiftr z 6)) (String (tail z) ""))).

Definition replacement : string := encode_rune 65533.

(** The string with each invalid byte replaced by U+FFFD. *)
Fixpoint valid_runes (l : list (option Z * string)) : string :=
  match l with
  | [] => ""
  | (r, bs) :: l => (match r with Some _ => bs | None => replacement end) ++ valid_runes l
  end.

Definition to_valid (s : string) : string := valid_runes (Str.runes s).

(** Every rune of the string is valid UTF-8. *)
Definition utf8_valid (s : string) : bool := forallb (fun p => is_some (fst p)) (Str.runes s).

(** ** Scanning *)

Definition hex_value (c : ascii) : option Z :=
  if Str.is_digit c then Some (Str.byte c - 48)%Z
  else if Str.in_range "a" "f" c then Some (Str.byte c - 87)%Z
  else if Str.in_range "A" "F" c then Some (Str.byte c - 55)%Z
  else None.

(** The four digits after a backslash and a u. *)
Definition hex4 (s : string) : option (Z * string) :=
  match s with
  | String a (String b (String c (String d r))) =>
      match hex_value a, hex_value b, hex_value c, hex_value d with
      | Some a, Some b, Some c, Some d => Some ((a * 4096 + b * 256 + c * 16 + d)%Z, r)
      | _, _, _, _ => None
      end
  | _ => None
  end.

(** The low half of a surrogate pair that starts with [r], and the code point. *)
Definition low_half (r : Z) (s : string) : option (Z * string) :=
  match s with
  | String b (String u s) =>
      if Ascii.eqb b Quote.backslash && Ascii.eqb u "u" then
        match hex4 s with
        | Some (r2, rest) =>
            if ((55296 <=? r) && (r <? 56320) && (56320 <=? r2) && (r2 <? 57344))%Z
            then Some ((Z.shiftl (r - 55296) 10 + (r2 - 56320) + 65536)%Z, rest) else None
        | None => None
        end
      else None
  | _ => None
  end.

Definition simple_escape (e : ascii) : option ascii :=
  if Ascii.eqb e Str.dquote then Some Str.dquote
  else if Ascii.eqb e Quote.backslash then Some Quote.backslash
  else if Ascii.eqb e "/" then Some "/"%char
  else if Ascii.eqb e "b" then Some "008"%char
  else if Ascii.eqb e "f" then Some "012"%char
  else if Ascii.eqb e "n" then Some "010"%char
  else if Ascii.eqb e "r" then Some "013"%char
  else if Ascii.eqb e "t" then Some "009"%char
  else None.

Definition prepend (p : string) (r : option (string * string)) : option (string * string) :=
  match r with Some (s, rest) => Some (p ++ s, rest) | None => None end.

(** A string after its opening quote: the text that it stands for and what follows. *)
Fixpoint scan_str (fuel : nat) (s : string) : option (string * string) :=
  match fuel, s with
  | O, _ | _, EmptyString => None
  | S n, String c s' =>
      if Ascii.eqb c Str.dquote then Some ("", s')
      else if (Str.byte c <? 32)%Z then None
      else if Ascii.eqb c Quote.backslash then
        match s' with
        | EmptyString => None
        | String e s2 =>
            match simple_escape e with
            | Some d => prepend (String d "") (scan_str n s2)
            | None =>
                if Ascii.eqb e "u" then
                  match hex4 s2 with
                  | None => None
                  | Some (r, s3) =>
                      match low_half r s3 with
                      | Some (d, s4) => prepend (encode_rune d) (scan_str n s4)
                      | None => prepend (encode_rune r) (scan_str n s3)
                      end
                  end
                else None
            end
        end
      else
        let '(r, k) := Str.decode_rune s in
        prepend (match r with Some _ => Str.take k s | None => replacement end) (scan_str n (Str.drop k s))
  end.

Fixpoint span_digits (s : string) : string * string :=
  match s with
  | String c s' => if Str.is_digit c then let '(d, r) := span_digits s' in (String c d, r) else ("", s)
  | EmptyString => ("", "")
  end.

(** One digit at least. *)
Definition digits1 (s : string) : option (string * string) :=
  let '(d, r) := span_digits s in if String.eqb d "" then None else Some (d, r).

(** A number: sign, integer part without leading zeros, fraction, exponent. *)
Definition scan_int (s : string) : option (string * string) :=
  match s with
  | String c s' => if Ascii.eqb c "0" then Some ("0", s') else digits1 s
  | EmptyString => None
  end.

Definition scan_frac (s : string) : option (string * string) :=
  match s with
  | String "." s' => prepend "." (digits1 s')
  | _ => Some ("", s)
  end.

Definition scan_exp (s : string) : option (string * string) :=
  match s with
  | String c s' =>
      if Ascii.eqb c "e" || Ascii.eqb c "E" then
        match s' with
        | String d s2 =>
            if Ascii.eqb d "+" || Ascii.eqb d "-" then prepend (String c (String d "")) (digits1 s2)
            else prepend (String c "") (digits1 s')
        | EmptyString => None
        end
      else Some ("", s)
  | EmptyString => Some ("", s)
  end.

Definition then_scan (p : string -> option (string * string)) (r : option (string * string)) :=
  match r with Some (lit, rest) => prepend lit (p rest) | None => None end.

Definition scan_number (s : string) : option (string * string) :=
  match s with
  | String "-" s' => prepend "-" (then_scan scan_exp (then_scan scan_frac (scan_int s')))
  | _ => then_scan scan_exp (then_scan scan_frac (scan_int s))
  end.

(** [encoding/json.isValidNumber] *)
Definition isValidNumber (s : string) : bool :=
  match scan_number s with Some (_, EmptyString) => true | _ => false end.

Definition literal (p : string) (v : value) (s : string) : option (value * string) :=
  if Str.has_prefix p s then Some (v, Str.drop (String.length p) s) else None.

(** [maxNestingDepth] *)
Definition maxDepth : Z := 10000.

(** A value at depth [d], its elements, its members (after [[] and [{] and, for all
    but the first, a comma). *)
Fixpoint parse_value (fuel : nat) (d : Z) (s : string) {struct fuel} : option (value * string) :=
  match fuel with
  | O => None
  | S n =>
      match skip_ws s with
      | EmptyString => None
      | String c s' as s0 =>
          if Ascii.eqb c Str.dquote then
            match scan_str n s' with Some (t, r) => Some (VStr t, r) | None => None end
          else if Ascii.eqb c "{" then
            if (maxDepth <=? d)%Z then None else
            match skip_ws s' with
            | String "}" r => Some (VObj [], r)
            | _ => match parse_members n (d + 1) s' with Some (l, r) => Some (VObj l, r) | None => None end
            end
          else if Ascii.eqb c "[" then
            if (maxDepth <=? d)%Z then None else
            match skip_ws s' with
            | String "]" r => Some (VArr [], r)
            | _ => match parse_elems n (d + 1) s' with Some (l, r) => Some (VArr l, r) | None => None end
            end
          else if Ascii.eqb c "n" then literal "null" VNull s0
          else if Ascii.eqb c "t" then literal "true" (VBool true) s0
          else if Ascii.eqb c "f" then literal "false" (VBool false) s0
          else match scan_number s0 with Some (lit, r) => Some (VNum lit, r) | None => None end
      end
  end
with parse_elems (fuel : nat) (d : Z) (s : string) {struct fuel} : option (list value * string) :=
  match fuel with
  | O => None
  | S n =>
      match parse_value n d s with
      | None => None
      | Some (v, r) =>
          match skip_ws r with
          | String "]" r => Some ([v], r)
          | String "," r => match parse_elems n d r with Some (l, r) => Some (v :: l, r) | None => None end
          | _ => None
          end
      end
  end
with parse_members (fuel : nat) (d : Z) (s : string) {struct fuel} : option (list (string * value) * string) :=
  match fuel with
  | O => None
  | S n =>
      match skip_ws s with
      | String q s1 =>
          if negb (Ascii.eqb q Str.dquote) then None else
          match scan_str n s1 with
          | None => None
          | Some (k, r) =>
              match skip_ws r with
              | String ":" r =>
                  match parse_value n d r with
                  | None => None
                  | Some (v, r) =>
                      match skip_ws r with
                      | String "}" r => Some ([(k, v)], r)
                      | String "," r =>
                          match parse_members n d r with
                          | Some (l, r) => Some ((k, v) :: l, r)
                          | None => None
                          end
                      | _ => None
                      end
                  end
              | _ => None
              end
          end
      | EmptyString => None
      end
  end.

(** Twice the length is enough: a call without a byte of its own is followed by one
    with. *)
Definition fuel_for (s : string) : nat := S (2 * String.length s).

(** The first value of a text ([Decoder.Decode]), and a text that is one value
    ([Unmarshal]). *)
Definition parse_first (s : string) : option (value * string) := parse_value (fuel_for s) 0 s.

Definition parse (s : string) : option value :=
  match parse_first s with
  | Some (v, r) => if String.eqb (skip_ws r) "" then Some v else None
  | None => None
  end.


(** ** Writing *)

(** [htmlSafeSet] *)
Definition html_safe (c : ascii) : bool :=
  (32 <=? Str.byte c)%Z && (Str.byte c <? 128)%Z && negb (Str.in_set (String Str.dquote "&<>\") c).

Definition enc_ascii (c : ascii) : string :=
  if html_safe c then String c ""
  else if Ascii.eqb c Str.dquote || Ascii.eqb c Quote.backslash then Quote.esc1 c
  else if Ascii.eqb c "008" then Quote.esc1 "b"
  else if Ascii.eqb c "012" then Quote.esc1 "f"
  else if Ascii.eqb c "010" then Quote.esc1 "n"
  else if Ascii.eqb c "013" then Quote.esc1 "r"
  else if Ascii.eqb c "009" then Quote.esc1 "t"
  else Quote.esc1 "u" ++ "00" ++ Str.hex_byte (Str.byte c).

(** One rune and its bytes; U+2028 and U+2029 are escaped, an invalid byte becomes an
    escaped U+FFFD. *)
Definition enc_rune (p : option Z * string) : string :=
  match p with
  | (None, _) => Quote.esc1 "u" ++ "fffd"
  | (Some z, bs) =>
      if (z <? 128)%Z then enc_ascii (Str.chr z)
      else if ((z =? 8232) || (z =? 8233))%Z
      then Quote.esc1 "u" ++ "202" ++ String (Str.hex_digit (Z.land z 15)) ""
      else bs
  end.

Fixpoint enc_runes (l : list (option Z * string)) : string :=
  match l with [] => "" | p :: l => enc_rune p ++ enc_runes l end.

Definition print_string (s : string) : string := Str.dquote_s ++ enc_runes (Str.runes s) ++ Str.dquote_s.

(** A document with [sp] after every comma and colon; [json.Marshal] writes none. *)
Fixpoint print (sp : string) (v : value) : string :=
  match v with
  | VNull => "null"
  | VBool true => "true"
  | VBool false => "false"
  | VNum lit => lit
  | VStr s => print_string s
  | VArr l => "[" ++ Str.join ("," ++ sp) (map (print sp) l) ++ "]"
  | VObj l =>
      "{" ++ Str.join ("," ++ sp) (map (fun kv => print_string (fst kv) ++ ":" ++ sp ++ print sp (snd kv)) l) ++ "}"
  end.

(** How deep a document nests, whether its numbers are numbers, and what is left of
    its strings when they are read back. *)
Fixpoint depth (v : value) : Z :=
  match v with
  | VArr l => (1 + foldr Z.max 0 (map depth l))%Z
  | VObj l => (1 + foldr Z.max 0 (map (fun kv => depth (snd kv)) l))%Z
  | _ => 0%Z
  end.

Fixpoint numbers_ok (v : value) : bool :=
  match v with
  | VNum lit => isValidNumber lit
  | VArr l => forallb numbers_ok l
  | VObj l => forallb (fun kv => numbers_ok (snd kv)) l
  | _ => true
  end.

Fixpoint norm (v : value) : value :=
  match v with
  | VStr s => VStr (to_valid s)
  | VArr l => VArr (map norm l)
  | VObj l => VObj (map (fun kv => (to_valid (fst kv), norm (snd kv))) l)
  | v => v
  end.

(** ** Decoding into fields *)

(** [foldName], as far as names of ASCII letters can tell: the Kelvin sign folds to K
    and the long s to S. *)
Fixpoint fold_name (s : string) : string :=
  match s with
  | String "226" (String "132" (String "170" r)) => String "K" (fold_name r)
  | String "197" (String "191" r) => String "S" (fold_name r)
  | String c r => String (Str.to_upper1 c) (fold_name r)
  | EmptyString => ""
  end.

(** The field that a member's name selects: an exact match before a folded one. *)
Definition field_of (names : list string) (k : string) : option string :=
  if bool_decide (k ∈ names) then Some k
  else find_first (fun n => String.eqb (fold_name n) (fold_name k)) names.

(** A value into a [string] field and into a [json.Number] one, from what it holds:
    [None] is an error. *)
Definition store_string (v : value) (old : string) : option string :=
  match v with VNull => Some old | VStr s => Some s | _ => None end.

Definition store_number (v : value) (old : string) : option string :=
  match v with
  | VNull => Some old
  | VStr s => if isValidNumber s then Some s else None
  | VNum lit => Some lit
  | _ => None
  end.

(** The members of an object into a struct, one after the other; [set] stores a value
    into the field of a name.  Go decodes on after a field that does not fit, but it
    returns the error in the end. *)
Fixpoint store_members {S} (names : list string) (set : string -> value -> S -> option S)
  (l : list (string * value)) (s : S) : option S :=
  match l with
  | [] => Some s
  | (k, v) :: l =>
      match field_of names k with
      | None => store_members names set l s
      | Some f => match set f v s with Some s => store_members names set l s | None => None end
      end
  end.

(** A document into a struct. *)
Definition store_struct {S} (names : list string) (set : string -> value -> S -> option S)
  (v : value) (s : S) : option S :=
  match v with VNull => Some s | VObj l => store_members names set l s | _ => None end.

Definition Unmarshal `{JsonText} {S} (names : list string) (set : string -> value -> S -> option S)
  (data : string) (s : S) : S + error :=
  match parse data with
  | None => inr (errMsg (syntax_text data))
  | Some v => match store_struct names set v s with Some s => inl s | None => inr (errMsg (type_text data)) end
  end.

(** ** Written strings are read back *)

Lemma low_half_none r s : (r < 55296 \/ 56320 <= r)%Z -> low_half r s = None.
Proof.
  intros Hr. unfold low_half.
  destruct s as [|b [|u s]]; [done..|].
  destruct (Ascii.eqb b Quote.backslash && Ascii.eqb u "u"); [|done].
  destruct (hex4 s) as [[r2 rest]|]; [|done].
  replace ((55296 <=? r) && (r <? 56320))%Z with false by lia. done.
Qed.

(** An escaped code point that starts no surrogate pair. *)
Lemma scan_u n r s t :
  hex4 s = Some (r, t) -> (r < 55296 \/ 56320 <= r)%Z ->
  scan_str (S n) (String Quote.backslash (String "u" s)) = prepend (encode_rune r) (scan_str n t).
Proof. intros Hs Hr. cbn [scan_str]. cbn -[scan_str hex4 low_half encode_rune prepend]. by rewrite Hs, low_half_none. Qed.

Lemma scan_enc_ascii n c t :
  (Str.byte c < 128)%Z ->
  scan_str (S n) (enc_ascii c ++ t) = prepend (String c "") (scan_str n t).
Proof.
  intros Hc.
  destruct c as [[] [] [] [] [] [] [] []];
    first [ exfalso; vm_compute in Hc; discriminate Hc
          | match goal with |- context [enc_ascii ?c] =>
              let x := eval vm_compute in (enc_ascii c) in change (enc_ascii c) with x end;
            cbn [append];
            first [ refine (eq_trans (scan_u n _ _ t _ _) _); [reflexivity | left; reflexivity | reflexivity]
                  | reflexivity ] ].
Qed.

Lemma decode_take s z k t :
  Str.decode_rune s = (Some z, k) -> Str.decode_rune (Str.take k s ++ t) = (Some z, k).
Proof.
  destruct s as [|a s]; [done|]. unfold Str.decode_rune at 1.
  destruct (Str.byte a <? 128)%Z eqn:E0.
  { intros [= <- <-]. simpl. by rewrite E0. }
  destruct (Str.byte a <? 194)%Z eqn:E1; [done|].
  destruct (Str.byte a <? 224)%Z eqn:E2.
  { destruct s as [|b s]; [done|]. destruct (Str.cont b) eqn:Eb; [|done].
    intros [= <- <-]. cbn [Str.take]. rewrite !Str.app_cons. cbv beta iota zeta delta [Str.decode_rune]. by rewrite E0, E1, E2, Eb. }
  destruct (Str.byte a <? 240)%Z eqn:E3.
  { destruct s as [|b [|c s]]; [done..|].
    destruct (Str.second_ok _ b && Str.cont c) eqn:Eb; [|done].
    intros [= <- <-]. cbn [Str.take]. rewrite !Str.app_cons. cbv beta iota zeta delta [Str.decode_rune]. by rewrite E0, E1, E2, E3, Eb. }
  destruct (Str.byte a <? 245)%Z eqn:E4; [|done].
  destruct s as [|b [|c [|d s]]]; [done..|].
  destruct (Str.second_ok _ b && Str.cont c && Str.cont d) eqn:Eb; [|done].
  intros [= <- <-]. cbn [Str.take]. rewrite !Str.app_cons. cbv beta iota zeta delta [Str.decode_rune]. by rewrite E0, E1, E2, E3, E4, Eb.
Qed.

Lemma decode_length s r k :
  s <> "" -> Str.decode_rune s = (r, k) -> String.length (Str.take k s) = k /\ k <> O.
Proof.
  destruct s as [|a s]; [done|]. intros _. unfold Str.decode_rune.
  repeat case_match; intros [= <- <-]; done.
Qed.

Lemma take_app k p t : String.length p = k -> Str.take k (p ++ t) = p.
Proof. intros <-. induction p as [|c p IH]; [by destruct t | simpl; by rewrite IH]. Qed.

(** A byte above 127 is none of the characters that a scanner looks for. *)
Lemma high_not c x : high c = true -> (Str.byte x < 128)%Z -> Ascii.eqb c x = false.
Proof.
  unfold high. intros Hc Hx. destruct (Ascii.eqb_spec c x) as [->|]; [bool_lia | done].
Qed.

Lemma scan_high n s z k t :
  s <> "" -> Str.decode_rune s = (Some z, k) -> Str.all_chars high (Str.take k s) = true ->
  scan_str (S n) (Str.take k s ++ t) = prepend (Str.take k s) (scan_str n t).
Proof.
  intros Hs Hd Hh. pose proof (decode_take _ _ _ t Hd) as Hd'.
  destruct (decode_length _ _ _ Hs Hd) as [Hl Hk].
  assert (Str.take k (Str.take k s ++ t) = Str.take k s) as Ht by by apply take_app.
  assert (Str.drop k (Str.take k s ++ t) = t) as Hdr by (rewrite <- Hl at 1; apply Str.drop_app).
  destruct (Str.take k s) as [|c p] eqn:E; [by destruct k|].
  cbn [Str.all_chars] in Hh. apply andb_true_iff in Hh as [Hc _].
  rewrite Str.app_cons in *. cbn [scan_str].
  rewrite (high_not c Str.dquote), (high_not c Quote.backslash) by done.
  replace (Str.byte c <? 32)%Z with false by (unfold high in Hc; symmetry; apply Z.ltb_ge; bool_lia).
  by rewrite Hd', Ht, Hdr.
Qed.

(** The pieces of a code point do not overlap: putting them together is addition. *)
Lemma lor_add x y n : (0 <= n)%Z -> (0 <= y < 2 ^ n)%Z -> Z.lor (Z.shiftl x n) y = (x * 2 ^ n + y)%Z.
Proof.
  intros Hn Hy. rewrite <- Z.shiftl_mul_pow2 by done.
  pose proof (Z.add_lor_land (Z.shiftl x n) y) as H.
  enough (Z.land (Z.shiftl x n) y = 0)%Z by lia.
  apply Z.bits_inj'. intros i Hi. rewrite Z.land_spec, Z.shiftl_spec, Z.bits_0 by done.
  destruct (Z.lt_ge_cases i n) as [Hlt|Hge].
  - by rewrite Z.testbit_neg_r by lia.
  - rewrite <- (Z.mod_small y (2 ^ n)) by done.
    by rewrite Z.mod_pow2_bits_high, andb_false_r by lia.
Qed.

Lemma bits6_mod c : Str.bits6 c = (Str.byte c mod 64)%Z.
Proof. unfold Str.bits6. apply (Z.land_ones _ 6). lia. Qed.

Lemma byte_is c v : Str.byte c = v -> c = Str.chr v.
Proof. intros <-. by rewrite chr_byte. Qed.

Lemma cont_range c : Str.cont c = true -> (128 <= Str.byte c <= 191)%Z.
Proof. unfold Str.cont. lia. Qed.

Lemma second_range a c : Str.second_ok a c = true ->
  (128 <= Str.byte c <= 191)%Z /\ (a = 240 -> 144 <= Str.byte c)%Z.
Proof. unfold Str.second_ok, Str.cont, Str.between. repeat case_match; lia. Qed.

Ltac divmod_lia := Z.to_euclidean_division_equations; lia.

(** The two line separators have one encoding. *)
Lemma decode_separator s k z :
  Str.decode_rune s = (Some z, k) -> z = 8232%Z \/ z = 8233%Z -> Str.take k s = encode_rune z.
Proof.
  destruct s as [|a s]; [done|]. unfold Str.decode_rune.
  destruct (Str.byte a <? 128)%Z eqn:E0; [intros [= <- <-]; bool_lia|].
  destruct (Str.byte a <? 194)%Z eqn:E1; [done|].
  destruct (Str.byte a <? 224)%Z eqn:E2.
  { destruct s as [|b s]; [done|]. destruct (Str.cont b) eqn:Eb; [|done].
    intros [= Hz <-] Hs. exfalso. apply cont_range in Eb.
    rewrite (Z.land_ones _ 5), bits6_mod, lor_add in Hz by divmod_lia. divmod_lia. }
  destruct (Str.byte a <? 240)%Z eqn:E3.
  { destruct s as [|b [|c s]]; [done..|].
    destruct (Str.second_ok _ b && Str.cont c) eqn:Eb; [|done].
    apply andb_true_iff in Eb as [[Hb _]%second_range Hc%cont_range].
    intros [= Hz <-] Hs. rewrite (Z.land_ones _ 4), !bits6_mod in Hz by lia.
    rewrite (lor_add (_ mod 64) (_ mod 64) 6), lor_add in Hz by divmod_lia.
    rewrite (byte_is a 226), (byte_is b 128) by divmod_lia.
    destruct Hs as [-> | ->].
    - by rewrite (byte_is c 168) by divmod_lia.
    - by rewrite (byte_is c 169) by divmod_lia. }
  destruct (Str.byte a <? 245)%Z eqn:E4; [|done].
  destruct s as [|b [|c [|d s]]]; [done..|].
  destruct (Str.second_ok _ b && Str.cont c && Str.cont d) eqn:Eb; [|done].
  apply andb_true_iff in Eb as [[[Hb Hb']%second_range Hc%cont_range]%andb_true_iff Hd%cont_range].
  intros [= Hz <-] Hs. exfalso. rewrite (Z.land_ones _ 3), !bits6_mod in Hz by lia.
  rewrite (lor_add (_ mod 64) (_ mod 64) 6), (lor_add (_ mod 64) _ 12), lor_add in Hz by divmod_lia. divmod_lia.
Qed.

Lemma scan_enc_rune n s r k t :
  s <> "" -> Str.decode_rune s = (r, k) ->
  scan_str (S n) (enc_rune (r, Str.take k s) ++ t) =
  prepend (match r with Some _ => Str.take k s | None => replacement end) (scan_str n t).
Proof.
  intros Hs Hd. pose proof (decode_ok _ _ _ Hs Hd) as Hok.
  destruct r as [z|]; cbn [enc_rune].
  2: { refine (scan_u n 65533 _ t _ _); [reflexivity | lia]. }
  destruct Hok as [[-> Hz]|[Hh Hz]].
  { replace (z <? 128)%Z with true by lia. apply scan_enc_ascii.
    unfold Str.chr, Str.byte. rewrite N_ascii_embedding by lia. lia. }
  replace (z <? 128)%Z with false by lia.
  destruct ((z =? 8232) || (z =? 8233))%Z eqn:E; [|by apply (scan_high n s z)].
  assert (z = 8232 \/ z = 8233)%Z as Hz2 by lia.
  rewrite (decode_separator _ _ _ Hd Hz2).
  destruct Hz2 as [-> | ->]; (refine (scan_u n _ _ t _ _); [reflexivity | left; reflexivity]).
Qed.

Lemma prepend_app a b r : prepend a (prepend b r) = prepend (a ++ b) r.
Proof. destruct r as [[s rest]|]; simpl; [by rewrite Str.app_assoc | done]. Qed.

Lemma scan_enc_runes m n s t :
  (String.length s <= m)%nat -> (List.length (Str.runes_fuel m s) < n)%nat ->
  scan_str n (enc_runes (Str.runes_fuel m s) ++ String Str.dquote t) =
  Some (valid_runes (Str.runes_fuel m s), t).
Proof.
  revert n s. induction m as [|m IH]; intros [|n] s Hs Hn; try lia.
  { by destruct s. }
  destruct (decide (s = "")) as [->|Hne]; [done|].
  cbn [Str.runes_fuel] in *. destruct (Str.decode_rune s) as [r k] eqn:E.
  destruct (decode_length _ _ _ Hne E) as [Hl Hk].
  destruct s as [|c s]; [done|].
  cbn [enc_runes valid_runes]. rewrite <- Str.app_assoc, (scan_enc_rune _ _ _ _ _ Hne E), IH.
  - done.
  - destruct k as [|k]; [done|]. cbn [Str.drop]. simpl in Hs.
    pose proof (Str.length_drop_le k s). lia.
  - simpl in Hn. lia.
Qed.

(** Every rune is written with a byte at least. *)
Lemma enc_rune_nonempty s r k :
  s <> "" -> Str.decode_rune s = (r, k) -> (1 <= String.length (enc_rune (r, Str.take k s)))%nat.
Proof.
  intros Hs Hd. destruct (decode_length _ _ _ Hs Hd) as [Hl Hk].
  destruct r as [z|]; [|simpl; lia]. cbn [enc_rune].
  destruct (z <? 128)%Z.
  { unfold enc_ascii. repeat case_match; simpl; lia. }
  destruct ((z =? 8232) || (z =? 8233))%Z; [simpl; lia | rewrite Hl; lia].
Qed.

Lemma enc_runes_length m s :
  (List.length (Str.runes_fuel m s) <= String.length (enc_runes (Str.runes_fuel m s)))%nat.
Proof.
  revert s. induction m as [|m IH]; intros s; [simpl; lia|].
  destruct (decide (s = "")) as [->|Hne]; [simpl; lia|].
  cbn [Str.runes_fuel]. destruct s as [|c s]; [done|].
  destruct (Str.decode_rune (String c s)) as [r k] eqn:E.
  cbn [enc_runes List.length]. rewrite Str.length_app.
  pose proof (enc_rune_nonempty _ _ _ Hne E). specialize (IH (Str.drop k (String c s))). lia.
Qed.

Lemma scan_print n s t :
  (String.length (print_string s) <= n)%nat ->
  exists r, print_string s ++ t = String Str.dquote r /\ scan_str n r = Some (to_valid s, t).
Proof.
  intros Hn. exists (enc_runes (Str.runes s) ++ String Str.dquote t). split.
  - unfold print_string. rewrite <- !Str.app_assoc. done.
  - apply scan_enc_runes; [done|].
    unfold print_string in Hn. rewrite !Str.length_app in Hn. simpl in Hn.
    pose proof (enc_runes_length (String.length s) s). unfold Str.runes in *. lia.
Qed.

Lemma take_drop_app k s : Str.take k s ++ Str.drop k s = s.
Proof. revert s. induction k as [|k IH]; intros [|c s]; [done..|]. cbn [Str.take Str.drop]. by rewrite Str.app_cons, IH. Qed.

Lemma to_valid_id s : utf8_valid s = true -> to_valid s = s.
Proof.
  unfold utf8_valid, to_valid, Str.runes.
  assert (forall m s, (String.length s <= m)%nat ->
            forallb (fun p => is_some (fst p)) (Str.runes_fuel m s) = true ->
            valid_runes (Str.runes_fuel m s) = s) as H; [|by apply H].
  clear s. induction m as [|m IH]; intros s Hs; [by destruct s; [|simpl in Hs; lia]|].
  cbn [Str.runes_fuel]. destruct s as [|c s]; [done|].
  destruct (Str.decode_rune (String c s)) as [[z|] k] eqn:E; [|done].
  cbn [forallb fst is_some andb valid_runes]. intros Hv.
  destruct (decode_length (String c s) _ _ ltac:(done) E) as [Hl Hk].
  rewrite IH; [apply take_drop_app | | done].
  destruct k as [|k]; [done|]. cbn [Str.drop]. simpl in Hs. pose proof (Str.length_drop_le k s). lia.
Qed.

(** ** Numbers are scanned whole *)

(** What ends a number. *)
Definition stops (t : string) : bool :=
  match t with
  | EmptyString => true
  | String c _ => is_ws c || Str.in_set ",]}" c
  end.

Lemma stops_char c t : stops (String c t) = true ->
  Str.is_digit c = false /\ c <> "."%char /\ (Ascii.eqb c "e" || Ascii.eqb c "E") = false.
Proof. destruct c as [[] [] [] [] [] [] [] []]; intros Hc; try discriminate Hc; done. Qed.

Lemma span_digits_app s t d r :
  stops t = true -> span_digits s = (d, r) -> span_digits (s ++ t) = (d, r ++ t).
Proof.
  intros Ht. revert d r. induction s as [|c s IH]; simpl; intros d r.
  - intros [= <- <-]. destruct t as [|c t]; [done|].
    destruct (stops_char _ _ Ht) as (Hc & _). simpl. by rewrite Hc.
  - destruct (Str.is_digit c) eqn:E; [|by intros [= <- <-]].
    destruct (span_digits s) as [d' r'] eqn:Es. intros [= <- <-].
    by rewrite (IH d' r' eq_refl).
Qed.

Lemma digits1_app s t d r : stops t = true -> digits1 s = Some (d, r) -> digits1 (s ++ t) = Some (d, r ++ t).
Proof.
  unfold digits1. intros Ht. destruct (span_digits s) as [d' r'] eqn:E.
  rewrite (span_digits_app _ _ _ _ Ht E). by destruct (String.eqb d' ""); [|intros [= <- <-]].
Qed.

Lemma prepend_Some p o a r : prepend p o = Some (a, r) -> exists a', o = Some (a', r) /\ a = p ++ a'.
Proof. destruct o as [[x y]|]; [|done]. intros [= <- <-]. eauto. Qed.

Lemma scan_int_app s t a r : stops t = true -> scan_int s = Some (a, r) -> scan_int (s ++ t) = Some (a, r ++ t).
Proof.
  intros Ht. destruct s as [|c s]; [done|]. rewrite Str.app_cons. cbn [scan_int].
  destruct (Ascii.eqb c "0"); [by intros [= <- <-]|].
  intros H. apply (digits1_app _ t) in H; [|done]. by rewrite Str.app_cons in H.
Qed.

Lemma not_dot c s : c <> "."%char -> scan_frac (String c s) = Some ("", String c s).
Proof. intros Hc. destruct c as [[] [] [] [] [] [] [] []]; try done. Qed.

Lemma scan_frac_app s t a r : stops t = true -> scan_frac s = Some (a, r) -> scan_frac (s ++ t) = Some (a, r ++ t).
Proof.
  intros Ht. destruct s as [|c s].
  - intros [= <- <-]. destruct t as [|c t]; [done|]. change ("" ++ String c t) with (String c t).
    rewrite not_dot; [done | apply (stops_char _ _ Ht)].
  - destruct (decide (c = "."%char)) as [->|Hc].
    + intros H. cbn [scan_frac] in H. apply prepend_Some in H as (a' & H & ->).
      rewrite Str.app_cons. cbn [scan_frac]. by rewrite (digits1_app _ _ _ _ Ht H).
    + rewrite Str.app_cons, !not_dot by done. by intros [= <- <-].
Qed.

Lemma scan_exp_app s t a r : stops t = true -> scan_exp s = Some (a, r) -> scan_exp (s ++ t) = Some (a, r ++ t).
Proof.
  intros Ht. destruct s as [|c s].
  - intros [= <- <-]. simpl. destruct t as [|c t]; [done|]. simpl.
    destruct (stops_char _ _ Ht) as (_ & _ & ->). done.
  - rewrite Str.app_cons. cbn [scan_exp]. destruct (Ascii.eqb c "e" || Ascii.eqb c "E").
    2: { by intros [= <- <-]. }
    destruct s as [|d s]; [done|]. rewrite Str.app_cons. destruct (Ascii.eqb d "+" || Ascii.eqb d "-").
    + intros (a' & H & ->)%prepend_Some. by rewrite (digits1_app _ _ _ _ Ht H).
    + intros (a' & H & ->)%prepend_Some. apply (digits1_app _ t) in H; [|done].
      rewrite Str.app_cons in H. by rewrite H.
Qed.

Definition extends (p : string -> option (string * string)) : Prop :=
  forall s t a r, stops t = true -> p s = Some (a, r) -> p (s ++ t) = Some (a, r ++ t).

Lemma then_scan_app p q : extends p -> extends q -> extends (fun s => then_scan q (p s)).
Proof.
  intros Hp Hq s t a r Ht. unfold then_scan. destruct (p s) as [[x y]|] eqn:E; [|done].
  rewrite (Hp _ _ _ _ Ht E). intros (a' & H & ->)%prepend_Some. by rewrite (Hq _ _ _ _ Ht H).
Qed.

(** A number without its sign. *)
Definition scan_unsigned (s : string) : option (string * string) :=
  then_scan scan_exp (then_scan scan_frac (scan_int s)).

Lemma scan_unsigned_app : extends scan_unsigned.
Proof.
  apply (then_scan_app (fun s => then_scan scan_frac (scan_int s))).
  - apply then_scan_app; [exact scan_int_app | exact scan_frac_app].
  - exact scan_exp_app.
Qed.

Lemma scan_number_sign c s :
  scan_number (String c s) = if Ascii.eqb c "-" then prepend "-" (scan_unsigned s) else scan_unsigned (String c s).
Proof. destruct c as [[] [] [] [] [] [] [] []]; reflexivity. Qed.

Lemma scan_number_app : extends scan_number.
Proof.
  intros [|c s] t a r Ht; [done|]. rewrite Str.app_cons, !scan_number_sign.
  destruct (Ascii.eqb c "-").
  - intros (a' & H & ->)%prepend_Some. by rewrite (scan_unsigned_app _ _ _ _ Ht H).
  - intros H. apply (scan_unsigned_app _ t) in H; [|done]. by rewrite Str.app_cons in H.
Qed.

(** What was scanned and what is left make up the text. *)
Definition splits (p : string -> option (string * string)) : Prop :=
  forall s a r, p s = Some (a, r) -> s = a ++ r.

Lemma digits1_splits : splits digits1.
Proof.
  assert (forall s d r, span_digits s = (d, r) -> s = d ++ r) as H.
  { induction s as [|c s IH]; simpl; intros d r; [by intros [= <- <-]|].
    destruct (Str.is_digit c); [|by intros [= <- <-]].
    destruct (span_digits s) as [d' r']. intros [= <- <-]. rewrite Str.app_cons. f_equal. by apply IH. }
  intros s a r. unfold digits1. destruct (span_digits s) as [d' r'] eqn:E.
  destruct (String.eqb d' ""); [done|]. intros [= <- <-]. by apply H.
Qed.

Lemma prepend_splits p o s a r : 
  (forall a' r', o = Some (a', r') -> s = a' ++ r') -> prepend p o = Some (a, r) -> p ++ s = a ++ r.
Proof. intros H (a' & Ho & ->)%prepend_Some. rewrite <- Str.app_assoc. f_equal. by apply H. Qed.

Lemma then_splits p q : splits p -> splits q -> splits (fun s => then_scan q (p s)).
Proof.
  intros Hp Hq s a r. unfold then_scan. destruct (p s) as [[x y]|] eqn:E; [|done].
  rewrite (Hp _ _ _ E). apply prepend_splits, Hq.
Qed.

Lemma scan_number_splits : splits scan_number.
Proof.
  assert (splits scan_unsigned) as H.
  { apply (then_splits (fun s => then_scan scan_frac (scan_int s))); [apply then_splits|].
    - intros [|c s] a r; [done|]. cbn [scan_int]. destruct (Ascii.eqb_spec c "0") as [->|].
      + by intros [= <- <-].
      + apply digits1_splits.
    - intros [|c s] a r; [by intros [= <- <-]|]. destruct (decide (c = "."%char)) as [->|Hc].
      + apply (prepend_splits "."), digits1_splits.
      + rewrite not_dot by done. by intros [= <- <-].
    - intros [|c s] a r; [by intros [= <- <-]|]. cbn [scan_exp].
      destruct (Ascii.eqb c "e" || Ascii.eqb c "E"); [|by intros [= <- <-]].
      destruct s as [|d s]; [done|]. destruct (Ascii.eqb d "+" || Ascii.eqb d "-").
      + apply (prepend_splits (String c (String d ""))), digits1_splits.
      + apply (prepend_splits (String c "")), digits1_splits. }
  intros [|c s] a r; [done|]. rewrite scan_number_sign.
  destruct (Ascii.eqb_spec c "-") as [->|]; [|apply H].
  apply (prepend_splits "-"), H.
Qed.

Lemma isValidNumber_scan lit t :
  isValidNumber lit = true -> stops t = true -> scan_number (lit ++ t) = Some (lit, t).
Proof.
  unfold isValidNumber. destruct (scan_number lit) as [[a [|]]|] eqn:E; try done. intros _ Ht.
  pose proof (scan_number_splits _ _ _ E) as Hl. rewrite Str.app_nil_r in Hl. subst a.
  by rewrite (scan_number_app _ _ _ _ Ht E).
Qed.

Lemma span_all s : Str.all_chars Str.is_digit s = true -> span_digits s = (s, "").
Proof.
  induction s as [|c s IH]; [done|]. cbn [Str.all_chars span_digits]. intros [Hc Hs]%andb_true_iff.
  by rewrite Hc, IH.
Qed.

(** Decimal text without leading zeros is a number. *)
Lemma canonical_valid s : Strconv.canonical_digits s = true -> isValidNumber s = true.
Proof.
  unfold Strconv.canonical_digits. destruct s as [|c r]; [done|]. intros [Ha Hz]%andb_true_iff.
  unfold isValidNumber. rewrite scan_number_sign.
  destruct (Ascii.eqb_spec c "-") as [->|Hm]; [by cbn in Ha|].
  unfold scan_unsigned. cbn [scan_int].
  destruct (Ascii.eqb c "0") eqn:E0.
  - apply Ascii.eqb_eq in E0 as ->. rewrite orb_false_r in Hz. by apply String.eqb_eq in Hz as ->.
  - unfold digits1. rewrite span_all by done. reflexivity.
Qed.

(** ** Documents are read back *)

(** Induction over documents, with the hypothesis for every element and member. *)
Lemma value_ind' (P : value -> Prop) :
  P VNull -> (forall b, P (VBool b)) -> (forall lit, P (VNum lit)) -> (forall s, P (VStr s)) ->
  (forall l, Forall P l -> P (VArr l)) ->
  (forall l, Forall (fun kv => P (snd kv)) l -> P (VObj l)) -> forall v, P v.
Proof.
  intros H0 H1 H2 H3 Ha Ho. fix IH 1. intros [|b|lit|s|l|l]; [exact H0 | apply H1 | apply H2 | apply H3 | |].
  - apply Ha. induction l as [|v l IHl]; constructor; [apply IH | exact IHl].
  - apply Ho. induction l as [|[k v] l IHl]; constructor; [apply IH | exact IHl].
Qed.

Definition all_ws (s : string) : bool := Str.all_chars is_ws s.

Lemma skip_ws_app w s : all_ws w = true -> skip_ws (w ++ s) = skip_ws s.
Proof.
  induction w as [|c w IH]; [done|]. cbn [all_ws Str.all_chars]. intros [Hc Hw]%andb_true_iff.
  rewrite Str.app_cons. cbn [skip_ws]. rewrite Hc. by apply IH.
Qed.

Lemma parse_value_ws n d w s : all_ws w = true -> parse_value n d (w ++ s) = parse_value n d s.
Proof. destruct n as [|n]; [done|]. intros Hw. cbn [parse_value]. by rewrite skip_ws_app. Qed.

Lemma parse_members_ws n d w s : all_ws w = true -> parse_members n d (w ++ s) = parse_members n d s.
Proof. destruct n as [|n]; [done|]. intros Hw. cbn [parse_members]. by rewrite skip_ws_app. Qed.

Lemma parse_elems_ws n d w s : all_ws w = true -> parse_elems n d (w ++ s) = parse_elems n d s.
Proof. destruct n as [|n]; [done|]. intros Hw. cbn [parse_elems]. by rewrite parse_value_ws. Qed.

(** The first character of a document. *)
Definition starts (c : ascii) : bool :=
  Str.in_set (String Str.dquote "{[ntf-") c || Str.is_digit c.

Lemma digits1_head s a r : digits1 s = Some (a, r) -> exists c s', s = String c s' /\ Str.is_digit c = true.
Proof.
  destruct s as [|c s]; [done|]. unfold digits1. cbn [span_digits].
  destruct (Str.is_digit c) eqn:E; [eauto | done].
Qed.

Lemma isValidNumber_head lit :
  isValidNumber lit = true ->
  exists c s, lit = String c s /\ (Ascii.eqb c "-" || Str.is_digit c) = true.
Proof.
  unfold isValidNumber. destruct lit as [|c s]; [done|]. rewrite scan_number_sign.
  destruct (Ascii.eqb c "-") eqn:Ec; [intros _; exists c, s; by rewrite Ec|].
  unfold scan_unsigned. cbn [scan_int].
  destruct (Ascii.eqb_spec c "0") as [->|]; [intros _; by exists "0"%char, s|].
  destruct (digits1 (String c s)) as [[a r]|] eqn:E; [|done].
  apply digits1_head in E as (c' & s' & [= <- <-] & Hc). intros _. exists c, s. by rewrite Hc, orb_true_r.
Qed.

Lemma print_head sp v : numbers_ok v = true -> exists c s, print sp v = String c s /\ starts c = true.
Proof.
  destruct v as [|[]|lit|s|l|l]; cbn [numbers_ok print]; intros Hv; try by eexists _, _.
  destruct (isValidNumber_head _ Hv) as (c & s & -> & Hc). exists c, s. split; [done|].
  unfold starts. destruct (Str.is_digit c); [by rewrite orb_true_r|].
  rewrite orb_false_r in *. by apply Ascii.eqb_eq in Hc as ->.
Qed.

Lemma skip_ws_starts c s : starts c = true -> skip_ws (String c s) = String c s.
Proof.
  intros Hc. cbn [skip_ws]. destruct (is_ws c) eqn:E; [|done]. exfalso. revert Hc E.
  destruct c as [[] [] [] [] [] [] [] []]; intros Hc E; vm_compute in Hc, E; congruence.
Qed.

(** A number is recognised by its first character. *)
Lemma parse_number n d c s lit r :
  (Ascii.eqb c "-" || Str.is_digit c) = true -> scan_number (String c s) = Some (lit, r) ->
  parse_value (S n) d (String c s) = Some (VNum lit, r).
Proof.
  intros Hc Hs. cbn [parse_value]. rewrite skip_ws_starts.
  2: { unfold starts. destruct (Str.is_digit c); [by rewrite orb_true_r|].
       rewrite orb_false_r in *. by apply Ascii.eqb_eq in Hc as ->. }
  rewrite Hs. revert Hc. clear.
  destruct c as [[] [] [] [] [] [] [] []]; intros Hc; try (vm_compute in Hc; discriminate Hc); reflexivity.
Qed.

(** An array whose first element starts with [c]. *)
Lemma parse_array n d c s : (d < maxDepth)%Z -> starts c = true ->
  parse_value (S n) d ("[" ++ String c s) =
  match parse_elems n (d + 1) (String c s) with Some (l, r) => Some (VArr l, r) | None => None end.
Proof.
  intros Hd Hc. rewrite Str.app_cons. cbn -[skip_ws parse_elems maxDepth String.append Z.add].
  change (skip_ws (String "[" ("" ++ String c s))) with (String "[" (String c s)). cbv beta iota.
  change (Ascii.eqb "[" Str.dquote) with false. change (Ascii.eqb "[" "{") with false.
  change (Ascii.eqb "[" "[") with true. cbv beta iota.
  replace (maxDepth <=? d)%Z with false by lia. rewrite skip_ws_starts by done.
  destruct c as [[] [] [] [] [] [] [] []]; try (vm_compute in Hc; discriminate Hc); reflexivity.
Qed.

Lemma parse_object n d s : (d < maxDepth)%Z ->
  parse_value (S n) d ("{" ++ String Str.dquote s) =
  match parse_members n (d + 1) (String Str.dquote s) with Some (l, r) => Some (VObj l, r) | None => None end.
Proof.
  intros Hd. cbn -[parse_members maxDepth Z.add].
  by replace (maxDepth <=? d)%Z with false by lia.
Qed.

Section RoundTrip.
Context (sp : string) (Hsp : all_ws sp = true).

(** Lengths of what a hypothesis puts together. *)
Ltac lengths H :=
  rewrite !Str.length_app in H;
  repeat (change (String.length ",") with 1%nat in H || change (String.length ":") with 1%nat in H).

Definition reads (v : value) : Prop := forall n d t,
  stops t = true -> numbers_ok v = true -> (d + depth v <= maxDepth)%Z ->
  (2 * String.length (print sp v) < n)%nat ->
  parse_value n d (print sp v ++ t) = Some (norm v, t).

Lemma join_cons2 sep x y l : Str.join sep (x :: y :: l) = x ++ sep ++ Str.join sep (y :: l).
Proof. done. Qed.

Lemma max_nonneg l : (0 <= foldr Z.max 0 l)%Z.
Proof. induction l; simpl; lia. Qed.

Lemma reads_elems v l n d t :
  Forall reads (v :: l) -> forallb numbers_ok (v :: l) = true ->
  (d + foldr Z.max 0 (map depth (v :: l)) <= maxDepth)%Z ->
  (2 * String.length (Str.join ("," ++ sp) (map (print sp) (v :: l))) + 1 < n)%nat ->
  parse_elems n d (Str.join ("," ++ sp) (map (print sp) (v :: l)) ++ "]" ++ t) = Some (map norm (v :: l), t).
Proof.
  revert v n. induction l as [|w l IH]; intros v [|n] Hr Hn Hd Hf; try lia;
    apply Forall_cons in Hr as [Hv Hr]; cbn [forallb] in Hn; apply andb_true_iff in Hn as [Hnv Hn];
    simpl in Hd.
  - cbn [parse_elems map Str.join] in *.
    rewrite Hv; [reflexivity | reflexivity | done | lia | lia].
  - cbn [map] in *. rewrite join_cons2 in *. lengths Hf.
    rewrite <- !Str.app_assoc. cbn [parse_elems].
    rewrite Hv; [|reflexivity | done | lia | lia].
    change (skip_ws ("," ++ sp ++ Str.join ("," ++ sp) (print sp w :: map (print sp) l) ++ "]" ++ t))
      with (String "," (sp ++ Str.join ("," ++ sp) (print sp w :: map (print sp) l) ++ "]" ++ t)).
    cbv beta iota. rewrite parse_elems_ws by done.
    specialize (IH w n Hr Hn). cbn [map] in IH. rewrite IH; [done | |lia].
    simpl. lia.
Qed.

Definition print_member (kv : string * value) : string :=
  print_string (fst kv) ++ ":" ++ sp ++ print sp (snd kv).

Definition norm_member (kv : string * value) : string * value := (to_valid (fst kv), norm (snd kv)).

Lemma reads_members kv l n d t :
  Forall (fun kv => reads (snd kv)) (kv :: l) -> forallb (fun kv => numbers_ok (snd kv)) (kv :: l) = true ->
  (d + foldr Z.max 0 (map (fun kv => depth (snd kv)) (kv :: l)) <= maxDepth)%Z ->
  (2 * String.length (Str.join ("," ++ sp) (map print_member (kv :: l))) + 1 < n)%nat ->
  parse_members n d (Str.join ("," ++ sp) (map print_member (kv :: l)) ++ "}" ++ t)
  = Some (map norm_member (kv :: l), t).
Proof.
  revert kv n. induction l as [|kw l IH]; intros [k v] [|n] Hr Hn Hd Hf; try lia;
    apply Forall_cons in Hr as [Hv Hr]; cbn [forallb] in Hn; apply andb_true_iff in Hn as [Hnv Hn];
    simpl in Hv, Hnv.
  - cbn [map Str.join] in *. unfold print_member in *. cbn [fst snd] in *.
    lengths Hf. simpl in Hd. rewrite <- !Str.app_assoc.
    destruct (scan_print n k (":" ++ sp ++ print sp v ++ "}" ++ t)) as (r & -> & Hs); [lia|].
    cbn [parse_members]. change (skip_ws (String Str.dquote r)) with (String Str.dquote r).
    cbv beta iota. change (negb (Ascii.eqb Str.dquote Str.dquote)) with false. cbv iota.
    rewrite Hs. change (skip_ws (":" ++ sp ++ print sp v ++ "}" ++ t)) with (String ":" (sp ++ print sp v ++ "}" ++ t)).
    cbv beta iota. rewrite parse_value_ws by done.
    rewrite Hv; [reflexivity | reflexivity | done | lia | lia].
  - cbn [map] in *. rewrite join_cons2 in *. simpl in Hd.
    lengths Hf. unfold print_member at 1. unfold print_member in Hf at 1. cbn [fst snd] in *.
    lengths Hf. rewrite <- !Str.app_assoc.
    set (rest := Str.join _ _ ++ "}" ++ t).
    destruct (scan_print n k (":" ++ sp ++ print sp v ++ "," ++ sp ++ rest)) as (r & -> & Hs); [lia|].
    cbn [parse_members]. change (skip_ws (String Str.dquote r)) with (String Str.dquote r).
    cbv beta iota. change (negb (Ascii.eqb Str.dquote Str.dquote)) with false. cbv iota.
    rewrite Hs. change (skip_ws (":" ++ sp ++ print sp v ++ "," ++ sp ++ rest))
      with (String ":" (sp ++ print sp v ++ "," ++ sp ++ rest)).
    cbv beta iota. rewrite parse_value_ws by done.
    rewrite Hv; [|reflexivity | done | lia | lia].
    change (skip_ws ("," ++ sp ++ rest)) with (String "," (sp ++ rest)). cbv beta iota.
    rewrite parse_members_ws by done. unfold rest.
    specialize (IH kw n Hr Hn). cbn [map] in IH. rewrite IH; [done | simpl; lia |lia].
Qed.

Lemma print_obj l : print sp (VObj l) = "{" ++ Str.join ("," ++ sp) (map print_member l) ++ "}".
Proof. done. Qed.

Lemma print_arr l : print sp (VArr l) = "[" ++ Str.join ("," ++ sp) (map (print sp) l) ++ "]".
Proof. done. Qed.

Lemma reads_all v : reads v.
Proof.
  induction v as [|b|lit|s|l IH|l IH] using value_ind'; intros [|n] d t Ht Hn Hd Hf; try lia.
  - reflexivity.
  - by destruct b.
  - cbn [print numbers_ok norm] in *.
    pose proof (isValidNumber_scan _ _ Hn Ht) as Hs.
    destruct (isValidNumber_head _ Hn) as (c & s & -> & Hc). by apply parse_number.
  - cbn [print norm] in *.
    destruct (scan_print n s t) as (r & -> & Hs); [lia|]. cbn [parse_value].
    change (skip_ws (String Str.dquote r)) with (String Str.dquote r). cbv beta iota.
    change (Ascii.eqb Str.dquote Str.dquote) with true. cbv iota. by rewrite Hs.
  - rewrite print_arr in *. rewrite !Str.length_app in Hf. simpl in Hf. rewrite <- !Str.app_assoc.
    destruct l as [|v l].
    { cbn [depth map foldr] in Hd. cbn -[maxDepth]. by replace (maxDepth <=? d)%Z with false by lia. }
    pose proof (max_nonneg (map depth (v :: l))).
    cbn [depth numbers_ok] in *.
    pose proof (reads_elems v l n (d + 1) t IH Hn ltac:(lia) ltac:(lia)) as He.
    assert (exists c s, Str.join ("," ++ sp) (map (print sp) (v :: l)) ++ "]" ++ t = String c s
                        /\ starts c = true) as (c & s & E & Hc).
    { cbn [forallb] in Hn. apply andb_true_iff in Hn as [Hnv _].
      destruct (print_head sp v Hnv) as (c & s & E & Hc). cbn [map].
      destruct l as [|w l]; [cbn [map Str.join]|cbn [map]; rewrite join_cons2]; rewrite E, !Str.app_cons;
        by eexists _, _. }
    rewrite E in He |- *. rewrite parse_array, He by (done || lia). done.
  - rewrite print_obj in *. rewrite !Str.length_app in Hf. simpl in Hf. rewrite <- !Str.app_assoc.
    destruct l as [|kv l].
    { cbn [depth map foldr] in Hd. cbn -[maxDepth]. by replace (maxDepth <=? d)%Z with false by lia. }
    pose proof (max_nonneg (map (fun kv => depth (snd kv)) (kv :: l))).
    cbn [depth numbers_ok] in *.
    pose proof (reads_members kv l n (d + 1) t IH Hn ltac:(lia) ltac:(lia)) as He.
    assert (exists s, Str.join ("," ++ sp) (map print_member (kv :: l)) ++ "}" ++ t = String Str.dquote s)
      as (s & E).
    { cbn [map]. unfold print_member at 1.
      destruct l as [|w l]; [cbn [map Str.join]|cbn [map]; rewrite join_cons2];
        unfold print_string at 1; rewrite <- !Str.app_assoc; by eexists. }
    rewrite E in He |- *. rewrite parse_object, He by lia. done.
Qed.

(** A document that is written is read back, except that invalid bytes of its strings
    have become U+FFFD. *)
Lemma parse_print v :
  numbers_ok v = true -> (depth v <= maxDepth)%Z -> parse (print sp v) = Some (norm v).
Proof.
  intros Hn Hd. unfold parse, parse_first, fuel_for.
  pose proof (reads_all v (S (2 * String.length (print sp v))) 0%Z "" eq_refl Hn) as H.
  rewrite Str.app_nil_r in H. rewrite H; [done | lia | lia].
Qed.

(** The same with white space after it, or anything that ends a number for a decoder
    that reads one document only. *)
Lemma parse_first_print v t :
  numbers_ok v = true -> (depth v <= maxDepth)%Z -> stops t = true ->
  parse_first (print sp v ++ t) = Some (norm v, t).
Proof.
  intros Hn Hd Ht. unfold parse_first, fuel_for. apply reads_all; [done | done | lia |].
  rewrite Str.length_app. lia.
Qed.

End RoundTrip.

(** Texts for examples. *)
Definition sample_text : JsonText :=
  {| syntax_text := fun _ => "unexpected end of JSON input"; type_text := fun _ => "json: cannot unmarshal" |}.

End Json.
