(* ===== verification/GoFloat.v ===== *)
(** * strconv.ParseFloat and the float64 arithmetic of the trace sample rate

    Decimal and hexadecimal numbers, underscores, infinities and NaN, read to the
    nearest float64 (ties to even) with the specification floats of the Standard
    Library. *)
From Stdlib Require Import ZArith Lia.
From Stdlib Require Import Ascii String.
From Stdlib Require Import Floats.SpecFloat.
From stdpp Require Import base list strings.
From S2P Require Import Prelude GoStrings GoErrors GoFormat Json.
Local Open Scope string_scope.

Module Float.
Local Open Scope Z_scope.

(** ** Reading the text *)

Definition digit_of (hex : bool) (c : ascii) : option Z :=
  if hex then Json.hex_value c else if Str.is_digit c then Some (Str.byte c - 48) else None.

(** The digits before the exponent: their value, how many follow the point (if there
    is one), whether there are any, whether there are underscores, and the rest. *)
Fixpoint mantissa (hex : bool) (m : Z) (frac : option Z) (saw under : bool) (s : string)
  : Z * option Z * bool * bool * string :=
  match s with
  | EmptyString => (m, frac, saw, under, s)
  | String c r =>
      if Ascii.eqb c "_" then mantissa hex m frac saw true r
      else if Ascii.eqb c "." then
        match frac with
        | Some _ => (m, frac, saw, under, s)
        | None => mantissa hex m (Some 0) saw under r
        end
      else match digit_of hex c with
           | Some d => mantissa hex (m * (if hex then 16 else 10) + d) (option_map Z.succ frac) true under r
           | None => (m, frac, saw, under, s)
           end
  end.

(** The digits of the exponent; it stops growing past 10000. *)
Fixpoint exponentDigits (e : Z) (under : bool) (s : string) : Z * bool * string :=
  match s with
  | EmptyString => (e, under, s)
  | String c r =>
      if Str.is_digit c then exponentDigits (if e <? 10000 then e * 10 + (Str.byte c - 48) else e) under r
      else if Ascii.eqb c "_" then exponentDigits e true r
      else (e, under, s)
  end.

Definition sign_of (s : string) : bool * string :=
  match s with
  | String c r => if Ascii.eqb c "-" then (true, r) else if Ascii.eqb c "+" then (false, r) else (false, s)
  | EmptyString => (false, s)
  end.

(** The exponent, when it is there; [None] when it is malformed. *)
Definition exponent (hex : bool) (under : bool) (s : string) : option (Z * bool * string) :=
  let mark := if hex then "p"%char else "e"%char in
  match s with
  | String c r =>
      if Ascii.eqb (Str.to_lower1 c) mark then
        let '(neg, d) := sign_of r in
        match d with
        | String c' _ =>
            if Str.is_digit c' then
              let '(e, under, rest) := exponentDigits 0 under d in
              Some (if neg then - e else e, under, rest)
            else None
        | EmptyString => None
        end
      else if hex then None else Some (0, under, s)
  | EmptyString => if hex then None else Some (0, under, s)
  end.

Inductive saw := SawStart | SawDigit | SawUnderscore | SawOther.

Fixpoint underscores (hex : bool) (last : saw) (s : string) : bool :=
  match s with
  | EmptyString => match last with SawUnderscore => false | _ => true end
  | String c r =>
      if Str.is_digit c || (hex && Str.in_range "a" "f" (Str.to_lower1 c)) then underscores hex SawDigit r
      else if Ascii.eqb c "_" then
        match last with SawDigit => underscores hex SawUnderscore r | _ => false end
      else match last with SawUnderscore => false | _ => underscores hex SawOther r end
  end.

Definition hex_prefix (s : string) : option string :=
  match s with
  | String "0" (String c r) => if Ascii.eqb (Str.to_lower1 c) "x" then Some r else None
  | _ => None
  end.

Definition underscoreOK (s : string) : bool :=
  let s := snd (sign_of s) in
  match s with
  | String "0" (String c r) =>
      let l := Str.to_lower1 c in
      if Ascii.eqb l "b" || Ascii.eqb l "o" || Ascii.eqb l "x" then underscores (Ascii.eqb l "x") SawDigit r
      else underscores false SawStart s
  | _ => underscores false SawStart s
  end.

(** [readFloat] on the whole text: the sign, the digits, the base of the exponent. *)
Record Read := { r_neg : bool; r_mant : Z; r_hex : bool; r_exp : Z }.

Definition readFloat (s : string) : option Read :=
  let '(neg, body) := sign_of s in
  let '(hex, digits) :=
    match hex_prefix body with
    | Some (String _ _ as r) => (true, r)
    | _ => (false, body)
    end in
  let '(m, frac, saw, under, rest) := mantissa hex 0 None false false digits in
  if negb saw then None
  else match exponent hex under rest with
       | None => None
       | Some (e, under, rest) =>
           if String.eqb rest "" && (negb under || underscoreOK s) then
             Some {| r_neg := neg; r_mant := m; r_hex := hex;
                     r_exp := e - default 0 frac * (if hex then 4 else 1) |}
           else None
       end.

(** ** Rounding *)

(** The float64 nearest to [m * b ^ e], [m] not negative. *)
Definition nearest (m : Z) (hex : bool) (e : Z) : F64.t :=
  match m with
  | Zpos p =>
      if hex then binary_normalize F64.prec F64.emax m e false
      else if 0 <=? e then binary_normalize F64.prec F64.emax (m * 10 ^ e) 0 false
      else F64.div (S754_finite false p 0) (S754_finite false (Z.to_pos (10 ^ (- e))) 0)
  | _ => S754_zero false
  end.

Definition value (r : Read) : F64.t :=
  let x := nearest (r_mant r) (r_hex r) (r_exp r) in if r_neg r then SFopp x else x.

Definition is_inf (x : F64.t) : bool := match x with S754_infinity _ => true | _ => false end.

(** "inf", "infinity" with a sign or without, "nan". *)
Definition special (s : string) : option F64.t :=
  let '(neg, body) := sign_of (Str.to_lower s) in
  if String.eqb body "inf" || String.eqb body "infinity" then Some (S754_infinity neg)
  else if String.eqb (Str.to_lower s) "nan" then Some S754_nan
  else None.

(** [strconv.ParseFloat(s, 64)] *)
Definition ParseFloat `{PrintTable} (s : string) : F64.t + error :=
  let numError what := errMsg ("strconv.ParseFloat: parsing " ++ Quote.quote s ++ ": " ++ what)%string in
  match special s with
  | Some x => inl x
  | None =>
      match readFloat s with
      | None => inr (numError "invalid syntax")
      | Some r => if is_inf (value r) then inr (numError "value out of range") else inl (value r)
      end
  end.

(** ** Values, checked against IEEE 754 *)

Section Examples.
Let printable : PrintTable := fun _ => true.
Local Existing Instance printable.

Example tenth : ParseFloat "0.1" = inl (S754_finite false 7205759403792794 (-56)).
Proof. vm_compute. reflexivity. Qed.

Example smallest : ParseFloat "5e-324" = inl (S754_finite false 1 (-1074)).
Proof. vm_compute. reflexivity. Qed.

Example too_small : ParseFloat "-1e-400" = inl (S754_zero true).
Proof. vm_compute. reflexivity. Qed.

Example too_large : ParseFloat "1e309" = inr (errMsg ("strconv.ParseFloat: parsing " ++ Quote.quote "1e309" ++ ": value out of range")).
Proof. vm_compute. reflexivity. Qed.

Example half_hex : ParseFloat "0x1p-1" = ParseFloat ".5".
Proof. vm_compute. reflexivity. Qed.

Example separated : ParseFloat "1_00.0e0" = inl (F64.of_Z 100) /\ readFloat "1__0" = None /\ readFloat "_1" = None.
Proof. vm_compute. done. Qed.

Example ties_to_even : ParseFloat "9007199254740993" = inl (F64.of_Z 9007199254740992).
Proof. vm_compute. reflexivity. Qed.

Example malformed : readFloat "" = None /\ readFloat "." = None /\ readFloat "1e" = None /\ readFloat "0x1" = None
  /\ readFloat "1.2.3" = None /\ readFloat "+-1" = None.
Proof. vm_compute. done. Qed.

Example specials : ParseFloat "NaN" = inl S754_nan /\ ParseFloat "-Inf" = inl (S754_infinity true)
  /\ readFloat "+nan" = None.
Proof. vm_compute. done. Qed.

End Examples.

End Float.
