(* ===== verification/OciConfig.v ===== *)
(** * pkg/oci/mediatype.go and config.go: the configuration of an image

    The media types, the configuration that an image carries, and its JSON form: both
    methods work on an auxiliary struct whose embedded alias has the fields of the
    configuration and whose own field is the storage list. *)
From Stdlib Require Import ZArith Lia.
From Stdlib Require Import Ascii String.
From stdpp Require Import base list strings.
From S2P Require Import Prelude GoStrings GoErrors Json.
Local Open Scope string_scope.

Module OciConfig.

Definition MediaType := string.

(* src/pkg/oci/mediatype.go : 10-20 MediaTypeDiskImage *)
Definition MediaTypeDiskImage : MediaType := "application/vnd.agoda.macosvz.disk.image.v1".
Definition MediaTypeAuxImage : MediaType := "application/vnd.agoda.macosvz.aux.image.v1".
Definition MediaTypeConfigV1 : MediaType := "application/vnd.agoda.macosvz.config.v1+json".

(* src/pkg/oci/mediatype.go : 22-32 MediaType.Title *)
Definition Title (mt : MediaType) : string :=
  if String.eqb mt MediaTypeConfigV1 then "config.json"
  else if String.eqb mt MediaTypeDiskImage then "disk.img"
  else if String.eqb mt MediaTypeAuxImage then "aux.img"
  else "".

(* src/pkg/oci/mediatype.go : 34-44 IsMediaTypeSupported *)
Definition IsMediaTypeSupported (mediaType : string) : bool :=
  bool_decide (mediaType ∈ [MediaTypeConfigV1; MediaTypeDiskImage; MediaTypeAuxImage]).

(* src/pkg/oci/config.go : Config *)
Record Config := {
  cfg_MediaType : MediaType;
  cfg_OS : string;
  HardwareModelData : string;
  MachineIdData : string;
  Storage : list MediaType
}.

(* src/pkg/oci/config.go : NewMacOSConfig *)
Definition NewMacOSConfig (hardwareModelData machineIdData : string) : Config :=
  {| cfg_MediaType := MediaTypeConfigV1; cfg_OS := "darwin"; HardwareModelData := hardwareModelData;
     MachineIdData := machineIdData; Storage := [MediaTypeAuxImage; MediaTypeDiskImage] |}.

Definition noConfig : Config :=
  {| cfg_MediaType := ""; cfg_OS := ""; HardwareModelData := ""; MachineIdData := ""; Storage := [] |}.

(** ** Writing *)

(* src/pkg/oci/config.go : storageItem *)
Record storageItem := { si_MediaType : MediaType; si_File : string }.

Definition itemValue (it : storageItem) : Json.value :=
  Json.VObj [("mediatype", Json.VStr (si_MediaType it)); ("file", Json.VStr (si_File it))].

(** The fields of the auxiliary struct in the order of their index: its own first, then
    those of the alias; an empty media type is omitted. *)
(* src/pkg/oci/config.go : Config.MarshalJSON *)
Definition MarshalJSON (c : Config) : Json.value :=
  let items := map (fun mt => {| si_MediaType := mt; si_File := Title mt |}) (Storage c) in
  Json.VObj
    ([("storage", Json.VArr (map itemValue items))]
     ++ (if String.eqb (cfg_MediaType c) "" then [] else [("mediatype", Json.VStr (cfg_MediaType c))])
     ++ [("os", Json.VStr (cfg_OS c)); ("hardwareModelData", Json.VStr (HardwareModelData c));
         ("machineIdData", Json.VStr (MachineIdData c))])%list.

(** [json.Marshal] writes without spaces. *)
Definition marshalConfig (c : Config) : string := Json.print "" (MarshalJSON c).

(** ** Reading *)

Definition storeItem (v : Json.value) (it : storageItem) : option storageItem :=
  Json.store_struct ["mediatype"; "file"]
    (fun f v it =>
       if String.eqb f "mediatype"
       then s ← Json.store_string v (si_MediaType it); Some {| si_MediaType := s; si_File := si_File it |}
       else s ← Json.store_string v (si_File it); Some {| si_MediaType := si_MediaType it; si_File := s |}) v it.

(** An array is decoded into the elements of a slice that are already there, which a
    member that is repeated meets, and then into empty ones. *)
Fixpoint storeItems (l : list Json.value) (backing : list storageItem) : option (list storageItem) :=
  match l with
  | [] => Some backing
  | v :: l =>
      let '(it, rest) := match backing with
                         | [] => ({| si_MediaType := ""; si_File := "" |}, [])
                         | it :: rest => (it, rest)
                         end in
      it ← storeItem v it; r ← storeItems l rest; Some (it :: r)
  end.

(** The slice: its backing array and its length. *)
Definition storeSlice (v : Json.value) (s : list storageItem * nat) : option (list storageItem * nat) :=
  match v with
  | Json.VNull | Json.VArr [] => Some ([], O)
  | Json.VArr l => b ← storeItems l (fst s); Some (b, List.length l)
  | _ => None
  end.

Definition fieldNames : list string := ["storage"; "mediatype"; "os"; "hardwareModelData"; "machineIdData"].

Definition with_mt (s : string) (c : Config) : Config :=
  {| cfg_MediaType := s; cfg_OS := cfg_OS c; HardwareModelData := HardwareModelData c;
     MachineIdData := MachineIdData c; Storage := Storage c |}.
Definition with_os (s : string) (c : Config) : Config :=
  {| cfg_MediaType := cfg_MediaType c; cfg_OS := s; HardwareModelData := HardwareModelData c;
     MachineIdData := MachineIdData c; Storage := Storage c |}.
Definition with_hw (s : string) (c : Config) : Config :=
  {| cfg_MediaType := cfg_MediaType c; cfg_OS := cfg_OS c; HardwareModelData := s;
     MachineIdData := MachineIdData c; Storage := Storage c |}.
Definition with_id (s : string) (c : Config) : Config :=
  {| cfg_MediaType := cfg_MediaType c; cfg_OS := cfg_OS c; HardwareModelData := HardwareModelData c;
     MachineIdData := s; Storage := Storage c |}.
Definition with_storage (l : list MediaType) (c : Config) : Config :=
  {| cfg_MediaType := cfg_MediaType c; cfg_OS := cfg_OS c; HardwareModelData := HardwareModelData c;
     MachineIdData := MachineIdData c; Storage := l |}.

(** A member into the auxiliary struct: the slice, and the configuration behind the
    alias. *)
Definition storeField (f : string) (v : Json.value) (a : (list storageItem * nat) * Config) :
    option ((list storageItem * nat) * Config) :=
  let '(items, c) := a in
  if String.eqb f "storage" then x ← storeSlice v items; Some (x, c)
  else if String.eqb f "mediatype" then s ← Json.store_string v (cfg_MediaType c); Some (items, with_mt s c)
  else if String.eqb f "os" then s ← Json.store_string v (cfg_OS c); Some (items, with_os s c)
  else if String.eqb f "hardwareModelData"
  then s ← Json.store_string v (HardwareModelData c); Some (items, with_hw s c)
  else s ← Json.store_string v (MachineIdData c); Some (items, with_id s c).

(** The storage items are added to those that the configuration has. *)
(* src/pkg/oci/config.go : Config.UnmarshalJSON *)
Definition UnmarshalJSON (c : Config) (v : Json.value) : option Config :=
  '((backing, n), c') ← Json.store_struct fieldNames storeField v (([], O), c);
  Some (with_storage (Storage c' ++ map si_MediaType (firstn n backing)) c').

(** [Decoder.Decode] into a new configuration: the first document of the text. *)
Definition decodeConfig `{JsonText} (data : string) : Config + error :=
  match Json.parse_first data with
  | None => inr (errMsg (syntax_text data))
  | Some (v, _) =>
      match UnmarshalJSON noConfig v with
      | Some c => inl c
      | None => inr (errMsg (type_text data))
      end
  end.

(** ** Round trip *)

Definition valid_config (c : Config) : bool :=
  Json.utf8_valid (cfg_MediaType c) && Json.utf8_valid (cfg_OS c) && Json.utf8_valid (HardwareModelData c)
  && Json.utf8_valid (MachineIdData c) && forallb Json.utf8_valid (Storage c).


Lemma storeItem_written it it0 :
  storeItem (Json.norm (itemValue it)) it0
  = Some {| si_MediaType := Json.to_valid (si_MediaType it); si_File := Json.to_valid (si_File it) |}.
Proof.
  unfold itemValue. cbn -[Json.to_valid]. unfold storeItem. cbn [Json.store_struct Json.store_members].
  change (Json.to_valid "mediatype") with "mediatype". change (Json.to_valid "file") with "file".
  change (Json.field_of ["mediatype"; "file"] "mediatype") with (Some "mediatype").
  change (Json.field_of ["mediatype"; "file"] "file") with (Some "file").
  reflexivity.
Qed.

Lemma storeItems_written l :
  storeItems (map Json.norm (map itemValue l)) []
  = Some (map (fun it => {| si_MediaType := Json.to_valid (si_MediaType it); si_File := Json.to_valid (si_File it) |}) l).
Proof.
  induction l as [|it l IH]; [done|]. cbn [map storeItems]. rewrite storeItem_written.
  cbn [mbind option_bind]. by rewrite IH.
Qed.

Definition written_items (l : list MediaType) : list storageItem :=
  map (fun mt => {| si_MediaType := Json.to_valid mt; si_File := Json.to_valid (Title mt) |}) l.

Lemma storeSlice_written l :
  storeSlice (Json.norm (Json.VArr (map itemValue (map (fun mt => {| si_MediaType := mt; si_File := Title mt |}) l)))) ([], O)
  = Some (written_items l, List.length l).
Proof.
  cbn [Json.norm].
  pose proof (storeItems_written (map (fun mt => {| si_MediaType := mt; si_File := Title mt |}) l)) as H.
  unfold storeSlice, written_items. destruct l as [|mt l]; [done|].
  cbn [map fst] in *. rewrite H. cbn [mbind option_bind List.length]. by rewrite !length_map, map_map.
Qed.

Lemma written_media l : map si_MediaType (firstn (List.length l) (written_items l)) = map Json.to_valid l.
Proof.
  rewrite firstn_all2 by (unfold written_items; by rewrite length_map).
  unfold written_items. by rewrite map_map.
Qed.

Lemma MarshalJSON_ok c : Json.numbers_ok (MarshalJSON c) = true /\ (Json.depth (MarshalJSON c) <= 3)%Z.
Proof.
  split.
  - assert (forall l, forallb Json.numbers_ok (map itemValue l) = true) as H by (induction l; done).
    unfold MarshalJSON. specialize (H (map (fun mt => {| si_MediaType := mt; si_File := Title mt |}) (Storage c))).
    destruct (String.eqb (cfg_MediaType c) ""); cbn [app Json.numbers_ok forallb snd]; by rewrite H.
  - assert (forall l, foldr Z.max 0 (map Json.depth (map itemValue l)) <= 1)%Z as H
      by (induction l; simpl in *; lia).
    unfold MarshalJSON. specialize (H (map (fun mt => {| si_MediaType := mt; si_File := Title mt |}) (Storage c))).
    destruct (String.eqb (cfg_MediaType c) ""); cbn [app Json.depth map foldr snd]; lia.
Qed.

(** What a configuration becomes when it is written and read over another one. *)
Definition reread (c0 c : Config) : Config :=
  {| cfg_MediaType := if String.eqb (cfg_MediaType c) "" then cfg_MediaType c0 else Json.to_valid (cfg_MediaType c);
     cfg_OS := Json.to_valid (cfg_OS c);
     HardwareModelData := Json.to_valid (HardwareModelData c);
     MachineIdData := Json.to_valid (MachineIdData c);
     Storage := Storage c0 ++ map Json.to_valid (Storage c) |}.

Lemma UnmarshalJSON_written c0 c : UnmarshalJSON c0 (Json.norm (MarshalJSON c)) = Some (reread c0 c).
Proof.
  unfold MarshalJSON, reread. pose proof (storeSlice_written (Storage c)) as Hs.
  pose proof (written_media (Storage c)) as Hw.
  set (items := Json.VArr _) in *.
  destruct (String.eqb (cfg_MediaType c) ""); cbn [app Json.norm map fst snd];
    unfold UnmarshalJSON; cbn [Json.store_struct Json.store_members];
    change (Json.to_valid "storage") with "storage"; change (Json.to_valid "os") with "os";
    change (Json.to_valid "mediatype") with "mediatype";
    change (Json.to_valid "hardwareModelData") with "hardwareModelData";
    change (Json.to_valid "machineIdData") with "machineIdData";
    change (Json.field_of fieldNames "storage") with (Some "storage");
    change (Json.field_of fieldNames "os") with (Some "os");
    change (Json.field_of fieldNames "mediatype") with (Some "mediatype");
    change (Json.field_of fieldNames "hardwareModelData") with (Some "hardwareModelData");
    change (Json.field_of fieldNames "machineIdData") with (Some "machineIdData");
    unfold storeField at 1; cbn [String.eqb Ascii.eqb Bool.eqb]; rewrite Hs;
    cbn -[Json.to_valid firstn written_items]; by rewrite Hw.
Qed.

Lemma Json_to_valid_all l : forallb Json.utf8_valid l = true -> map Json.to_valid l = l.
Proof.
  induction l as [|s l IH]; [done|]. cbn [forallb map]. intros [Hs Hl]%andb_true_iff.
  rewrite Json.to_valid_id by done. by rewrite IH.
Qed.

Lemma reread_valid c : valid_config c = true -> reread noConfig c = c.
Proof.
  unfold valid_config. intros [[[[Hm Ho]%andb_true_iff Hh]%andb_true_iff Hi]%andb_true_iff Hs]%andb_true_iff.
  destruct c as [m o h i l]. unfold reread. cbn [cfg_MediaType cfg_OS HardwareModelData MachineIdData Storage] in *.
  rewrite !Json.to_valid_id, Json_to_valid_all by done. by destruct (String.eqb_spec m "") as [->|].
Qed.

(** The decoder reads the first document of a text that the encoder wrote, whatever
    ends it. *)
Lemma decode_written `{JsonText} c t :
  Json.stops t = true -> decodeConfig (marshalConfig c ++ t) = inl (reread noConfig c).
Proof.
  intros Ht. destruct (MarshalJSON_ok c) as [Hn Hd]. unfold decodeConfig, marshalConfig.
  rewrite Json.parse_first_print; [|done..|unfold Json.maxDepth; lia|done].
  by rewrite UnmarshalJSON_written.
Qed.

End OciConfig.
