(* ===== verification/Resource.v ===== *)
(** * pkg/resource: the values the resource managers exchange

    Module [Res]: container and virtual machine records and the state a virtual
    machine reports.  Module [Creds]: registry credentials, their redaction and the
    keyring lookup.

    A [*vm.VirtualMachineInstance] is a pointer that every copy of a
    [MacOSVirtualMachine] shares, so it is a name ([InstRef]) and the accessors take
    the heap that maps it to the current fields of the instance. *)
From Stdlib Require Import ZArith Lia.
From Stdlib Require Import Ascii String.
From stdpp Require Import base list gmap strings.
From S2P Require Import Prelude GoStrings GoFormat GoErrors GoTime Utils.
Local Open Scope string_scope.

(** [types.NamespacedName] *)
Record NamespacedName := { Namespace : string; Name : string }.

#[global] Instance NamespacedName_eq_dec : EqDecision NamespacedName.
Proof. solve_decision. Defined.

#[global] Instance NamespacedName_countable : Countable NamespacedName.
Proof.
  refine (inj_countable' (fun k => (Namespace k, Name k)) (fun '(a, b) => {| Namespace := a; Name := b |}) _).
  by intros [].
Defined.

Module Res.

(* src/pkg/resource/types.go : 7-7 MacOSRuntime *)
Definition MacOSRuntime : string := "vz".

(* src/pkg/resource/types.go : 10-10 ContainerRuntime *)
Definition ContainerRuntime : string := "docker".

(* src/pkg/resource/types.go : ExecAction *)
Record ExecAction := { Command : list string; TimeoutDuration : Z }.

(* src/pkg/resource/container.go : 5-32 ContainerStatus *)
Inductive ContainerStatus : Type :=
| ContainerStatusWaiting
| ContainerStatusCreated
| ContainerStatusRunning
| ContainerStatusPaused
| ContainerStatusRestarting
| ContainerStatusOOMKilled
| ContainerStatusDead
| ContainerStatusUnknown.

#[global] Instance ContainerStatus_eq_dec : EqDecision ContainerStatus.
Proof. solve_decision. Defined.

(* src/pkg/resource/container.go : ContainerState *)
Record ContainerState := {
  cs_Status : ContainerStatus;
  cs_StartedAt : Time.t;
  cs_FinishedAt : Time.t;
  cs_ExitCode : Z;
  cs_Error : string
}.

(* src/pkg/resource/container.go : Container *)
Record Container := { c_ID : string; c_Name : string; c_State : ContainerState }.

(* src/pkg/resource/virtual_machine.go : 11-32 VirtualMachineState *)
Inductive VirtualMachineState : Type :=
| VirtualMachineStatePreparing
| VirtualMachineStateStarting
| VirtualMachineStateRunning
| VirtualMachineStateTerminating
| VirtualMachineStateTerminated
| VirtualMachineStateFailed.

#[global] Instance VirtualMachineState_eq_dec : EqDecision VirtualMachineState.
Proof. solve_decision. Defined.

(** The states that [vz.VirtualMachine] reports: the four the code names, and any
    other number. *)
Inductive VzState : Type :=
| VzStopped | VzRunning | VzStarting | VzStopping | VzOther (n : Z).

#[global] Instance VzState_eq_dec : EqDecision VzState.
Proof. solve_decision. Defined.

(** What a reader of the instance sees: the exported fields of
    [vm.VirtualMachineInstance] and the framework's current state. *)
Record InstanceView := {
  iv_IPAddress : string;
  iv_StartedAt : option Time.t;
  iv_FinishedAt : option Time.t;
  iv_State : VzState
}.

Definition InstRef := nat.
Definition heap := InstRef -> InstanceView.

(* src/pkg/resource/virtual_machine.go : MacOSVirtualMachine *)
Record MacOSVirtualMachine := {
  env : list EnvVar;
  instance : option InstRef;
  err : option error;
  postStartFinishedAt : Time.t
}.

(* src/pkg/resource/virtual_machine.go : NewMacOSVirtualMachine *)
Definition NewMacOSVirtualMachine (e : list EnvVar) : MacOSVirtualMachine :=
  {| env := e; instance := None; err := None; postStartFinishedAt := Time.zero |}.

(* src/pkg/resource/virtual_machine.go : MacOSVirtualMachine.SetInstance *)
Definition SetInstance (m : MacOSVirtualMachine) (i : InstRef) : MacOSVirtualMachine :=
  {| env := env m; instance := Some i; err := err m; postStartFinishedAt := postStartFinishedAt m |}.

(* src/pkg/resource/virtual_machine.go : MacOSVirtualMachine.SetError *)
Definition SetError (m : MacOSVirtualMachine) (e : option error) : MacOSVirtualMachine :=
  {| env := env m; instance := instance m; err := e; postStartFinishedAt := postStartFinishedAt m |}.

(* src/pkg/resource/virtual_machine.go : MacOSVirtualMachine.SetPostStartFinishedAt *)
Definition SetPostStartFinishedAt (m : MacOSVirtualMachine) (t : Time.t) : MacOSVirtualMachine :=
  {| env := env m; instance := instance m; err := err m; postStartFinishedAt := t |}.

(* src/pkg/resource/virtual_machine.go : MacOSVirtualMachine.Env *)
Definition Env (m : MacOSVirtualMachine) : list EnvVar := env m.

(* src/pkg/resource/virtual_machine.go : MacOSVirtualMachine.Instance *)
Definition Instance_ (m : MacOSVirtualMachine) : option InstRef := instance m.

(* src/pkg/resource/virtual_machine.go : MacOSVirtualMachine.Error *)
Definition Error_ (m : MacOSVirtualMachine) : option error := err m.

(* src/pkg/resource/virtual_machine.go : MacOSVirtualMachine.State *)
Definition State (h : heap) (m : MacOSVirtualMachine) : VirtualMachineState :=
  match err m with
  | Some _ => VirtualMachineStateFailed
  | None =>
      match instance m with
      | None => VirtualMachineStatePreparing
      | Some i =>
          match iv_State (h i) with
          | VzStarting => VirtualMachineStateStarting
          | VzRunning => VirtualMachineStateRunning
          | VzStopping => VirtualMachineStateTerminating
          | VzStopped => VirtualMachineStateTerminated
          | VzOther _ => VirtualMachineStateFailed
          end
      end
  end.

(* src/pkg/resource/virtual_machine.go : MacOSVirtualMachine.IPAddress *)
Definition IPAddress (h : heap) (m : MacOSVirtualMachine) : string :=
  match instance m with None => "" | Some i => iv_IPAddress (h i) end.

(* src/pkg/resource/virtual_machine.go : MacOSVirtualMachine.StartedAt *)
Definition StartedAt (h : heap) (m : MacOSVirtualMachine) : option Time.t :=
  match instance m with None => None | Some i => iv_StartedAt (h i) end.

(* src/pkg/resource/virtual_machine.go : MacOSVirtualMachine.FinishedAt *)
Definition FinishedAt (h : heap) (m : MacOSVirtualMachine) : option Time.t :=
  match instance m with None => None | Some i => iv_FinishedAt (h i) end.

(* src/pkg/resource/virtual_machine.go : MacOSVirtualMachine.PostStartFinishedAt *)
Definition PostStartFinishedAt (m : MacOSVirtualMachine) : option Time.t :=
  if Time.IsZero (postStartFinishedAt m) then None else Some (postStartFinishedAt m).

(** The interface of a machine, for its readers and the one writer of its error. *)
(* src/pkg/resource/virtual_machine.go : VirtualMachine *)
Class VirtualMachine (M : Type) := {
  vm_Env : M -> list EnvVar;
  vm_State : heap -> M -> VirtualMachineState;
  vm_Error : M -> option error;
  vm_SetError : M -> option error -> M;
  vm_IPAddress : heap -> M -> string;
  vm_StartedAt : heap -> M -> option Time.t;
  vm_FinishedAt : heap -> M -> option Time.t;
  vm_PostStartFinishedAt : M -> option Time.t
}.

#[export] Instance MacOSVirtualMachine_is_VirtualMachine : VirtualMachine MacOSVirtualMachine := {|
  vm_Env := Env; vm_State := State; vm_Error := Error_; vm_SetError := SetError; vm_IPAddress := IPAddress;
  vm_StartedAt := StartedAt; vm_FinishedAt := FinishedAt; vm_PostStartFinishedAt := PostStartFinishedAt |}.

(** What the users of the interface rely on: a machine with an error is failed, and an
    error changes nothing else that can be read. *)
Class VirtualMachineLaws (M : Type) `{VirtualMachine M} : Prop := {
  error_is_failed h m : vm_Error m <> None -> vm_State h m = VirtualMachineStateFailed;
  SetError_Error m e : vm_Error (vm_SetError m e) = e;
  SetError_keeps h m e :
    vm_Env (vm_SetError m e) = vm_Env m /\ vm_IPAddress h (vm_SetError m e) = vm_IPAddress h m /\
    vm_StartedAt h (vm_SetError m e) = vm_StartedAt h m /\ vm_FinishedAt h (vm_SetError m e) = vm_FinishedAt h m /\
    vm_PostStartFinishedAt (vm_SetError m e) = vm_PostStartFinishedAt m
}.

#[export] Instance MacOSVirtualMachine_laws : VirtualMachineLaws MacOSVirtualMachine.
Proof.
  split; [|done|done]. intros h m He. cbn in *. unfold State, Error_ in *. by destruct (err m).
Qed.

Lemma State_error h m e : State h (SetError m (Some e)) = VirtualMachineStateFailed.
Proof. done. Qed.

Lemma State_Preparing h m :
  State h m = VirtualMachineStatePreparing <-> err m = None /\ instance m = None.
Proof.
  unfold State. destruct (err m), (instance m) as [i|]; try (split; [done | by intros []]); try done.
  destruct (iv_State (h i)); split; try done; by intros [].
Qed.

Lemma State_Running h m :
  State h m = VirtualMachineStateRunning <->
  err m = None /\ exists i, instance m = Some i /\ iv_State (h i) = VzRunning.
Proof.
  unfold State. destruct (err m); [split; [done | by intros []]|].
  destruct (instance m) as [i|]; [|split; [done | by intros (_ & i & ? & _)]].
  destruct (iv_State (h i)) eqn:E; split; try done;
    try (intros (_ & j & [= <-] & Hj); congruence).
  intros _. split; [done | by exists i].
Qed.

End Res.

(** ** Registry credentials *)

Module Creds.

(* src/pkg/resource/registry_credentials.go : RegistryCredentials *)
Record RegistryCredentials := {
  Server : string;
  Username : string;
  Password : string;
  IdentityToken : string
}.

Definition noCredentials : RegistryCredentials :=
  {| Server := ""; Username := ""; Password := ""; IdentityToken := "" |}.

#[global] Instance RegistryCredentials_eq_dec : EqDecision RegistryCredentials.
Proof. solve_decision. Defined.

(* src/pkg/resource/registry_credentials.go : RegistryCredentials.IsEmpty *)
Definition IsEmpty (c : RegistryCredentials) : bool :=
  String.eqb (Username c) "" && String.eqb (Password c) "" && String.eqb (IdentityToken c) "".

(* src/pkg/resource/registry_credentials.go : redactSecret *)
Definition redactSecret (s : string) : string :=
  if String.eqb s "" then "" else "<redacted>".

(* src/pkg/resource/registry_credentials.go : RegistryCredentials.String *)
Definition String_ (c : RegistryCredentials) : string :=
  "{Server:" ++ Server c ++ " Username:" ++ Username c ++ " Password:" ++ redactSecret (Password c)
    ++ " IdentityToken:" ++ redactSecret (IdentityToken c) ++ "}".

(* src/pkg/resource/registry_credentials.go : RegistryCredentials.GoString *)
Definition GoString `{PrintTable} (c : RegistryCredentials) : string :=
  "resource.RegistryCredentials{Server:" ++ Quote.quote (Server c) ++ ", Username:" ++ Quote.quote (Username c)
    ++ ", Password:" ++ Quote.quote (redactSecret (Password c))
    ++ ", IdentityToken:" ++ Quote.quote (redactSecret (IdentityToken c)) ++ "}".

(** An entry that a docker keyring returns ([credentialprovider.TrackedAuthConfig]). *)
Record AuthConfig := {
  a_Username : string;
  a_Password : string;
  a_ServerAddress : string;
  a_IdentityToken : string
}.

(** [DockerKeyring.Lookup], of kubernetes: the entries that match, and a flag. *)
Definition Keyring := string -> list AuthConfig * bool.

(* src/pkg/resource/registry_credentials.go : RegistryCredentialStore *)
Record RegistryCredentialStore := {
  keyring : option Keyring;
  tokenKeyring : option Keyring
}.

(* src/pkg/resource/registry_credentials.go : NewRegistryCredentialStore *)
Definition NewRegistryCredentialStore (k : option Keyring) (tk : list (option Keyring)) : RegistryCredentialStore :=
  {| keyring := k; tokenKeyring := match tk with [] => None | t :: _ => t end |}.

Section ForImage.
(** [reference.ParseNormalizedNamed] and [reference.Domain] of distribution. *)
Variable imageDomain : string -> option string.

(** The credentials that entry [i] of the keyring's answer stands for. *)
Definition entryCreds (tokens : list AuthConfig) (i : nat) (auth : AuthConfig) : RegistryCredentials :=
  {| Server := a_ServerAddress auth;
     Username := a_Username auth;
     Password := a_Password auth;
     IdentityToken :=
       if String.eqb (a_IdentityToken auth) ""
       then match tokens !! i with Some t => a_Password t | None => "" end
       else a_IdentityToken auth |}.

Definition withServer (imageRef : string) (c : RegistryCredentials) : RegistryCredentials :=
  if String.eqb (Server c) "" then
    match imageDomain imageRef with
    | Some d => {| Server := d; Username := Username c; Password := Password c; IdentityToken := IdentityToken c |}
    | None => c
    end
  else c.

(** The [range] loop over the entries, from index [i]. *)
Fixpoint forEntries (imageRef : string) (tokens : list AuthConfig) (i : nat) (auths : list AuthConfig)
  : RegistryCredentials * bool :=
  match auths with
  | [] => (noCredentials, false)
  | auth :: rest =>
      let creds := entryCreds tokens i auth in
      if IsEmpty creds then forEntries imageRef tokens (S i) rest
      else (withServer imageRef creds, true)
  end.

(* src/pkg/resource/registry_credentials.go : RegistryCredentialStore.ForImage *)
Definition ForImage (s : RegistryCredentialStore) (imageRef : string) : RegistryCredentials * bool :=
  match keyring s with
  | None => (noCredentials, false)
  | Some lookup =>
      let '(authConfigs, ok) := lookup imageRef in
      if negb ok || (List.length authConfigs =? 0)%nat then (noCredentials, false)
      else
        let tokens := match tokenKeyring s with None => [] | Some tl => fst (tl imageRef) end in
        forEntries imageRef tokens 0 authConfigs
  end.

Lemma withServer_IsEmpty r c : IsEmpty (withServer r c) = IsEmpty c.
Proof. unfold withServer. case_all. Qed.

(** The loop returns the first entry that has something to authenticate with. *)
Lemma forEntries_spec r tokens i auths :
  (forEntries r tokens i auths = (noCredentials, false) /\
   forall j a, auths !! j = Some a -> IsEmpty (entryCreds tokens (i + j) a) = true) \/
  (exists j a, auths !! j = Some a /\ IsEmpty (entryCreds tokens (i + j) a) = false /\
     forEntries r tokens i auths = (withServer r (entryCreds tokens (i + j) a), true) /\
     forall j' a', (j' < j)%nat -> auths !! j' = Some a' -> IsEmpty (entryCreds tokens (i + j') a') = true).
Proof.
  revert i. induction auths as [|a l IH]; intros i; simpl; [left; split; done|].
  destruct (IsEmpty (entryCreds tokens i a)) eqn:E.
  - destruct (IH (S i)) as [[Hr Ha]|(j & b & Hj & Hb & Hr & Hlt)].
    + left. split; [done|]. intros [|j] b Hb; [|rewrite <- Nat.add_succ_comm; by apply Ha].
      injection Hb as <-. by rewrite Nat.add_0_r.
    + right. exists (S j), b. rewrite <- Nat.add_succ_comm. split_and!; try done.
      intros [|j'] a' Hj' Ha'; [injection Ha' as <-; by rewrite Nat.add_0_r|].
      rewrite <- Nat.add_succ_comm. apply Hlt; [lia | done].
  - right. exists 0%nat, a. rewrite Nat.add_0_r. split_and!; try done. intros j' a' Hj'; lia.
Qed.

End ForImage.

(** [ForImage] answers with the first keyring entry that has a user, a password
    or a token, the token being the entry's own or, when it has none, the password
    slot of the token keyring's entry at the same index; it answers nothing exactly
    when there is no such entry, and never answers with empty credentials. *)
Theorem ForImage_first_usable imageDomain s r lookup auths :
  keyring s = Some lookup -> lookup r = (auths, true) ->
  let tokens := match tokenKeyring s with None => [] | Some tl => fst (tl r) end in
  (snd (ForImage imageDomain s r) = false <->
   forall j a, auths !! j = Some a -> IsEmpty (entryCreds tokens j a) = true) /\
  (snd (ForImage imageDomain s r) = true ->
   IsEmpty (fst (ForImage imageDomain s r)) = false /\
   exists j a, auths !! j = Some a /\
     fst (ForImage imageDomain s r) = withServer imageDomain r (entryCreds tokens j a) /\
     forall j' a', (j' < j)%nat -> auths !! j' = Some a' -> IsEmpty (entryCreds tokens j' a') = true).
Proof.
  intros Hk Hl tokens. unfold ForImage. rewrite Hk, Hl. fold tokens.
  assert ((if negb true || (length auths =? 0)%nat then (noCredentials, false)
           else forEntries imageDomain r tokens 0 auths) = forEntries imageDomain r tokens 0 auths) as ->
    by (by destruct auths).
  destruct (forEntries_spec imageDomain r tokens 0 auths) as [[-> Ha]|(j & a & Hj & He & -> & Hlt)]; simpl in *.
  - done.
  - split; [split; [done | intros H; by rewrite (H j a Hj) in He]|].
    intros _. rewrite withServer_IsEmpty. split; [done | by exists j, a].
Qed.

Definition sample_keyring : Keyring := fun _ =>
  ([{| a_Username := ""; a_Password := ""; a_ServerAddress := "first"; a_IdentityToken := "" |};
    {| a_Username := ""; a_Password := ""; a_ServerAddress := ""; a_IdentityToken := "" |}], true).

Definition sample_tokens : Keyring := fun _ =>
  ([{| a_Username := ""; a_Password := ""; a_ServerAddress := "first"; a_IdentityToken := "" |};
    {| a_Username := ""; a_Password := "tok"; a_ServerAddress := ""; a_IdentityToken := "" |}], true).

Lemma ForImage_first_usable_witness :
  snd (ForImage (fun _ => Some "reg.io")
         (NewRegistryCredentialStore (Some sample_keyring) [Some sample_tokens]) "reg.io/a") = true /\
  IsEmpty (fst (ForImage (fun _ => Some "reg.io")
         (NewRegistryCredentialStore (Some sample_keyring) [Some sample_tokens]) "reg.io/a")) = false.
Proof.
  split; [reflexivity|].
  refine (proj1 (proj2 (ForImage_first_usable (fun _ => Some "reg.io")
    (NewRegistryCredentialStore (Some sample_keyring) [Some sample_tokens]) "reg.io/a"
    sample_keyring _ eq_refl eq_refl) _)).
  reflexivity.
Defined.

(** Neither formatted form of a credential set depends on the password or the
    token beyond whether each is empty. *)
Lemma credentials_redacted `{PrintTable} c1 c2 :
  Server c1 = Server c2 -> Username c1 = Username c2 ->
  (Password c1 = "" <-> Password c2 = "") ->
  (IdentityToken c1 = "" <-> IdentityToken c2 = "") ->
  String_ c1 = String_ c2 /\ GoString c1 = GoString c2.
Proof.
  intros Hs Hu Hp Ht.
  assert (forall x y, (x = "" <-> y = "") -> redactSecret x = redactSecret y) as Hr.
  { intros x y [Hxy Hyx]. unfold redactSecret.
    destruct (String.eqb_spec x ""), (String.eqb_spec y ""); naive_solver. }
  unfold String_, GoString. by rewrite Hs, Hu, (Hr _ _ Hp), (Hr _ _ Ht).
Qed.

Lemma credentials_redacted_witness :
  String_ {| Server := "s"; Username := "u"; Password := "secret1"; IdentityToken := "" |} =
  String_ {| Server := "s"; Username := "u"; Password := "other"; IdentityToken := "" |}.
Proof.
  refine (proj1 (@credentials_redacted (fun _ => true) _ _ _ _ _ _)); reflexivity || (split; done).
Defined.

End Creds.
