(* ===== verification/NetUtil.v ===== *)
(** * internal/netutil: MAC addresses, the ARP table, the active interface

    [rand.Read], [net.ParseCIDR] with the predicates of [net.IP], and the packets
    that pcap delivers are parameters.  The [arp] command's outputs are a list, one
    per turn of the retry loop. *)
From Stdlib Require Import ZArith Lia.
From Stdlib Require Import Ascii String.
From stdpp Require Import base list strings.
From S2P Require Import Prelude GoStrings GoErrors.
Local Open Scope string_scope.

Module NetUtil.

(** ** mac.go *)

(** [net.HardwareAddr.String] *)
Definition HardwareAddr_String (bs : list Z) : string := Str.join ":" (map Str.hex_byte bs).

(** The bytes of a random address: [buf[0]] gets the locally administered bit and
    loses the multicast bit. *)
Definition fixBits (buf : list Z) : list Z :=
  match buf with
  | b0 :: rest => Z.land (Z.lor b0 2) 254 :: rest
  | [] => []
  end.

(* src/internal/netutil/mac.go : GenerateRandMAC *)
Definition GenerateRandMAC (rand_Read : list Z + error) : string * option error :=
  match rand_Read with
  | inr e => ("", Some (Errorf "unable to retrieve 6 rnd bytes" e))
  | inl buf => (HardwareAddr_String (fixBits buf), None)
  end.

(** [if len(part) == 2 && part[0] == '0' { parts[i] = part[1:] }] *)
Definition stripZero (part : string) : string :=
  match part with
  | String "0" (String c EmptyString) => String c EmptyString
  | _ => part
  end.

(* src/internal/netutil/mac.go : NormalizeMACAddress *)
Definition NormalizeMACAddress (mac : string) : string :=
  Str.join ":" (map stripZero (Str.split ":" mac)).

(** ** ip_addr.go *)

(** [bufio.ScanLines]: lines without their end, none after a final newline. *)
Definition drop_cr (l : string) : string :=
  match rev (list_ascii_of_string l) with
  | "013"%char :: r => string_of_list_ascii (rev r)
  | _ => l
  end.

Definition scanLines (s : string) : list string :=
  let ls := Str.split Str.nl s in
  map drop_cr (match rev ls with EmptyString :: r => rev r | _ => ls end).

(** The address on one line of [arp -an], if the line is about the device. *)
Definition arpLine (macAddr line : string) : option string :=
  if Str.contains (Str.to_lower line) (Str.to_lower macAddr) then
    match Str.fields line with
    | _ :: f1 :: _ => Some (Str.trim_cutset f1 "()")
    | _ => None
    end
  else None.

Fixpoint arpScan (macAddr : string) (lines : list string) : option string :=
  match lines with
  | [] => None
  | l :: lines => match arpLine macAddr l with Some ip => Some ip | None => arpScan macAddr lines end
  end.

(** One turn of the loop: the context is done, or [arp] failed or printed. *)
Inductive ArpTurn := ArpDone (e : error) | ArpFailed (e : error) | ArpOutput (out : string).

(** The turns are those the loop goes through; it is still waiting when they end
    without an answer. *)
(* src/internal/netutil/ip_addr.go : RetrieveIPFromARPTable *)
Fixpoint RetrieveIPFromARPTable (turns : list ArpTurn) (macAddr : string) : option (string * option error) :=
  match turns with
  | [] => None
  | ArpDone e :: _ | ArpFailed e :: _ => Some ("", Some e)
  | ArpOutput out :: turns =>
      match arpScan macAddr (scanLines out) with
      | Some ip => Some (ip, None)
      | None => RetrieveIPFromARPTable turns macAddr
      end
  end.

(** What the select of the capture loop yields: a packet with the source of its
    network layer, if it has one, or the end of the context. *)
Inductive PcapTurn := Packet (src : option string) | PcapDone (e : error).

Fixpoint captureLoop (turns : list PcapTurn) : option (string * option error) :=
  match turns with
  | [] => None
  | Packet (Some src) :: _ => Some (src, None)
  | Packet None :: turns => captureLoop turns
  | PcapDone e :: _ => Some ("", Some e)
  end.

(* src/internal/netutil/ip_addr.go : CaptureIPWithTcpDump *)
Definition CaptureIPWithTcpDump (OpenLive : string -> option error) (SetBPFFilter : string -> option error)
    (turns : list PcapTurn) (interfaceName macAddr : string) : option (string * option error) :=
  match OpenLive interfaceName with
  | Some e => Some ("", Some (Errorf "failed to open device" e))
  | None =>
      match SetBPFFilter ("ether src " ++ macAddr ++ " and ip and not src host 0.0.0.0") with
      | Some e => Some ("", Some (Errorf "failed to set BPF filter" e))
      | None => captureLoop turns
      end
  end.

(** ** ifaces.go *)

Record InterfaceStat := { if_Name : string; if_Addrs : list string }.

(** [net.ParseCIDR]: the address as text, whether it is an IPv4 one, whether it is a
    loopback one. *)
Record ParsedIP := { ip_String : string; ip_is4 : bool; ip_IsLoopback : bool }.

(* src/internal/netutil/ifaces.go : isEthernet *)
Definition isEthernet (name : string) : bool := Str.has_prefix "en" name.

Section Ifaces.
Variable ParseCIDR : string -> option ParsedIP.

Definition validAddr (a : string) : option string :=
  match ParseCIDR a with
  | Some ip => if ip_is4 ip && negb (ip_IsLoopback ip) then Some (ip_String ip) else None
  | None => None
  end.

(* src/internal/netutil/ifaces.go : findValidIP *)
Definition findValidIP (i : InterfaceStat) : option string :=
  match find_first (fun a => is_some (validAddr a)) (if_Addrs i) with
  | Some a => validAddr a
  | None => None
  end.

(** One pass over the interfaces that [f] selects. *)
Fixpoint firstValid (f : string -> bool) (ifs : list InterfaceStat) : option string :=
  match ifs with
  | [] => None
  | i :: ifs =>
      match (if f (if_Name i) then findValidIP i else None) with
      | Some ip => Some ip
      | None => firstValid f ifs
      end
  end.

(* src/internal/netutil/ifaces.go : GetActiveInterface *)
Definition GetActiveInterface (ifs : list InterfaceStat) : string * option error :=
  match firstValid isEthernet ifs with
  | Some ip => (ip, None)
  | None =>
      match firstValid (fun n => negb (isEthernet n)) ifs with
      | Some ip => (ip, None)
      | None => ("", Some (errNotFound "no valid IP address found"))
      end
  end.

Lemma firstValid_Some f ifs ip :
  firstValid f ifs = Some ip -> exists i, i ∈ ifs /\ f (if_Name i) = true /\ findValidIP i = Some ip.
Proof.
  induction ifs as [|i ifs IH]; simpl; [done|].
  destruct (f (if_Name i)) eqn:Ef; [destruct (findValidIP i) eqn:Ei|].
  - intros [= ->]. exists i. split_and!; [left | done | done].
  - intros H. destruct (IH H) as (j & ? & ?). exists j. split; [by right | done].
  - intros H. destruct (IH H) as (j & ? & ?). exists j. split; [by right | done].
Qed.

Lemma firstValid_None f ifs i :
  firstValid f ifs = None -> i ∈ ifs -> f (if_Name i) = true -> findValidIP i = None.
Proof.
  induction ifs as [|j ifs IH]; simpl; [intros _ H; by apply not_elem_of_nil in H|].
  intros H [->|Hi]%elem_of_cons Hf; [|apply IH; try done; by case_all].
  rewrite Hf in H. by destruct (findValidIP j).
Qed.

(** The choice: an Ethernet address if any Ethernet interface has one, and an error
    only when no interface has a usable address. *)
Lemma GetActiveInterface_cases ifs :
  match snd (GetActiveInterface ifs) with
  | Some e => e = errNotFound "no valid IP address found" /\ forall i, i ∈ ifs -> findValidIP i = None
  | None => exists i, i ∈ ifs /\ findValidIP i = Some (fst (GetActiveInterface ifs)) /\
      (isEthernet (if_Name i) = false ->
       forall j, j ∈ ifs -> isEthernet (if_Name j) = true -> findValidIP j = None)
  end.
Proof.
  unfold GetActiveInterface.
  destruct (firstValid isEthernet ifs) as [ip|] eqn:E1; simpl.
  { destruct (firstValid_Some _ _ _ E1) as (i & Hi & He & Hf). exists i. rewrite He. done. }
  destruct (firstValid _ ifs) as [ip|] eqn:E2 in |- *; simpl.
  - destruct (firstValid_Some _ _ _ E2) as (i & Hi & He & Hf). exists i.
    split_and!; [done | done |]. intros _ j Hj Hej. by apply (firstValid_None isEthernet ifs).
  - split; [done|]. intros i Hi.
    destruct (isEthernet (if_Name i)) eqn:Ei.
    + by apply (firstValid_None isEthernet ifs).
    + apply (firstValid_None _ _ _ E2 Hi). by rewrite Ei.
Qed.

End Ifaces.

(** ** The normal form of an address is what [arp] prints *)

(** An octet as [%x] prints it. *)
Definition arp_octet (b : Z) : string :=
  if (b <? 16)%Z then String (Str.hex_digit b) EmptyString else Str.hex_byte b.

Definition octet_ok (b : Z) : bool :=
  String.eqb (stripZero (Str.hex_byte b)) (arp_octet b)
  && (Str.count_char ":" (Str.hex_byte b) =? 0)%nat
  && (Z.land (Z.land (Z.lor b 2) 254) 3 =? 2)%Z
  && (0 <=? Z.land (Z.lor b 2) 254)%Z && (Z.land (Z.lor b 2) 254 <? 256)%Z.

Lemma octet_all b : (0 <= b < 256)%Z -> octet_ok b = true.
Proof.
  intros Hb.
  assert (forallb octet_ok (map Z.of_nat (seq 0 256)) = true) as H by (vm_compute; reflexivity).
  rewrite forallb_forall in H. apply H, in_map_iff. exists (Z.to_nat b). rewrite in_seq. lia.
Qed.

Lemma Normalize_bytes bs :
  bs <> [] -> Forall (fun b => 0 <= b < 256)%Z bs ->
  NormalizeMACAddress (HardwareAddr_String bs) = Str.join ":" (map arp_octet bs).
Proof.
  intros Hne H. unfold NormalizeMACAddress, HardwareAddr_String.
  assert (Forall (fun b => octet_ok b = true) bs) as Hok
    by (eapply Forall_impl; [exact H | intros b; apply octet_all]).
  rewrite Str.split_join.
  - f_equal. rewrite map_map. apply map_ext_in. intros b Hb%list_elem_of_In.
    rewrite Forall_forall in Hok. specialize (Hok b Hb). unfold octet_ok in Hok.
    rewrite !andb_true_iff in Hok. destruct Hok as [[[[Hs _] _] _] _]. by apply String.eqb_eq.
  - by destruct bs.
  - rewrite Forall_map. eapply Forall_impl; [exact Hok|]. intros b Hb. simpl. unfold octet_ok in Hb.
    rewrite !andb_true_iff in Hb. destruct Hb as [[[[_ Hc] _] _] _]. by apply Nat.eqb_eq.
Qed.

(** A generated MAC address is locally administered and unicast, and its
    normalised text is the form [arp -an] prints: each octet in hexadecimal without
    a leading zero. *)
Lemma GenerateRandMAC_normal buf :
  List.length buf = 6%nat -> Forall (fun b => 0 <= b < 256)%Z buf ->
  exists b0 rest, fixBits buf = b0 :: rest /\ List.length (b0 :: rest) = 6%nat /\
    Z.land b0 3 = 2%Z /\ GenerateRandMAC (inl buf) = (HardwareAddr_String (b0 :: rest), None) /\
    NormalizeMACAddress (fst (GenerateRandMAC (inl buf))) = Str.join ":" (map arp_octet (b0 :: rest)).
Proof.
  intros Hl H. destruct buf as [|b rest]; [done|]. inversion_clear H as [|? ? Hb Hr].
  pose proof (octet_all b Hb) as Hok. unfold octet_ok in Hok. rewrite !andb_true_iff in Hok.
  destruct Hok as [[[_ Hm] Hlo] Hhi].
  exists (Z.land (Z.lor b 2) 254), rest. apply Z.eqb_eq in Hm.
  split_and!; [done | done | exact Hm | done |].
  apply (Normalize_bytes (Z.land (Z.lor b 2) 254 :: rest)); [discriminate|].
  constructor; [bool_lia | done].
Qed.

Lemma GenerateRandMAC_normal_witness :
  NormalizeMACAddress (fst (GenerateRandMAC (inl [1; 2; 171; 0; 16; 255]%Z))) = "2:2:ab:0:10:ff".
Proof.
  destruct (GenerateRandMAC_normal [1; 2; 171; 0; 16; 255]%Z eq_refl) as (b0 & r & Hf & _ & _ & _ & ->).
  - repeat constructor; lia.
  - injection Hf as <- <-. reflexivity.
Defined.

(** The first line that mentions the address decides, and the comparison is by
    substring: a device whose first octet ends in the same digits is taken for the
    machine. *)
Lemma arp_substring_match :
  RetrieveIPFromARPTable
    [ArpOutput ("? (10.0.0.9) at 12:1a:2b:3c:4d:5e on en0 ifscope [ethernet]" ++ Str.newline
             ++ "? (10.0.0.5) at 2:1a:2b:3c:4d:5e on en0 ifscope [ethernet]" ++ Str.newline)]
    (NormalizeMACAddress "02:1a:2b:3c:4d:5e") = Some ("10.0.0.9", None).
Proof. vm_compute. reflexivity. Qed.

(** An answer always comes from a line that holds the address. *)
Lemma arpScan_Some mac lines ip :
  arpScan mac lines = Some ip ->
  exists l, l ∈ lines /\ Str.contains (Str.to_lower l) (Str.to_lower mac) = true /\ arpLine mac l = Some ip.
Proof.
  induction lines as [|l lines IH]; simpl; [done|].
  destruct (arpLine mac l) as [ip'|] eqn:E.
  - intros [= ->]. exists l. split_and!; [left | | done]. unfold arpLine in E. by case_match.
  - intros H. destruct (IH H) as (l' & ? & ?). exists l'. split; [by right | done].
Qed.

Lemma normalize_keeps_case : NormalizeMACAddress "0A:0B" = "A:B".
Proof. reflexivity. Qed.

End NetUtil.
