(* ===== verification/Instance.v ===== *)
(** * pkg/vm: a virtual machine instance and the bounds of its resources

    Module [Limits] is [validator.go].  Module [Instance] is [instance.go]: the
    fields that change are a record [Fields], the framework calls, the IP lookups and
    the file removals are operations of other code (the oracle answers), and reading
    or changing the fields are operations of the instance itself, so [Stop] can run
    while [Start] still waits for the address. *)
From Stdlib Require Import ZArith Lia.
From Stdlib Require Import Ascii String.
From stdpp Require Import base list strings.
From S2P Require Import Prelude GoStrings GoErrors GoTime Prog Resource.
Local Open Scope string_scope.
Local Open Scope go_scope.

Module Limits.
Section Limits.
(** The bounds of Virtualization.framework. *)
Variables maxCPU minCPU maxMemory minMemory : Z.

(* src/pkg/vm/validator.go : ValidateCPUCount *)
Definition ValidateCPUCount (cpuCount : Z) : Z * option error :=
  if (maxCPU <? cpuCount)%Z then
    (maxCPU, Some (errMsg ("cpu count " ++ Str.itoa cpuCount
       ++ " is greater than the maximum allowed cpu count " ++ Str.itoa maxCPU)))
  else if (cpuCount <? minCPU)%Z then
    (minCPU, Some (errMsg ("cpu count " ++ Str.itoa cpuCount
       ++ " is less than the minimum allowed cpu count " ++ Str.itoa minCPU)))
  else (cpuCount, None).

(* src/pkg/vm/validator.go : ValidateMemorySize *)
Definition ValidateMemorySize (memorySize : Z) : Z * option error :=
  if (maxMemory <? memorySize)%Z then
    (maxMemory, Some (errMsg ("memory size " ++ Str.itoa memorySize
       ++ " is greater than the maximum allowed memory size " ++ Str.itoa maxMemory)))
  else if (memorySize <? minMemory)%Z then
    (minMemory, Some (errMsg ("memory size " ++ Str.itoa memorySize
       ++ " is less than the minimum allowed memory size " ++ Str.itoa minMemory)))
  else (memorySize, None).

(** With bounds in order both functions clamp, and only a clamped value has an error. *)
Lemma ValidateCPUCount_clamp n :
  (minCPU <= maxCPU)%Z ->
  fst (ValidateCPUCount n) = Z.max minCPU (Z.min maxCPU n) /\
  (snd (ValidateCPUCount n) = None <-> fst (ValidateCPUCount n) = n).
Proof.
  intros H. unfold ValidateCPUCount.
  destruct (maxCPU <? n)%Z eqn:E1; [|destruct (n <? minCPU)%Z eqn:E2]; simpl;
    (split; [|split; intros; try done]); try discriminate; bool_lia.
Qed.

Lemma ValidateMemorySize_clamp n :
  (minMemory <= maxMemory)%Z ->
  fst (ValidateMemorySize n) = Z.max minMemory (Z.min maxMemory n) /\
  (snd (ValidateMemorySize n) = None <-> fst (ValidateMemorySize n) = n).
Proof.
  intros H. unfold ValidateMemorySize.
  destruct (maxMemory <? n)%Z eqn:E1; [|destruct (n <? minMemory)%Z eqn:E2]; simpl;
    (split; [|split; intros; try done]); try discriminate; bool_lia.
Qed.

End Limits.
End Limits.

Module Instance.

(* src/pkg/vm/instance.go : 19-19 IPAddressLookupTimeout *)
Definition IPAddressLookupTimeout : Z := 60 * Time.Second.

(** The parts of [config.VirtualMachineConfiguration] that the instance reads. *)
Record Config := {
  NetworkInterface : string;
  overlayBlockStoragePath : string;
  overlayAuxiliaryStoragePath : string
}.

(* src/pkg/vm/config/virtual_machine.go : VirtualMachineConfiguration.GetOverlays *)
Definition GetOverlays (c : Config) : string * string * bool :=
  (overlayBlockStoragePath c, overlayAuxiliaryStoragePath c,
   negb (String.eqb (overlayBlockStoragePath c) "") && negb (String.eqb (overlayAuxiliaryStoragePath c) "")).

(* src/pkg/vm/instance.go : VirtualMachineInstance *)
Record Fields := {
  IPAddress : string;
  CreatedAt : Time.t;
  StartedAt : option Time.t;
  FinishedAt : option Time.t;
  macAddr : string;
  config : Config;
  ipRetrievalCancelFunc : bool       (* set, with the context it cancels *)
}.

Definition set_ip (ip : string) (i : Fields) : Fields :=
  {| IPAddress := ip; CreatedAt := CreatedAt i; StartedAt := StartedAt i; FinishedAt := FinishedAt i;
     macAddr := macAddr i; config := config i; ipRetrievalCancelFunc := ipRetrievalCancelFunc i |}.

Definition set_started (t : Time.t) (i : Fields) : Fields :=
  {| IPAddress := IPAddress i; CreatedAt := CreatedAt i; StartedAt := Some t; FinishedAt := FinishedAt i;
     macAddr := macAddr i; config := config i; ipRetrievalCancelFunc := ipRetrievalCancelFunc i |}.

Definition set_finished (t : Time.t) (i : Fields) : Fields :=
  {| IPAddress := IPAddress i; CreatedAt := CreatedAt i; StartedAt := StartedAt i; FinishedAt := Some t;
     macAddr := macAddr i; config := config i; ipRetrievalCancelFunc := ipRetrievalCancelFunc i |}.

Definition set_cancel (i : Fields) : Fields :=
  {| IPAddress := IPAddress i; CreatedAt := CreatedAt i; StartedAt := StartedAt i; FinishedAt := FinishedAt i;
     macAddr := macAddr i; config := config i; ipRetrievalCancelFunc := true |}.

Inductive instE : Type -> Type :=
| Read : instE Fields
| Modify (f : Fields -> Fields) : instE unit
| VzStart : instE (option error)                 (* vz.VirtualMachine.Start *)
| VzStop : instE (option error)                  (* vz.VirtualMachine.Stop *)
| VzGetState : instE Res.VzState                 (* vz.VirtualMachine.State *)
| CancelIPRetrieval : instE unit
| CaptureIPWithTcpDump (iface mac : string) : instE (string + error)
| RetrieveIPFromARPTable (mac : string) : instE (string + error)
| Remove (path : string) : instE (option error)  (* os.Remove *)
| StateChanged : instE (option Res.VzState)      (* a notification, or channel closed or ctx done *)
| Now : instE Time.t.

Definition local : local_handler instE Fields := fun X e =>
  match e in instE X return X -> Fields -> option (X * Fields) with
  | Read => fun _ s => Some (s, s)
  | Modify f => fun _ s => Some (tt, f s)
  | _ => fun x s => Some (x, s)
  end.

(** The loop of [handleStateChanges], for at most [n] notifications. *)
Fixpoint handleStateChangesLoop (n : nat) : prog instE unit :=
  match n with
  | O => Ret tt
  | S n =>
      st <- perform StateChanged ;;
      match st with
      | None => Ret tt
      | Some Res.VzRunning =>
          t <- perform Now ;; perform (Modify (set_started t)) ;; handleStateChangesLoop n
      | Some Res.VzStopped =>
          t <- perform Now ;; perform (Modify (set_finished t)) ;; Ret tt
      | Some _ => handleStateChangesLoop n
      end
  end.

(* src/pkg/vm/instance.go : VirtualMachineInstance.handleStateChanges *)
Definition handleStateChanges (notifications : nat) : prog instE unit :=
  handleStateChangesLoop notifications.

(* src/pkg/vm/instance.go : VirtualMachineInstance.retrieveIPAddress *)
Definition retrieveIPAddress : prog instE (option error) :=
  i <- perform Read ;;
  let arp :=
    r <- perform (RetrieveIPFromARPTable (macAddr i)) ;;
    match r with
    | inr e => Ret (Some (Errorf "failed to retrieve IP address" e))
    | inl ip => perform (Modify (set_ip ip)) ;; Ret None
    end in
  if String.eqb (NetworkInterface (config i)) "" then arp
  else
    r <- perform (CaptureIPWithTcpDump (NetworkInterface (config i)) (macAddr i)) ;;
    match r with
    | inl ip => perform (Modify (set_ip ip)) ;; Ret None
    | inr _ => arp
    end.

(* src/pkg/vm/instance.go : VirtualMachineInstance.Start *)
Definition Start : prog instE (option error) :=
  r <- perform VzStart ;;
  match r with
  | Some e => Ret (Some e)
  | None =>
      perform (Modify set_cancel) ;;
      r <- retrieveIPAddress ;;
      r' <- match r with
            | Some e =>
                perform VzStop ;;
                Ret (Some (Errorf "failed to retrieve IP address" e))
            | None => Ret None
            end ;;
      perform CancelIPRetrieval ;;                 (* deferred *)
      Ret r'
  end.

(** [if rmErr != nil { err = errors.Join(err, rmErr) }] *)
Definition join_failed (e rm : option error) : option error :=
  match rm with Some _ => errors_Join [e; rm] | None => e end.

(* src/pkg/vm/instance.go : VirtualMachineInstance.Stop *)
Definition Stop : prog instE (option error) :=
  i <- perform Read ;;
  (if String.eqb (IPAddress i) "" && ipRetrievalCancelFunc i
   then perform CancelIPRetrieval else Ret tt) ;;
  st <- perform VzGetState ;;
  e <- (if bool_decide (st = Res.VzStopped) then Ret None else perform VzStop) ;;
  let '(block, aux, ok) := GetOverlays (config i) in
  if ok : bool then
    rm <- perform (Remove block) ;;
    let e := join_failed e rm in
    rm <- perform (Remove aux) ;;
    Ret (join_failed e rm)
  else Ret e.

(** *** What was asked of the framework *)

Definition is_VzStop (c : call instE) : bool := match c with Call VzStop _ => true | _ => false end.
Definition is_VzStart (c : call instE) : bool := match c with Call VzStart _ => true | _ => false end.
Definition removed (c : call instE) : option string :=
  match c with Call (Remove p) _ => Some p | _ => None end.
Definition failures (c : call instE) : option error :=
  match c with
  | Call VzStop x => x
  | Call (Remove _) x => x
  | _ => None
  end.

(** The framework reported a state other than stopped. *)
Definition not_stopped (c : call instE) : bool :=
  match c with Call VzGetState st => negb (bool_decide (st = Res.VzStopped)) | _ => false end.

Definition exec (env : oracle instE) {A} (p : prog instE A) (i : Fields) :=
  run (traced_handler local env) p (start i).

Lemma instance_total : forall X (e : instE X) x u, is_Some (local X e x u).
Proof. intros X []; simpl; eauto. Qed.

(** The address that a lookup of this run found. *)
Definition lookedUp (i : Fields) (tr : list (call instE)) (ip : string) : Prop :=
  (NetworkInterface (config i) <> "" /\
   Call (CaptureIPWithTcpDump (NetworkInterface (config i)) (macAddr i)) (inl ip) ∈ tr) \/
  Call (RetrieveIPFromARPTable (macAddr i)) (inl ip) ∈ tr.

Ltac in_calls := apply list_elem_of_In; cbn; auto 10.


Lemma join_failed_None e rm : join_failed e rm = None <-> e = None /\ rm = None.
Proof.
  unfold join_failed. destruct rm as [x|]; [|tauto].
  rewrite errors_Join_None. split; [|by intros [_ ?]].
  intros H. discriminate (H (Some x)). right; left.
Qed.

Lemma join_failed_here e x : isErr (join_failed e (Some x)) x = true.
Proof. apply (errors_Join_Is _ x); [right; left | auto with errs]. Qed.

Lemma join_failed_before e rm x : isErr e x = true -> isErr (join_failed e rm) x = true.
Proof.
  destruct e as [y|]; [|done]. intros H. destruct rm as [z|]; [|done].
  apply (errors_Join_Is _ y); [left | done].
Qed.

(** The last two parts of [Stop_complete], branch by branch: the answers of [env]
    that are errors become variables. *)
Ltac stop_errors env :=
  repeat match goal with |- context [env (option error) ?n ?e] =>
    destruct (env (option error) n e) end;
  cbn -[join_failed errors_Join isErr];
  first [ rewrite ?join_failed_None; split; intros; destruct_and?; done
        | let x := fresh "x" in let Hx := fresh "Hx" in
          intros x Hx;
          repeat (apply elem_of_cons in Hx as [-> | Hx];
                  [ solve [ auto using join_failed_here, join_failed_before with errs ] | ]);
          by apply not_elem_of_nil in Hx ].

(** The files that [Stop] removes: both overlays or none. *)
Lemma Stop_removes env i block aux ok :
  GetOverlays (config i) = (block, aux, ok) ->
  exists r s, exec env Stop i = Some (r, s) /\ rev (omap removed (trace s)) = if ok : bool then [block; aux] else [].
Proof.
  intros Hg. unfold exec, Stop. cbn -[join_failed GetOverlays].
  destruct (String.eqb (IPAddress i) "" && ipRetrievalCancelFunc i); cbn -[join_failed GetOverlays];
    destruct (bool_decide _); cbn -[join_failed GetOverlays]; rewrite Hg; destruct ok;
    cbn -[join_failed]; by eexists _, _.
Qed.

(** C35: [Stop] always returns; it forces the machine down exactly when the framework
    does not report it stopped, removes both overlay files exactly when the
    configuration has both, goes on after a failure, and its result is nil exactly
    when nothing failed, and otherwise names every failure. *)
Theorem Stop_complete env i :
  exists r s, exec env Stop i = Some (r, s) /\ own s = i /\
  existsb is_VzStop (trace s) = existsb not_stopped (trace s) /\
  rev (omap removed (trace s)) =
    (if snd (GetOverlays (config i))
     then [overlayBlockStoragePath (config i); overlayAuxiliaryStoragePath (config i)] else []) /\
  (r = None <-> omap failures (trace s) = []) /\
  (forall e, e ∈ omap failures (trace s) -> isErr r e = true).
Proof.
  unfold exec, Stop, GetOverlays. cbn -[join_failed].
  destruct (String.eqb (IPAddress i) "" && ipRetrievalCancelFunc i); cbn -[join_failed];
    destruct (bool_decide (env _ _ VzGetState = Res.VzStopped)) eqn:Est; cbn -[join_failed];
    destruct (negb _ && negb _); cbn -[join_failed];
    eexists _, _; (split; [reflexivity|]); cbn -[join_failed isErr]; rewrite ?Est; cbn -[join_failed isErr];
    (split_and!; [done | done | done | stop_errors env .. ]).
Qed.

(** [handleStateChanges] sets the finish time once, and then stops listening. *)
Lemma handleStateChanges_returns env n i : is_Some (exec env (handleStateChanges n) i).
Proof. apply traced_run_total, instance_total. Qed.

End Instance.
