(* ===== verification/K8s.v ===== *)
(** * The Kubernetes API values the program reads and writes

    The types are those of [k8s.io/api/core/v1], reduced to the fields that the code
    under [src/] touches.  A [resource.Quantity] is known by what the program asks of
    it, its value as a 64-bit integer if it has one. *)
From Stdlib Require Import ZArith.
From Stdlib Require Import String.
From stdpp Require Import base list gmap strings.
From S2P Require Import Prelude GoStrings GoTime Utils.
Local Open Scope string_scope.

Definition Quantity := option Z.

#[global] Instance quantity_ops : QuantityOps Quantity := {| zeroQuantity := Some 0%Z; AsInt64 := fun q => q |}.

Module K8s.

Record KeyToPath := { kp_Key : string; kp_Path : string; kp_Mode : option Z }.

Record ServiceAccountTokenProjection := {
  sat_Path : string;
  sat_Audience : string;
  sat_ExpirationSeconds : option Z
}.

Record ConfigMapProjection := { cmp_Name : string; cmp_Items : list KeyToPath }.

(** An item of the downward API: the path of its [FieldRef] (an item may have a
    [ResourceFieldRef] instead), the file and its mode. *)
Record DownwardItem := { dw_FieldPath : option string; dw_Path : string; dw_Mode : option Z }.

Record VolumeProjection := {
  vp_ServiceAccountToken : option ServiceAccountTokenProjection;
  vp_ConfigMap : option ConfigMapProjection;
  vp_DownwardAPI : option (list DownwardItem)
}.

Record VolumeSource := {
  vs_HostPath : option string;
  vs_EmptyDir : bool;
  vs_Projected : option (list VolumeProjection)
}.

Record Volume := { vol_Name : string; vol_Source : VolumeSource }.

Record VolumeMount := { vmt_Name : string; vmt_MountPath : string; vmt_SubPath : string; vmt_ReadOnly : bool }.

(** A lifecycle handler: the command of its [Exec] part, if it is of that shape. *)
Record LifecycleHandler := { lh_Exec : option (list string) }.

Record Lifecycle := { lc_PostStart : option LifecycleHandler; lc_PreStop : option LifecycleHandler }.

Inductive PullPolicy := PullAlways | PullIfNotPresent | PullNever | PullOther.

#[global] Instance PullPolicy_eq_dec : EqDecision PullPolicy.
Proof. solve_decision. Defined.

Record Container := {
  ct_Name : string;
  ct_Image : string;
  ct_ImagePullPolicy : PullPolicy;
  ct_Command : list string;
  ct_Args : list string;
  ct_WorkingDir : string;
  ct_Env : list EnvVar;
  ct_VolumeMounts : list VolumeMount;
  ct_Requests : gmap string Quantity;
  ct_Lifecycle : option Lifecycle;
  ct_TTY : bool;
  ct_Stdin : bool;
  ct_StdinOnce : bool
}.

(** What a container status says of the container. *)
Inductive ContainerState :=
| NoState
| Waiting (reason message : string)
| Running (startedAt : Time.t)
| Terminated (exitCode : Z) (reason message : string) (startedAt finishedAt : Time.t).

Record ContainerStatus := {
  st_Name : string;
  st_State : ContainerState;
  st_Ready : bool;
  st_Started : option bool;
  st_RestartCount : Z;
  st_Image : string;
  st_ContainerID : string
}.

Inductive PodPhase := PodPending | PodRunning | PodSucceeded | PodFailed | PodUnknown.

#[global] Instance PodPhase_eq_dec : EqDecision PodPhase.
Proof. solve_decision. Defined.

Inductive ConditionType := PodScheduled | PodInitialized | PodReady.

#[global] Instance ConditionType_eq_dec : EqDecision ConditionType.
Proof. solve_decision. Defined.

Record PodCondition := { pc_Type : ConditionType; pc_Status : bool; pc_LastTransitionTime : Time.t }.

Record PodStatus := {
  ps_Phase : PodPhase;
  ps_Conditions : list PodCondition;
  ps_HostIP : string;
  ps_PodIP : string;
  ps_StartTime : option Time.t;
  ps_ContainerStatuses : list ContainerStatus
}.

Record Pod := {
  pod_Namespace : string;
  pod_Name : string;
  pod_UID : string;
  pod_CreationTimestamp : Time.t;
  pod_DeletionTimestamp : option Time.t;
  pod_DeletionGracePeriodSeconds : option Z;
  pod_Containers : list Container;
  pod_Volumes : list Volume;
  pod_ImagePullSecrets : list string;
  pod_ServiceAccountName : string;
  pod_AutomountServiceAccountToken : option bool;
  pod_Status : PodStatus
}.

Record ConfigMap := { cm_Data : gmap string string }.

(** The condition of one type, as a reader of the API looks it up. *)
Definition condition (t : ConditionType) (cs : list PodCondition) : option PodCondition :=
  find_first (fun c => bool_decide (pc_Type c = t)) cs.

End K8s.

(** ** internal/podstatus *)

Module Podstatus.

(* src/internal/podstatus/podstatus.go : HasExecPostStartHook *)
Definition HasExecPostStartHook (c : K8s.Container) : bool :=
  match K8s.ct_Lifecycle c with
  | Some l =>
      match K8s.lc_PostStart l with
      | Some h => is_some (K8s.lh_Exec h)
      | None => false
      end
  | None => false
  end.

(** The command of the hook: [c.Lifecycle.PostStart.Exec.Command], which the callers
    read only when [HasExecPostStartHook] holds. *)
Definition postStartCommand (c : K8s.Container) : list string :=
  match K8s.ct_Lifecycle c with
  | Some l =>
      match K8s.lc_PostStart l with
      | Some h => default [] (K8s.lh_Exec h)
      | None => []
      end
  | None => []
  end.

End Podstatus.
