(* ===== verification/GoPath.v ===== *)
(** * path/filepath on a Unix system: [Clean], [Join] and [Base] *)
From Stdlib Require Import ZArith Lia.
From Stdlib Require Import Ascii String.
From stdpp Require Import base list strings.
From S2P Require Import Prelude GoStrings.
Local Open Scope string_scope.

Module Path.

Definition rooted (p : string) : bool := Str.has_prefix "/" p.

(** One component after another; [stack] holds those kept, the last one first. *)
Definition push (root : bool) (stack : list string) (c : string) : list string :=
  if String.eqb c "" || String.eqb c "." then stack
  else if String.eqb c ".." then
    match stack with
    | [] => if root then [] else [".."]
    | d :: rest => if String.eqb d ".." then ".." :: stack else rest
    end
  else c :: stack.

Definition components (p : string) : list string :=
  rev (foldl (push (rooted p)) [] (Str.split "/" p)).

(** [filepath.Clean] *)
Definition Clean (p : string) : string :=
  let body := Str.join "/" (components p) in
  if rooted p then "/" ++ body
  else match body with EmptyString => "." | _ => body end.

(** [filepath.Join]: empty elements are dropped. *)
Definition Join (elems : list string) : string :=
  match filter (fun e => e <> "") elems with
  | [] => ""
  | es => Clean (Str.join "/" es)
  end.

Definition is_slash (c : ascii) : bool := Ascii.eqb c "/".

(** [filepath.Base] *)
Definition Base (p : string) : string :=
  match p with
  | EmptyString => "."
  | _ =>
      match Str.trim_right is_slash p with
      | EmptyString => "/"
      | q => List.last (Str.split "/" q) ""
      end
  end.

Example clean_1 : Clean "/a/./b//../c/" = "/a/c".
Proof. vm_compute. reflexivity. Qed.

Example clean_2 : Clean "../../a/.." = "../..".
Proof. vm_compute. reflexivity. Qed.

Example clean_3 : Clean "a/.." = ".".
Proof. vm_compute. reflexivity. Qed.

Example join_1 : Join ["/cache"; "mounts"; ""; "uid"] = "/cache/mounts/uid".
Proof. vm_compute. reflexivity. Qed.

Example base_1 : Base "/mnt/data//" = "data".
Proof. vm_compute. reflexivity. Qed.

(** No kept component is empty, [.] or, below a root, [..]. *)
Lemma push_plain root stack c :
  (forall d, d ∈ stack -> d <> "" /\ d <> "." /\ (root = true -> d <> "..")) ->
  forall d, d ∈ push root stack c -> d <> "" /\ d <> "." /\ (root = true -> d <> "..").
Proof.
  intros Hs d. unfold push.
  destruct (String.eqb_spec c ""); simpl; [apply Hs|].
  destruct (String.eqb_spec c "."); [apply Hs|].
  destruct (String.eqb_spec c "..") as [->|Hc].
  - destruct stack as [|x rest].
    + destruct root; [intros H; by apply not_elem_of_nil in H|].
      intros ->%list_elem_of_singleton. done.
    + destruct (String.eqb_spec x "..") as [->|Hx]; [|intros H; apply Hs; by right].
      intros [->|H]%elem_of_cons; [|by apply Hs]. split_and!; [done | done|].
      intros Hr. destruct (Hs ".." ltac:(left)) as (_ & _ & H). by apply H.
  - intros [->|H]%elem_of_cons; [done | by apply Hs].
Qed.

Lemma foldl_push_plain root l stack :
  (forall d, d ∈ stack -> d <> "" /\ d <> "." /\ (root = true -> d <> "..")) ->
  forall d, d ∈ foldl (push root) stack l -> d <> "" /\ d <> "." /\ (root = true -> d <> "..").
Proof.
  revert stack. induction l as [|c l IH]; intros stack Hs; simpl; [done|].
  apply IH, push_plain, Hs.
Qed.

(** A rooted path has no [..] left: it cannot leave the root. *)
Lemma components_plain p d :
  d ∈ components p -> d <> "" /\ d <> "." /\ (rooted p = true -> d <> "..").
Proof.
  unfold components. rewrite list_elem_of_In, <- in_rev, <- list_elem_of_In.
  apply foldl_push_plain. intros d' H. by apply not_elem_of_nil in H.
Qed.

(** *** The last component *)

Lemma split_nonempty sep (a : string) : Str.split sep a <> [].
Proof. destruct a as [|c a]; simpl; [done|]. destruct (Ascii.eqb c sep); [done|]. by destruct (Str.split sep a). Qed.

Lemma split_slash sep (a b : string) :
  Str.split sep (a ++ String sep b) = app (Str.split sep a) (Str.split sep b).
Proof.
  induction a as [|c a IH]; rewrite ?Str.app_cons; cbn [Str.split].
  - simpl. by rewrite Ascii.eqb_refl.
  - rewrite IH. destruct (Ascii.eqb c sep); [done|].
    destruct (Str.split sep a) as [|x l] eqn:E; [by destruct (split_nonempty sep a) | done].
Qed.

Lemma split_free sep (a d : string) : d ∈ Str.split sep a -> Str.count_char sep d = 0%nat.
Proof.
  revert d. induction a as [|c a IH]; intros d; cbn [Str.split].
  - intros ->%list_elem_of_singleton. done.
  - destruct (Ascii.eqb c sep) eqn:E.
    + intros [->|H]%elem_of_cons; [done | by apply IH].
    + destruct (Str.split sep a) as [|x l] eqn:El.
      * intros ->%list_elem_of_singleton. simpl. by rewrite Ascii.eqb_sym, E.
      * intros [->|H]%elem_of_cons; [|apply IH; by right].
        simpl. rewrite Ascii.eqb_sym, E. apply (IH x). by left.
Qed.

Lemma push_free root stack c :
  (forall d, d ∈ stack -> Str.count_char "/" d = 0%nat) -> Str.count_char "/" c = 0%nat ->
  forall d, d ∈ push root stack c -> Str.count_char "/" d = 0%nat.
Proof.
  intros Hs Hc d. unfold push.
  destruct (_ || _); [apply Hs|]. destruct (String.eqb c "..").
  - destruct stack as [|x rest].
    + destruct root; [intros H; by apply not_elem_of_nil in H | by intros ->%list_elem_of_singleton].
    + destruct (String.eqb x "..").
      * intros [->|H]%elem_of_cons; [done | by apply Hs].
      * intros H. apply Hs. by right.
  - intros [->|H]%elem_of_cons; [done | by apply Hs].
Qed.

Lemma foldl_push_free root l stack :
  (forall d, d ∈ stack -> Str.count_char "/" d = 0%nat) -> (forall d, d ∈ l -> Str.count_char "/" d = 0%nat) ->
  forall d, d ∈ foldl (push root) stack l -> Str.count_char "/" d = 0%nat.
Proof.
  revert stack. induction l as [|c l IH]; intros stack Hs Hl; simpl; [done|].
  apply IH; [apply push_free; [done | apply Hl; by left] | intros d H; apply Hl; by right].
Qed.

(** A name that [Clean] keeps as it is. *)
Definition plain_name (n : string) : Prop :=
  Str.count_char "/" n = 0%nat /\ n <> "" /\ n <> "." /\ n <> "..".

Lemma trim_right_slash (a n : string) :
  n <> "" -> Str.count_char "/" n = 0%nat -> Str.trim_right is_slash (a ++ n) = a ++ n.
Proof.
  intros Hne Hn. induction a as [|c a IH].
  - change (EmptyString ++ n)%string with n. induction n as [|c n IHn]; [done|]. cbn [Str.trim_right]. cbn [Str.count_char] in Hn.
    destruct (is_slash c) eqn:E; unfold is_slash in E; rewrite Ascii.eqb_sym in E; rewrite E in Hn; [done|].
    destruct n as [|c' n]; [done|]. by rewrite IHn.
  - rewrite Str.app_cons. cbn [Str.trim_right]. rewrite IH. destruct (a ++ n) as [|x y] eqn:E; [|done].
    destruct a, n; done.
Qed.

Lemma push_plain_name root stack n : plain_name n -> push root stack n = n :: stack.
Proof.
  intros (_ & Hne & H1 & H2). unfold push.
  destruct (String.eqb_spec n ""); [done|]. destruct (String.eqb_spec n "."); [done|].
  by destruct (String.eqb_spec n "..").
Qed.

Lemma Base_plain n : plain_name n -> Base n = n.
Proof.
  intros (Hs & Hne & _). unfold Base. destruct n as [|c n]; [done|].
  change (String c n) with (EmptyString ++ String c n)%string. rewrite trim_right_slash by done.
  change (List.last (Str.split "/" (String c n)) "" = String c n). by rewrite Str.split_none.
Qed.

(** The last component of a path joined from a directory and a name is the name. *)
Lemma Base_Join (dir n : string) : plain_name n -> Base (Join [dir; n]) = n.
Proof.
  intros Hn. pose proof Hn as (Hs & Hne & _). unfold Join.
  destruct (decide (dir = "")) as [->|Hd].
  { rewrite filter_cons_False, filter_cons_True by (done || tauto). rewrite filter_nil. cbn [Str.join].
    assert (Clean n = n) as ->; [|by apply Base_plain].
    unfold Clean, components. rewrite Str.split_none by done. simpl. rewrite push_plain_name by done. simpl.
    destruct n as [|c n']; [done|]. unfold rooted. cbn [Str.has_prefix Str.count_char] in *.
    destruct (Ascii.eqb "/" c); done. }
  rewrite !filter_cons_True by done. rewrite filter_nil. cbn [Str.join].
  set (p := dir ++ "/" ++ n). unfold Clean.
  assert (components p = app (rev (foldl (push (rooted p)) [] (Str.split "/" dir))) [n]) as ->.
  { unfold components, p. change ("/" ++ n)%string with (String "/" n). rewrite split_slash, (Str.split_none "/" n) by done.
    rewrite foldl_app. simpl. by rewrite push_plain_name. }
  set (st := rev (foldl _ _ _)).
  assert (forall d, d ∈ st -> Str.count_char "/" d = 0%nat) as Hst.
  { intros d. unfold st. rewrite list_elem_of_In, <- in_rev, <- list_elem_of_In.
    apply foldl_push_free; [intros ? H; by apply not_elem_of_nil in H | apply split_free]. }
  assert (exists a, Str.join "/" (app st [n]) = a ++ n) as [a Ha].
  { clear -st. clearbody st. induction st as [|c l [a IH]]; [by exists ""|].
    exists (c ++ "/" ++ a). rewrite <- app_comm_cons. destruct (app l [n]) as [|x l'] eqn:E; [by destruct l|].
    cbn [Str.join] in *. rewrite IH. by rewrite !Str.app_assoc. }
  assert (Str.split "/" (a ++ n) = app st [n]) as Hsplit.
  { rewrite <- Ha. change "/" with (String "/" EmptyString). apply Str.split_join; [by destruct st|].
    apply Forall_app; split; [apply Forall_forall, Hst | by constructor]. }
  rewrite Ha. unfold Base. destruct (rooted p).
  - change ("/" ++ a ++ n) with ("/" ++ (a ++ n)). rewrite Str.app_assoc.
    destruct (("/" ++ a) ++ n) as [|x y] eqn:E; [done|]. rewrite <- E. rewrite trim_right_slash by done.
    rewrite E. rewrite <- E, <- Str.app_assoc. change ("/" ++ a ++ n) with ("" ++ String "/" (a ++ n)).
    rewrite split_slash, Hsplit, app_assoc. apply last_last.
  - destruct (a ++ n) as [|x y] eqn:E; [destruct a, n; done|]. rewrite <- E at 1. rewrite trim_right_slash by done.
    rewrite E, Hsplit. apply last_last.
Qed.

Lemma Base_free p : Base p = "/" \/ Str.count_char "/" (Base p) = 0%nat.
Proof.
  unfold Base. destruct p as [|c p]; [by right|].
  destruct (Str.trim_right is_slash (String c p)) as [|d q]; [by left|]. right.
  destruct (Str.split "/" (String d q)) as [|x l] eqn:E; [done|].
  apply (split_free "/" (String d q)). rewrite E. rewrite list_elem_of_In.
  destruct (exists_last (l := x :: l) ltac:(done)) as (l' & z & ->). rewrite last_last.
  apply in_app_iff. right. by left.
Qed.

End Path.
