(* ===== verification/Volumes.v ===== *)
(** * internal/volumes: the host directories behind a container's volume mounts

    [CreateContainerMounts] walks the container's mounts in order; the directories it
    makes and the files it writes are operations on the host ([MkdirAll],
    [WriteFile]), answered by the oracle.  Reading a nil pointer ends the goroutine:
    it is the failure [NilDeref]. *)
From Stdlib Require Import ZArith Lia.
From Stdlib Require Import Ascii String.
From stdpp Require Import base list gmap strings.
From S2P Require Import Prelude GoStrings GoErrors GoPath Prog Utils K8s.
Local Open Scope string_scope.
Local Open Scope go_scope.

Module Volumes.

(* src/internal/volumes/mounts.go : 13-13 PodVolPerms *)
Definition PodVolPerms : Z := 493.   (* 0755 *)

(* src/internal/volumes/mounts.go : Mount *)
Record Mount := {
  m_Name : string;
  m_HostPath : string;
  m_ContainerPath : string;
  m_ReadOnly : bool
}.

Inductive fsE : Type -> Type :=
| MkdirAll (path : string) (perm : Z) : fsE (option error)
| WriteFile (path contents : string) (perm : Z) : fsE (option error).

Inductive failure := Fail (e : error) | NilDeref.

(* src/internal/volumes/mounts.go : findPodVolumeSpec *)
Definition findPodVolumeSpec (pod : K8s.Pod) (name : string) : option K8s.VolumeSource :=
  match find_first (fun v => String.eqb (K8s.vol_Name v) name) (K8s.pod_Volumes pod) with
  | Some v => Some (K8s.vol_Source v)
  | None => None
  end.

(** [if err != nil { return nil, fmt.Errorf("what: %w", err) }] *)
Definition orFail {A} (what : string) (r : option error) (k : A) : failure + A :=
  match r with Some e => inl (Fail (Errorf what e)) | None => inr k end.

Section Mounts.
Variables (pod : K8s.Pod) (podVolRoot serviceAccountToken : string).
Variable configMaps : gmap string K8s.ConfigMap.

(** One key of a projected config map. *)
Definition writeItem (hostPath : string) (cm : K8s.ConfigMap) (_ : unit) (kp : K8s.KeyToPath)
  : prog fsE (failure + unit) :=
  let value := default "" (K8s.cm_Data cm !! K8s.kp_Key kp) in
  let mode := default PodVolPerms (K8s.kp_Mode kp) in
  r <- perform (WriteFile (Path.Join [hostPath; K8s.kp_Path kp]) value mode) ;;
  Ret (orFail "error writing config map" r tt).

(** One item of the downward API. *)
Definition writeDownward (hostPath : string) (_ : unit) (it : K8s.DownwardItem)
  : prog fsE (failure + unit) :=
  match K8s.dw_FieldPath it with
  | None => Ret (inl NilDeref)
  | Some fp =>
      if String.eqb fp "metadata.namespace" then
        r <- perform (WriteFile (Path.Join [hostPath; K8s.dw_Path it]) (K8s.pod_Namespace pod)
                        (default PodVolPerms (K8s.dw_Mode it))) ;;
        Ret (orFail "error writing downward API" r tt)
      else Ret (inr tt)
  end.

(** One source of a projected volume: its three parts, in order. *)
Definition writeSource (hostPath : string) (_ : unit) (s : K8s.VolumeProjection)
  : prog fsE (failure + unit) :=
  r <- match K8s.vp_ServiceAccountToken s with
       | Some t =>
           r <- perform (WriteFile (Path.Join [hostPath; K8s.sat_Path t]) serviceAccountToken PodVolPerms) ;;
           Ret (orFail "error writing service account token" r tt)
       | None => Ret (inr tt)
       end ;;
  match r with
  | inl f => Ret (inl f)
  | inr _ =>
      r <- match K8s.vp_ConfigMap s with
           | Some c =>
               match configMaps !! K8s.cmp_Name c with
               | None => Ret (inl (Fail (errMsg ("config map " ++ K8s.cmp_Name c ++ " not found"))))
               | Some cm => foldR (writeItem hostPath cm) (K8s.cmp_Items c) tt
               end
           | None => Ret (inr tt)
           end ;;
      match r with
      | inl f => Ret (inl f)
      | inr _ =>
          match K8s.vp_DownwardAPI s with
          | Some items => foldR (writeDownward hostPath) items tt
          | None => Ret (inr tt)
          end
      end
  end.

Definition newMount (ms : K8s.VolumeMount) (hostPath : string) : Mount :=
  {| m_Name := K8s.vmt_Name ms;
     m_HostPath := hostPath;
     m_ContainerPath := Path.Join [K8s.vmt_MountPath ms; K8s.vmt_SubPath ms];
     m_ReadOnly := K8s.vmt_ReadOnly ms |}.

(** The body of the loop over the container's mounts. *)
Definition addMount (mounts : list Mount) (ms : K8s.VolumeMount) : prog fsE (failure + list Mount) :=
  match findPodVolumeSpec pod (K8s.vmt_Name ms) with
  | None => Ret (inr mounts)
  | Some vs =>
      match K8s.vs_HostPath vs with
      | Some p =>
          r <- perform (MkdirAll p PodVolPerms) ;;
          Ret (orFail ("error making hostPath for path " ++ p) r (mounts ++ [newMount ms p])%list)
      | None =>
          let p := Path.Join [podVolRoot; K8s.vmt_Name ms] in
          if K8s.vs_EmptyDir vs then
            r <- perform (MkdirAll p PodVolPerms) ;;
            Ret (orFail ("error making emptyDir for path " ++ p) r (mounts ++ [newMount ms p])%list)
          else
            match K8s.vs_Projected vs with
            | Some sources =>
                r <- perform (MkdirAll p PodVolPerms) ;;
                match r with
                | Some e => Ret (inl (Fail (Errorf ("error making projected for path " ++ p) e)))
                | None =>
                    r <- foldR (writeSource p) sources tt ;;
                    Ret (match r with inl f => inl f | inr _ => inr (mounts ++ [newMount ms p])%list end)
                end
            | None => Ret (inr mounts)
            end
      end
  end.

(* src/internal/volumes/mounts.go : CreateContainerMounts *)
Definition CreateContainerMounts (container : K8s.Container) : prog fsE (failure + list Mount) :=
  foldR addMount (K8s.ct_VolumeMounts container) [].

(** ** What the mounts of a container are *)

Definition hostPathOf (ms : K8s.VolumeMount) (vs : K8s.VolumeSource) : option string :=
  match K8s.vs_HostPath vs with
  | Some p => Some p
  | None =>
      if K8s.vs_EmptyDir vs || is_some (K8s.vs_Projected vs)
      then Some (Path.Join [podVolRoot; K8s.vmt_Name ms]) else None
  end.

(** The specification: one mount per container mount whose volume the pod declares
    with a supported source, in the container's order. *)
Definition mountOf (ms : K8s.VolumeMount) : option Mount :=
  match findPodVolumeSpec pod (K8s.vmt_Name ms) with
  | Some vs => newMount ms <$> hostPathOf ms vs
  | None => None
  end.

Definition expectedMounts (container : K8s.Container) : list Mount :=
  omap mountOf (K8s.ct_VolumeMounts container).

Definition local : local_handler fsE unit := fun X e x s => Some (x, s).
Definition exec (env : oracle fsE) {A} (p : prog fsE A) s := run (traced_handler local env) p s.

Lemma exec_total env {A} (p : prog fsE A) s : is_Some (exec env p s).
Proof. apply traced_run_total. intros; unfold local; eauto. Qed.

Lemma addMount_ok env ms mounts s r s' :
  exec env (addMount mounts ms) s = Some (inr r, s') ->
  r = (mounts ++ match mountOf ms with Some m => [m] | None => [] end)%list.
Proof.
  unfold exec, addMount, mountOf, hostPathOf.
  destruct (findPodVolumeSpec _ _) as [vs|]; [|simpl; intros [= <- _]; by rewrite app_nil_r].
  destruct (K8s.vs_HostPath vs) as [p|].
  { cbn. destruct (env _ _ (MkdirAll _ _)); cbn; by intros [= <- _]. }
  destruct (K8s.vs_EmptyDir vs).
  { cbn. destruct (env _ _ (MkdirAll _ _)); cbn; by intros [= <- _]. }
  destruct (K8s.vs_Projected vs) as [srcs|]; [|simpl; intros [= <- _]; by rewrite app_nil_r].
  cbn. destruct (env _ _ (MkdirAll _ _)); cbn; [done|].
  rewrite run_bind. case_match; [|done]. destruct p as [[f|[]] s1]; simpl; by intros [= <- _].
Qed.

Lemma foldR_addMount_ok env l mounts s r s' :
  exec env (foldR addMount l mounts) s = Some (inr r, s') -> r = (mounts ++ omap mountOf l)%list.
Proof.
  revert mounts s. induction l as [|ms l IH]; intros mounts s; unfold exec; cbn [foldR].
  { intros [= <- _]. by rewrite app_nil_r. }
  rewrite run_bind. destruct (run _ (addMount mounts ms) s) as [[[f|m1] s1]|] eqn:E; try done.
  intros H. apply (addMount_ok env ms mounts s m1 s1) in E. apply IH in H. subst.
  rewrite <- (assoc_L (++)). f_equal. cbn. by destruct (mountOf ms).
Qed.

End Mounts.

(** ** The config maps that a success needs *)

(** A loop that succeeds has succeeded at every element. *)
Lemma foldR_needs {E A B R} (P : A -> Prop) (f : B -> A -> prog E (R + B)) l b :
  (forall b a, a ∈ l -> all_results (fun r => match r with inr _ => P a | inl _ => True end) (f b a)) ->
  all_results (fun r => match r with inr _ => Forall P l | inl _ => True end) (foldR f l b).
Proof.
  revert b. induction l as [|a l IH]; intros b Hf; simpl; [constructor|].
  eapply all_results_bind; [apply Hf; left|]. intros [e|b'] Ha; simpl; [done|].
  assert (all_results (fun r => match r with inr _ => Forall P l | inl _ => True end) (foldR f l b')) as Hl.
  { apply IH. intros b1 a1 Ha1. apply Hf. by right. }
  revert Hl. generalize (foldR f l b'). induction p as [[e|b2]|X e k IHk]; simpl; auto.
Qed.

Definition fetched (cms : gmap string K8s.ConfigMap) (src : K8s.VolumeProjection) : Prop :=
  match K8s.vp_ConfigMap src with Some c => is_Some (cms !! K8s.cmp_Name c) | None => True end.

Lemma writeSource_needs pod token cms h u src :
  all_results (fun r => match r with inr _ => fetched cms src | inl _ => True end) (writeSource pod token cms h u src).
Proof.
  unfold writeSource. eapply all_results_bind; [apply all_results_any|]. intros [f|_] _; [done|].
  unfold fetched. destruct (K8s.vp_ConfigMap src) as [c|].
  - destruct (cms !! K8s.cmp_Name c) as [cm|]; [|done].
    assert (forall B (p : prog fsE (failure + B)),
      all_results (fun r => match r with inr _ => is_Some (Some cm) | inl _ => True end) p) as H.
    { induction p as [[f|x]|X e k IH]; simpl; eauto. }
    apply H.
  - assert (forall B (p : prog fsE (failure + B)), all_results (fun r => match r with inr _ => True | inl _ => True end) p) as H.
    { induction p as [[f|x]|X e k IH]; simpl; eauto. }
    apply H.
Qed.

(** The mount of a projected volume needs the config map of every source. *)
Definition mountFetched (pod : K8s.Pod) (cms : gmap string K8s.ConfigMap) (ms : K8s.VolumeMount) : Prop :=
  forall vs srcs, findPodVolumeSpec pod (K8s.vmt_Name ms) = Some vs -> K8s.vs_HostPath vs = None ->
    K8s.vs_EmptyDir vs = false -> K8s.vs_Projected vs = Some srcs -> Forall (fetched cms) srcs.

Lemma addMount_needs pod root token cms mounts ms :
  all_results (fun r => match r with inr _ => mountFetched pod cms ms | inl _ => True end)
    (addMount pod root token cms mounts ms).
Proof.
  unfold addMount, mountFetched. destruct (findPodVolumeSpec pod (K8s.vmt_Name ms)) as [vs|]; [|done].
  destruct (K8s.vs_HostPath vs) as [hp|] eqn:Eh.
  { intros [e|]; cbn; [done|]. intros vs' srcs [= <-]. by rewrite Eh. }
  destruct (K8s.vs_EmptyDir vs) eqn:Ee.
  { intros [e|]; cbn; [done|]. intros vs' srcs [= <-]. by rewrite Ee. }
  destruct (K8s.vs_Projected vs) as [srcs|] eqn:Ep; [|cbn; intros vs' srcs [= <-]; by rewrite Ep].
  intros [e|]; [done|]. cbn. eapply all_results_bind.
  - apply (foldR_needs (fetched cms)). intros b src _. apply writeSource_needs.
  - intros [f|[]] Hs; cbn; [done|]. intros vs' srcs' [= <-] _ _. rewrite Ep. by intros [= <-].
Qed.

Lemma mounts_fetched pod root token cms c :
  all_results (fun r => match r with inr _ => Forall (mountFetched pod cms) (K8s.ct_VolumeMounts c) | inl _ => True end)
    (CreateContainerMounts pod root token cms c).
Proof. apply foldR_needs. intros b a _. apply addMount_needs. Qed.

Lemma mounts_need pod root token cms c env s mounts s' :
  exec env (CreateContainerMounts pod root token cms c) s = Some (inr mounts, s') ->
  Forall (mountFetched pod cms) (K8s.ct_VolumeMounts c).
Proof. intros H. exact (all_results_run _ _ _ _ _ _ (mounts_fetched pod root token cms c) H). Qed.

(** Whatever the host file system answers, [CreateContainerMounts] returns, and
    when it succeeds its mounts are exactly those of the specification: one per
    container mount with a declared, supported volume, in order, with the host path
    of the volume's kind. *)
Lemma CreateContainerMounts_spec pod root token cms env container s :
  exists r s', exec env (CreateContainerMounts pod root token cms container) s = Some (r, s') /\
  forall mounts, r = inr mounts -> mounts = expectedMounts pod root container.
Proof.
  destruct (exec_total env (CreateContainerMounts pod root token cms container) s) as [[r s'] Hr].
  exists r, s'. split; [done|]. intros mounts ->.
  by apply (foldR_addMount_ok pod root token cms env _ [] s _ s').
Qed.

(** The same of the results alone; and a container without mounts cannot fail. *)
Definition mountsOr (pod : K8s.Pod) (root : string) (c : K8s.Container) (r : failure + list Mount) : Prop :=
  match r with inr mounts => mounts = expectedMounts pod root c | inl _ => K8s.ct_VolumeMounts c <> [] end.

Lemma addMount_expected pod root token cms mounts ms :
  all_results (fun r => match r with
    | inr l => l = (mounts ++ match mountOf pod root ms with Some m => [m] | None => [] end)%list | inl _ => True end)
    (addMount pod root token cms mounts ms).
Proof.
  unfold addMount, mountOf, hostPathOf. destruct (findPodVolumeSpec pod (K8s.vmt_Name ms)) as [vs|]; [|simpl; by rewrite app_nil_r].
  destruct (K8s.vs_HostPath vs); [by intros [e|]|]. destruct (K8s.vs_EmptyDir vs); [by intros [e|]|].
  destruct (K8s.vs_Projected vs) as [srcs|]; [|simpl; by rewrite app_nil_r]. intros [e|]; [done|].
  cbn. eapply all_results_bind; [apply all_results_any|]. intros [f|[]] _; done.
Qed.

Lemma mounts_expected pod root token cms c : all_results (mountsOr pod root c) (CreateContainerMounts pod root token cms c).
Proof.
  unfold CreateContainerMounts, mountsOr, expectedMounts. destruct (K8s.ct_VolumeMounts c) as [|ms l]; [done|].
  assert (forall l b, all_results (fun r => match r with
    | inr m => m = (b ++ omap (mountOf pod root) l)%list | inl _ => True end) (foldR (addMount pod root token cms) l b)) as H.
  { clear. induction l as [|ms l IH]; intros b; simpl; [by rewrite app_nil_r|].
    eapply all_results_bind; [apply addMount_expected|]. intros [f|b'] Hb; [done|]. specialize (IH b'). subst b'.
    eapply all_results_and; [exact IH | apply all_results_any |]. intros [f|m] Hm _; [done|].
    rewrite Hm, <- (assoc_L (++)). f_equal. cbn. by destruct (mountOf pod root ms). }
  eapply all_results_and; [apply (H (ms :: l) []) | apply all_results_any |]. by intros [f|m].
Qed.

(** A pod none of whose downward API items lacks a [FieldRef] makes no mount panic. *)
Definition itemsHaveFields (pod : K8s.Pod) : Prop :=
  forall v srcs s items it, v ∈ K8s.pod_Volumes pod -> K8s.vs_Projected (K8s.vol_Source v) = Some srcs -> s ∈ srcs ->
    K8s.vp_DownwardAPI s = Some items -> it ∈ items -> K8s.dw_FieldPath it <> None.

Abbreviation noPanic := (fun r => match r with inl f => f <> NilDeref | inr _ => True end).

Lemma orFail_noPanic {A} what r (a : A) : noPanic (orFail what r a).
Proof. by destruct r. Qed.

Lemma writeSource_noPanic pod token cms p u src :
  (forall items it, K8s.vp_DownwardAPI src = Some items -> it ∈ items -> K8s.dw_FieldPath it <> None) ->
  all_results noPanic (writeSource pod token cms p u src).
Proof.
  intros Hi. unfold writeSource. eapply (all_results_bind noPanic).
  { destruct (K8s.vp_ServiceAccountToken src); simpl; [|done]. intros r. apply orFail_noPanic. }
  intros [f|[]] Hf; [done|]. eapply (all_results_bind noPanic).
  { destruct (K8s.vp_ConfigMap src) as [c|]; [|done]. destruct (cms !! _); [|done].
    apply all_results_foldR. intros b it _. simpl. intros r. apply orFail_noPanic. }
  intros [f|[]] Hf2; [done|]. destruct (K8s.vp_DownwardAPI src) as [items|]; [|done].
  apply all_results_foldR. intros b it Hit. specialize (Hi items it eq_refl Hit). unfold writeDownward.
  destruct (K8s.dw_FieldPath it); [|done]. case_match; [|done]. simpl. intros r. apply orFail_noPanic.
Qed.

Lemma mounts_noPanic pod root token cms c :
  itemsHaveFields pod -> all_results noPanic (CreateContainerMounts pod root token cms c).
Proof.
  intros Hi. unfold CreateContainerMounts. apply all_results_foldR. intros b ms _. unfold addMount, findPodVolumeSpec.
  destruct (find_first _ _) as [v|] eqn:Ev; [|done]. apply find_first_Some in Ev as [Hv _].
  destruct (K8s.vs_HostPath _); [simpl; intros r; apply orFail_noPanic|].
  destruct (K8s.vs_EmptyDir _); [simpl; intros r; apply orFail_noPanic|].
  destruct (K8s.vs_Projected _) as [srcs|] eqn:Es; [|done].
  eapply (all_results_bind (fun _ => True)); [by intros r|]. intros [e|] _; [done|].
  eapply (all_results_bind noPanic).
  { apply all_results_foldR. intros u src Hs. apply writeSource_noPanic.
    intros items it Hd Hit. exact (Hi v srcs src items it Hv Es Hs Hd Hit). }
  by intros [f|[]] Hf.
Qed.

(** A projected downward API item that selects a container resource has no
    [FieldRef]: the loop dereferences it all the same. *)
Definition resource_item_pod : K8s.Pod :=
  {| K8s.pod_Namespace := "ns"; K8s.pod_Name := "p"; K8s.pod_UID := "u"; K8s.pod_CreationTimestamp := 0%Z;
     K8s.pod_DeletionTimestamp := None; K8s.pod_DeletionGracePeriodSeconds := None; K8s.pod_Containers := [];
     K8s.pod_Volumes :=
       [{| K8s.vol_Name := "info";
           K8s.vol_Source := {| K8s.vs_HostPath := None; K8s.vs_EmptyDir := false;
             K8s.vs_Projected := Some [{| K8s.vp_ServiceAccountToken := None; K8s.vp_ConfigMap := None;
               K8s.vp_DownwardAPI := Some [{| K8s.dw_FieldPath := None; K8s.dw_Path := "cpu"; K8s.dw_Mode := None |}] |}] |} |}];
     K8s.pod_ImagePullSecrets := []; K8s.pod_ServiceAccountName := ""; K8s.pod_AutomountServiceAccountToken := None;
     K8s.pod_Status := {| K8s.ps_Phase := K8s.PodPending; K8s.ps_Conditions := []; K8s.ps_HostIP := "";
        K8s.ps_PodIP := ""; K8s.ps_StartTime := None; K8s.ps_ContainerStatuses := [] |} |}.

Definition info_container : K8s.Container :=
  {| K8s.ct_Name := "c"; K8s.ct_Image := "i"; K8s.ct_ImagePullPolicy := K8s.PullAlways; K8s.ct_Command := [];
     K8s.ct_Args := []; K8s.ct_WorkingDir := ""; K8s.ct_Env := [];
     K8s.ct_VolumeMounts := [{| K8s.vmt_Name := "info"; K8s.vmt_MountPath := "/etc/info"; K8s.vmt_SubPath := "";
                                K8s.vmt_ReadOnly := true |}];
     K8s.ct_Requests := ∅; K8s.ct_Lifecycle := None; K8s.ct_TTY := false; K8s.ct_Stdin := false; K8s.ct_StdinOnce := false |}.

(** An oracle for which every operation succeeds. *)
Definition all_ok : oracle fsE := fun X n e => match e with MkdirAll _ _ => None | WriteFile _ _ _ => None end.

Lemma downward_resource_item_panics :
  fst <$> exec all_ok (CreateContainerMounts resource_item_pod "/root" "tok" ∅ info_container) (start tt)
  = Some (inl NilDeref).
Proof. vm_compute. reflexivity. Qed.

End Volumes.
