(* ===== verification/Event.v ===== *)
(** * pkg/event: the events the components report

    [EventRecorder] is an interface with one method per event; an event is a value of
    [Event], and a recorder is what it does with one.  [Kube] is the Kubernetes
    recorder, [Log] the logging one. *)
From Stdlib Require Import ZArith.
From Stdlib Require Import Ascii String.
From stdpp Require Import base list strings.
From S2P Require Import Prelude GoStrings GoErrors.
Local Open Scope string_scope.

(* src/pkg/event/recorder.go : EventRecorder *)
Inductive Event : Type :=
| PullingImage (image containerName : string)
| PulledImage (image containerName duration : string)
| FailedToValidateOCI (content : string)
| FailedToPullImage (image containerName : string) (e : error)
| BackOffPullImage (image containerName : string) (e : error)
| CreatedContainer (containerName : string)
| StartedContainer (containerName : string)
| FailedToCreateContainer (containerName : string) (e : error)
| FailedToStartContainer (containerName : string) (e : error)
| FailedPostStartHook (containerName : string) (cmd : list string) (e : error)
| FailedPostStartProbe (containerName : string) (e : error)
| FailedPreStopHook (containerName : string) (cmd : list string) (e : error)
| FailedToResolveImagePullSecrets (e : error).

#[global] Instance Event_eq_dec : EqDecision Event.
Proof. solve_decision. Defined.

Module Kube.

(** The reasons: constants of kubernetes' [events] package, and the two of this
    package. *)
Inductive Reason :=
| RPullingImage | RPulledImage | RFailedToInspectImage | RFailedToPullImage | RBackOffPullImage
| RCreatedContainer | RStartedContainer | RFailedToCreateContainer | RFailedToStartContainer
| RFailedPostStartHook | RFailedPreStopHook
| RFailedImagePullSecrets | RFailedPostStartProbe.

(* src/pkg/event/kuberecorder.go : 16-23 eventReasonFailedImagePullSecrets *)
Definition reasonText (r : Reason) : option string :=
  match r with
  | RFailedImagePullSecrets => Some "FailedToRetrieveImagePullSecret"
  | RFailedPostStartProbe => Some "FailedPostStartProbe"
  | _ => None
  end.

Inductive EventType := Normal | Warning.

(** The object an event is about: what [WithObjectRef] puts into a context. *)
Record ObjectReference := { or_Namespace : string; or_Name : string; or_UID : string; or_FieldPath : string }.

(** The values of a context, the innermost first; a key of another package is never
    equal to [objectRefKey], whose type is not exported. *)
Inductive ctxKey := objectRefKey | otherKey (n : nat).
Inductive ctxValue := ObjectRef (r : ObjectReference) | OtherValue (n : nat).
Definition ctxValues := list (ctxKey * ctxValue).

Definition sameKey (a b : ctxKey) : bool :=
  match a, b with
  | objectRefKey, objectRefKey => true
  | otherKey n, otherKey m => (n =? m)%nat
  | _, _ => false
  end.

(** [ctx.Value(key)] *)
Definition Value (c : ctxValues) (k : ctxKey) : option ctxValue :=
  snd <$> find_first (fun kv => sameKey (fst kv) k) c.

(* src/pkg/event/kuberecorder.go : WithObjectRef *)
Definition WithObjectRef (c : ctxValues) (r : ObjectReference) : ctxValues := (objectRefKey, ObjectRef r) :: c.

(* src/pkg/event/kuberecorder.go : GetObjectRef *)
Definition GetObjectRef (c : ctxValues) : option ObjectReference :=
  match Value c objectRefKey with
  | Some (ObjectRef r) => Some r
  | _ => None
  end.

(** The reference is read back, through any values put on top of it; the values of
    other packages are not disturbed. *)
Lemma GetObjectRef_With c r top :
  Forall (fun kv => fst kv <> objectRefKey) top -> GetObjectRef (top ++ WithObjectRef c r)%list = Some r.
Proof.
  intros Ht. unfold GetObjectRef, Value. induction Ht as [|[[|n] v] top Hk Ht IH]; [done | done |]. exact IH.
Qed.

Lemma WithObjectRef_other c r n : Value (WithObjectRef c r) (otherKey n) = Value c (otherKey n).
Proof. done. Qed.

(** A call of the Kubernetes recorder's [Eventf]. *)
Record KubeEvent := { ke_ref : ObjectReference; ke_type : EventType; ke_reason : Reason; ke_message : string }.

Definition q (s : string) : string := Str.dquote_s ++ s ++ Str.dquote_s.

(** [fmt.Sprintf("[%s]", strings.Join(cmd, ", "))] *)
Definition cmdStr (cmd : list string) : string := "[" ++ Str.join ", " cmd ++ "]".

Definition hookMessage (cmd : list string) (c : string) (e : error) : string :=
  "Exec lifecycle hook (" ++ cmdStr cmd ++ ") for Container " ++ q c ++ " failed - error: " ++ Error e.

(** The container, type, reason and message that each method passes on. *)
(* src/pkg/event/kuberecorder.go : 56-108 KubeEventRecorder *)
Definition eventArgs (ev : Event) : string * EventType * Reason * string :=
  match ev with
  | PullingImage i c => (c, Normal, RPullingImage, "Pulling image " ++ q i)
  | PulledImage i c d => (c, Normal, RPulledImage, "Successfully pulled image " ++ q i ++ " in " ++ d)
  | FailedToValidateOCI t => ("", Warning, RFailedToInspectImage, "Failed to validate OCI content: " ++ t)
  | FailedToPullImage i c e => (c, Warning, RFailedToPullImage, "Failed to pull image " ++ q i ++ ": " ++ Error e)
  | BackOffPullImage i c e => (c, Warning, RBackOffPullImage, "Back-off pulling image " ++ q i ++ ": " ++ Error e)
  | CreatedContainer c => (c, Normal, RCreatedContainer, "Created container " ++ c)
  | StartedContainer c => (c, Normal, RStartedContainer, "Started container " ++ c)
  | FailedToCreateContainer c e =>
      (c, Warning, RFailedToCreateContainer, "Failed to create container " ++ c ++ ": " ++ Error e)
  | FailedToStartContainer c e =>
      (c, Warning, RFailedToStartContainer, "Failed to start container " ++ c ++ ": " ++ Error e)
  | FailedPostStartHook c cmd e => (c, Warning, RFailedPostStartHook, hookMessage cmd c e)
  | FailedPostStartProbe c e =>
      (c, Warning, RFailedPostStartProbe,
       "SSH readiness probe for Container " ++ q c ++ " failed - error: " ++ Error e)
  | FailedPreStopHook c cmd e => (c, Warning, RFailedPreStopHook, hookMessage cmd c e)
  | FailedToResolveImagePullSecrets e =>
      ("", Warning, RFailedImagePullSecrets, "Failed to resolve image pull secrets: " ++ Error e)
  end.

(** The context carries an object reference or not ([GetObjectRef]). *)
(* src/pkg/event/kuberecorder.go : KubeEventRecorder.recordEvent *)
Definition recordEvent (ref : option ObjectReference) (ev : Event) : option KubeEvent :=
  match ref with
  | None => None
  | Some r =>
      let '(c, ty, reason, msg) := eventArgs ev in
      Some {| ke_ref :=
                if String.eqb c "" then r
                else {| or_Namespace := or_Namespace r; or_Name := or_Name r; or_UID := or_UID r;
                        or_FieldPath := "spec.containers{" ++ c ++ "}" |};
              ke_type := ty; ke_reason := reason; ke_message := msg |}
  end.

(** Whether an event reports a failure. *)
Definition failed (ev : Event) : bool :=
  match ev with
  | PullingImage _ _ | PulledImage _ _ _ | CreatedContainer _ | StartedContainer _ => false
  | _ => true
  end.

(** A failure, and nothing else, is a warning; the reference keeps its object. *)
Lemma recordEvent_warning r ev ke :
  recordEvent (Some r) ev = Some ke ->
  (ke_type ke = Warning <-> failed ev = true) /\
  or_Namespace (ke_ref ke) = or_Namespace r /\ or_Name (ke_ref ke) = or_Name r /\ or_UID (ke_ref ke) = or_UID r.
Proof.
  unfold recordEvent. destruct (eventArgs ev) as [[[c ty] reason] msg] eqn:E. intros [= <-]. simpl.
  split; [|by destruct (String.eqb c "")].
  destruct ev; simpl in E; injection E as <- <- <- <-; done.
Qed.

End Kube.

Module Log.

Inductive Level := Info | Warn | Err.

(** The level, the message and the error attached to the entry. *)
(* src/pkg/event/logrecorder.go : 13-69 LogEventRecorder *)
Definition logEvent (ev : Event) : Level * string * option error :=
  match ev with
  | PullingImage i _ => (Info, "Pulling image " ++ Kube.q i, None)
  | PulledImage i _ d => (Info, "Successfully pulled image " ++ Kube.q i ++ " in " ++ d, None)
  | FailedToValidateOCI t => (Warn, "Failed to validate OCI content: " ++ t, None)
  | FailedToPullImage i _ e => (Warn, "Failed to pull image " ++ Kube.q i, Some e)
  | BackOffPullImage i _ e => (Err, "Back-off pulling image " ++ Kube.q i, Some e)
  | CreatedContainer c => (Info, "Created container " ++ c, None)
  | StartedContainer c => (Info, "Started container " ++ c, None)
  | FailedToCreateContainer c e => (Err, "Failed to create container " ++ c, Some e)
  | FailedToStartContainer c e => (Err, "Failed to start container " ++ c, Some e)
  | FailedPostStartHook c cmd e => (Err, Kube.hookMessage cmd c e, Some e)
  | FailedPostStartProbe c e =>
      (Warn, "SSH readiness probe for Container " ++ Kube.q c ++ " failed - error: " ++ Error e, Some e)
  | FailedPreStopHook c cmd e => (Err, Kube.hookMessage cmd c e, Some e)
  | FailedToResolveImagePullSecrets e => (Warn, "Failed to resolve image pull secrets", Some e)
  end.

(** The two recorders agree on what is a failure. *)
Lemma logEvent_level ev : fst (fst (logEvent ev)) = Info <-> Kube.failed ev = false.
Proof. by destruct ev. Qed.

End Log.
