(* ===== verification/GuestCfg.v ===== *)
(** * internal/guestcfg: the readiness probe's script and the guest's host name *)
From Stdlib Require Import ZArith Lia.
From Stdlib Require Import Ascii String.
From stdpp Require Import base list strings.
From S2P Require Import Prelude GoStrings Sha256.
Local Open Scope string_scope.

Module GuestCfg.

(* src/internal/guestcfg/guestcfg.go : 12-12 hostNameFallback *)
Definition hostNameFallback : string := "macos-vm".

(* src/internal/guestcfg/guestcfg.go : 15-15 suffixHexLen *)
Definition suffixHexLen : nat := 8.

(* src/internal/guestcfg/guestcfg.go : 17-19 maxBaseLen *)
Definition maxBaseLen : nat := 63 - 1 - suffixHexLen.

Definition keep (c : ascii) : bool := Str.is_alnum c || Ascii.eqb c "-".

(** The builder loop over the runes of the name; [len] is [b.Len()]. *)
Fixpoint sanitizeLoop (len : nat) (rs : list (option Z * string)) : string :=
  match rs with
  | [] => EmptyString
  | (r, _) :: rs =>
      let c := match r with
               | Some z => if ((0 <=? z) && (z <? 128))%Z && keep (Str.chr z) then Str.chr z else "-"%char
               | None => "-"%char
               end in
      String c (if (maxBaseLen <=? S len)%nat then EmptyString else sanitizeLoop (S len) rs)
  end.

(* src/internal/guestcfg/guestcfg.go : sanitizeBase *)
Definition sanitizeBase (name : string) : string :=
  let out := Str.trim_cutset (sanitizeLoop 0 (Str.runes name)) "-" in
  if String.eqb out "" then hostNameFallback else out.

(* src/internal/guestcfg/guestcfg.go : hostName *)
Definition hostName (namespace podName : string) : string :=
  let suffix := Str.take suffixHexLen (Sha256.hexdigest (namespace ++ "/" ++ podName)) in
  sanitizeBase podName ++ "-" ++ suffix.

Definition steps (h : string) : list string :=
  ["sudo -n defaults write /Library/Preferences/com.apple.mDNSResponder.plist NoMulticastAdvertisements -bool YES";
   "sudo -n scutil --set LocalHostName " ++ h;
   "sudo -n scutil --set ComputerName " ++ h;
   "sudo -n scutil --set HostName " ++ h;
   "sudo -n killall mDNSResponder 2>/dev/null";
   "true"].

(* src/internal/guestcfg/guestcfg.go : BuildPostStartProbeCommand *)
Definition BuildPostStartProbeCommand (namespace podName : string) : list string :=
  ["sh"; "-c"; Str.join "; " (steps (hostName namespace podName))].

(** *** The base *)

Lemma sanitizeLoop_keep n rs : Str.all_chars keep (sanitizeLoop n rs) = true.
Proof.
  revert n. induction rs as [|[r b] rs IH]; intros n; [done|]. cbn [sanitizeLoop Str.all_chars].
  apply andb_true_iff. split.
  - destruct r as [z|]; [|done]. destruct (_ && keep (Str.chr z)) eqn:E; [|done].
    by apply andb_true_iff in E as [_ ?].
  - destruct (maxBaseLen <=? S n)%nat; [done | apply IH].
Qed.

Lemma sanitizeLoop_length n rs :
  (n < maxBaseLen)%nat -> (String.length (sanitizeLoop n rs) + n <= maxBaseLen)%nat.
Proof.
  revert n. induction rs as [|[r b] rs IH]; intros n Hn; cbn [sanitizeLoop String.length]; [lia|].
  destruct (maxBaseLen <=? S n)%nat eqn:E; [simpl; lia|].
  apply Nat.leb_gt in E. specialize (IH (S n) E). lia.
Qed.

Lemma trim_left_all f g s : Str.all_chars g s = true -> Str.all_chars g (Str.trim_left f s) = true.
Proof.
  induction s as [|c s IH]; simpl; [done|]. rewrite andb_true_iff. intros [Hc Hs].
  destruct (f c); [by apply IH | simpl; by rewrite Hc, Hs].
Qed.

Lemma trim_right_all f g s : Str.all_chars g s = true -> Str.all_chars g (Str.trim_right f s) = true.
Proof.
  induction s as [|c s IH]; simpl; [done|]. rewrite andb_true_iff. intros [Hc Hs]. specialize (IH Hs).
  destruct (Str.trim_right f s) as [|d r]; [destruct (f c); simpl; by rewrite ?Hc|].
  cbn [Str.all_chars] in *. by rewrite Hc, IH.
Qed.

Lemma trim_left_length f s : (String.length (Str.trim_left f s) <= String.length s)%nat.
Proof. induction s as [|c s IH]; simpl; [lia|]. destruct (f c); simpl; lia. Qed.

Lemma trim_right_length f s : (String.length (Str.trim_right f s) <= String.length s)%nat.
Proof.
  induction s as [|c s IH]; simpl; [lia|].
  destruct (Str.trim_right f s); [destruct (f c); simpl; lia|]. cbn [String.length] in *. lia.
Qed.

(** The first character after trimming on the left is not trimmed by [f]; trimming on
    the right does not touch it. *)
Lemma trim_left_first f s : match Str.trim_left f s with EmptyString => True | String c _ => f c = false end.
Proof. induction s as [|c s IH]; simpl; [done|]. by destruct (f c) eqn:E. Qed.

Lemma trim_right_first f c s :
  f c = false -> exists r, Str.trim_right f (String c s) = String c r.
Proof. intros H. simpl. destruct (Str.trim_right f s); [rewrite H|]; eauto. Qed.

Lemma trim_cutset_first s cs :
  match Str.trim_cutset s cs with EmptyString => True | String c _ => Str.in_set cs c = false end.
Proof.
  unfold Str.trim_cutset, Str.trim. pose proof (trim_left_first (Str.in_set cs) s) as H.
  destruct (Str.trim_left (Str.in_set cs) s) as [|c r]; [done|].
  destruct (trim_right_first (Str.in_set cs) c r H) as [r' ->]. exact H.
Qed.

Lemma sanitizeBase_props name :
  Str.all_chars keep (sanitizeBase name) = true /\
  (1 <= String.length (sanitizeBase name) <= maxBaseLen)%nat /\
  Str.has_prefix "-" (sanitizeBase name) = false.
Proof.
  unfold sanitizeBase.
  destruct (String.eqb_spec (Str.trim_cutset (sanitizeLoop 0 (Str.runes name)) "-") "") as [_|Hne].
  { split_and!; [vm_compute; done | vm_compute; lia | vm_compute; lia | vm_compute; done]. }
  split_and!.
  - unfold Str.trim_cutset, Str.trim. by apply trim_right_all, trim_left_all, sanitizeLoop_keep.
  - destruct (Str.trim_cutset _ _); [done | simpl; lia].
  - unfold Str.trim_cutset, Str.trim.
    pose proof (sanitizeLoop_length 0 (Str.runes name)) as H.
    pose proof (trim_right_length (Str.in_set "-") (Str.trim_left (Str.in_set "-") (sanitizeLoop 0 (Str.runes name)))).
    pose proof (trim_left_length (Str.in_set "-") (sanitizeLoop 0 (Str.runes name))).
    unfold maxBaseLen, suffixHexLen in *. lia.
  - pose proof (trim_cutset_first (sanitizeLoop 0 (Str.runes name)) "-") as H.
    destruct (Str.trim_cutset _ _) as [|c r]; [done|]. unfold Str.in_set in H.
    cbn [Str.count_char Str.has_prefix] in *. rewrite Ascii.eqb_sym in H.
    by destruct (Ascii.eqb "-" c).
Qed.

Lemma suffix_props s :
  String.length (Str.take suffixHexLen (Sha256.hexdigest s)) = suffixHexLen /\
  Str.all_chars keep (Str.take suffixHexLen (Sha256.hexdigest s)) = true.
Proof.
  split; [apply Str.length_take; rewrite Sha256.hexdigest_length; unfold suffixHexLen; lia|].
  apply Str.all_chars_take. eapply Str.all_chars_impl; [|apply Sha256.hexdigest_chars].
  intros c. assert (forall c, implb (Sha256.is_hex_char c) (keep c) = true) as H by by_bytes.
  specialize (H c). by destruct (Sha256.is_hex_char c).
Qed.

(** Neither a quote nor a backslash: safe inside the caller's [$'...']. *)
Definition script_safe (c : ascii) : bool := negb (Ascii.eqb c "'") && negb (Ascii.eqb c "092").

Lemma keep_safe s : Str.all_chars keep s = true -> Str.all_chars script_safe s = true.
Proof.
  apply Str.all_chars_impl. intros c.
  assert (forall c, implb (keep c) (script_safe c) = true) as H by by_bytes.
  specialize (H c). by destruct (keep c).
Qed.

Lemma hostName_keep ns pod : Str.all_chars keep (hostName ns pod) = true.
Proof.
  unfold hostName. rewrite !Str.all_chars_app.
  rewrite (proj1 (sanitizeBase_props pod)), (proj2 (suffix_props _)). done.
Qed.

Lemma steps_safe h : Str.all_chars keep h = true ->
  Str.all_chars script_safe (Str.join "; " (steps h)) = true.
Proof.
  intros H%keep_safe. unfold steps. cbn [Str.join]. rewrite !Str.all_chars_app, !H. vm_compute. done.
Qed.

(** For every namespace and pod name, the guest's host name is a valid
    LocalHostName: at most 63 characters, letters, digits and hyphens only, no
    leading hyphen; and the probe is a shell command whose script has no quote and no
    backslash, so that the caller may wrap it in [$'...']. *)
Theorem probe_command_safe ns pod :
  (String.length (hostName ns pod) <= 63)%nat /\
  Str.all_chars keep (hostName ns pod) = true /\
  Str.has_prefix "-" (hostName ns pod) = false /\
  exists script, BuildPostStartProbeCommand ns pod = ["sh"; "-c"; script] /\
    Str.all_chars script_safe script = true.
Proof.
  split_and!.
  - unfold hostName. rewrite !Str.length_app, (proj1 (suffix_props _)).
    destruct (sanitizeBase_props pod) as (_ & [_ H] & _). unfold maxBaseLen, suffixHexLen in *. simpl. lia.
  - apply hostName_keep.
  - unfold hostName. destruct (sanitizeBase_props pod) as (_ & [H _] & Hp).
    destruct (sanitizeBase pod) as [|c r]; [simpl in H; lia|]. rewrite Str.app_cons.
    cbn [Str.has_prefix] in *. by destruct (Ascii.eqb "-" c).
  - eexists. split; [reflexivity|]. apply steps_safe, hostName_keep.
Qed.

End GuestCfg.
