(* ===== verification/NodeIO.v ===== *)
(** * internal/node, internal/io and internal/ssh: attached streams and guest sessions

    Module [Node]: the streams of an exec and the terminal helpers.  Module
    [Session]: [MacOSSession], which runs one command over an SSH session; the
    session of [x/crypto/ssh] and the pipe to its stdin are operations ([sessE]).
    Module [Dial]: [DialContext], the race between a handshake and its deadline. *)
From Stdlib Require Import ZArith Lia.
From Stdlib Require Import Ascii String.
From stdpp Require Import base list strings.
From S2P Require Import Prelude GoStrings GoFormat GoErrors GoTime Prog Utils.
Local Open Scope string_scope.
Local Open Scope go_scope.

Module Node.

(* src/internal/node/terminal.go : 13-13 DefaultTerminalType *)
Definition DefaultTerminalType : string := "xterm-256color".

(* src/internal/node/terminal.go : GetTerminalType *)
Definition GetTerminalType (Getenv : string -> string) : string :=
  let term := Getenv "TERM" in
  if String.eqb term "" then DefaultTerminalType else term.

Record TermSize := { Width : Z; Height : Z }.

(* src/internal/node/terminal.go : 15-16 DefaultTermWidth *)
Definition defaultSize : TermSize := {| Width := 60; Height := 120 |}.

(** An attached set of streams: which of them are there, and whether they are a
    terminal ([api.AttachIO]). *)
(* src/internal/node/exec.go : ExecIO *)
Record ExecIO := { tty : bool; stdin : bool; stdout : bool; stderr : bool; chResize : bool }.

(* src/internal/node/exec.go : NewExecIO *)
Definition NewExecIO (t i o e r : bool) : ExecIO :=
  {| tty := t; stdin := i; stdout := o; stderr := e; chResize := r |}.

(* src/internal/node/exec.go : DiscardingExecIO *)
Definition DiscardingExecIO : ExecIO :=
  {| tty := false; stdin := false; stdout := true; stderr := false; chResize := false |}.

(** The answer of the select: a size from the resize channel, or [None] when the
    context is done first. *)
(* src/internal/node/terminal.go : GetConsoleSize *)
Definition GetConsoleSize (attach : option ExecIO) (resize : option TermSize) : option (Z * Z) :=
  match attach with
  | None => None
  | Some a =>
      if negb (tty a) then None
      else
        let sz := default defaultSize resize in
        if negb (Width sz =? 0)%Z && negb (Height sz =? 0)%Z then Some (Height sz, Width sz) else None
  end.

(** The sizes that the resize channel delivers before the context is done; the
    result are those that [resizeFunc] is called with. *)
(* src/internal/node/terminal.go : HandleTerminalResizing *)
Definition HandleTerminalResizing (sizes : list TermSize) : list TermSize :=
  match sizes with
  | [] => []
  | size :: _ => [size]
  end.

(** Only the first size is ever applied. *)
Lemma HandleTerminalResizing_once s1 s2 rest :
  HandleTerminalResizing (s1 :: s2 :: rest) = [s1].
Proof. done. Qed.

(** A console size is always two positive numbers, and never that of a stream
    without a terminal. *)
Lemma GetConsoleSize_pos a r h w :
  (forall s, r = Some s -> 0 <= Width s /\ 0 <= Height s)%Z ->
  GetConsoleSize (Some a) r = Some (h, w) -> tty a = true /\ (0 < h)%Z /\ (0 < w)%Z.
Proof.
  intros Hr. unfold GetConsoleSize. destruct (tty a); [|done]. simpl.
  destruct r as [s|]; simpl.
  - destruct (Hr s eq_refl). destruct (Width s =? 0)%Z eqn:E1, (Height s =? 0)%Z eqn:E2; try done.
    intros [= <- <-]. split_and!; [done | bool_lia | bool_lia].
  - intros [= <- <-]. done.
Qed.

End Node.

(** ** internal/io *)

Module IO.

(* src/internal/io/discard.go : DiscardWriteCloser.Close *)
Definition Discard_Close : option error := None.

(* src/internal/io/discard.go : DiscardWriteCloser.Write *)
Definition Discard_Write (p : string) : Z * option error := (Z.of_nat (String.length p), None).

(* src/internal/io/buffer_write_closer.go : BufferWriteCloser.Write *)
Definition Buffer_Write (buf p : string) : string * (Z * option error) :=
  (buf ++ p, (Z.of_nat (String.length p), None)).

(** The buffer is read after the writer was closed. *)
(* src/internal/io/buffer_write_closer.go : BufferWriteCloser.Close *)
Definition Buffer_Close (buf : string) : string * option error := (buf, None).

End IO.

(** ** internal/execerror *)

Module ExecError.

(** [errors.AsType[ExitStatusError]]: the first error of the tree with an
    [ExitStatus] method, wrapped errors and joins followed in order. *)
Fixpoint exitStatus (e : error) : option Z :=
  match e with
  | errExitStatus c _ => Some c
  | errCodeExit _ c => Some c
  | errWrap _ e => exitStatus e
  | errJoin es =>
      (fix go es := match es with
                    | [] => None
                    | e :: es => match exitStatus e with Some c => Some c | None => go es end
                    end) es
  | _ => None
  end.

(* src/internal/execerror/execerror.go : AsCodeExitError *)
Definition AsCodeExitError (o : option error) : option error :=
  match o with
  | None => None
  | Some e => match exitStatus e with Some c => Some (errCodeExit e c) | None => Some e end
  end.

(** The result is nil exactly for nil; an exit status surfaces at the top, any other
    error is passed on unchanged. *)
Lemma AsCodeExitError_cases o :
  (AsCodeExitError o = None <-> o = None) /\
  (forall e, o = Some e ->
     match exitStatus e with
     | Some c => AsCodeExitError o = Some (errCodeExit e c)
     | None => AsCodeExitError o = o
     end).
Proof.
  unfold AsCodeExitError. destruct o as [e|]; [|done].
  split; [destruct (exitStatus e); done|]. intros e' [= <-]. by destruct (exitStatus e).
Qed.

End ExecError.

(** ** internal/ssh/macos.go *)

Module Session.

Inductive sessE : Type -> Type :=
| ConsoleSize : sessE (option Node.TermSize)          (* the select of GetConsoleSize *)
| RequestPty (term : string) (h w : Z) : sessE (option error)
| GoResize : sessE unit                               (* go HandleTerminalResizing *)
| GoCopyStdin : sessE unit                            (* go io.Copy(stdinPipe, stdin), then Close *)
| StartCmd (cmd : string) : sessE (option error)      (* ssh.Session.Start *)
| Shell : sessE (option error)
| WriteStdin (data : string) : sessE (option error)
| CopyStdin : sessE (option error)
| CloseStdin : sessE (option error)
| Wait : sessE (option error).

Section Session.
Context `{PrintTable}.
Variable Getenv : string -> string.

(* src/internal/ssh/macos.go : setupTTYSession *)
Definition setupTTYSession (attach : Node.ExecIO) (h w : Z) : prog sessE (option error) :=
  r <- perform (RequestPty (Node.GetTerminalType Getenv) h w) ;;
  match r with
  | Some e => Ret (Some (errMsg ("request for pseudo terminal failed: " ++ Error e)))
  | None =>
      perform GoResize ;;
      (if Node.stdin attach then perform GoCopyStdin else Ret tt) ;;
      Ret None
  end.

(* src/internal/ssh/macos.go : MacOSSession.SetupSessionIO *)
Definition SetupSessionIO (attach : Node.ExecIO) : prog sessE (option error) :=
  sz <- (if Node.tty attach then perform ConsoleSize else Ret None) ;;
  match Node.GetConsoleSize (Some attach) sz with
  | Some (h, w) => if Node.tty attach then setupTTYSession attach h w else Ret None
  | None => Ret None
  end.

(** The lines of a command written to the shell; the first failure ends it. *)
Definition writeLine (_ : unit) (c : string) : prog sessE (error + unit) :=
  r <- perform (WriteStdin (c ++ Str.newline)) ;;
  Ret (match r with Some e => inl e | None => inr tt end).

Definition writeEnv (e : EnvVar) : prog sessE unit :=
  perform (WriteStdin (Cmd.BuildExportEnvCommand e)) ;; Ret tt.

(** The end of [ExecuteCommand], after the command was started. *)
Definition finishCommand (attach : Node.ExecIO) : prog sessE (option error) :=
  if Node.tty attach then perform Wait
  else
    r <- (if Node.stdin attach then perform CopyStdin else Ret None) ;;
    match r with
    | Some e => Ret (Some e)
    | None => perform CloseStdin ;; perform Wait
    end.

(* src/internal/ssh/macos.go : MacOSSession.ExecuteCommand *)
Definition ExecuteCommand (attach : Node.ExecIO) (env : list EnvVar) (cmd : list string) : prog sessE (option error) :=
  match Cmd.BuildExecCommandString cmd env with
  | (cmdStr, None) =>
      r <- perform (StartCmd cmdStr) ;;
      match r with Some e => Ret (Some e) | None => finishCommand attach end
  | (_, Some _) =>
      r <- perform Shell ;;
      match r with
      | Some e => Ret (Some e)
      | None =>
          forM env writeEnv ;;
          r <- foldR writeLine cmd tt ;;
          match r with inl e => Ret (Some e) | inr _ => finishCommand attach end
      end
  end.

(** *** What a session does *)

Definition local : local_handler sessE unit := fun X e x s => Some (x, s).
Definition exec (env : oracle sessE) {A} (p : prog sessE A) s := run (traced_handler local env) p s.

Definition started (c : call sessE) : bool :=
  match c with Call (StartCmd _) _ => true | Call Shell _ => true | _ => false end.
Definition waited (c : call sessE) : bool := match c with Call Wait _ => true | _ => false end.

Lemma session_total : forall X (e : sessE X) x u, is_Some (local X e x u).
Proof. intros; unfold local; eauto. Qed.

(** A command that is not of the shell-exec shape (an interactive shell, say) goes
    through the guest's shell, and nothing is started twice. *)
Lemma ExecuteCommand_no_shell attach vars cmd :
  snd (Cmd.BuildExecCommandString cmd vars) = None ->
  forall env, exists r s, exec env (ExecuteCommand attach vars cmd) (start tt) = Some (r, s) /\
    omap (fun c => match c with Call (StartCmd t) _ => Some t | _ => None end) (trace s) =
      [fst (Cmd.BuildExecCommandString cmd vars)] /\
    existsb (fun c => match c with Call Shell _ => true | _ => false end) (trace s) = false.
Proof.
  unfold exec, ExecuteCommand, finishCommand. destruct (Cmd.BuildExecCommandString cmd vars) as [str [e|]]; [done|].
  intros _ env. cbn.
  destruct (env _ _ (StartCmd str)); cbn; [by eexists _, _|].
  destruct (Node.tty attach); cbn; [by eexists _, _|].
  destruct (Node.stdin attach); cbn; [|by eexists _, _].
  destruct (env _ _ CopyStdin); cbn; by eexists _, _.
Qed.

End Session.
End Session.

(** ** internal/ssh/dial.go *)

Module Dial.

(** How the race ends: the TCP connection fails; the handshake ends before the
    deadline; the deadline comes first, and the handshake ends after it or never. *)
Inductive Race (Client : Type) :=
| TCPFailed (e : error)
| HandshakeFirst (r : Client + error)
| DeadlineFirst (cause : error) (late : option (Client + error)).

Arguments TCPFailed {Client} e.
Arguments HandshakeFirst {Client} r.
Arguments DeadlineFirst {Client} cause late.

(** What is open afterwards: the raw connection, and the clients. *)
Record Outcome (Client : Type) := { result : Client + error; connClosed : bool; clientsClosed : list Client }.
Arguments result {Client} o.
Arguments connClosed {Client} o.
Arguments clientsClosed {Client} o.

Section Dial.
Context {Client : Type}.

(* src/internal/ssh/dial.go : DialContext *)
Definition DialContext (r : Race Client) : Outcome Client :=
  match r with
  | TCPFailed e => {| result := inr e; connClosed := true; clientsClosed := [] |}
  | HandshakeFirst res => {| result := res; connClosed := false; clientsClosed := [] |}
  | DeadlineFirst cause late =>
      {| result := inr cause; connClosed := true;
         clientsClosed := match late with Some (inl c) => [c] | _ => [] end |}
  end.

(** A client made after the deadline is closed, never returned; a returned client is
    never closed. *)
Lemma DialContext_no_leak r :
  (forall c, result (DialContext r) = inl c -> clientsClosed (DialContext r) = [] /\ connClosed (DialContext r) = false) /\
  (forall cause c, r = DeadlineFirst cause (Some (inl c)) -> clientsClosed (DialContext r) = [c]).
Proof. split; [by destruct r|]. by intros cause c ->. Qed.

End Dial.
End Dial.
