(* ===== verification/Stores.v ===== *)
(** * internal/data: the two concurrent maps

    Module [VmData]: one [xsync.Map] from pod to virtual machine; every operation is
    one atomic step on the map.  Module [ContainerData]: a map from pod to a pointer
    to an inner map; an operation that stores first finds or makes the inner map and
    then writes through the pointer, so it is two steps and another goroutine can run
    between them.  [ContainerData.view] is the map of maps that the store stands for,
    and the operations are shown to implement it when they run alone. *)
From Stdlib Require Import ZArith Lia.
From Stdlib Require Import String.
From stdpp Require Import base list gmap fin_maps strings.
From S2P Require Import Prelude GoStrings GoErrors Prog Resource.
Local Open Scope string_scope.
Local Open Scope go_scope.

(** Contexts and connections are known by name. *)
Definition Ctx := nat.
Definition ConnRef := nat.

Module VmData.

(* src/internal/data/vm/vminfo.go : VirtualMachineInfo *)
Record VirtualMachineInfo := {
  Ref : string;
  Resource : Res.MacOSVirtualMachine;
  DownloadCancelFunc : option Ctx;
  PermitAcquired : bool;
  SSHConn : option ConnRef
}.

Abbreviation VirtualMachineData := (gmap NamespacedName VirtualMachineInfo).

(* src/internal/data/vm/vmdata.go : 8-18 NewVirtualMachineData *)
Definition NewVirtualMachineData : VirtualMachineData := ∅.

Definition key (ns name : string) : NamespacedName := {| Namespace := ns; Name := name |}.

(* src/internal/data/vm/vmdata.go : VirtualMachineData.Load *)
Definition Load (d : VirtualMachineData) (ns name : string) : option VirtualMachineInfo :=
  d !! key ns name.

(** The callback may also report something to its caller (a captured variable): the
    [B] of its result. *)
(* src/internal/data/vm/vmdata.go : VirtualMachineData.Update *)
Definition Update {B} (d : VirtualMachineData) (ns name : string)
    (updateFunc : VirtualMachineInfo -> VirtualMachineInfo * B) : option (VirtualMachineInfo * B) * VirtualMachineData :=
  match d !! key ns name with
  | None => (None, d)
  | Some old => let r := updateFunc old in (Some r, <[key ns name := fst r]> d)
  end.

(* src/internal/data/vm/vmdata.go : VirtualMachineData.LoadOrStore *)
Definition LoadOrStore (d : VirtualMachineData) (ns name : string) (info : VirtualMachineInfo)
  : VirtualMachineInfo * bool * VirtualMachineData :=
  match d !! key ns name with
  | Some old => (old, true, d)
  | None => (info, false, <[key ns name := info]> d)
  end.

(* src/internal/data/vm/vmdata.go : VirtualMachineData.Delete *)
Definition Delete (d : VirtualMachineData) (ns name : string) : VirtualMachineData :=
  delete (key ns name) d.

(* src/internal/data/vm/vmdata.go : VirtualMachineData.All *)
Definition All (d : VirtualMachineData) : gmap NamespacedName VirtualMachineInfo := d.

Lemma Update_other {B} d ns name (f : _ -> _ * B) k :
  k <> key ns name -> snd (Update d ns name f) !! k = d !! k.
Proof.
  intros H. unfold Update. destruct (d !! key ns name); [|done]. simpl.
  by apply lookup_insert_ne.
Qed.

(** [Update] never creates an entry. *)
Lemma Update_dom {B} d ns name (f : _ -> _ * B) : dom (snd (Update d ns name f)) = dom d.
Proof.
  unfold Update. destruct (d !! key ns name) eqn:E; [|done]. simpl.
  apply elem_of_dom_2 in E. etrans; [apply dom_insert_L|]. by apply subseteq_union_1_L, singleton_subseteq_l.
Qed.

Lemma LoadOrStore_loaded d ns name info :
  snd (fst (LoadOrStore d ns name info)) = is_some (Load d ns name).
Proof. unfold LoadOrStore, Load. by destruct (d !! key ns name). Qed.

End VmData.

Module ContainerData.

(* src/internal/data/container/containerinfo.go : ContainerInfo *)
Record ContainerInfo := { ID : string; CError : option error }.

#[global] Instance ContainerInfo_eq_dec : EqDecision ContainerInfo.
Proof. solve_decision. Defined.

Definition noInfo : ContainerInfo := {| ID := ""; CError := None |}.

(* src/internal/data/container/containerinfo.go : ContainerInfo.WithID *)
Definition WithID (i : ContainerInfo) (id : string) : ContainerInfo := {| ID := id; CError := CError i |}.

(* src/internal/data/container/containerinfo.go : ContainerInfo.WithError *)
Definition WithError (i : ContainerInfo) (e : option error) : ContainerInfo := {| ID := ID i; CError := e |}.

Abbreviation inner := (gmap string ContainerInfo).
Definition loc := nat.

(* src/internal/data/container/containerdata.go : ContainerData *)
Record ContainerData := {
  outer : gmap NamespacedName loc;
  heap : gmap loc inner;
  next : loc
}.

(* src/internal/data/container/containerdata.go : NewContainerData *)
Definition NewContainerData : ContainerData := {| outer := ∅; heap := ∅; next := 0 |}.

(** The atomic steps: the operations of the outer and the inner [xsync.Map]. *)
Inductive cdE : Type -> Type :=
| OLoad (k : NamespacedName) : cdE (option loc)
| OLoadOrCompute (k : NamespacedName) : cdE loc
| OLoadAndDelete (k : NamespacedName) : cdE (option loc)
| ORange : cdE (list (NamespacedName * loc))
| ILoad (l : loc) (c : string) : cdE (option ContainerInfo)
| ILoadOrStore (l : loc) (c : string) (i : ContainerInfo) : cdE (ContainerInfo * bool)
| IStore (l : loc) (c : string) (i : ContainerInfo) : cdE unit
| IRange (l : loc) : cdE inner.

Definition get (s : ContainerData) (l : loc) : inner := default ∅ (heap s !! l).

Definition put (s : ContainerData) (l : loc) (m : inner) : ContainerData :=
  {| outer := outer s; heap := <[l := m]> (heap s); next := next s |}.

Definition alloc (s : ContainerData) (k : NamespacedName) : ContainerData :=
  {| outer := <[k := next s]> (outer s); heap := <[next s := ∅]> (heap s); next := S (next s) |}.

Definition unlink (s : ContainerData) (k : NamespacedName) : ContainerData :=
  {| outer := delete k (outer s); heap := heap s; next := next s |}.

Definition step {X} (e : cdE X) (s : ContainerData) : X * ContainerData :=
  match e in cdE X return X * ContainerData with
  | OLoad k => (outer s !! k, s)
  | OLoadOrCompute k =>
      match outer s !! k with Some l => (l, s) | None => (next s, alloc s k) end
  | OLoadAndDelete k => (outer s !! k, unlink s k)
  | ORange => (map_to_list (outer s), s)
  | ILoad l c => (get s l !! c, s)
  | ILoadOrStore l c i =>
      match get s l !! c with
      | Some old => ((old, true), s)
      | None => ((i, false), put s l (<[c := i]> (get s l)))
      end
  | IStore l c i => (tt, put s l (<[c := i]> (get s l)))
  | IRange l => (get s l, s)
  end.

Definition cd_handler : handler cdE ContainerData := fun X e s => Some (step e s).

Definition key := VmData.key.

(* src/internal/data/container/containerdata.go : ContainerData.Load *)
Definition Load (ns name c : string) : prog cdE (ContainerInfo * bool) :=
  o <- perform (OLoad (key ns name)) ;;
  match o with
  | None => Ret (noInfo, false)
  | Some l => i <- perform (ILoad l c) ;; Ret (default noInfo i, is_some i)
  end.

(* src/internal/data/container/containerdata.go : ContainerData.LoadOrStore *)
Definition LoadOrStore (ns name c : string) (i : ContainerInfo) : prog cdE (ContainerInfo * bool) :=
  l <- perform (OLoadOrCompute (key ns name)) ;; perform (ILoadOrStore l c i).

(* src/internal/data/container/containerdata.go : ContainerData.Store *)
Definition Store (ns name c : string) (i : ContainerInfo) : prog cdE unit :=
  l <- perform (OLoadOrCompute (key ns name)) ;; perform (IStore l c i).

(* src/internal/data/container/containerdata.go : ContainerData.LoadAndDelete *)
Definition LoadAndDelete (ns name : string) : prog cdE (option inner) :=
  o <- perform (OLoadAndDelete (key ns name)) ;;
  match o with None => Ret None | Some l => m <- perform (IRange l) ;; Ret (Some m) end.

(* src/internal/data/container/containerdata.go : ContainerData.LoadAll *)
Definition LoadAll (ns name : string) : prog cdE (option inner) :=
  o <- perform (OLoad (key ns name)) ;;
  match o with None => Ret None | Some l => m <- perform (IRange l) ;; Ret (Some m) end.

(** The body of [All]'s outer [Range]. *)
Definition collect (acc : gmap NamespacedName inner) (kl : NamespacedName * loc)
  : prog cdE (gmap NamespacedName inner) :=
  m <- perform (IRange kl.2) ;; Ret (<[kl.1 := m]> acc).

(* src/internal/data/container/containerdata.go : ContainerData.All *)
Definition All : prog cdE (gmap NamespacedName inner) :=
  kls <- perform ORange ;;
  foldM collect kls ∅.

(** ** The map of maps behind the pointers *)

Definition view (s : ContainerData) : gmap NamespacedName inner := get s <$> outer s.

(** No two pods share an inner map, and no inner map is made twice. *)
Definition wf (s : ContainerData) : Prop :=
  (forall k1 k2 l, outer s !! k1 = Some l -> outer s !! k2 = Some l -> k1 = k2) /\
  (forall k l, outer s !! k = Some l -> l < next s)%nat.

Lemma wf_new : wf NewContainerData.
Proof. split; intros *; simpl; rewrite lookup_empty; done. Qed.

Lemma view_lookup s k : view s !! k = get s <$> outer s !! k.
Proof. apply lookup_fmap. Qed.

Lemma wf_alloc s k : wf s -> outer s !! k = None -> wf (alloc s k).
Proof.
  intros [Hi Hn] Hk. split; simpl.
  - intros k1 k2 l. rewrite !lookup_insert_Some.
    intros [[<- <-]|[H1 E1]] [[<- H2]|[H2 E2]]; try done; [| |eauto].
    + apply Hn in E2. lia.
    + subst. apply Hn in E1. lia.
  - intros k1 l. rewrite lookup_insert_Some. intros [[_ <-]|[_ E]]; [lia|]. apply Hn in E. lia.
Qed.

Lemma view_alloc s k : wf s -> outer s !! k = None -> view (alloc s k) = <[k := ∅]> (view s).
Proof.
  intros [Hi Hn] Hk. apply map_eq. intros k'. rewrite view_lookup. simpl.
  destruct (decide (k = k')) as [<-|Hne].
  - rewrite !lookup_insert_eq. simpl. unfold get. simpl. by rewrite lookup_insert_eq.
  - rewrite !lookup_insert_ne, view_lookup by done.
    destruct (outer s !! k') as [l|] eqn:E; [|done]. simpl. f_equal. unfold get. simpl.
    rewrite lookup_insert_ne; [done|]. apply Hn in E. lia.
Qed.

Lemma wf_put s l m : wf s -> wf (put s l m).
Proof. done. Qed.

Lemma view_put s k l m :
  wf s -> outer s !! k = Some l -> view (put s l m) = <[k := m]> (view s).
Proof.
  intros [Hi Hn] Hk. apply map_eq. intros k'. rewrite view_lookup. simpl.
  destruct (decide (k = k')) as [<-|Hne].
  - rewrite Hk, lookup_insert_eq. simpl. unfold get. simpl. by rewrite lookup_insert_eq.
  - rewrite lookup_insert_ne, view_lookup by done.
    destruct (outer s !! k') as [l'|] eqn:E; [|done]. simpl. f_equal. unfold get. simpl.
    rewrite lookup_insert_ne; [done|]. intros <-. by apply Hne, (Hi k k' l).
Qed.

Lemma wf_unlink s k : wf s -> wf (unlink s k).
Proof.
  intros [Hi Hn]. split; simpl.
  - intros k1 k2 l. rewrite !lookup_delete_Some. intros [_ ?] [_ ?]. eauto.
  - intros k1 l. rewrite lookup_delete_Some. intros [_ ?]. eauto.
Qed.

Lemma view_unlink s k : view (unlink s k) = delete k (view s).
Proof. unfold view. simpl. by rewrite fmap_delete. Qed.

(** The pod's inner map after [LoadOrCompute]. *)
Lemma compute_spec s k :
  wf s -> exists l s', step (OLoadOrCompute k) s = (l, s') /\ wf s' /\ outer s' !! k = Some l /\
    get s' l = default ∅ (view s !! k) /\ view s' = <[k := default ∅ (view s !! k)]> (view s).
Proof.
  intros Hwf. simpl. rewrite view_lookup. destruct (outer s !! k) as [l|] eqn:E.
  - exists l, s. split_and!; try done. simpl.
    symmetry. apply insert_id. by rewrite view_lookup, E.
  - exists (next s), (alloc s k). split_and!; [done | by apply wf_alloc | | | by apply view_alloc].
    + simpl. by rewrite lookup_insert_eq.
    + unfold get. simpl. by rewrite lookup_insert_eq.
Qed.

Lemma All_loop s kls acc :
  run cd_handler (foldM collect kls acc) s
  = Some (foldl (fun acc kl => <[kl.1 := get s kl.2]> acc) acc kls, s).
Proof.
  revert acc. induction kls as [|[k l] kls IH]; intros acc; [done|].
  cbn [foldM foldl]. rewrite run_bind. simpl. apply IH.
Qed.

Lemma foldl_insert_lookup (f : loc -> inner) kls (acc : gmap NamespacedName inner) k :
  NoDup (map fst kls) ->
  foldl (fun acc kl => <[kl.1 := f kl.2]> acc) acc kls !! k =
  match (list_to_map kls : gmap NamespacedName loc) !! k with Some l => Some (f l) | None => acc !! k end.
Proof.
  revert acc. induction kls as [|[k' l] kls IH]; intros acc Hnd; simpl; [by rewrite lookup_empty|].
  inversion_clear Hnd as [|? ? Hni Hnd'].
  rewrite IH by done. destruct (decide (k = k')) as [->|Hne].
  - rewrite lookup_insert_eq. rewrite not_elem_of_list_to_map_1 by done. by rewrite lookup_insert_eq.
  - rewrite lookup_insert_ne by done. by rewrite lookup_insert_ne by done.
Qed.

Section Specs.
Variables (s : ContainerData) (ns name c : string) (i : ContainerInfo).
Hypothesis Hwf : wf s.
Let k := key ns name.
Let m := default ∅ (view s !! k).

Lemma Store_spec :
  exists s', run cd_handler (Store ns name c i) s = Some (tt, s') /\ wf s' /\
    view s' = <[k := <[c := i]> m]> (view s).
Proof.
  destruct (compute_spec s k Hwf) as (l & s1 & Hst & Hwf1 & Ho & Hg & Hv).
  exists (put s1 l (<[c := i]> m)). split_and!; [|by apply wf_put |].
  - unfold Store. cbn [run bind perform cd_handler]. unfold cd_handler. fold k. rewrite Hst. simpl. by rewrite Hg.
  - rewrite (view_put s1 k l) by done. rewrite Hv. fold m. by rewrite insert_insert_eq.
Qed.

Lemma LoadOrStore_spec :
  exists s', run cd_handler (LoadOrStore ns name c i) s =
       Some ((default i (m !! c), is_some (m !! c)), s') /\ wf s' /\
    view s' = <[k := <[c := default i (m !! c)]> m]> (view s).
Proof.
  destruct (compute_spec s k Hwf) as (l & s1 & Hst & Hwf1 & Ho & Hg & Hv).
  unfold LoadOrStore. cbn [run bind perform]. unfold cd_handler. fold k. rewrite Hst. simpl.
  rewrite Hg. fold m. destruct (m !! c) as [old|] eqn:E; simpl.
  - exists s1. split_and!; [done | done |]. rewrite Hv. fold m. by rewrite (insert_id m c).
  - exists (put s1 l (<[c := i]> m)). split_and!; [done | by apply wf_put |].
    rewrite (view_put s1 k l) by done. rewrite Hv. fold m. by rewrite insert_insert_eq.
Qed.

Lemma LoadAndDelete_spec :
  exists s', run cd_handler (LoadAndDelete ns name) s = Some (view s !! k, s') /\ wf s' /\
    view s' = delete k (view s).
Proof.
  exists (unlink s k). split_and!; [|by apply wf_unlink | apply view_unlink].
  unfold LoadAndDelete. simpl. fold k. rewrite view_lookup. by destruct (outer s !! k).
Qed.

Lemma LoadAll_spec : run cd_handler (LoadAll ns name) s = Some (view s !! k, s).
Proof. unfold LoadAll. simpl. fold k. rewrite view_lookup. by destruct (outer s !! k). Qed.

Lemma Load_spec : run cd_handler (Load ns name c) s = Some ((default noInfo (m !! c), is_some (m !! c)), s).
Proof.
  unfold Load. simpl. fold k. subst m. rewrite view_lookup.
  destruct (outer s !! k) as [l'|]; simpl; [done | by rewrite lookup_empty].
Qed.

Lemma All_spec : run cd_handler All s = Some (view s, s).
Proof.
  unfold All. cbn [bind perform run]. unfold cd_handler at 1. cbn [step].
  rewrite All_loop. do 2 f_equal. apply map_eq. intros k'.
  rewrite foldl_insert_lookup by apply NoDup_fst_map_to_list.
  rewrite list_to_map_to_list, view_lookup, lookup_empty. by destruct (outer s !! k').
Qed.

End Specs.

(** C23: run alone on a well-formed store, each operation returns, keeps the store
    well formed and does to the map of maps what its comment says: the two-step
    stores create the pod's map when it is missing and set one container,
    [LoadOrStore] keeps an existing container, [LoadAndDelete] returns the whole map
    of the pod and removes it, and the readers change nothing. *)
Theorem container_store_refines s ns name c i :
  wf s ->
  let k := key ns name in
  let m := default ∅ (view s !! k) in
  (exists s', run cd_handler (Store ns name c i) s = Some (tt, s') /\ wf s' /\
     view s' = <[k := <[c := i]> m]> (view s)) /\
  (exists s', run cd_handler (LoadOrStore ns name c i) s =
       Some ((default i (m !! c), is_some (m !! c)), s') /\ wf s' /\
     view s' = <[k := <[c := default i (m !! c)]> m]> (view s)) /\
  (exists s', run cd_handler (LoadAndDelete ns name) s = Some (view s !! k, s') /\ wf s' /\
     view s' = delete k (view s)) /\
  run cd_handler (LoadAll ns name) s = Some (view s !! k, s) /\
  run cd_handler (Load ns name c) s = Some ((default noInfo (m !! c), is_some (m !! c)), s) /\
  run cd_handler All s = Some (view s, s).
Proof.
  intros Hwf k m. split_and!;
    [by apply Store_spec | by apply LoadOrStore_spec | by apply LoadAndDelete_spec | apply LoadAll_spec
    | apply Load_spec | apply All_spec].
Qed.

Lemma container_store_refines_witness :
  exists s, wf s /\ view s !! key "ns" "p" = Some {[ "c" := {| ID := "1"; CError := None |} ]}.
Proof.
  destruct (container_store_refines NewContainerData "ns" "p" "c" {| ID := "1"; CError := None |} wf_new)
    as ((s' & _ & Hwf & Hv) & _).
  exists s'. split; [exact Hwf|]. rewrite Hv, lookup_insert_eq. f_equal.
Defined.

(** Between its two steps a store can lose its pod: the value goes into an inner map
    that nothing points to any more. *)
Example store_lost_to_delete :
  let ps := [Store "ns" "p" "c" {| ID := "1"; CError := None |};
             bind (LoadAndDelete "ns" "p") (fun _ => Ret tt)] in
  match sched cd_handler unit (fun _ _ => []) [0; 1; 1; 0]%nat (ps, NewContainerData) with
  | Some (_, s) => view s !! key "ns" "p" = None
  | None => False
  end.
Proof. vm_compute. reflexivity. Qed.

End ContainerData.
