(* ===== verification/MacOS.v ===== *)
(** * pkg/resourcemanager/macos*.go: the macOS virtual machine client

    [macE] lists the atomic operations of [MacOSClient]: those on its own state (the
    map of virtual machines and the permit channel), and the calls into other
    packages, which an oracle answers.  A goroutine is a [prog macE]; [local] is the
    state part of the handler.  The tickers of the code only make its loops look
    again, so a loop [for { select { case <-ticker.C: ...; case <-ctx.Done(): } }]
    runs as often as [Rounds] says, an arbitrary number, and then ends with the
    context's error ([CtxEnd]). *)
From Stdlib Require Import ZArith Lia.
From Stdlib Require Import Ascii String.
From stdpp Require Import base list gmap strings.
From S2P Require Import Prelude GoStrings GoFormat GoErrors GoTime Prog EnvCfg Utils Resource Event GuestCfg.
From S2P Require Import NodeIO Volumes Stores.
Local Open Scope string_scope.
Local Open Scope go_scope.

Module MacOS.
Import VmData.

(* src/pkg/resourcemanager/macos.go : 28-32 MaxVirtualMachines *)
Definition MaxVirtualMachines : nat := 2.

(* src/pkg/vm/config/platform.go : MacPlatformConfigurationOptions *)
Record MacPlatformConfigurationOptions := {
  BlockStoragePath : string;
  AuxiliaryStoragePath : string;
  HardwareModelData : string;
  MachineIdentifierData : string
}.

(* src/pkg/resourcemanager/macos.go : VirtualMachineParams *)
Record VirtualMachineParams := {
  p_UID : string;
  p_Image : string;
  p_Namespace : string;
  p_Name : string;
  p_ContainerName : string;
  p_CPU : Z;
  p_MemorySize : Z;
  p_Mounts : list Volumes.Mount;
  p_Env : list EnvVar;
  p_PostStartAction : option Res.ExecAction;
  p_IgnoreImageCache : bool;
  p_RegistryCreds : Creds.RegistryCredentials
}.

Definition p_key (p : VirtualMachineParams) : NamespacedName := key (p_Namespace p) (p_Name p).

(** How a context ended. *)
Inductive CtxEnd := CtxCanceled | CtxDeadline.
Definition ctxErr (c : CtxEnd) : error :=
  match c with CtxCanceled => errCanceled | CtxDeadline => errDeadline end.

Definition SessRef := nat.
Definition PlatformRef := nat.
Definition ConfigRef := nat.

Inductive macE : Type -> Type :=
(* c.vms *)
| VmsLoad (k : NamespacedName) : macE (option VirtualMachineInfo)
| VmsUpdate (k : NamespacedName) (f : VirtualMachineInfo -> VirtualMachineInfo * bool) : macE (option bool)
| VmsLoadOrStore (k : NamespacedName) (i : VirtualMachineInfo) : macE bool
| VmsDelete (k : NamespacedName) : macE unit
| VmsAll : macE (gmap NamespacedName VirtualMachineInfo)
(* c.vmPermits *)
| SelectPermit (ctx : Ctx) : macE (option CtxEnd)        (* select: send, or ctx.Done *)
| RecvPermit : macE unit                                 (* <-c.vmPermits *)
| TryRecvPermit : macE bool                              (* select with default *)
(* contexts, time *)
| WithCancel (ctx : Ctx) : macE Ctx
| WithTimeout (ctx : Ctx) (d : Z) : macE Ctx
| Cancel (ctx : Ctx) : macE unit
| CtxErr (ctx : Ctx) : macE (option CtxEnd)
| Rounds (ctx : Ctx) : macE nat
| CtxDone (ctx : Ctx) : macE CtxEnd
| Now : macE Time.t
(* other components *)
| Record_ (ev : Event) : macE unit
| Download (ctx : Ctx) (ref : string) (ignoreCache : bool) (creds : Creds.RegistryCredentials)
  : macE ((MacPlatformConfigurationOptions * string) + error)
| NewPlatformConfiguration (cfg : MacPlatformConfigurationOptions) (overlay : bool) (uid : string)
  : macE (PlatformRef + error)
| NewVirtualMachineConfiguration (pc : PlatformRef) (cpu mem : Z) (iface : string) (mounts : list Volumes.Mount)
  : macE (ConfigRef + error)
| NewVirtualMachineInstance (cfg : ConfigRef) : macE (Res.InstRef + error)
| InstanceStart (i : Res.InstRef) : macE (option error)
| InstanceStop (i : Res.InstRef) : macE (option error)
| InstanceView_ (i : Res.InstRef) : macE Res.InstanceView
| NewConn (ns name : string) : macE ConnRef
| ConnClose (c : ConnRef) : macE (option error)
| ConnNewSession (c : ConnRef) (ctx : Ctx) : macE (SessRef + error)
| SessStdinPipe (s : SessRef) : macE (option error)
| SessAfterFunc (s : SessRef) (ctx : Ctx) : macE unit    (* context.AfterFunc: signal, then close *)
| SessStopReap (s : SessRef) : macE unit
| SessClose (s : SessRef) : macE unit
| SessOp (s : SessRef) {X : Type} (e : Session.sessE X) : macE X.

(* src/pkg/resourcemanager/macos.go : MacOSClient *)
Record MacOSClient := {
  vms : VirtualMachineData;
  vmPermits : nat;               (* the number of tokens in the channel *)
  live : gset Res.InstRef        (* for the theorems: started, and no stop has succeeded since *)
}.

(* src/pkg/resourcemanager/macos.go : NewMacOSClient *)
Definition NewMacOSClient : MacOSClient := {| vms := NewVirtualMachineData; vmPermits := 0; live := ∅ |}.

Definition set_vms (v : VirtualMachineData) (s : MacOSClient) : MacOSClient :=
  {| vms := v; vmPermits := vmPermits s; live := live s |}.
Definition set_permits (n : nat) (s : MacOSClient) : MacOSClient :=
  {| vms := vms s; vmPermits := n; live := live s |}.
Definition set_live (l : gset Res.InstRef) (s : MacOSClient) : MacOSClient :=
  {| vms := vms s; vmPermits := vmPermits s; live := l |}.

(** A stop that answers with an error may leave the machine running. *)
Definition afterStop (i : Res.InstRef) (r : option error) (l : gset Res.InstRef) : gset Res.InstRef :=
  match r with None => l ∖ {[i]} | Some _ => l end.

Definition local : local_handler macE MacOSClient := fun X e =>
  match e in macE X return X -> MacOSClient -> option (X * MacOSClient) with
  | VmsLoad k => fun _ s => Some (vms s !! k, s)
  | VmsUpdate k f => fun _ s =>
      let '(r, d) := Update (vms s) (Namespace k) (Name k) f in Some (snd <$> r, set_vms d s)
  | VmsLoadOrStore k i => fun _ s =>
      let '(_, loaded, d) := LoadOrStore (vms s) (Namespace k) (Name k) i in Some (loaded, set_vms d s)
  | VmsDelete k => fun _ s => Some (tt, set_vms (Delete (vms s) (Namespace k) (Name k)) s)
  | VmsAll => fun _ s => Some (All (vms s), s)
  | SelectPermit _ => fun x s =>
      match x with
      | Some e => Some (Some e, s)
      | None => if (vmPermits s <? MaxVirtualMachines)%nat
                then Some (None, set_permits (S (vmPermits s)) s) else None
      end
  | RecvPermit => fun _ s => match vmPermits s with O => None | S n => Some (tt, set_permits n s) end
  | TryRecvPermit => fun _ s =>
      match vmPermits s with O => Some (false, s) | S n => Some (true, set_permits n s) end
  | InstanceStart i => fun x s =>
      Some (x, match x with None => set_live ({[i]} ∪ live s) s | Some _ => s end)
  | InstanceStop i => fun x s => Some (x, set_live (afterStop i x (live s)) s)
  | _ => fun x s => Some (x, s)
  end.

(** [c.vms.Update(ns, name, func(i) { ...; return i })] where the result is not used. *)
Definition vmsModify (k : NamespacedName) (f : VirtualMachineInfo -> VirtualMachineInfo) : prog macE (option bool) :=
  perform (VmsUpdate k (fun i => (f i, false))).

(** Field updates of an entry. *)
Definition withCancelFunc (c : option Ctx) (i : VirtualMachineInfo) : VirtualMachineInfo :=
  {| Ref := Ref i; Resource := Resource i; DownloadCancelFunc := c; PermitAcquired := PermitAcquired i; SSHConn := SSHConn i |}.
Definition withResource (r : Res.MacOSVirtualMachine) (i : VirtualMachineInfo) : VirtualMachineInfo :=
  {| Ref := Ref i; Resource := r; DownloadCancelFunc := DownloadCancelFunc i; PermitAcquired := PermitAcquired i; SSHConn := SSHConn i |}.
Definition withPermit (b : bool) (i : VirtualMachineInfo) : VirtualMachineInfo :=
  {| Ref := Ref i; Resource := Resource i; DownloadCancelFunc := DownloadCancelFunc i; PermitAcquired := b; SSHConn := SSHConn i |}.

(** ** macos_permits.go *)

(* src/pkg/resourcemanager/macos_permits.go : permitGuard *)
Record permitGuard := { g_key : NamespacedName; g_committed : bool; g_released : bool }.

(* src/pkg/resourcemanager/macos_permits.go : permitGuard.Commit *)
Definition Commit (g : permitGuard) : permitGuard :=
  {| g_key := g_key g; g_committed := true; g_released := g_released g |}.

(** The two callbacks, with the captured variable as second component. *)
Definition markCallback (i : VirtualMachineInfo) : VirtualMachineInfo * bool :=
  if PermitAcquired i then (i, false) else (withPermit true i, true).
Definition releaseCallback (i : VirtualMachineInfo) : VirtualMachineInfo * bool :=
  if PermitAcquired i then (withPermit false i, true) else (i, false).

(* src/pkg/resourcemanager/macos_permits.go : MacOSClient.markPermitAcquired *)
Definition markPermitAcquired (k : NamespacedName) : prog macE (option error) :=
  r <- perform (VmsUpdate k markCallback) ;;
  Ret (match r with
       | None => Some (errNotFound "virtual machine info expired")
       | Some false => Some (AsInvalidInput (errMsg "virtual machine permit already acquired"))
       | Some true => None
       end).

(* src/pkg/resourcemanager/macos_permits.go : MacOSClient.releasePermit *)
Definition releasePermit (k : NamespacedName) : prog macE unit :=
  r <- perform (VmsUpdate k releaseCallback) ;;
  match r with
  | Some true => perform RecvPermit
  | Some false => Ret tt
  | None => perform TryRecvPermit ;; Ret tt
  end.

(* src/pkg/resourcemanager/macos_permits.go : permitGuard.Release *)
Definition Release (g : permitGuard) : prog macE permitGuard :=
  let g' := {| g_key := g_key g; g_committed := g_committed g; g_released := true |} in
  if g_released g then Ret g
  else if g_committed g then Ret g'
  else releasePermit (g_key g) ;; Ret g'.

(* src/pkg/resourcemanager/macos_permits.go : MacOSClient.acquirePermit *)
Definition acquirePermit (ctx : Ctx) (k : NamespacedName) : prog macE (permitGuard + error) :=
  r <- perform (SelectPermit ctx) ;;
  match r with
  | Some e => Ret (inr (ctxErr e))
  | None =>
      e <- markPermitAcquired k ;;
      match e with
      | Some e => perform RecvPermit ;; Ret (inr e)
      | None => Ret (inl {| g_key := k; g_committed := false; g_released := false |})
      end
  end.

(** ** macos_exec.go *)

Section Client.
Context `{PrintTable} `{Errdefs}.
(** The process environment, and the bridged interface of the node. *)
Variables (Getenv : EnvCfg.environ) (networkInterfaceIdentifier : string).

(* src/pkg/resourcemanager/macos.go : MacOSClient.getVirtualMachineInfo *)
Definition getVirtualMachineInfo (ns name : string) : prog macE (VirtualMachineInfo + error) :=
  r <- perform (VmsLoad (key ns name)) ;;
  Ret (match r with
       | None => inr (errNotFound "virtual machine not found")
       | Some i => inl i
       end).

Definition sess (s : SessRef) {A} (p : prog Session.sessE A) : prog macE A :=
  lift (fun X e => SessOp s e) p.

(* src/pkg/resourcemanager/macos_exec.go : MacOSClient.ExecInVirtualMachine *)
Definition ExecInVirtualMachine (ctx : Ctx) (ns name : string) (cmd : list string) (attach : Node.ExecIO)
  : prog macE (option error) :=
  r <- getVirtualMachineInfo ns name ;;
  match r with
  | inr e => Ret (Some e)
  | inl info =>
      match SSHConn info with
      | None => Ret (Some (InvalidInput ("ssh connection not initialized for " ++ ns ++ "/" ++ name)))
      | Some conn =>
          r <- perform (ConnNewSession conn ctx) ;;
          match r with
          | inr e => Ret (Some e)
          | inl s =>
              perform (SessAfterFunc s ctx) ;;
              err <- (r <- perform (SessStdinPipe s) ;;
                      match r with
                      | Some e => Ret (Some e)
                      | None =>
                          r <- sess s (Session.SetupSessionIO Getenv attach) ;;
                          err <- match r with
                                 | Some e => Ret (Some (Errorf "failed to setup session IO" e))
                                 | None =>
                                     r <- sess s (Session.ExecuteCommand attach (Res.env (Resource info)) cmd) ;;
                                     Ret (ExecError.AsCodeExitError r)
                                 end ;;
                          perform (SessOp s Session.CloseStdin) ;;      (* deferred *)
                          Ret err
                      end) ;;
              perform (SessStopReap s) ;;                               (* deferred *)
              perform (SessClose s) ;;                                  (* deferred *)
              Ret err
          end
      end
  end.

(** ** macos_poststart.go *)

(* src/pkg/resourcemanager/macos_poststart.go : 21-23 postStartRetryInterval *)
Definition postStartRetryInterval : Z := 1 * Time.Second.

(* src/pkg/resourcemanager/macos_poststart.go : 25-30 sshProbeExecBudget *)
Definition sshProbeExecBudget : Z := 10 * Time.Second.

(* src/pkg/resourcemanager/macos_poststart.go : isSSHAuthFailure *)
Definition isSSHAuthFailure (o : option error) : bool :=
  match o with None => false | Some e => Str.contains (Error e) "unable to authenticate" end.

(** The errors that end the readiness loop. *)
Definition terminal (e : error) : bool := IsInvalidInput (Some e) || isSSHAuthFailure (Some e).

(** [wait.PollUntilContextTimeout]: the condition runs [n] times at most, and then
    the library returns the error of its context.  The result is the library's error
    and the last error of the probe. *)
(* src/pkg/resourcemanager/macos_poststart.go : 129-154 pollSSHReady *)
Fixpoint pollLoop (n : nat) (pctx : Ctx) (attemptTimeout : Z) (probe : Ctx -> prog macE (option error))
    (lastErr : option error) : prog macE (option error * option error) :=
  match n with
  | O => e <- perform (CtxDone pctx) ;; Ret (Some (ctxErr e), lastErr)
  | S n =>
      actx <- perform (WithTimeout pctx attemptTimeout) ;;
      lastErr <- probe actx ;;
      perform (Cancel actx) ;;
      match lastErr with
      | None => Ret (None, None)
      | Some e =>
          if terminal e then Ret (Some e, Some e)
          else pollLoop n pctx attemptTimeout probe (Some e)
      end
  end.

(** How the loop's error and the last probe error become the result. *)
Definition pollResult (overallTimeout : Z) (err lastErr : option error) : option error :=
  let err := match err with
             | Some e => if isErr (Some e) errDeadline
                         then Some (Errorf ("SSH readiness wait expired after " ++ Time.Duration_String overallTimeout) e)
                         else Some e
             | None => None
             end in
  match err, lastErr with
  | Some e, Some l => if isErr (Some e) l then Some e else errors_Join [Some l; Some e]
  | _, _ => err
  end.

(* src/pkg/resourcemanager/macos_poststart.go : pollSSHReady *)
Definition pollSSHReady (ctx : Ctx) (retryInterval attemptTimeout overallTimeout : Z)
    (probe : Ctx -> prog macE (option error)) : prog macE (option error) :=
  pctx <- perform (WithTimeout ctx overallTimeout) ;;
  n <- perform (Rounds pctx) ;;
  r <- pollLoop n pctx attemptTimeout probe None ;;
  Ret (pollResult overallTimeout (fst r) (snd r)).

(* src/pkg/resourcemanager/macos_poststart.go : MacOSClient.waitForVirtualMachineSSHReady *)
Definition waitForVirtualMachineSSHReady (ctx : Ctx) (ns name : string) : prog macE (option error) :=
  let probeCmd := GuestCfg.BuildPostStartProbeCommand ns name in
  let attemptTimeout := wrap_i64 (EnvCfg.SSHDialTimeout Getenv + sshProbeExecBudget) in
  pollSSHReady ctx postStartRetryInterval attemptTimeout (EnvCfg.SSHReadinessTimeout Getenv)
    (fun attemptCtx => ExecInVirtualMachine attemptCtx ns name probeCmd Node.DiscardingExecIO).

(* src/pkg/resourcemanager/macos_poststart.go : MacOSClient.execPostStartAction *)
Definition execPostStartAction (ctx : Ctx) (ns name : string) (action : Res.ExecAction) : prog macE (option error) :=
  err <- waitForVirtualMachineSSHReady ctx ns name ;;
  match err with
  | Some e => Ret (Some e)
  | None =>
      execCtx <- perform (WithTimeout ctx (Res.TimeoutDuration action)) ;;
      err <- ExecInVirtualMachine execCtx ns name (Res.Command action) Node.DiscardingExecIO ;;
      ce <- perform (CtxErr execCtx) ;;
      perform (Cancel execCtx) ;;                                   (* deferred *)
      Ret (match ce with Some c => Some (ctxErr c) | None => err end)
  end.

(** ** macos.go: creation *)

(* src/pkg/resourcemanager/macos.go : setupVM *)
Definition setupVM (cfg : MacPlatformConfigurationOptions) (uid : string) (cpu memorySize : Z) (iface : string)
    (mounts : list Volumes.Mount) : prog macE (Res.InstRef + error) :=
  r <- perform (NewPlatformConfiguration cfg true uid) ;;
  match r with
  | inr e => Ret (inr (Errorf "failed to create platform configuration" e))
  | inl pc =>
      r <- perform (NewVirtualMachineConfiguration pc cpu memorySize iface mounts) ;;
      match r with
      | inr e => Ret (inr (Errorf "failed to create virtual machine configuration" e))
      | inl vc =>
          r <- perform (NewVirtualMachineInstance vc) ;;
          Ret (match r with
               | inr e => inr (Errorf "failed to create virtual machine instance" e)
               | inl i => inl i
               end)
      end
  end.

(* src/pkg/resourcemanager/macos.go : MacOSClient.createVirtualMachineInstance *)
Definition createVirtualMachineInstance (cfg : MacPlatformConfigurationOptions) (params : VirtualMachineParams)
  : prog macE (Res.InstRef + error) :=
  r <- setupVM cfg (p_UID params) (p_CPU params) (p_MemorySize params) networkInterfaceIdentifier (p_Mounts params) ;;
  match r with
  | inr e => perform (Record_ (FailedToCreateContainer (p_ContainerName params) e)) ;; Ret (inr e)
  | inl vm =>
      vmsModify (p_key params) (fun i => withResource (Res.SetInstance (Resource i) vm) i) ;;
      perform (Record_ (CreatedContainer (p_ContainerName params))) ;;
      Ret (inl vm)
  end.

(* src/pkg/resourcemanager/macos.go : MacOSClient.finalizeVirtualMachineInfo *)
Definition finalizeVirtualMachineInfo (params : VirtualMachineParams) (err : option error) : prog macE unit :=
  vmsModify (p_key params) (fun i =>
    let i := withCancelFunc None i in
    match err with
    | Some e => withResource (Res.SetError (Resource i) (Some e)) i
    | None => i
    end) ;;
  Ret tt.

(** [if !errors.Is(err, context.Canceled) { ...event... }] *)
Definition unlessCanceled (e : error) (ev : Event) : prog macE unit :=
  if errors_Is e errCanceled then Ret tt else perform (Record_ ev).

(** The record of success: [i.Resource.SetPostStartFinishedAt(time.Now())]. *)
Definition recordPostStart (params : VirtualMachineParams) : prog macE unit :=
  t <- perform Now ;;
  vmsModify (p_key params) (fun i => withResource (Res.SetPostStartFinishedAt (Resource i) t) i) ;;
  Ret tt.

(** The post-start part of a creation: the probe alone, or the probe and the hook. *)
Definition postStart (ctx : Ctx) (params : VirtualMachineParams) : prog macE (option error) :=
  let c := p_ContainerName params in
  match p_PostStartAction params with
  | None =>
      err <- waitForVirtualMachineSSHReady ctx (p_Namespace params) (p_Name params) ;;
      match err with
      | Some e => unlessCanceled e (FailedPostStartProbe c e) ;; Ret (Some e)
      | None => recordPostStart params ;; Ret None
      end
  | Some action =>
      err <- execPostStartAction ctx (p_Namespace params) (p_Name params) action ;;
      match err with
      | Some e => unlessCanceled e (FailedPostStartHook c (Res.Command action) e) ;; Ret (Some e)
      | None => recordPostStart params ;; Ret None
      end
  end.

(** What follows once the permit is held, up to the deferred [guard.Release]. *)
Definition startVirtualMachine (ctx : Ctx) (cfg : MacPlatformConfigurationOptions) (params : VirtualMachineParams)
    (guard : permitGuard) : prog macE (option error * permitGuard) :=
  r <- createVirtualMachineInstance cfg params ;;
  match r with
  | inr e => Ret (Some e, guard)
  | inl vm =>
      err <- perform (InstanceStart vm) ;;
      match err with
      | Some e =>
          perform (Record_ (FailedToStartContainer (p_ContainerName params) e)) ;; Ret (Some e, guard)
      | None =>
          let guard := Commit guard in
          perform (Record_ (StartedContainer (p_ContainerName params))) ;;
          err <- postStart ctx params ;;
          Ret (err, guard)
      end
  end.

(** The body of a creation, up to the deferred calls of the whole function. *)
Definition creationBody (ctx downloadCtx : Ctx) (params : VirtualMachineParams) : prog macE (option error) :=
  found <- vmsModify (p_key params) (withCancelFunc (Some downloadCtx)) ;;
  match found with
  | None => Ret None
  | Some _ =>
      r <- perform (Download downloadCtx (p_Image params) (p_IgnoreImageCache params) (p_RegistryCreds params)) ;;
      match r with
      | inr e =>
          unlessCanceled e (BackOffPullImage (p_Image params) (p_ContainerName params) e) ;; Ret (Some e)
      | inl (cfg, duration) =>
          perform (Record_ (PulledImage (p_Image params) (p_ContainerName params) duration)) ;;
          r <- acquirePermit ctx (p_key params) ;;
          match r with
          | inr e => Ret (Some e)
          | inl guard =>
              r <- startVirtualMachine ctx cfg params guard ;;
              Release (snd r) ;;                                    (* deferred *)
              Ret (fst r)
          end
      end
  end.

(* src/pkg/resourcemanager/macos.go : MacOSClient.handleVirtualMachineCreation *)
Definition handleVirtualMachineCreation (ctx : Ctx) (params : VirtualMachineParams) : prog macE unit :=
  downloadCtx <- perform (WithCancel ctx) ;;
  err <- creationBody ctx downloadCtx params ;;
  perform (Cancel downloadCtx) ;;                                   (* deferred *)
  finalizeVirtualMachineInfo params err.                            (* deferred *)

(** The result says whether [go c.handleVirtualMachineCreation(ctx, params)] runs. *)
(* src/pkg/resourcemanager/macos.go : MacOSClient.CreateVirtualMachine *)
Definition CreateVirtualMachine (params : VirtualMachineParams) : prog macE (option error) :=
  conn <- perform (NewConn (p_Namespace params) (p_Name params)) ;;
  loaded <- perform (VmsLoadOrStore (p_key params)
    {| Ref := p_Image params; Resource := Res.NewMacOSVirtualMachine (p_Env params);
       DownloadCancelFunc := None; PermitAcquired := false; SSHConn := Some conn |}) ;;
  if loaded : bool then Ret (Some (AsInvalidInput (errMsg "virtual machine already exists")))
  else perform (Record_ (PullingImage (p_Image params) (p_ContainerName params))) ;; Ret None.

(** The goroutine that [CreateVirtualMachine] starts belongs to its caller's model:
    the creation of one virtual machine from beginning to end. *)
Definition creation (ctx : Ctx) (params : VirtualMachineParams) : prog macE (option error) :=
  err <- CreateVirtualMachine params ;;
  match err with
  | Some e => Ret (Some e)
  | None => handleVirtualMachineCreation ctx params ;; Ret None
  end.

(** ** macos.go: deletion and queries *)

Definition gracefulShutdownCmd : list string :=
  ["sh"; "-c";
   "sudo -n true && ((nohup sudo ipconfig set en0 none; sudo shutdown -h now) > /dev/null 2>&1 & disown)"].

(** The wait for [instance.FinishedAt]: [n] ticks before the context is done. *)
Fixpoint waitFinished (n : nat) (ctx : Ctx) (i : Res.InstRef) : prog macE (option error) :=
  match n with
  | O => e <- perform (CtxDone ctx) ;; Ret (Some (ctxErr e))
  | S n =>
      v <- perform (InstanceView_ i) ;;
      match Res.iv_FinishedAt v with Some _ => Ret None | None => waitFinished n ctx i end
  end.

(* src/pkg/resourcemanager/macos.go : MacOSClient.gracefulShutdown *)
Definition gracefulShutdown (ctx : Ctx) (i : Res.InstRef) (ns name : string) : prog macE (option error) :=
  err <- ExecInVirtualMachine ctx ns name gracefulShutdownCmd Node.DiscardingExecIO ;;
  match err with
  | Some e => Ret (Some e)
  | None => n <- perform (Rounds ctx) ;; waitFinished n ctx i
  end.

(* src/pkg/resourcemanager/macos.go : MacOSClient.stopVirtualMachine *)
Definition stopVirtualMachine (ctx : Ctx) (i : Res.InstRef) (ns name : string) (gracePeriod : Z) : prog macE (option error) :=
  v <- perform (InstanceView_ i) ;;
  if bool_decide (Res.iv_State v = Res.VzRunning) && (0 <? gracePeriod)%Z then
    stopCtx <- perform (WithTimeout ctx (wrap_i64 (gracePeriod * Time.Second))) ;;
    gracefulShutdown stopCtx i ns name ;;
    err <- perform (InstanceStop i) ;;
    perform (Cancel stopCtx) ;;                                     (* deferred *)
    Ret err
  else perform (InstanceStop i).

(* src/pkg/resourcemanager/macos.go : MacOSClient.DeleteVirtualMachine *)
Definition DeleteVirtualMachine (ctx : Ctx) (ns name : string) (gracePeriod : Z) : prog macE (option error) :=
  r <- perform (VmsLoad (key ns name)) ;;
  match r with
  | None => Ret None
  | Some info =>
      match DownloadCancelFunc info with Some c => perform (Cancel c) | None => Ret tt end ;;
      err <- match Res.instance (Resource info) with
             | Some i => stopVirtualMachine ctx i ns name gracePeriod
             | None => Ret None
             end ;;
      match SSHConn info with Some c => perform (ConnClose c) ;; Ret tt | None => Ret tt end ;;
      releasePermit (key ns name) ;;                                (* deferred last, so first *)
      perform (VmsDelete (key ns name)) ;;                          (* deferred first, so last *)
      Ret err
  end.

(* src/pkg/resourcemanager/macos.go : MacOSClient.GetVirtualMachine *)
Definition GetVirtualMachine (ns name : string) : prog macE (Res.MacOSVirtualMachine * option error) :=
  r <- getVirtualMachineInfo ns name ;;
  Ret (match r with
       | inr e => (Res.NewMacOSVirtualMachine [], Some e)
       | inl info => (Resource info, None)
       end).

(* src/pkg/resourcemanager/macos.go : MacOSClient.GetVirtualMachineListResult *)
Definition GetVirtualMachineListResult : prog macE (gmap NamespacedName Res.MacOSVirtualMachine) :=
  infos <- perform VmsAll ;; Ret (fmap (M := gmap NamespacedName) Resource infos).

End Client.
End MacOS.
