(* ===== verification/MacOSProofs.v ===== *)
(** * What a creation, a deletion and a readiness wait do

    Theorems on [MacOS] for one goroutine running alone, for every behaviour of the
    packages it calls (every oracle).  [Permits] has the theorems on interleavings. *)
From Stdlib Require Import ZArith Lia.
From Stdlib Require Import Ascii String.
From stdpp Require Import base list gmap strings.
From S2P Require Import Prelude GoStrings GoFormat GoErrors GoTime Prog EnvCfg Utils Resource Event GuestCfg.
From S2P Require Import NodeIO Volumes Stores MacOS.
Local Open Scope string_scope.
Local Open Scope go_scope.

Module MacOSProofs.
Import VmData MacOS.

(** ** Observations on a trace *)

Definition event_of (c : call macE) : option Event :=
  match c with Call (Record_ ev) _ => Some ev | _ => None end.

(** The events reported, in order. *)
Definition events (s : traced macE MacOSClient) : list Event := rev (omap event_of (trace s)).

(** Operations that leave the client's state alone and report nothing. *)
Definition quiet X (e : macE X) : Prop :=
  match e with
  | VmsUpdate _ _ | VmsLoadOrStore _ _ | VmsDelete _ | SelectPermit _ | RecvPermit | TryRecvPermit
  | InstanceStart _ | InstanceStop _ | Record_ _ => False
  | _ => True
  end.

(** The same, reading no entry but that of [k]. *)
Definition quiet_on (k : NamespacedName) X (e : macE X) : Prop :=
  match e with VmsLoad k' => k' = k | VmsAll => False | _ => quiet X e end.

Lemma quiet_on_quiet k {A} (p : prog macE A) : all_ops (quiet_on k) p -> all_ops quiet p.
Proof. apply all_ops_mono. intros X e. by destruct e. Qed.

Lemma quiet_local X (e : macE X) x u : quiet X e -> exists x', local X e x u = Some (x', u).
Proof. destruct e; simpl; intros H; try done; eauto. Qed.

Lemma quiet_events tr : Forall (on_call quiet) tr -> omap event_of tr = [].
Proof.
  induction 1 as [|c tr Hc Htr IH]; [done|]. cbn. rewrite IH.
  destruct c as [X e x]. by destruct e.
Qed.

Lemma quiet_lift k s {A} (p : prog Session.sessE A) : all_ops (quiet_on k) (sess s p).
Proof. induction p as [a|X e c IH]; simpl; [done | split; [done | exact IH]]. Qed.

(** Walk through a program whose operations are all quiet. *)
Ltac quiet_step :=
  match goal with
  | |- all_ops _ (Ret _) => exact I
  | |- all_ops _ (bind _ _) => apply all_ops_bind; [|intros]
  | |- all_ops _ (perform _) => apply all_ops_perform; first [exact I | reflexivity]
  | |- all_ops _ (sess _ _) => apply quiet_lift
  | |- all_ops _ (match ?x with _ => _ end) => destruct x
  | |- all_ops _ (if ?x then _ else _) => destruct x
  end.
Ltac quiet_tac := repeat quiet_step.

(** Return: beta-reduce the continuation. *)
Ltac ret := apply twp_ret; cbv beta iota; cbn [fst snd].

Section Quiet.
Context `{PrintTable} `{Errdefs}.
Variable Getenv : EnvCfg.environ.

Lemma quiet_exec ctx ns name cmd attach : all_ops (quiet_on (key ns name)) (ExecInVirtualMachine Getenv ctx ns name cmd attach).
Proof. unfold ExecInVirtualMachine, getVirtualMachineInfo. quiet_tac. Qed.

Lemma quiet_poll k n pctx t probe last :
  (forall c, all_ops (quiet_on k) (probe c)) -> all_ops (quiet_on k) (pollLoop n pctx t probe last).
Proof.
  intros Hp. revert last. induction n as [|n IH]; intros last; cbn [pollLoop]; quiet_tac; auto.
Qed.

Lemma quiet_wait ctx ns name : all_ops (quiet_on (key ns name)) (waitForVirtualMachineSSHReady Getenv ctx ns name).
Proof.
  unfold waitForVirtualMachineSSHReady, pollSSHReady. quiet_tac.
  apply quiet_poll. intros. apply quiet_exec.
Qed.

Lemma quiet_execPostStart ctx ns name a : all_ops (quiet_on (key ns name)) (execPostStartAction Getenv ctx ns name a).
Proof.
  unfold execPostStartAction. quiet_tac; auto using quiet_wait, quiet_exec.
Qed.

Lemma quiet_setup k cfg uid cpu mem iface mounts : all_ops (quiet_on k) (setupVM cfg uid cpu mem iface mounts).
Proof. unfold setupVM. quiet_tac. Qed.

Lemma quiet_waitFinished k n ctx i : all_ops (quiet_on k) (waitFinished n ctx i).
Proof. induction n as [|n IH]; cbn [waitFinished]; quiet_tac; auto. Qed.

Lemma quiet_graceful ctx i ns name : all_ops (quiet_on (key ns name)) (gracefulShutdown Getenv ctx i ns name).
Proof.
  unfold gracefulShutdown. quiet_tac; auto using quiet_exec, quiet_waitFinished.
Qed.

End Quiet.

(** ** One entry of the map, and everything else *)

Section Entry.
Variables (env : oracle macE) (v : VirtualMachineData) (k : NamespacedName).

(** The client's state with [i] as the entry of [k]. *)
Definition mk (i : VirtualMachineInfo) (n : nat) (l : gset Res.InstRef) : MacOSClient :=
  {| vms := <[k := i]> v; vmPermits := n; live := l |}.

Abbreviation hdl := (traced_handler local env).

Lemma key_eta k' : key (Namespace k') (Name k') = k'.
Proof. by destruct k'. Qed.

Lemma step_update f c tr i n l :
  hdl _ (VmsUpdate k f) (Traced c tr (mk i n l)) =
  Some (Some (snd (f i)), Traced (S c) (Call (VmsUpdate k f) (Some (snd (f i))) :: tr) (mk (fst (f i)) n l)).
Proof.
  unfold traced_handler. simpl. unfold Update. rewrite key_eta. unfold mk at 1. simpl.
  rewrite lookup_insert_eq. simpl. unfold set_vms, mk. simpl. by rewrite insert_insert_eq.
Qed.

Lemma step_recv c tr i n l :
  hdl _ RecvPermit (Traced c tr (mk i (S n) l)) = Some (tt, Traced (S c) (Call RecvPermit tt :: tr) (mk i n l)).
Proof. done. Qed.

Lemma step_select ctx c tr i n l :
  (n < MaxVirtualMachines)%nat ->
  (exists e, hdl _ (SelectPermit ctx) (Traced c tr (mk i n l)) =
     Some (Some e, Traced (S c) (Call (SelectPermit ctx) (Some e) :: tr) (mk i n l))) \/
  hdl _ (SelectPermit ctx) (Traced c tr (mk i n l)) =
     Some (None, Traced (S c) (Call (SelectPermit ctx) None :: tr) (mk i (S n) l)).
Proof.
  intros Hn. unfold traced_handler. simpl.
  destruct (env _ c (SelectPermit ctx)) as [e|]; [left; by exists e | right].
  by rewrite (proj2 (Nat.ltb_lt _ _) Hn).
Qed.

End Entry.

(** ** Creation *)

Definition eventUnlessCanceled (e : error) (ev : Event) : list Event :=
  if errors_Is e errCanceled then [] else [ev].

(** The entry after a creation that ended with [e]. *)
Definition failedWith (e : error) (i : VirtualMachineInfo) : VirtualMachineInfo :=
  withResource (Res.SetError (Resource i) (Some e)) (withCancelFunc None i).

Definition withInstance (vm : Res.InstRef) (i : VirtualMachineInfo) : VirtualMachineInfo :=
  withResource (Res.SetInstance (Resource i) vm) i.

Definition withPostStart (t : Time.t) (i : VirtualMachineInfo) : VirtualMachineInfo :=
  withResource (Res.SetPostStartFinishedAt (Resource i) t) i.

Definition postStartEvent (p : VirtualMachineParams) (e : error) : Event :=
  match p_PostStartAction p with
  | None => FailedPostStartProbe (p_ContainerName p) e
  | Some a => FailedPostStartHook (p_ContainerName p) (Res.Command a) e
  end.

(** The specification of a creation: the events it reports, the entry it leaves, the
    permits taken for good, and the instance left running. *)
Inductive CreationOutcome (p : VirtualMachineParams) (i : VirtualMachineInfo)
  : list Event -> VirtualMachineInfo -> nat -> option Res.InstRef -> Prop :=
| DownloadFails e :
    CreationOutcome p i (eventUnlessCanceled e (BackOffPullImage (p_Image p) (p_ContainerName p) e))
      (failedWith e i) 0 None
| NoPermit d c :
    CreationOutcome p i [PulledImage (p_Image p) (p_ContainerName p) d] (failedWith (ctxErr c) i) 0 None
| SetupFails d e :
    CreationOutcome p i
      [PulledImage (p_Image p) (p_ContainerName p) d; FailedToCreateContainer (p_ContainerName p) e]
      (failedWith e i) 0 None
| StartFails d vm e :
    CreationOutcome p i
      [PulledImage (p_Image p) (p_ContainerName p) d; CreatedContainer (p_ContainerName p);
       FailedToStartContainer (p_ContainerName p) e]
      (failedWith e (withInstance vm i)) 0 None
| PostStartFails d vm e :
    CreationOutcome p i
      (PulledImage (p_Image p) (p_ContainerName p) d :: CreatedContainer (p_ContainerName p) ::
       StartedContainer (p_ContainerName p) :: eventUnlessCanceled e (postStartEvent p e))
      (failedWith e (withPermit true (withInstance vm i))) 1 (Some vm)
| Succeeds d vm t :
    CreationOutcome p i
      [PulledImage (p_Image p) (p_ContainerName p) d; CreatedContainer (p_ContainerName p);
       StartedContainer (p_ContainerName p)]
      (withPostStart t (withCancelFunc None (withPermit true (withInstance vm i)))) 1 (Some vm).

Section Creation.
Context `{PrintTable} `{Errdefs}.
Variables (Getenv : EnvCfg.environ) (iface : string) (env : oracle macE) (v : VirtualMachineData).

Abbreviation hdl := (traced_handler local env).

(** A state in the middle of a creation: the events so far and the rest. *)
Definition at_ (p : VirtualMachineParams) (evs : list Event) (i : VirtualMachineInfo) (n : nat)
    (l : gset Res.InstRef) (s : traced macE MacOSClient) : Prop :=
  events s = evs /\ own s = mk v (p_key p) i n l.

Lemma twp_sub {A} (q : prog macE A) p evs i n l s (Q : A -> traced macE MacOSClient -> Prop) :
  all_ops quiet q -> at_ p evs i n l s ->
  (forall a s', at_ p evs i n l s' -> Q a s') -> twp hdl q Q s.
Proof.
  intros Hq [He Ho] HQ. apply (twp_quiet local env quiet).
  - intros X e x. apply quiet_local.
  - done.
  - intros a m tr Htr. apply HQ. split; [|done].
    unfold events in *. simpl. by rewrite omap_app, (quiet_events tr), app_nil_l.
Qed.

Lemma twp_record p ev evs i n l s (Q : unit -> traced macE MacOSClient -> Prop) :
  at_ p evs i n l s -> (forall s', at_ p (evs ++ [ev]) i n l s' -> Q tt s') ->
  twp hdl (perform (Record_ ev)) Q s.
Proof.
  intros [He Ho] HQ. simpl. destruct (env _ _ (Record_ ev)). apply HQ.
  split; [|done]. rewrite <- He. reflexivity.
Qed.

Lemma twp_unless p e ev evs i n l s (Q : unit -> traced macE MacOSClient -> Prop) :
  at_ p evs i n l s -> (forall s', at_ p (evs ++ eventUnlessCanceled e ev) i n l s' -> Q tt s') ->
  twp hdl (unlessCanceled e ev) Q s.
Proof.
  intros Hs HQ. unfold unlessCanceled, eventUnlessCanceled in *. destruct (errors_Is e errCanceled).
  - simpl. apply HQ. by rewrite app_nil_r.
  - by eapply twp_record.
Qed.

Lemma twp_modify p f evs i n l s (Q : option bool -> traced macE MacOSClient -> Prop) :
  at_ p evs i n l s -> (forall s', at_ p evs (fst (f i)) n l s' -> Q (Some (snd (f i))) s') ->
  twp hdl (perform (VmsUpdate (p_key p) f)) Q s.
Proof.
  intros [He Ho] HQ. destruct s as [c tr u]. simpl in Ho. subst u.
  cbn [twp perform]. rewrite step_update. apply HQ. split; [exact He | done].
Qed.

Lemma twp_recv p evs i n l s (Q : unit -> traced macE MacOSClient -> Prop) :
  at_ p evs i (S n) l s -> (forall s', at_ p evs i n l s' -> Q tt s') -> twp hdl (perform RecvPermit) Q s.
Proof.
  intros [He Ho] HQ. destruct s as [c tr u]. simpl in Ho. subst u. simpl. apply HQ. by split.
Qed.

Lemma twp_select p ctx evs i n l s (Q : option CtxEnd -> traced macE MacOSClient -> Prop) :
  (n < MaxVirtualMachines)%nat -> at_ p evs i n l s ->
  (forall e s', at_ p evs i n l s' -> Q (Some e) s') ->
  (forall s', at_ p evs i (S n) l s' -> Q None s') ->
  twp hdl (perform (SelectPermit ctx)) Q s.
Proof.
  intros Hn [He Ho] HQ1 HQ2. destruct s as [c tr u]. simpl in Ho. subst u. cbn [twp perform].
  destruct (step_select env v (p_key p) ctx c tr i n l Hn) as [[e ->]| ->];
    [apply HQ1 | apply HQ2]; by split.
Qed.

Lemma twp_start p vm evs i n l s (Q : option error -> traced macE MacOSClient -> Prop) :
  at_ p evs i n l s ->
  (forall e s', at_ p evs i n l s' -> Q (Some e) s') ->
  (forall s', at_ p evs i n ({[vm]} ∪ l) s' -> Q None s') ->
  twp hdl (perform (InstanceStart vm)) Q s.
Proof.
  intros [He Ho] HQ1 HQ2. destruct s as [c tr u]. simpl in Ho. subst u. simpl.
  unfold traced_handler. simpl. destruct (env _ c (InstanceStart vm)) as [e|]; [apply HQ1 | apply HQ2]; by split.
Qed.

(** *** The parts of a creation *)

Lemma twp_recordPostStart p evs i n l s (Q : unit -> traced macE MacOSClient -> Prop) :
  at_ p evs i n l s -> (forall t s', at_ p evs (withPostStart t i) n l s' -> Q tt s') ->
  twp hdl (recordPostStart p) Q s.
Proof.
  intros Hs HQ. unfold recordPostStart. apply twp_bind.
  eapply twp_sub; [by quiet_tac | exact Hs |]. intros t s1 Hs1.
  apply twp_bind. eapply twp_modify; [exact Hs1|]. intros s2 Hs2. simpl. by eapply HQ.
Qed.

Lemma twp_postStart ctx p evs i n l s (Q : option error -> traced macE MacOSClient -> Prop) :
  at_ p evs i n l s ->
  (forall e s', at_ p (evs ++ eventUnlessCanceled e (postStartEvent p e)) i n l s' -> Q (Some e) s') ->
  (forall t s', at_ p evs (withPostStart t i) n l s' -> Q None s') ->
  twp hdl (postStart Getenv ctx p) Q s.
Proof.
  intros Hs HQ1 HQ2. unfold postStart, postStartEvent in *.
  destruct (p_PostStartAction p) as [a|]; apply twp_bind;
    (eapply twp_sub; [first [eapply quiet_on_quiet, quiet_execPostStart | eapply quiet_on_quiet, quiet_wait] | exact Hs |]);
    intros [e|] s1 Hs1; apply twp_bind.
  1, 3: eapply twp_unless; [exact Hs1|]; intros s2 Hs2; simpl; by apply HQ1.
  all: eapply twp_recordPostStart; [exact Hs1|]; intros t s2 Hs2; simpl; by eapply HQ2.
Qed.

Lemma twp_release_held p g evs i n l s (Q : permitGuard -> traced macE MacOSClient -> Prop) :
  at_ p evs i (S n) l s -> PermitAcquired i = true -> g_key g = p_key p ->
  g_committed g = false -> g_released g = false ->
  (forall g' s', at_ p evs (withPermit false i) n l s' -> Q g' s') ->
  twp hdl (Release g) Q s.
Proof.
  intros Hs Ha Hk Hc Hr HQ. unfold Release. rewrite Hr, Hc, Hk. apply twp_bind.
  unfold releasePermit. apply twp_bind. eapply twp_modify; [exact Hs|].
  unfold releaseCallback. rewrite Ha. simpl. intros s1 Hs1.
  apply (twp_recv p evs (withPermit false i) n l); [exact Hs1|]. intros s2 Hs2. simpl. by eapply HQ.
Qed.

(** Everything between holding the permit and the deferred [guard.Release], with it. *)
Lemma twp_startVM ctx cfg p g evs i n l s (Q : option error -> traced macE MacOSClient -> Prop) :
  at_ p evs (withPermit true i) (S n) l s ->
  g_key g = p_key p -> g_committed g = false -> g_released g = false ->
  (forall e s', at_ p (evs ++ [FailedToCreateContainer (p_ContainerName p) e]) (withPermit false i) n l s' ->
     Q (Some e) s') ->
  (forall vm e s', at_ p (evs ++ [CreatedContainer (p_ContainerName p); FailedToStartContainer (p_ContainerName p) e])
     (withPermit false (withInstance vm i)) n l s' -> Q (Some e) s') ->
  (forall vm e s', at_ p (evs ++ CreatedContainer (p_ContainerName p) :: StartedContainer (p_ContainerName p)
       :: eventUnlessCanceled e (postStartEvent p e))
     (withPermit true (withInstance vm i)) (S n) ({[vm]} ∪ l) s' -> Q (Some e) s') ->
  (forall vm t s', at_ p (evs ++ [CreatedContainer (p_ContainerName p); StartedContainer (p_ContainerName p)])
     (withPostStart t (withPermit true (withInstance vm i))) (S n) ({[vm]} ∪ l) s' -> Q None s') ->
  twp hdl (r <- startVirtualMachine Getenv iface ctx cfg p g ;; Release (snd r) ;; Ret (fst r)) Q s.
Proof.
  intros Hs Hk Hc Hr Q1 Q2 Q3 Q4. apply twp_bind. unfold startVirtualMachine. apply twp_bind.
  unfold createVirtualMachineInstance. apply twp_bind.
  eapply twp_sub; [apply (quiet_on_quiet (p_key p)), quiet_setup | exact Hs |]. intros [vm|e] s1 Hs1; apply twp_bind.
  - eapply twp_modify; [exact Hs1|]. cbn [fst snd]. intros s2 Hs2. apply twp_bind.
    eapply twp_record; [exact Hs2|]. intros s3 Hs3. ret. apply twp_bind.
    eapply twp_start; [exact Hs3 | |].
    + intros e s4 Hs4. apply twp_bind. eapply twp_record; [exact Hs4|]. intros s5 Hs5. ret.
      apply twp_bind. eapply twp_release_held; [exact Hs5 | done | done | done | done |].
      intros g' s6 Hs6. simpl. apply (Q2 vm). rewrite <- app_assoc in Hs6. exact Hs6.
    + intros s4 Hs4. apply twp_bind. eapply twp_record; [exact Hs4|]. intros s5 Hs5.
      apply twp_bind. eapply twp_postStart; [exact Hs5 | |].
      * intros e s6 Hs6. ret. apply twp_bind. unfold Release. cbn. rewrite Hr. simpl.
        apply (Q3 vm). rewrite <- !app_assoc in Hs6. exact Hs6.
      * intros t s6 Hs6. ret. apply twp_bind. unfold Release. cbn. rewrite Hr. simpl.
        apply (Q4 vm t). rewrite <- !app_assoc in Hs6. exact Hs6.
  - eapply twp_record; [exact Hs1|]. intros s2 Hs2. ret.
    apply twp_bind. eapply twp_release_held; [exact Hs2 | done | done | done | done |].
    intros g' s3 Hs3. simpl. by apply Q1.
Qed.

Lemma twp_finalize p err evs i n l s (Q : unit -> traced macE MacOSClient -> Prop) :
  at_ p evs i n l s ->
  (forall s', at_ p evs (match err with Some e => failedWith e i | None => withCancelFunc None i end) n l s' ->
     Q tt s') ->
  twp hdl (finalizeVirtualMachineInfo p err) Q s.
Proof.
  intros Hs HQ. unfold finalizeVirtualMachineInfo. apply twp_bind.
  eapply twp_modify; [exact Hs|]. cbn [fst snd]. intros s1 Hs1. ret. apply HQ.
  by destruct err.
Qed.

(** What the deferred calls of the whole function make of the body's outcome. *)
Definition finished (err : option error) (i : VirtualMachineInfo) : VirtualMachineInfo :=
  match err with Some e => failedWith e i | None => withCancelFunc None i end.

Lemma twp_creationBody ctx dctx p i n l s (Q : option error -> traced macE MacOSClient -> Prop) :
  (n < MaxVirtualMachines)%nat -> PermitAcquired i = false -> at_ p [] i n l s ->
  (forall evs i' d r err s', at_ p evs i' (d + n) (match r with Some vm => {[vm]} ∪ l | None => l end) s' ->
     CreationOutcome p i evs (finished err i') d r -> Q err s') ->
  twp hdl (creationBody Getenv iface ctx dctx p) Q s.
Proof.
  intros Hn Ha Hs HQ. unfold creationBody. apply twp_bind.
  eapply twp_modify; [exact Hs|]. cbn [fst snd]. intros s1 Hs1. cbv beta iota. apply twp_bind.
  eapply twp_sub; [by quiet_tac | exact Hs1 |]. intros [[cfg d]|e] s2 Hs2; apply twp_bind.
  2: { eapply twp_unless; [exact Hs2|]. intros s3 Hs3. ret.
       eapply (HQ _ _ 0%nat None); [exact Hs3 | exact (DownloadFails p i e)]. }
  eapply twp_record; [exact Hs2|]. intros s3 Hs3. apply twp_bind.
  unfold acquirePermit. apply twp_bind. eapply twp_select; [exact Hn | exact Hs3 | |].
  { intros e s4 Hs4. ret. ret. eapply (HQ _ _ 0%nat None); [exact Hs4 | exact (NoPermit p i d e)]. }
  intros s4 Hs4. apply twp_bind. unfold markPermitAcquired. apply twp_bind.
  eapply twp_modify; [exact Hs4|]. unfold markCallback at 1 2. simpl PermitAcquired. rewrite Ha.
  cbn [fst snd]. intros s5 Hs5. ret. ret.
  eapply twp_startVM; [exact Hs5 | done | done | done | ..];
    [intros e s6 Hs6 | intros vm e s6 Hs6 | intros vm e s6 Hs6 | intros vm t s6 Hs6].
  - eapply (HQ _ _ 0%nat None); [exact Hs6|].
    destruct i; simpl in Ha; subst. exact (SetupFails p _ d e).
  - eapply (HQ _ _ 0%nat None); [exact Hs6|].
    destruct i; simpl in Ha; subst. exact (StartFails p _ d vm e).
  - eapply (HQ _ _ 1%nat (Some vm)); [exact Hs6|]. exact (PostStartFails p i d vm e).
  - eapply (HQ _ _ 1%nat (Some vm)); [exact Hs6|]. exact (Succeeds p i d vm t).
Qed.

(** C2: a creation that runs with a free permit always ends, whatever the image
    download, the framework, the guest and the contexts do, in one of the outcomes of
    the specification: the events, the recorded error, the post-start time and the
    permit agree.  In particular the permit is kept exactly by the creations whose
    machine was started, the entry is marked failed with the error that occurred, and
    the post-start time is set by no creation that failed. *)
Theorem creation_outcome ctx p i n l :
  (n < MaxVirtualMachines)%nat -> PermitAcquired i = false ->
  exists s' i' d r,
    run hdl (handleVirtualMachineCreation Getenv iface ctx p) (start (mk v (p_key p) i n l)) = Some (tt, s') /\
    own s' = mk v (p_key p) i' (d + n) (match r with Some vm => {[vm]} ∪ l | None => l end) /\
    CreationOutcome p i (events s') i' d r.
Proof.
  intros Hn Ha.
  assert (twp hdl (handleVirtualMachineCreation Getenv iface ctx p)
    (fun _ s' => exists i' d r,
       own s' = mk v (p_key p) i' (d + n) (match r with Some vm => {[vm]} ∪ l | None => l end) /\
       CreationOutcome p i (events s') i' d r) (start (mk v (p_key p) i n l))) as H1.
  - unfold handleVirtualMachineCreation. apply twp_bind.
    eapply (twp_sub _ p []); [by quiet_tac | by split |]. intros dctx s1 Hs1. apply twp_bind.
    eapply twp_creationBody; [exact Hn | exact Ha | exact Hs1 |].
    intros evs i' d r err s2 Hs2 Ho. apply twp_bind.
    eapply twp_sub; [by quiet_tac | exact Hs2 |]. intros [] s3 Hs3.
    eapply twp_finalize; [exact Hs3|]. intros s4 [He4 Ho4].
    exists (finished err i'), d, r. by rewrite He4.
  - apply twp_run in H1 as ([] & s' & Hr & i' & d & r & Ho & Hc). by exists s', i', d, r.
Qed.

End Creation.

(** ** The readiness wait *)

(** How the attempts end: the probe succeeds, it fails for good, or the context ends. *)
Inductive PollEnd := PollOK | PollFatal (e : error) | PollCap (c : CtxEnd).

(** The answers of the probe that such an end stands for. *)
Definition attempts (es : list error) (fin : PollEnd) : list (option error) :=
  map Some es ++ match fin with PollOK => [None] | PollFatal e => [Some e] | PollCap _ => [] end.

(** The errors that no further attempt can mend: a permanent configuration error, and
    the text of a refused authentication. *)
Definition Permanent `{Errdefs} (e : error) : Prop :=
  IsInvalidInput (Some e) = true \/ exists l r, Error e = (l ++ "unable to authenticate" ++ r)%string.

Lemma terminal_Permanent `{Errdefs} e : terminal e = true <-> Permanent e.
Proof.
  unfold terminal, Permanent, isSSHAuthFailure. rewrite orb_true_iff. by rewrite Str.contains_spec.
Qed.

Lemma terminal_not_Permanent `{Errdefs} e : terminal e = false <-> ~ Permanent e.
Proof. rewrite <- terminal_Permanent. by destruct (terminal e). Qed.

Section Poll.
Context `{PrintTable} `{EL : ErrdefsLaws} {S : Type}.
Variables (h : handler macE S) (probe : Ctx -> prog macE (option error)).

(** One attempt of a run: the probe runs in a context with the attempt's timeout, which
    is cancelled afterwards. *)
Definition Attempt (pctx : Ctx) (t : Z) (s : S) (a : option error) (s' : S) : Prop :=
  exists c s1 s2, h _ (WithTimeout pctx t) s = Some (c, s1) /\ run h (probe c) s1 = Some (a, s2) /\
    h _ (Cancel c) s2 = Some (tt, s').

(** Consecutive attempts, and what the probe answers in them. *)
Inductive Attempts (pctx : Ctx) (t : Z) : S -> list (option error) -> S -> Prop :=
| NoAttempt s : Attempts pctx t s [] s
| NextAttempt s a s1 l s2 : Attempt pctx t s a s1 -> Attempts pctx t s1 l s2 -> Attempts pctx t s (a :: l) s2.

(** A loop of [n] rounds at most from [s] to [s']: its attempts, of which only the last
    can decide, and how it ends. *)
Inductive Polled (pctx : Ctx) (t : Z) (n : nat) (s : S) : list error -> PollEnd -> S -> Prop :=
| PolledOK es s' : (length es < n)%nat -> Forall (fun e => ~ Permanent e) es ->
    Attempts pctx t s (map Some es ++ [None]) s' -> Polled pctx t n s es PollOK s'
| PolledFatal es e s' : (length es < n)%nat -> Forall (fun e => ~ Permanent e) es -> Permanent e ->
    Attempts pctx t s (map Some es ++ [Some e]) s' -> Polled pctx t n s es (PollFatal e) s'
| PolledCap es c s1 s' : length es = n -> Forall (fun e => ~ Permanent e) es ->
    Attempts pctx t s (map Some es) s1 -> h _ (CtxDone pctx) s1 = Some (c, s') -> Polled pctx t n s es (PollCap c) s'.

Lemma Polled_again pctx t n s e s1 es fin s' :
  Attempt pctx t s (Some e) s1 -> ~ Permanent e -> Polled pctx t n s1 es fin s' ->
  Polled pctx t (Datatypes.S n) s (e :: es) fin s'.
Proof.
  intros Ha He [es' s2 Hl Hp Hat|es' e' s2 Hl Hp He' Hat|es' c s2 s3 Hl Hp Hat Hc].
  - constructor; [simpl; lia | by constructor | by eapply NextAttempt].
  - constructor; [simpl; lia | by constructor | done | by eapply NextAttempt].
  - econstructor; [simpl; lia | by constructor | by eapply NextAttempt | done].
Qed.

Lemma pollLoop_ends n pctx t lastErr s r s' :
  run h (pollLoop n pctx t probe lastErr) s = Some (r, s') ->
  exists es fin, Polled pctx t n s es fin s' /\
    match fin with
    | PollOK => r = (None, None)
    | PollFatal e => r = (Some e, Some e)
    | PollCap c => r = (Some (ctxErr c), match last es with Some e => Some e | None => lastErr end)
    end.
Proof.
  revert lastErr s. induction n as [|n IH]; intros lastErr s; cbn [pollLoop].
  - simpl. destruct (h _ _ s) as [[c s1]|] eqn:Ec; [|done]. intros [= <- <-].
    exists [], (PollCap c). split; [|done]. by eapply (PolledCap pctx t 0 s [] c s); [| |constructor|].
  - cbn [bind perform run]. destruct (h _ _ s) as [[c s1]|] eqn:Ew; [|done].
    rewrite run_bind. destruct (run h (probe c) s1) as [[a s2]|] eqn:Ea; [|done].
    cbn [bind perform run]. destruct (h _ (Cancel c) s2) as [[[] s3]|] eqn:Ec; [|done].
    assert (Attempt pctx t s a s3) as Ha by (by exists c, s1, s2).
    assert (Attempts pctx t s [a] s3) as Ha1 by (eapply NextAttempt; [exact Ha | constructor]).
    destruct a as [e|].
    + destruct (terminal e) eqn:Et.
      * intros [= <- <-]. exists [], (PollFatal e). apply terminal_Permanent in Et.
        split; [|done]. constructor; [simpl; lia | done | done | done].
      * intros Hr. apply terminal_not_Permanent in Et. apply IH in Hr as (es & fin & Hp & Hfin).
        exists (e :: es), fin. split; [by eapply Polled_again|].
        destruct fin; try done. rewrite Hfin. f_equal. destruct es as [|e' es]; [done|].
        change (last (e :: e' :: es)) with (last (e' :: es)).
        destruct (last (e' :: es)) eqn:El; [done|]. by apply last_None in El.
    + intros [= <- <-]. exists [], PollOK. split; [|done]. constructor; [simpl; lia | done | done].
Qed.

(** Wrapping and joining keep both causes visible. *)
Lemma pollResult_sees ot e l x :
  errors_Is e x = true \/ l = Some x -> isErr (pollResult ot (Some e) l) x = true.
Proof.
  intros Hx. unfold pollResult.
  set (e' := if isErr (Some e) errDeadline then _ else _).
  assert (exists e1, e' = Some e1 /\ (errors_Is e x = true -> errors_Is e1 x = true)) as (e1 & -> & He1).
  { subst e'. case_match; eexists; split; [done | apply errors_Is_wrap | done | done]. }
  destruct l as [l|]; [|destruct Hx as [Hx|Hx]; [by apply He1 | done]].
  destruct (isErr (Some e1) l) eqn:El.
  - destruct Hx as [Hx|[= ->]]; [by apply He1 | done].
  - destruct Hx as [Hx|[= ->]].
    + apply (errors_Join_Is _ e1); [right; left | by apply He1].
    + apply (errors_Join_Is _ x); [left | apply errors_Is_refl].
Qed.

Lemma pollResult_None ot r l : pollResult ot r l = None <-> r = None.
Proof.
  unfold pollResult. destruct r as [e|]; [|destruct l; done]. split; [|done].
  destruct (isErr _ _), l; simpl; try done; case_match; try done;
    intros Hn; apply errors_Join_None with (o := Some e0) in Hn; first [done | left].
Qed.

End Poll.

(** C13: a readiness wait probes until the first answer that decides.  Its attempts
    are consecutive runs of the probe, each in a context with the attempt's timeout
    that is cancelled afterwards, and no more of them than the rounds that the polling
    context grants; an error that is neither a configuration error nor a refused
    authentication is followed by another attempt.  It succeeds when an attempt does;
    it ends with the first permanent error, which is returned unwrapped when it is a
    configuration error (so that the caller's [IsInvalidInput] still sees it); and when
    the rounds are used up it ends with the context, and the result names both why the
    wait ended and the last error of the probe. *)
Theorem readiness_wait `{PrintTable} `{EL : ErrdefsLaws} {St : Type} (h : handler macE St)
    ctx interval attemptTimeout overall probe s r s' :
  run h (pollSSHReady ctx interval attemptTimeout overall probe) s = Some (r, s') ->
  exists pctx s1 n s2 es fin,
    h _ (WithTimeout ctx overall) s = Some (pctx, s1) /\ h _ (Rounds pctx) s1 = Some (n, s2) /\
    Polled h probe pctx attemptTimeout n s2 es fin s' /\
    match fin with
    | PollOK => r = None
    | PollFatal e => isErr r e = true /\ (IsInvalidInput (Some e) = true -> r = Some e)
    | PollCap c => isErr r (ctxErr c) = true /\ forall e, last es = Some e -> isErr r e = true
    end.
Proof.
  unfold pollSSHReady. cbn [bind perform run].
  destruct (h _ _ s) as [[pctx s1]|] eqn:Ew; [|done]. destruct (h _ (Rounds pctx) s1) as [[n s2]|] eqn:En; [|done].
  rewrite run_bind. destruct (run h _ s2) as [[rl s3]|] eqn:El; [|done]. intros [= <- <-].
  apply pollLoop_ends in El as (es & fin & Hp & Hfin).
  exists pctx, s1, n, s2, es, fin. split_and!; [done | done | done|]. destruct fin as [|e|c]; subst; [done| |].
  - cbn [fst snd]. split.
    + apply pollResult_sees. left. apply errors_Is_refl.
    + intros Hi. unfold pollResult. cbn [isErr]. rewrite invalid_not_deadline by done.
      by rewrite errors_Is_refl.
  - cbn [fst snd]. split.
    + apply pollResult_sees. left. apply errors_Is_refl.
    + intros e ->. apply pollResult_sees. by right.
Qed.

(** ** Deletion *)

Definition cancelled (c : call macE) : option Ctx := match c with Call (Cancel x) _ => Some x | _ => None end.
Definition connClosed (c : call macE) : option ConnRef := match c with Call (ConnClose x) _ => Some x | _ => None end.
Definition stopAnswer (c : call macE) : option (option error) :=
  match c with Call (InstanceStop _) r => Some r | _ => None end.

Section Deletion.
Context `{PrintTable} `{Errdefs}.
Variables (Getenv : EnvCfg.environ) (env : oracle macE) (v : VirtualMachineData).

Abbreviation hdl := (traced_handler local env).

(** Quiet programs keep the state and extend the trace. *)
Lemma twp_extend {A} (q : prog macE A) s (Q : A -> traced macE MacOSClient -> Prop) :
  all_ops quiet q ->
  (forall a s', own s' = own s -> suffix (trace s) (trace s') -> Q a s') -> twp hdl q Q s.
Proof.
  intros Hq HQ. apply (twp_quiet local env quiet); [intros X e x; apply quiet_local | done |].
  intros a m tr _. apply HQ; [done | by exists tr].
Qed.

Lemma twp_stopOp i s (Q : option error -> traced macE MacOSClient -> Prop) :
  (forall r s', own s' = set_live (afterStop i r (live (own s))) (own s) ->
     trace s' = Call (InstanceStop i) r :: trace s -> Q r s') ->
  twp hdl (perform (InstanceStop i)) Q s.
Proof. intros HQ. simpl. unfold traced_handler. simpl. by apply HQ. Qed.

Lemma suffix_elem {B} (f : call macE -> option B) b t1 t2 :
  suffix t1 t2 -> b ∈ omap f t1 -> b ∈ omap f t2.
Proof. intros [t ->] Hb. rewrite omap_app. apply elem_of_app. by right. Qed.

Lemma twp_stopVM ctx i ns name grace s (Q : option error -> traced macE MacOSClient -> Prop) :
  (forall r s', own s' = set_live (afterStop i r (live (own s))) (own s) -> suffix (trace s) (trace s') ->
     r ∈ omap stopAnswer (trace s') -> Q r s') ->
  twp hdl (stopVirtualMachine Getenv ctx i ns name grace) Q s.
Proof.
  intros HQ. unfold stopVirtualMachine. apply twp_bind.
  apply twp_extend; [by quiet_tac|]. intros iv s1 Ho1 Hx1.
  destruct (bool_decide _ && _).
  - apply twp_bind, twp_extend; [by quiet_tac|]. intros sctx s2 Ho2 Hx2.
    apply twp_bind, twp_extend; [eapply quiet_on_quiet, quiet_graceful|]. intros g s3 Ho3 Hx3.
    apply twp_bind, twp_stopOp. intros r s4 Ho4 Ht4.
    apply twp_bind, twp_extend; [by quiet_tac|]. intros [] s5 Ho5 Hx5. ret.
    assert (suffix (trace s) (trace s4)) as Hx.
    { rewrite Ht4. apply suffix_cons_r. by do 2 (etrans; [eassumption|]). }
    apply HQ; [by rewrite Ho5, Ho4, Ho3, Ho2, Ho1 | by etrans|].
    eapply suffix_elem; [exact Hx5|]. rewrite Ht4. by left.
  - apply twp_stopOp. intros r s2 Ho2 Ht2.
    apply HQ; [by rewrite Ho2, Ho1 | rewrite Ht2; by apply suffix_cons_r | rewrite Ht2; by left].
Qed.

(** Deletion of a known pod, and what its trace holds. *)
Definition deleted (ns name : string) (i : VirtualMachineInfo) (n : nat) (l : gset Res.InstRef)
    (r : option error) (s' : traced macE MacOSClient) : Prop :=
  own s' = {| vms := delete (key ns name) v; vmPermits := n;
              live := match Res.instance (Resource i) with Some j => afterStop j r l | None => l end |} /\
  (forall c, DownloadCancelFunc i = Some c -> c ∈ omap cancelled (trace s')) /\
  (forall c, SSHConn i = Some c -> c ∈ omap connClosed (trace s')) /\
  match Res.instance (Resource i) with Some _ => r ∈ omap stopAnswer (trace s') | None => r = None end.

Lemma twp_delete_from t0 tr0 ctx ns name grace i n l :
  twp hdl (DeleteVirtualMachine Getenv ctx ns name grace) (deleted ns name i n l)
    (Traced t0 tr0 (mk v (key ns name) i ((if PermitAcquired i then 1 else 0) + n) l)).
Proof.
  unfold DeleteVirtualMachine, deleted. set (k := key ns name).
  set (n0 := (if PermitAcquired i then 1 else 0) + n).
  apply twp_bind. cbn [twp perform]. unfold traced_handler at 1. cbn [local own start].
  unfold mk at 1. cbn [vms]. rewrite lookup_insert_eq. cbv beta iota.
  set (s0 := Traced _ _ _).
  apply twp_bind.
  apply (twp_mono _ _ (fun _ s1 => own s1 = own s0 /\
    forall c, DownloadCancelFunc i = Some c -> c ∈ omap cancelled (trace s1))).
  2: { destruct (DownloadCancelFunc i) as [c|]; [|by apply twp_ret].
       simpl. split; [done|]. intros c' [= ->]. by left. }
  intros [] s1 [Ho1 Hc1]. apply twp_bind.
  apply (twp_mono _ _ (fun r s2 =>
    own s2 = mk v k i n0 (match Res.instance (Resource i) with Some j => afterStop j r l | None => l end) /\
    suffix (trace s1) (trace s2) /\
    match Res.instance (Resource i) with Some _ => r ∈ omap stopAnswer (trace s2) | None => r = None end)).
  2: { destruct (Res.instance (Resource i)) as [j|]; [|by apply twp_ret].
       apply twp_stopVM. intros r s2 Ho2 Hx2 Hr. split_and!; [|done | done]. by rewrite Ho2, Ho1. }
  intros r s2 (Ho2 & Hx2 & Hr2). apply twp_bind.
  apply (twp_mono _ _ (fun _ s3 => own s3 = own s2 /\ suffix (trace s2) (trace s3) /\
    forall c, SSHConn i = Some c -> c ∈ omap connClosed (trace s3))).
  2: { destruct (SSHConn i) as [c|]; [|by apply twp_ret].
       simpl. split_and!; [done | by apply suffix_cons_r |]. intros c' [= ->]. by left. }
  intros [] s3 (Ho3 & Hx3 & Hc3). apply twp_bind.
  rewrite Ho2 in Ho3.
  apply (twp_mono _ _ (fun _ s4 => suffix (trace s3) (trace s4) /\
    exists i', own s4 = mk v k i' n (match Res.instance (Resource i) with Some j => afterStop j r l | None => l end))).
  2: { destruct s3 as [c3 t3 u3]. simpl in Ho3. subst u3. unfold releasePermit. apply twp_bind.
       cbn [twp perform]. rewrite step_update. unfold releaseCallback, n0.
       destruct (PermitAcquired i); cbn [fst snd]; simpl.
       - split; [by do 2 apply suffix_cons_r | by eexists].
       - split; [by apply suffix_cons_r | by eexists]. }
  intros [] s4 (Hx4 & i' & Ho4). destruct s4 as [c4 t4 u4]. simpl in Ho4, Hx4. subst u4. simpl.
  split_and!.
  - unfold set_vms, Delete, mk. simpl. by rewrite delete_insert_eq.
  - intros c Hc. apply (suffix_elem _ _ (trace s1)); [|by apply Hc1].
    by do 2 (etrans; [eassumption|]).
  - intros c Hc. apply (suffix_elem _ _ (trace s3)); [done | by apply Hc3].
  - destruct (Res.instance (Resource i)); [|done].
    apply (suffix_elem _ _ (trace s2)); [|done]. by etrans.
Qed.

Lemma twp_delete ctx ns name grace i n l :
  twp hdl (DeleteVirtualMachine Getenv ctx ns name grace) (deleted ns name i n l)
    (start (mk v (key ns name) i ((if PermitAcquired i then 1 else 0) + n) l)).
Proof. apply twp_delete_from. Qed.


(** Deleting an unknown pod does nothing. *)
Lemma delete_unknown ctx ns name grace s :
  vms (own s) !! key ns name = None ->
  exists s', run hdl (DeleteVirtualMachine Getenv ctx ns name grace) s = Some (None, s') /\ own s' = own s.
Proof.
  intros Hn. unfold DeleteVirtualMachine. cbn [bind perform run]. unfold traced_handler at 1.
  cbn [local]. rewrite Hn. simpl. by eexists.
Qed.

End Deletion.

(** *** A concrete world, for the witnesses *)

Definition sample_params : VirtualMachineParams :=
  {| p_UID := "uid"; p_Image := "reg/macos:15"; p_Namespace := "ns"; p_Name := "pod"; p_ContainerName := "vm";
     p_CPU := 4; p_MemorySize := 8; p_Mounts := []; p_Env := []; p_PostStartAction := None;
     p_IgnoreImageCache := false; p_RegistryCreds := Creds.noCredentials |}.

Definition sample_info : VirtualMachineInfo :=
  {| Ref := "reg/macos:15"; Resource := Res.NewMacOSVirtualMachine []; DownloadCancelFunc := None;
     PermitAcquired := false; SSHConn := Some 0%nat |}.

(** Every call fails with the same error, and every context is cancelled. *)
Definition failing : oracle macE := fun X _ e =>
  match e in macE X return X with
  | VmsLoad _ => None | VmsUpdate _ _ => None | VmsLoadOrStore _ _ => false | VmsDelete _ => tt | VmsAll => ∅
  | SelectPermit _ => None | RecvPermit => tt | TryRecvPermit => false
  | WithCancel c => S c | WithTimeout c _ => S c | Cancel _ => tt | CtxErr _ => None
  | Rounds _ => 2%nat | CtxDone _ => CtxCanceled | Now => 7%Z
  | Record_ _ => tt
  | Download _ _ _ _ => inr (errExternal 1 "no route to registry")
  | NewPlatformConfiguration _ _ _ => inr (errExternal 1 "x")
  | NewVirtualMachineConfiguration _ _ _ _ _ => inr (errExternal 1 "x")
  | NewVirtualMachineInstance _ => inr (errExternal 1 "x")
  | InstanceStart _ => None | InstanceStop _ => None
  | InstanceView_ _ => {| Res.iv_IPAddress := ""; Res.iv_StartedAt := None; Res.iv_FinishedAt := None;
                          Res.iv_State := Res.VzStopped |}
  | NewConn _ _ => 0%nat | ConnClose _ => None | ConnNewSession _ _ => inr (errExternal 1 "x")
  | SessStdinPipe _ => None | SessAfterFunc _ _ => tt | SessStopReap _ => tt | SessClose _ => tt
  | SessOp _ e =>
      match e in Session.sessE X return X with
      | Session.ConsoleSize => None | Session.RequestPty _ _ _ => None | Session.GoResize => tt
      | Session.GoCopyStdin => tt | Session.StartCmd _ => None | Session.Shell => None
      | Session.WriteStdin _ => None | Session.CopyStdin => None | Session.CloseStdin => None
      | Session.Wait => None
      end
  end.

Lemma creation_outcome_witness :
  exists s' i' d r,
    run (traced_handler local failing)
      (@handleVirtualMachineCreation (fun _ => true) errdefs_model (fun _ => "") "" 0%nat sample_params)
      (start (mk ∅ (p_key sample_params) sample_info 1 ∅)) = Some (tt, s') /\
    CreationOutcome sample_params sample_info (events s') i' d r.
Proof.
  destruct (@creation_outcome (fun _ => true) errdefs_model (fun _ => "") "" failing ∅ 0%nat sample_params
    sample_info 1 ∅) as (s' & i' & d & r & Hr & _ & Ho).
  - unfold MaxVirtualMachines. lia.
  - reflexivity.
  - by exists s', i', d, r.
Defined.

(** Two rounds are granted; the first answer of the probe is a refused key. *)
Lemma readiness_wait_witness :
  exists r s',
    run (traced_handler local failing)
      (@pollSSHReady errdefs_model 0%nat 1 2 3
        (fun _ => Ret (Some (errMsg "ssh: unable to authenticate"))))
      (start NewMacOSClient) = Some (r, s') /\
    r = Some (errMsg "ssh: unable to authenticate") /\
    exists pctx n s2 s' es fin, @Polled errdefs_model _ (traced_handler local failing)
      (fun _ => Ret (Some (errMsg "ssh: unable to authenticate"))) pctx 2 n s2 es fin s'.
Proof.
  eexists _, _. split; [vm_compute; reflexivity|]. split; [reflexivity|].
  destruct (@readiness_wait (fun _ => true) errdefs_model errdefs_model_laws _ (traced_handler local failing)
    0%nat 1 2 3 (fun _ => Ret (Some (errMsg "ssh: unable to authenticate"))) (start NewMacOSClient) _ _ eq_refl)
    as (pctx & s1 & n & s2 & es & fin & _ & _ & Hp & _).
  by eexists pctx, n, s2, _, es, fin.
Defined.

End MacOSProofs.
