(* ===== verification/Permits.v ===== *)
(** * The permit channel under interleaving

    The goroutines of [MacOSClient] run one operation at a time in any order
    ([pool_step] of [Prog]).  A [pod] is a goroutine that works on one pod only: it
    creates and deletes it, one call after another, the asynchronous part of a
    creation included.  For any number of such pods, each with its own name, the
    tokens in the channel are accounted for and never more than
    [MaxVirtualMachines] machines are live.

    The accounting is proved thread by thread ([swp]): a thread holds some tokens
    itself and knows its own entry of the map, which no other thread touches.  The
    last section shows that the hypothesis matters: a deletion that overlaps the
    creation of the same pod takes a token of another one. *)
From Stdlib Require Import ZArith Lia.
From Stdlib Require Import Ascii String.
From stdpp Require Import base list gmap fin_maps fin_map_dom strings relations.
From S2P Require Import Prelude GoStrings GoFormat GoErrors GoTime Prog EnvCfg Utils Resource Event GuestCfg.
From S2P Require Import NodeIO Volumes Stores MacOS MacOSProofs.
Local Open Scope string_scope.
Local Open Scope go_scope.

Module Permits.
Import VmData MacOS MacOSProofs.

(** ** One thread *)

(** What a thread knows: the tokens it holds, its entry, the machine it has started. *)
Record tst := { hand : nat; ent : option VirtualMachineInfo; mach : option Res.InstRef }.

Definition acq (i : VirtualMachineInfo) : nat := if PermitAcquired i then 1 else 0.
Definition acqo (o : option VirtualMachineInfo) : nat := match o with Some i => acq i | None => 0 end.

(** The tokens the thread answers for. *)
Definition tokens (t : tst) : nat := hand t + acqo (ent t).

(** A thread with a live machine answers for a token. *)
Definition covered (t : tst) : Prop := mach t <> None -> 1 <= tokens t.

Definition with_hand (n : nat) (t : tst) : tst := {| hand := n; ent := ent t; mach := mach t |}.
Definition with_ent (e : option VirtualMachineInfo) (t : tst) : tst := {| hand := hand t; ent := e; mach := mach t |}.
Definition with_mach (m : option Res.InstRef) (t : tst) : tst := {| hand := hand t; ent := ent t; mach := m |}.

(** What an operation may do and what the thread knows afterwards, for the thread of
    pod [k]; [K] is what the rest of the thread needs. *)
Definition sstep (k : NamespacedName) {X} (e : macE X) : (X -> tst -> Prop) -> tst -> Prop :=
  match e in macE X return (X -> tst -> Prop) -> tst -> Prop with
  | VmsLoad k' => fun K t => k' = k /\ K (ent t) t
  | VmsUpdate k' f => fun K t => k' = k /\
      match ent t with
      | None => K None t
      | Some i => exists n', n' + acq (fst (f i)) = tokens t /\
          K (Some (snd (f i))) (with_hand n' (with_ent (Some (fst (f i))) t))
      end
  | VmsLoadOrStore k' i => fun K t => k' = k /\
      match ent t with
      | Some _ => K true t
      | None => PermitAcquired i = false /\ K false (with_ent (Some i) t)
      end
  | VmsDelete k' => fun K t => k' = k /\ acqo (ent t) = 0 /\ K tt (with_ent None t)
  | VmsAll => fun K t => forall m, K m t
  | SelectPermit _ => fun K t => (forall e, K (Some e) t) /\ K None (with_hand (S (hand t)) t)
  | RecvPermit => fun K t => exists n', hand t = S n' /\ covered (with_hand n' t) /\ K tt (with_hand n' t)
  | TryRecvPermit => fun K t => exists n', hand t = S n' /\ covered (with_hand n' t) /\ K true (with_hand n' t)
  | InstanceStart i => fun K t => mach t = None /\ 1 <= tokens t /\
      (forall e, K (Some e) t) /\ K None (with_mach (Some i) t)
  | InstanceStop i => fun K t => forall r,
      K r (with_mach (if decide (mach t = Some i) then None else mach t) t)
  | _ => fun K t => forall x, K x t
  end.

Fixpoint swp (k : NamespacedName) {A} (p : prog macE A) (Q : A -> tst -> Prop) (t : tst) : Prop :=
  match p with
  | Ret a => Q a t
  | Do e c => sstep k e (fun x => swp k (c x) Q) t
  end.

Lemma sstep_mono k {X} (e : macE X) (K K' : X -> tst -> Prop) t :
  (forall x t', K x t' -> K' x t') -> sstep k e K t -> sstep k e K' t.
Proof.
  intros HK. destruct e; simpl; try (intros Hx x; apply HK, Hx).
  - intros [-> ?]. auto.
  - intros [-> Hm]. split; [done|]. destruct (ent t); [|by apply HK].
    destruct Hm as (n' & Hn & Hk). exists n'. auto.
  - intros [-> Hm]. split; [done|]. destruct (ent t); [by apply HK|].
    destruct Hm as [? ?]. auto.
  - intros (-> & ? & ?). auto.
  - intros [? ?]. auto.
  - intros (n' & ? & ? & ?). exists n'. auto.
  - intros (n' & ? & ? & ?). exists n'. auto.
  - intros (? & ? & ? & ?). auto.
Qed.

Lemma swp_ret k {A} (a : A) (Q : A -> tst -> Prop) t : Q a t -> swp k (Ret a) Q t.
Proof. done. Qed.

Lemma swp_mono k {A} (p : prog macE A) (Q Q' : A -> tst -> Prop) t :
  (forall a t', Q a t' -> Q' a t') -> swp k p Q t -> swp k p Q' t.
Proof.
  intros HQ. revert t. induction p as [a|X e c IH]; intros t; simpl; [apply HQ|].
  apply sstep_mono. intros x t'. apply IH.
Qed.

Lemma swp_bind k {A B} (p : prog macE A) (f : A -> prog macE B) Q t :
  swp k p (fun a t' => swp k (f a) Q t') t -> swp k (bind p f) Q t.
Proof.
  revert t. induction p as [a|X e c IH]; intros t; simpl; [done|].
  apply sstep_mono. intros x t'. apply IH.
Qed.

Lemma sstep_quiet k {X} (e : macE X) K t : quiet_on k X e -> (forall x, K x t) -> sstep k e K t.
Proof. destruct e; simpl; try done; auto. Qed.

Lemma swp_quiet k {A} (p : prog macE A) Q t :
  all_ops (quiet_on k) p -> (forall a, Q a t) -> swp k p Q t.
Proof.
  intros Hp HQ. induction p as [a|X e c IH]; simpl; [apply HQ|].
  destruct Hp as [He Hc]. apply sstep_quiet; [done|]. intros x. by apply IH.
Qed.

Lemma swp_op k {X} (e : macE X) Q t : sstep k e Q t -> swp k (perform e) Q t.
Proof. by apply sstep_mono. Qed.

(** Return, and one quiet operation. *)
Ltac sret := apply swp_ret; cbv beta iota; cbn [fst snd].
Ltac sany := apply swp_quiet; [quiet_tac|].

Lemma swp_record k ev Q t : Q tt t -> swp k (perform (Record_ ev)) Q t.
Proof. intros HQ []. exact HQ. Qed.

Lemma swp_unless k e ev Q t : Q tt t -> swp k (unlessCanceled e ev) Q t.
Proof. intros HQ. unfold unlessCanceled. destruct (errors_Is _ _); [done | by apply swp_record]. Qed.

(** An update that leaves the permit flag alone. *)
Lemma swp_modify k f i t (Q : option bool -> tst -> Prop) :
  ent t = Some i -> PermitAcquired (f i) = PermitAcquired i ->
  Q (Some false) (with_ent (Some (f i)) t) -> swp k (vmsModify k f) Q t.
Proof.
  intros He Ha HQ. simpl. split; [done|]. rewrite He. exists (hand t).
  unfold tokens. rewrite He. simpl. unfold acq. rewrite Ha. split; [done|]. by destruct t.
Qed.

(** ** The client's operations keep the account *)

(** Nothing in hand, no machine without a permit. *)
Definition settled (t : tst) : Prop :=
  hand t = 0 /\
  match ent t with
  | Some i => mach t = None \/ (PermitAcquired i = true /\ mach t = Res.instance (Resource i))
  | None => mach t = None
  end.

Section Ops.
Context `{PrintTable} `{Errdefs}.
Variables (Getenv : EnvCfg.environ) (iface : string).

(** Holding a token through the entry, with the machine of the entry. *)
Definition holds (i : VirtualMachineInfo) (m : option Res.InstRef) (t : tst) : Prop :=
  t = {| hand := 0; ent := Some i; mach := m |} /\ PermitAcquired i = true.

Lemma swp_recordPostStart p i m t Q :
  holds i m t -> (forall x, Q tt {| hand := 0; ent := Some (withPostStart x i); mach := m |}) ->
  swp (p_key p) (recordPostStart p) Q t.
Proof.
  intros [-> Ha] HQ. unfold recordPostStart. apply swp_bind. simpl. intros x.
  split; [done|]. exists 0. unfold tokens. simpl. split; [done|]. apply HQ.
Qed.

Lemma swp_postStart ctx p i m t Q :
  holds i m t -> (forall r i', PermitAcquired i' = true -> Res.instance (Resource i') = Res.instance (Resource i) ->
    Q r {| hand := 0; ent := Some i'; mach := m |}) ->
  swp (p_key p) (postStart Getenv ctx p) Q t.
Proof.
  intros Ht HQ. pose proof Ht as [-> Ha]. unfold postStart.
  destruct (p_PostStartAction p) as [a|]; apply swp_bind;
    (apply swp_quiet; [first [apply quiet_execPostStart | apply quiet_wait] |]);
    intros [e|]; apply swp_bind.
  1, 3: apply swp_unless; by apply HQ.
  all: eapply swp_recordPostStart; [exact Ht|]; intros x; by apply HQ.
Qed.

Lemma swp_release k g i m (Q : permitGuard -> tst -> Prop) :
  g_key g = k -> g_released g = false ->
  (if g_committed g then forall g', Q g' {| hand := 0; ent := Some i; mach := m |}
   else PermitAcquired i = true /\ m = None /\
        forall g', Q g' {| hand := 0; ent := Some (withPermit false i); mach := None |}) ->
  swp k (Release g) Q {| hand := 0; ent := Some i; mach := m |}.
Proof.
  intros Hk Hr HQ. unfold Release. rewrite Hr.
  destruct (g_committed g); [by apply HQ|]. destruct HQ as (Ha & -> & HQ).
  rewrite Hk. apply swp_bind. unfold releasePermit. apply swp_bind. simpl.
  split; [done|]. unfold releaseCallback. rewrite Ha. cbn [fst snd].
  exists 1. split; [unfold tokens; simpl; unfold acq; simpl; rewrite Ha; done|].
  simpl. exists 0. split_and!; [done | by intros H1 |]. apply HQ.
Qed.

Lemma swp_startVM ctx cfg p i (Q : option error -> tst -> Prop) :
  PermitAcquired i = true ->
  (forall r t, settled t -> is_Some (ent t) -> Q r t) ->
  swp (p_key p)
    (r <- startVirtualMachine Getenv iface ctx cfg p {| g_key := p_key p; g_committed := false; g_released := false |} ;;
     Release (snd r) ;; Ret (fst r)) Q {| hand := 0; ent := Some i; mach := None |}.
Proof.
  intros Ha HQ. apply swp_bind. unfold startVirtualMachine. apply swp_bind.
  unfold createVirtualMachineInstance. apply swp_bind.
  apply swp_quiet; [apply quiet_setup|]. intros [vm|e]; apply swp_bind.
  - eapply swp_modify; [done | done |]. apply swp_bind, swp_record. sret.
    apply swp_bind. apply swp_op. cbn [sstep]. split_and!; [done | unfold tokens; simpl; unfold acq; simpl; rewrite Ha; lia | |].
    + intros e. apply swp_bind, swp_record. sret. apply swp_bind, swp_release; [done | done |].
      simpl. split_and!; [done | done |]. intros g'. apply HQ; [split; [done | by left] | done].
    + apply swp_bind, swp_record, swp_bind.
      eapply swp_postStart; [split; [reflexivity | done]|]. intros r i' Ha' Hi'. sret.
      apply swp_bind, swp_release; [done | done |]. simpl. intros g'.
      apply HQ; [|done]. split; [done|]. right. split; [done|]. by rewrite Hi'.
  - apply swp_record. sret. apply swp_bind, swp_release; [done | done |].
    simpl. split_and!; [done | done |]. intros g'. apply HQ; [split; [done | by left] | done].
Qed.

(** A settled entry stays settled when fields other than the permit and the
    instance change. *)
Lemma settled_with_ent t i i' :
  settled t -> ent t = Some i -> PermitAcquired i' = PermitAcquired i ->
  Res.instance (Resource i') = Res.instance (Resource i) -> settled (with_ent (Some i') t).
Proof.
  intros [Hh Hs] He Ha Hi. rewrite He in Hs. split; [done|]. simpl. rewrite Ha, Hi. exact Hs.
Qed.

Lemma swp_finalize p r t i (Q : unit -> tst -> Prop) :
  settled t -> ent t = Some i -> (forall t', settled t' -> Q tt t') ->
  swp (p_key p) (finalizeVirtualMachineInfo p r) Q t.
Proof.
  intros Hs He HQ. unfold finalizeVirtualMachineInfo. apply swp_bind.
  eapply swp_modify; [exact He | by destruct r |]. simpl. apply HQ.
  eapply settled_with_ent; [done | done | by destruct r | by destruct r].
Qed.

Lemma swp_handle ctx p i (Q : unit -> tst -> Prop) :
  PermitAcquired i = false ->
  (forall t', settled t' -> Q tt t') ->
  swp (p_key p) (handleVirtualMachineCreation Getenv iface ctx p) Q {| hand := 0; ent := Some i; mach := None |}.
Proof.
  intros Ha HQ. unfold handleVirtualMachineCreation. apply swp_bind. sany. intros dctx.
  apply swp_bind.
  apply (swp_mono _ _ (fun _ t => settled t /\ is_Some (ent t))).
  { intros r t' [Hs [i' He]]. apply swp_bind. sany. intros [].
    eapply swp_finalize; [exact Hs | exact He | done]. }
  unfold creationBody. apply swp_bind. eapply swp_modify; [done | done |].
  set (i1 := withCancelFunc (Some dctx) i). cbv beta iota.
  assert (settled {| hand := 0; ent := Some i1; mach := None |}) as Hset by (split; [done | by left]).
  apply swp_bind. sany. intros [[cfg d]|e]; apply swp_bind.
  2: { apply swp_unless. sret. split; [done | by eexists]. }
  apply swp_record. apply swp_bind. unfold acquirePermit. apply swp_bind.
  apply swp_op. cbn [sstep]. split.
  { intros e. sret. sret. split; [done | by eexists]. }
  apply swp_bind. unfold markPermitAcquired. apply swp_bind. apply swp_op. cbn [sstep ent with_hand].
  split; [done|]. unfold markCallback. cbn [ent hand mach with_ent with_hand].
  assert (PermitAcquired i1 = false) as Ha1 by done. rewrite Ha1. cbn [fst snd].
  exists 0. split; [unfold tokens; simpl; unfold acq; rewrite Ha1; done|]. sret. sret.
  apply (swp_startVM ctx cfg p (withPermit true i1)); [done|]. intros r t Hs He. done.
Qed.

Lemma swp_create ctx p t (Q : option error -> tst -> Prop) :
  settled t -> (forall r t', settled t' -> Q r t') ->
  swp (p_key p) (creation Getenv iface ctx p) Q t.
Proof.
  intros Hs HQ. unfold creation, CreateVirtualMachine. apply swp_bind, swp_bind. sany. intros conn.
  apply swp_bind. apply swp_op. cbn [sstep]. split; [done|].
  destruct t as [h [i|] m]; cbn [ent]; cbv beta iota.
  - sret. sret. apply HQ, Hs.
  - destruct Hs as [Hh Hm]. simpl in Hh, Hm. subst. split; [done|].
    apply swp_bind, swp_record. sret.
    apply swp_bind. apply (swp_handle ctx p); [done|]. intros t' Hs'. sret. by apply HQ.
Qed.

Lemma swp_stop ctx i ns name grace t (Q : option error -> tst -> Prop) :
  (forall r, Q r (with_mach (if decide (mach t = Some i) then None else mach t) t)) ->
  swp (key ns name) (stopVirtualMachine Getenv ctx i ns name grace) Q t.
Proof.
  intros HQ. unfold stopVirtualMachine. apply swp_bind. sany. intros iv.
  destruct (bool_decide _ && _).
  - apply swp_bind. sany. intros sctx. apply swp_bind.
    apply swp_quiet; [apply quiet_graceful|]. intros g.
    apply swp_bind. apply swp_op. cbn [sstep]. intros r. apply swp_bind. sany. intros []. sret. apply HQ.
  - simpl. apply HQ.
Qed.

Lemma swp_delete ctx ns name grace t (Q : option error -> tst -> Prop) :
  settled t -> (forall r t', settled t' -> Q r t') ->
  swp (key ns name) (DeleteVirtualMachine Getenv ctx ns name grace) Q t.
Proof.
  intros [Hh Hs] HQ. unfold DeleteVirtualMachine. apply swp_bind. apply swp_op. cbn [sstep].
  split; [done|]. destruct t as [h [i|] m]; cbn [hand ent mach] in *; subst h; [|sret; by apply HQ].
  apply swp_bind.
  apply (swp_mono _ _ (fun _ t => t = {| hand := 0; ent := Some i; mach := m |})).
  2: { destruct (DownloadCancelFunc i); [by intros [] | done]. }
  intros [] t ->. apply swp_bind.
  apply (swp_mono _ _ (fun _ t => t = {| hand := 0; ent := Some i; mach := None |})).
  2: { destruct (Res.instance (Resource i)) as [j|] eqn:Ej.
       - apply swp_stop. intros r. unfold with_mach. cbn [hand ent mach].
         f_equal. destruct (decide _) as [Hd|Hd]; [done|].
         destruct Hs as [->|[_ Hm]]; [done | congruence].
       - sret. f_equal. destruct Hs as [->|[_ Hm]]; congruence. }
  intros r t ->. apply swp_bind.
  apply (swp_mono _ _ (fun _ t => t = {| hand := 0; ent := Some i; mach := None |})).
  2: { destruct (SSHConn i); [by intros x | done]. }
  intros [] t ->. apply swp_bind.
  apply (swp_mono _ _ (fun _ t => exists i', t = {| hand := 0; ent := Some i'; mach := None |} /\ PermitAcquired i' = false)).
  2: { unfold releasePermit. apply swp_bind. simpl. split; [done|]. unfold releaseCallback, tokens. simpl.
       unfold acq. destruct (PermitAcquired i) eqn:Ea; cbn [fst snd].
       - exists 1. split; [done|]. simpl. exists 0. split_and!; [done | by intros H1 |]. by eexists.
       - rewrite Ea. exists 0. split; [done|]. simpl. by exists i. }
  intros [] t (i' & -> & Ha'). simpl. split_and!; [done | by unfold acq; rewrite Ha' |].
  apply HQ. by split.
Qed.

(** ** A pod: calls on one name, one after another *)

Inductive PodOp := PCreate (ctx : Ctx) (p : VirtualMachineParams) | PDelete (ctx : Ctx) (grace : Z).

(** The operation is about pod [k]. *)
Definition op_on (k : NamespacedName) (o : PodOp) : Prop :=
  match o with PCreate _ p => p_key p = k | PDelete _ _ => True end.

Definition run_op (k : NamespacedName) (o : PodOp) : prog macE unit :=
  match o with
  | PCreate ctx p => creation Getenv iface ctx p ;; Ret tt
  | PDelete ctx grace => DeleteVirtualMachine Getenv ctx (Namespace k) (Name k) grace ;; Ret tt
  end.

Definition pod (k : NamespacedName) (ops : list PodOp) : prog macE unit := forM ops (run_op k).

Lemma swp_pod k ops t :
  Forall (op_on k) ops -> settled t -> swp k (pod k ops) (fun _ t' => settled t') t.
Proof.
  intros Hops. revert t. induction Hops as [|o ops Ho Hops IH]; intros t Hs; [done|].
  unfold pod. cbn [forM]. apply swp_bind. destruct o as [ctx p|ctx g]; cbn [op_on run_op] in *.
  - subst k. apply swp_bind. apply swp_create; [done|]. intros r t' Hs'. sret. by apply IH.
  - apply swp_bind. destruct k as [ns nm]. apply (swp_delete ctx ns nm); [done|].
    intros r t' Hs'. sret. by apply IH.
Qed.

End Ops.

(** ** One step, seen from the thread that makes it *)

Definition mset (o : option Res.InstRef) : gset Res.InstRef := list_to_set (option_list o).

(** The thread's knowledge [t] fits the client's state [u]. *)
Definition fits (k : NamespacedName) (t : tst) (u : MacOSClient) : Prop :=
  vms u !! k = ent t /\ tokens t <= vmPermits u /\ vmPermits u <= MaxVirtualMachines /\ covered t.

(** The machine whose stop a call has failed to do. *)
Definition failedStop (c : call macE) : option Res.InstRef :=
  match c with
  | Call e x =>
      match e in macE X return X -> option Res.InstRef with
      | InstanceStop i => fun r => match r with Some _ => Some i | None => None end
      | _ => fun _ => None
      end x
  end.

(** The machines of which a stop has failed. *)
Definition failedStops (tr : list (call macE)) : gset Res.InstRef := list_to_set (omap failedStop tr).

Lemma failedStops_cons c tr : failedStops (c :: tr) = mset (failedStop c) ∪ failedStops tr.
Proof. unfold failedStops, mset. cbn. destruct (failedStop c); simpl; set_solver. Qed.

(** What a step guarantees to the other threads, when [F] is what it failed to stop. *)
Definition guarantee (k : NamespacedName) (F : gset Res.InstRef) (t t' : tst) (u u' : MacOSClient) : Prop :=
  (forall k', k' <> k -> vms u' !! k' = vms u !! k') /\
  vmPermits u' + tokens t = vmPermits u + tokens t' /\
  vmPermits u' <= MaxVirtualMachines /\
  (forall M G, live u ∖ G ⊆ M ∪ mset (mach t) -> live u' ∖ (F ∪ G) ⊆ M ∪ mset (mach t')).

Lemma guarantee_refl k F t u : vmPermits u <= MaxVirtualMachines -> guarantee k F t t u u.
Proof. intros. split_and!; auto with lia. intros M G HM. set_solver. Qed.

(** The states that differ in one field. *)
Lemma guarantee_hand k F n' t u m :
  m + tokens t = vmPermits u + tokens (with_hand n' t) -> m <= MaxVirtualMachines ->
  guarantee k F t (with_hand n' t) u (set_permits m u).
Proof. intros. split_and!; auto. intros M G HM. simpl in *. set_solver. Qed.

Lemma guarantee_vms k F t t' u d :
  (forall k', k' <> k -> d !! k' = vms u !! k') -> tokens t' = tokens t -> mach t' = mach t ->
  vmPermits u <= MaxVirtualMachines -> guarantee k F t t' u (set_vms d u).
Proof. intros Hd Ht Hm Hp. split_and!; simpl; [done | lia | done |]. rewrite Hm. set_solver. Qed.

Lemma step_fits k {X} (e : macE X) x K t u y u' :
  sstep k e K t -> fits k t u -> local X e x u = Some (y, u') ->
  exists t', K y t' /\ vms u' !! k = ent t' /\ covered t' /\ guarantee k (mset (failedStop (Call e y))) t t' u u'.
Proof.
  intros Hs (He & Htok & Hmax & Hcov).
  destruct e; simpl in Hs |- *;
    try (intros [= <- <-]; exists t; split_and!; [apply Hs | done | done | by apply guarantee_refl]).
  - (* VmsLoad *)
    intros [= <- <-]. destruct Hs as [-> Hk]. exists t. rewrite He.
    split_and!; [done | done | done | by apply guarantee_refl].
  - (* VmsUpdate *)
    destruct Hs as [-> Hs]. unfold Update. rewrite key_eta, He. destruct (ent t) as [i|] eqn:Ee; simpl.
    + intros [= <- <-]. destruct Hs as (n' & Hn & Hk). eexists. split; [exact Hk|]. simpl.
      assert (tokens (with_hand n' (with_ent (Some (fst (f i))) t)) = tokens t) as Ht by exact Hn.
      split_and!; [by rewrite lookup_insert_eq | unfold covered in *; simpl; by rewrite Ht |].
      apply guarantee_vms; try done. intros k' Hk'. by rewrite lookup_insert_ne.
    + intros [= <- <-]. exists t. split_and!; [done | by rewrite Ee | done|].
      by apply guarantee_vms.
  - (* VmsLoadOrStore *)
    destruct Hs as [-> Hs]. unfold LoadOrStore. rewrite key_eta, He. destruct (ent t) as [i'|] eqn:Ee; simpl.
    + intros [= <- <-]. exists t. split_and!; [done | by rewrite Ee | done|]. by apply guarantee_vms.
    + intros [= <- <-]. destruct Hs as [Ha Hk].
      assert (tokens (with_ent (Some i) t) = tokens t) as Ht
        by (unfold tokens; rewrite Ee; simpl; unfold acq; by rewrite Ha).
      eexists. split_and!; [exact Hk | simpl; by rewrite lookup_insert_eq | unfold covered in *; simpl; by rewrite Ht |].
      apply guarantee_vms; try done. intros k' Hk'. by rewrite lookup_insert_ne.
  - (* VmsDelete *)
    destruct Hs as (-> & Ha & Hk). intros [= <- <-]. unfold Delete. rewrite key_eta.
    assert (tokens (with_ent None t) = tokens t) as Ht by (unfold tokens; rewrite Ha; simpl; lia).
    eexists. split_and!; [exact Hk | simpl; by rewrite lookup_delete_eq | unfold covered in *; simpl; by rewrite Ht |].
    apply guarantee_vms; try done. intros k' Hk'. by rewrite lookup_delete_ne.
  - (* SelectPermit *)
    destruct Hs as [Hk1 Hk2]. destruct x as [c|].
    + intros [= <- <-]. exists t. split_and!; [apply Hk1 | done | done | by apply guarantee_refl].
    + destruct (vmPermits u <? MaxVirtualMachines)%nat eqn:El; [|done]. intros [= <- <-].
      apply Nat.ltb_lt in El. eexists. split_and!; [exact Hk2 | done | unfold covered, tokens in *; simpl; lia |].
      apply guarantee_hand; unfold tokens in *; simpl; lia.
  - (* RecvPermit *)
    destruct Hs as (n' & Hn & Hc & Hk). destruct (vmPermits u) as [|m] eqn:Em; [done|]. intros [= <- <-].
    eexists. split_and!; [exact Hk | done | done |].
    apply guarantee_hand; unfold tokens in *; simpl; lia.
  - (* TryRecvPermit *)
    destruct Hs as (n' & Hn & Hc & Hk). destruct (vmPermits u) as [|m] eqn:Em; [unfold tokens in *; lia|].
    intros [= <- <-]. eexists. split_and!; [exact Hk | done | done |].
    apply guarantee_hand; unfold tokens in *; simpl; lia.
  - (* InstanceStart *)
    destruct Hs as (Hm & H1 & Hk1 & Hk2). destruct x as [c|]; intros [= <- <-].
    + exists t. split_and!; [apply Hk1 | done | done | by apply guarantee_refl].
    + eexists. split_and!; [exact Hk2 | done | intros _; exact H1 |].
      split_and!; simpl; [done | unfold tokens; simpl; lia | done |]. rewrite Hm. intros M G HM. set_solver.
  - (* InstanceStop *)
    intros [= <- <-]. eexists. split_and!; [apply Hs | done | |].
    + unfold covered in *. simpl. by case_decide.
    + split_and!; simpl; [done | unfold tokens; simpl; lia | done |].
      intros M G HM. unfold afterStop.
      case_decide as Hd; [rewrite Hd in HM|]; destruct x; unfold mset in *; simpl in *; set_solver.
Qed.

(** ** All threads together *)

Section Pool.
Variables (env : oracle macE).

Abbreviation hdl := (traced_handler local env).
Abbreviation step := (pool_step hdl unit (fun _ _ => [])).

(** The sum of the tokens that the threads answer for, and the machines they started. *)
Definition total_tokens (ts : list tst) : nat := sum_list_with tokens ts.
Definition machines (ts : list tst) : gset Res.InstRef := list_to_set (omap mach ts).

(** [ks] names the pods of the threads. *)
Record pool_inv (ks : list NamespacedName) (c : config (E := macE) (S := traced macE MacOSClient) unit) (ts : list tst) : Prop := {
  pi_len : length ks = length ts;
  pi_thr : forall i p, c.1 !! i = Some p -> exists k t, ks !! i = Some k /\ ts !! i = Some t /\
             swp k p (fun _ t' => settled t') t;
  pi_thr' : length c.1 = length ts;
  pi_ent : forall i k t, ks !! i = Some k -> ts !! i = Some t -> vms (own c.2) !! k = ent t;
  pi_sum : vmPermits (own c.2) = total_tokens ts;
  pi_max : vmPermits (own c.2) <= MaxVirtualMachines;
  pi_live : live (own c.2) ∖ failedStops (trace c.2) ⊆ machines ts;
  pi_cov : Forall covered ts
}.

Lemma total_split ts i t : ts !! i = Some t ->
  total_tokens ts = total_tokens (take i ts) + (tokens t + total_tokens (drop (S i) ts)).
Proof.
  intros Ht. rewrite <- (take_drop_middle ts i t Ht) at 1. unfold total_tokens.
  by rewrite sum_list_with_app.
Qed.

Lemma total_insert ts i t t' : ts !! i = Some t ->
  total_tokens (<[i:=t']> ts) + tokens t = total_tokens ts + tokens t'.
Proof.
  intros Ht. rewrite (total_split ts i t Ht).
  rewrite insert_take_drop by (by eapply lookup_lt_Some).
  unfold total_tokens. rewrite sum_list_with_app. simpl. lia.
Qed.

Lemma machines_split ts i t : ts !! i = Some t ->
  machines ts = (machines (take i ts) ∪ machines (drop (S i) ts)) ∪ mset (mach t).
Proof.
  intros Ht. rewrite <- (take_drop_middle ts i t Ht) at 1. unfold machines, mset.
  rewrite omap_app, list_to_set_app_L. cbn. destruct (mach t); simpl; set_solver.
Qed.

Lemma machines_insert ts i t t' : ts !! i = Some t ->
  machines (<[i:=t']> ts) = (machines (take i ts) ∪ machines (drop (S i) ts)) ∪ mset (mach t').
Proof.
  intros Ht. pose proof (lookup_lt_Some _ _ _ Ht) as Hl.
  rewrite (machines_split (<[i:=t']> ts) i t') by (by apply list_lookup_insert_eq).
  by rewrite take_insert_ge, drop_insert_lt by lia.
Qed.

Lemma tokens_le ts i t : ts !! i = Some t -> tokens t <= total_tokens ts.
Proof. intros Ht. rewrite (total_split ts i t Ht). lia. Qed.

(** A step of the pool keeps the invariant. *)
Lemma pool_inv_step ks c c' ts :
  NoDup ks -> pool_inv ks c ts -> step c c' -> exists ts', pool_inv ks c' ts'.
Proof.
  intros Hnd [Hlen Hthr Hthr' Hent Hsum Hmax Hlive Hcov] [i Hi].
  destruct c as [ps s]. simpl in *. destruct (ps !! i) as [[|X e f]|] eqn:Ep; try done.
  destruct (Hthr i _ Ep) as (k & t & Hk & Ht & Hswp). simpl in Hswp.
  unfold traced_handler in Hi. destruct (local X e (env X (clock s) e) (own s)) as [[y u']|] eqn:El; [|done].
  injection Hi as <-. rewrite app_nil_r.
  destruct (step_fits k e (env X (clock s) e) (fun x => swp k (f x) (fun _ t' => settled t')) t (own s) y u' Hswp) as (t' & Hk' & He' & Hc' & Hoth & Hcount & Hmax' & Hmach).
  { split_and!; [by apply (Hent i) | rewrite Hsum; by eapply tokens_le | done |].
    rewrite Forall_forall in Hcov. apply Hcov. by eapply list_elem_of_lookup_2. }
  { exact El. }
  pose proof (lookup_lt_Some _ _ _ Ht) as Hl.
  exists (<[i:=t']> ts). split; simpl.
  - by rewrite length_insert.
  - intros j p Hj. destruct (decide (i = j)) as [<-|Hne].
    + rewrite list_lookup_insert_eq in Hj by (by eapply lookup_lt_Some). injection Hj as <-.
      exists k, t'. rewrite list_lookup_insert_eq by done. done.
    + rewrite list_lookup_insert_ne in Hj by done. rewrite list_lookup_insert_ne by done. by apply Hthr.
  - by rewrite !length_insert.
  - intros j k' t1 Hkj Htj. destruct (decide (i = j)) as [<-|Hne].
    + rewrite list_lookup_insert_eq in Htj by done. injection Htj as <-.
      assert (k' = k) as -> by congruence. done.
    + rewrite list_lookup_insert_ne in Htj by done. rewrite Hoth; [by apply (Hent j)|].
      intros ->. apply Hne. by eapply NoDup_lookup.
  - pose proof (total_insert ts i t t' Ht). lia.
  - done.
  - rewrite (machines_insert ts i t t' Ht), failedStops_cons. apply Hmach. by rewrite <- machines_split.
  - rewrite Forall_forall in *. intros t1 Ht1. apply list_elem_of_lookup in Ht1 as [j Hj].
    destruct (decide (i = j)) as [<-|Hne].
    + rewrite list_lookup_insert_eq in Hj by done. by injection Hj as <-.
    + rewrite list_lookup_insert_ne in Hj by done. apply Hcov. by eapply list_elem_of_lookup_2.
Qed.

(** Every machine of a thread is paid for. *)
Lemma machines_bound ts : Forall covered ts -> size (machines ts) <= total_tokens ts.
Proof.
  induction 1 as [|t ts Ht Hts IH]; [by vm_compute|].
  unfold machines, total_tokens, covered in *. simpl.
  change (list_omap tst Res.InstRef mach ts) with (omap mach ts).
  destruct (mach t) as [m|]; simpl.
  - specialize (Ht ltac:(done)). rewrite size_union_alt, size_singleton.
    assert (size (list_to_set (omap mach ts) ∖ {[m]} : gset Res.InstRef) <= size (list_to_set (omap mach ts) : gset Res.InstRef))
      by (apply subseteq_size; set_solver). lia.
  - etrans; [exact IH|]. lia.
Qed.

Lemma pool_inv_reach ks c c' ts :
  NoDup ks -> pool_inv ks c ts -> rtc step c c' -> exists ts', pool_inv ks c' ts'.
Proof.
  intros Hnd Hi Hr. revert ts Hi. induction Hr as [c|c1 c2 c3 Hs Hr IH]; intros ts Hi; [by exists ts|].
  destruct (pool_inv_step ks c1 c2 ts Hnd Hi Hs) as [ts2 Hi2]. by eapply IH.
Qed.

End Pool.

Section Main.
Context `{PrintTable} `{Errdefs}.
Variables (Getenv : EnvCfg.environ) (iface : string) (env : oracle macE).

(** The goroutines of a list of pods on a fresh client. *)
Definition pods_config (pods : list (NamespacedName * list PodOp)) : config (E := macE) (S := traced macE MacOSClient) unit :=
  (map (fun kp => pod Getenv iface kp.1 kp.2) pods, start NewMacOSClient).

Lemma fresh_tokens n : total_tokens (replicate n {| hand := 0; ent := None; mach := None |}) = 0.
Proof. induction n as [|n IH]; [done|]. cbn. exact IH. Qed.

Lemma pods_inv pods :
  Forall (fun kp => Forall (op_on kp.1) kp.2) pods ->
  pool_inv (map fst pods) (pods_config pods)
    (replicate (length pods) {| hand := 0; ent := None; mach := None |}).
Proof.
  intros Hops. split; simpl.
  - by rewrite length_map, length_replicate.
  - intros i p Hp. rewrite list_lookup_fmap in Hp. destruct (pods !! i) as [kp|] eqn:Ek; [|done].
    injection Hp as <-. exists kp.1, {| hand := 0; ent := None; mach := None |}. split_and!.
    + by rewrite list_lookup_fmap, Ek.
    + apply lookup_replicate_2. by eapply lookup_lt_Some.
    + apply swp_pod; [|done]. rewrite Forall_forall in Hops. apply Hops. by eapply list_elem_of_lookup_2.
  - by rewrite length_map, length_replicate.
  - intros i k t _ Ht. apply lookup_replicate in Ht as [-> _]. apply lookup_empty.
  - by rewrite fresh_tokens.
  - lia.
  - done.
  - apply Forall_replicate. by intros Hm.
Qed.

(** C1: any number of pods with different names, each creating and deleting its
    virtual machine in sequence, run interleaved in any order against any behaviour
    of the rest of the system: at every moment at most [MaxVirtualMachines] machines
    were started and neither stopped nor given up after a stop that failed, so that
    without failed stops no more than that many are live; at most that many permits
    are taken, giving a permit back never blocks, and once all goroutines are done and
    no pod is left every permit is free. *)
Theorem permits_sound pods c :
  NoDup (map fst pods) -> Forall (fun kp => Forall (op_on kp.1) kp.2) pods ->
  rtc (pool_step (traced_handler local env) unit (fun _ _ => [])) (pods_config pods) c ->
  size (live (own c.2) ∖ failedStops (trace c.2)) <= MaxVirtualMachines /\
  (failedStops (trace c.2) = ∅ -> size (live (own c.2)) <= MaxVirtualMachines) /\
  vmPermits (own c.2) <= MaxVirtualMachines /\
  (forall i f, c.1 !! i = Some (Do RecvPermit f) -> 1 <= vmPermits (own c.2)) /\
  (Forall (fun p => exists a, p = Ret a) c.1 -> vms (own c.2) = ∅ -> vmPermits (own c.2) = 0).
Proof.
  intros Hnd Hops Hr.
  destruct (pool_inv_reach env _ _ _ _ Hnd (pods_inv pods Hops) Hr) as [ts [Hlen Hthr Hthr' Hent Hsum Hmax Hlive Hcov]].
  assert (size (live (own c.2) ∖ failedStops (trace c.2)) <= MaxVirtualMachines) as Hsize.
  { etrans; [apply subseteq_size, Hlive|]. rewrite Hsum in Hmax. etrans; [by apply machines_bound | done]. }
  split_and!; [done | | done | |].
  - intros Hf. by rewrite Hf, difference_empty_L in Hsize.
  - intros i f Hf. destruct (Hthr i _ Hf) as (k & t & _ & Ht & n' & Hn & _).
    rewrite Hsum. pose proof (tokens_le ts i t Ht). unfold tokens in *. lia.
  - intros Hdone Hempty. rewrite Hsum.
    assert (forall t, t ∈ ts -> tokens t = 0) as Hz.
    { intros t Ht. apply list_elem_of_lookup in Ht as [i Hi].
      pose proof (lookup_lt_Some _ _ _ Hi) as Hl. rewrite <- Hthr' in Hl.
      apply lookup_lt_is_Some in Hl as [p Hp]. destruct (Hthr i p Hp) as (k & t' & Hk & Ht' & Hs).
      assert (t' = t) as -> by congruence. rewrite Forall_forall in Hdone.
      destruct (Hdone p) as [a ->]; [by eapply list_elem_of_lookup_2|]. simpl in Hs. destruct Hs as [Hh _].
      pose proof (Hent i k t Hk Hi) as He. rewrite Hempty, lookup_empty in He.
      unfold tokens. by rewrite Hh, <- He. }
    clear -Hz. induction ts as [|t ts IH]; [done|]. unfold total_tokens in *. simpl.
    rewrite (Hz t) by left. apply IH. intros t' Ht'. apply Hz. by right.
Qed.

End Main.

(** *** Three pods, and what an overlapping deletion does *)

(** Everything succeeds; the instance of a configuration is the configuration's number,
    which is the processor count asked for. *)
Definition obliging : oracle macE := fun X n e =>
  match e in macE X return X with
  | VmsLoad _ => None | VmsUpdate _ _ => None | VmsLoadOrStore _ _ => false | VmsDelete _ => tt | VmsAll => ∅
  | SelectPermit _ => None | RecvPermit => tt | TryRecvPermit => false
  | WithCancel c => S c | WithTimeout c _ => S c | Cancel _ => tt | CtxErr _ => None
  | Rounds _ => 1%nat | CtxDone _ => CtxCanceled | Now => 7%Z
  | Record_ _ => tt
  | Download _ _ _ _ => inl ({| BlockStoragePath := "d"; AuxiliaryStoragePath := "a"; HardwareModelData := "";
                                MachineIdentifierData := "" |}, "1s")
  | NewPlatformConfiguration _ _ _ => inl 0%nat
  | NewVirtualMachineConfiguration _ cpu _ _ _ => inl (Z.to_nat cpu)
  | NewVirtualMachineInstance cfg => inl cfg
  | InstanceStart _ => None | InstanceStop _ => None
  | InstanceView_ _ => {| Res.iv_IPAddress := "10.0.0.2"; Res.iv_StartedAt := None; Res.iv_FinishedAt := None;
                          Res.iv_State := Res.VzStopped |}
  | NewConn _ _ => 0%nat | ConnClose _ => None | ConnNewSession _ _ => inl 0%nat
  | SessStdinPipe _ => None | SessAfterFunc _ _ => tt | SessStopReap _ => tt | SessClose _ => tt
  | SessOp _ e =>
      match e in Session.sessE X return X with
      | Session.ConsoleSize => None | Session.RequestPty _ _ _ => None | Session.GoResize => tt
      | Session.GoCopyStdin => tt | Session.StartCmd _ => None | Session.Shell => None
      | Session.WriteStdin _ => None | Session.CopyStdin => None | Session.CloseStdin => None
      | Session.Wait => None
      end
  end.

Definition pod_params (name : string) (cpu : Z) : VirtualMachineParams :=
  {| p_UID := name; p_Image := "reg/macos:15"; p_Namespace := "ns"; p_Name := name; p_ContainerName := "vm";
     p_CPU := cpu; p_MemorySize := 8; p_Mounts := []; p_Env := []; p_PostStartAction := None;
     p_IgnoreImageCache := false; p_RegistryCreds := Creds.noCredentials |}.

Definition pt : PrintTable := fun _ => true.

Definition create_ (name : string) (cpu : Z) : NamespacedName * list PodOp :=
  (key "ns" name, [PCreate 0%nat (pod_params name cpu)]).

(** Like [obliging], but the machine with one processor fails to start. *)
Definition first_fails : oracle macE := fun X n e =>
  match e in macE X return X -> X with
  | InstanceStart i => fun x => if (i =? 1)%nat then Some errCanceled else x
  | _ => fun x => x
  end (obliging X n e).

Abbreviation demo_step := (pool_step (traced_handler local first_fails) unit (fun _ _ => [])).
Abbreviation demo_sched := (sched (traced_handler local first_fails) unit (fun _ _ => [])).
Abbreviation demo_config := (@pods_config pt errdefs_model (fun _ => "") "").

(** The first two threads start their machines. *)
Definition first_two : list nat := (repeat 0 15 ++ repeat 1 15)%nat%list.

(** The schedule of the overlap: thread 0 up to the permit, the whole deletion, two
    other creations, the failing rest of thread 0, one more creation. *)
Definition steal : list nat :=
  (repeat 0 9 ++ repeat 1 6 ++ repeat 2 15 ++ repeat 3 15 ++ repeat 0 9 ++ repeat 4 15)%nat%list.

Lemma permits_sound_witness :
  let pods := [create_ "a" 2; create_ "b" 3; create_ "c" 4] in
  match demo_sched first_two (demo_config pods) with
  | Some c => size (live (own c.2)) = 2 /\ size (live (own c.2) ∖ failedStops (trace c.2)) <= MaxVirtualMachines
  | None => False
  end.
Proof.
  intros pods.
  destruct (demo_sched first_two (demo_config pods)) as [c|] eqn:E.
  - split.
    + assert (match demo_sched first_two (demo_config pods) with
              | Some c => size (live (own c.2)) | None => 0 end = 2) as H1 by (vm_compute; reflexivity).
      rewrite E in H1. exact H1.
    + eapply (@permits_sound pt errdefs_model (fun _ => "") "" first_fails pods c).
      * apply (bool_decide_unpack (NoDup (map fst pods))). vm_compute. exact I.
      * repeat constructor.
      * exact (sched_rtc _ _ _ _ _ _ E).
  - assert (is_some (demo_sched first_two (demo_config pods)) = true) as H1
      by (vm_compute; reflexivity).
    rewrite E in H1. discriminate.
Defined.

(** The bound depends on a pod's calls not overlapping: one run.  When pod [a] is deleted
    while its creation is still setting up the machine, the deletion gives the permit
    back and removes the entry; the creation then fails, finds no entry and drains a
    token that belongs to another pod, and a third machine is admitted. *)
Lemma overlapping_delete_admits_third_machine :
  exists c, rtc demo_step
    (demo_config [create_ "a" 1; (key "ns" "a", [PDelete 0%nat 0%Z]); create_ "b" 2; create_ "c" 3; create_ "d" 4]) c /\
    size (live (own c.2)) = 3 /\ MaxVirtualMachines < size (live (own c.2)).
Proof.
  set (c0 := demo_config _).
  destruct (demo_sched steal c0)
    as [c|] eqn:E.
  - assert (size (live (own c.2)) = 3) as H3.
    { assert (match demo_sched steal c0 with
              | Some c => size (live (own c.2)) | None => 0 end = 3) as H1 by (vm_compute; reflexivity).
      rewrite E in H1. exact H1. }
    exists c. split; [exact (sched_rtc _ _ _ _ _ _ E)|]. rewrite H3. split; [done | unfold MaxVirtualMachines; lia].
  - assert (is_some (demo_sched steal c0) = true)
      as H1 by (vm_compute; reflexivity).
    rewrite E in H1. discriminate.
Qed.

(** And it does not count machines of which a stop has failed: their permit is given
    back all the same ([MacOSProofs.delete_outcome]).  Here pod [a] is created and then
    deleted, in that order, and two others are created. *)
Definition stop_fails : oracle macE := fun X n e =>
  match e in macE X return X -> X with
  | InstanceStop _ => fun _ => Some (errMsg "stop failed")
  | _ => fun x => x
  end (obliging X n e).

Abbreviation stop_sched := (sched (traced_handler local stop_fails) unit (fun _ _ => [])).

Definition after_failed_stop : list nat := (repeat 0 41 ++ repeat 1 15 ++ repeat 2 15)%nat%list.

Lemma failed_stop_admits_third_machine :
  exists c, rtc (pool_step (traced_handler local stop_fails) unit (fun _ _ => []))
    (demo_config [(key "ns" "a", [PCreate 0%nat (pod_params "a" 1); PDelete 0%nat 0%Z]); create_ "b" 2; create_ "c" 3]) c /\
    size (live (own c.2)) = 3 /\ failedStops (trace c.2) = {[1]}.
Proof.
  set (c0 := demo_config _).
  destruct (stop_sched after_failed_stop c0) as [c|] eqn:E.
  - exists c. split; [exact (sched_rtc _ _ _ _ _ _ E)|].
    assert (match stop_sched after_failed_stop c0 with
            | Some c => size (live (own c.2)) = 3 /\ bool_decide (failedStops (trace c.2) = {[1]}) = true
            | None => False end) as Hc by (vm_compute; split; reflexivity).
    rewrite E in Hc. destruct Hc as [H1 H2]. split; [exact H1|]. by apply bool_decide_eq_true in H2.
  - assert (is_some (stop_sched after_failed_stop c0) = true) as H1 by (vm_compute; reflexivity).
    rewrite E in H1. discriminate.
Qed.

(** The order of the two deferred calls of a deletion: the permit is released while
    the entry still exists. *)
Lemma release_precedes_delete :
  let i := withPermit true sample_info in
  omap (fun c => match c with Call RecvPermit _ => Some "release" | Call (VmsDelete _) _ => Some "delete" | _ => None end)
    (rev (match run (traced_handler local obliging)
                (@DeleteVirtualMachine pt (fun _ => "") 0%nat "ns" "pod" 0)
                (start (mk ∅ (key "ns" "pod") i 1 ∅)) with
          | Some (_, s) => trace s | None => [] end)) = ["release"; "delete"].
Proof. vm_compute. reflexivity. Qed.

End Permits.
