(* ===== verification/Overlap.v ===== *)
(** * A deletion in the middle of a creation

    [Permits] shows the bound on machines for pods whose calls do not overlap.  This
    file says what the overlap does, for every behaviour of the rest of the system: the
    deletion of a pod runs while the creation of the same pod, which holds its permit,
    sets the machine up.  One thread is followed through another one's run with
    [inject], whose runs are runs of the pool. *)
From Stdlib Require Import ZArith Lia.
From Stdlib Require Import Ascii String.
From stdpp Require Import base list gmap fin_maps strings relations.
From S2P Require Import Prelude GoStrings GoFormat GoErrors GoTime Prog EnvCfg Resource Event NodeIO Stores MacOS MacOSProofs Permits.
Local Open Scope string_scope.
Local Open Scope go_scope.

Module Overlap.
Import VmData MacOS MacOSProofs Permits.

(** ** A program that runs in the middle of another *)

Section Inject.
Context {E : Type -> Type} {S A : Type}.
Variables (h : handler E S) (here : forall X, E X -> bool) (q : prog E A).

Abbreviation steps := (rtc (pool_step h A (fun _ _ => []))).

(** [q] runs right before the first operation of [p] that [here] accepts; the result
    says whether it did, and with what. *)
Fixpoint inject {B} (p : prog E B) : prog E (B * option A) :=
  match p with
  | Ret b => Ret (b, None)
  | Do e k =>
      if here _ e then (a <- q ;; b <- Do e k ;; Ret (b, Some a))
      else Do e (fun x => inject (k x))
  end.

Lemma twp_inject_bind {B C} (p : prog E B) (f : B -> prog E C) Q s :
  all_ops (fun X e => here X e = false) p ->
  twp h p (fun b => twp h (inject (f b)) Q) s -> twp h (inject (bind p f)) Q s.
Proof.
  revert s. induction p as [b|X e k IH]; intros s Hp Hw; [exact Hw|]. destruct Hp as [He Hk].
  cbn [bind inject]. rewrite He. cbn [twp] in *. destruct (h X e s) as [[x s']|]; [|done]. by apply IH.
Qed.

(** The end of the first program, without the second one. *)
Lemma twp_inject_missed {B} (p : prog E B) Q s :
  all_ops (fun X e => here X e = false) p ->
  twp h p (fun b => Q (b, None)) s -> twp h (inject p) Q s.
Proof.
  revert s. induction p as [b|X e k IH]; intros s Hp Hw; [exact Hw|]. destruct Hp as [He Hk].
  cbn [inject]. rewrite He. cbn [twp] in *. destruct (h X e s) as [[x s']|]; [|done]. by apply IH.
Qed.

Lemma twp_inject_here {B X} (e : E X) (k : X -> prog E B) Q s :
  here X e = true -> twp h q (fun a => twp h (Do e k) (fun b => Q (b, Some a))) s -> twp h (inject (Do e k)) Q s.
Proof.
  intros He Hw. cbn [inject]. rewrite He. apply twp_bind. eapply twp_mono; [|exact Hw].
  intros a s' Hk. apply twp_bind. eapply twp_mono; [|exact Hk]. intros b s'' HQ. by apply twp_ret.
Qed.

(** One thread of a pool runs to its end, the others wait. *)
Lemma pool_runs (p : prog E A) ps i s a s' :
  ps !! i = Some p -> run h p s = Some (a, s') -> steps (ps, s) (<[i := Ret a]> ps, s').
Proof.
  revert ps s. induction p as [b|X e k IH]; intros ps s Hp Hr; cbn [run] in Hr.
  - injection Hr as <- <-. by rewrite list_insert_id.
  - destruct (h X e s) as [[x s1]|] eqn:Eh; [|done].
    eapply rtc_l; [exists i; by apply (step_thread_do h A (fun _ _ => []) i ps s X e k x s1)|]. rewrite app_nil_r.
    assert (<[i := k x]> ps !! i = Some (k x)) as Hi.
    { apply list_lookup_insert_eq. by eapply lookup_lt_Some. }
    etrans; [exact (IH x _ _ Hi Hr)|]. by rewrite list_insert_insert_eq.
Qed.

(** A run with [q] in the middle is a run of the pool of both. *)
Lemma inject_steps (p : prog E A) s a o s' :
  run h (inject p) s = Some ((a, o), s') ->
  steps ([p; q], s) ([Ret a; match o with Some b => Ret b | None => q end], s').
Proof.
  revert s. induction p as [b|X e k IH]; intros s Hr; cbn [inject] in Hr.
  - injection Hr as <- <- <-. done.
  - destruct (here X e).
    + rewrite run_bind in Hr. destruct (run h q s) as [[b s1]|] eqn:Eq; [|done].
      change (run h (bind (Do e k) (fun b0 => Ret (b0, Some b))) s1 = Some (a, o, s')) in Hr.
      rewrite run_bind in Hr. destruct (run h (Do e k) s1) as [[a1 s2]|] eqn:Ep; [|done].
      injection Hr as <- <- <-.
      etrans; [exact (pool_runs q [Do e k; q] 1 s b s1 eq_refl Eq)|].
      exact (pool_runs (Do e k) [Do e k; Ret b] 0 s1 a1 s2 eq_refl Ep).
    + cbn [run] in Hr. destruct (h X e s) as [[x s1]|] eqn:Eh; [|done].
      eapply rtc_l; [exists 0%nat; by apply (step_thread_do h A (fun _ _ => []) 0 [Do e k; q] s X e k x s1)|].
      exact (IH x s1 Hr).
Qed.

End Inject.

(** ** The entry is gone *)

Section Gone.
Context `{PrintTable} `{Errdefs}.
Variables (Getenv : EnvCfg.environ) (iface : string) (env : oracle macE).

Abbreviation hdl := (traced_handler local env).

(** Operations that find nothing to do for a pod that has no entry. *)
Definition calm (k : NamespacedName) X (e : macE X) : Prop :=
  match e with VmsUpdate k' _ => k' = k | Record_ _ => True | _ => quiet X e end.

Lemma calm_quiet k k' {A} (p : prog macE A) : all_ops (quiet_on k') p -> all_ops (calm k) p.
Proof. apply all_ops_mono. intros X e. by destruct e. Qed.

Lemma calm_local k X (e : macE X) x u : vms u !! k = None -> calm k X e -> exists x', local X e x u = Some (x', u).
Proof.
  intros Hk. destruct e; simpl; intros He; try done; eauto. subst k0.
  unfold Update. rewrite key_eta, Hk. simpl. exists None. by destruct u.
Qed.

Lemma twp_calm k {A} (p : prog macE A) s (Q : A -> traced macE MacOSClient -> Prop) :
  vms (own s) !! k = None -> all_ops (calm k) p -> (forall a s', own s' = own s -> Q a s') -> twp hdl p Q s.
Proof. intros Hk Hp HQ. apply (twp_quiet local env (calm k)); [|done | auto]. intros X e x. by apply calm_local. Qed.

Ltac calm_step :=
  match goal with
  | |- all_ops _ (Ret _) => exact I
  | |- all_ops _ (bind _ _) => apply all_ops_bind; [|intros]
  | |- all_ops _ (perform _) => apply all_ops_perform; first [exact I | reflexivity]
  | |- all_ops _ (match ?x with _ => _ end) => destruct x
  | |- all_ops _ (if ?x then _ else _) => destruct x
  end.
Ltac calm_tac := repeat calm_step.

Lemma calm_create cfg p : all_ops (calm (p_key p)) (createVirtualMachineInstance iface cfg p).
Proof.
  unfold createVirtualMachineInstance, vmsModify. calm_tac.
  eapply (calm_quiet _ (p_key p)), quiet_setup.
Qed.

Lemma calm_postStart ctx p : all_ops (calm (p_key p)) (postStart Getenv ctx p).
Proof.
  unfold postStart, recordPostStart, unlessCanceled, vmsModify. calm_tac; eapply calm_quiet;
    first [apply quiet_execPostStart | apply quiet_wait].
Qed.

Lemma calm_finalize p e : all_ops (calm (p_key p)) (finalizeVirtualMachineInfo p e).
Proof. unfold finalizeVirtualMachineInfo, vmsModify. calm_tac. Qed.

(** The rest of a creation that holds a permit, the deferred calls included. *)
Definition rest (ctx downloadCtx : Ctx) (cfg : MacPlatformConfigurationOptions) (p : VirtualMachineParams)
    (g : permitGuard) : prog macE (option error) :=
  (err <- (r <- startVirtualMachine Getenv iface ctx cfg p g ;; Release (snd r) ;; Ret (fst r)) ;;
   perform (Cancel downloadCtx) ;;
   finalizeVirtualMachineInfo p err) ;;
  Ret None.

(** What it does for a pod without an entry: a machine that starts keeps running, and
    nothing accounts for it; one that does not takes somebody else's permit. *)
Definition leftover (v : VirtualMachineData) (n : nat) (l : gset Res.InstRef) (u : MacOSClient) : Prop :=
  vms u = v /\
  ((exists vm, vmPermits u = n /\ live u = {[vm]} ∪ l) \/ (vmPermits u = pred n /\ live u = l)).

Lemma twp_release_gone k g s v n l (Q : permitGuard -> traced macE MacOSClient -> Prop) :
  own s = {| vms := v; vmPermits := n; live := l |} -> v !! k = None ->
  g_key g = k -> g_committed g = false -> g_released g = false ->
  (forall g' s', own s' = {| vms := v; vmPermits := pred n; live := l |} -> Q g' s') ->
  twp hdl (Release g) Q s.
Proof.
  intros Ho Hk Hg Hc Hr HQ. unfold Release. rewrite Hr, Hc, Hg. apply twp_bind. unfold releasePermit.
  destruct s as [c tr u]. simpl in Ho. subst u. cbn [bind perform twp]. unfold traced_handler at 1. cbn [local own].
  unfold Update. rewrite key_eta. cbn [vms]. rewrite Hk. cbn. destruct n as [|n]; cbn; by apply HQ.
Qed.

Lemma twp_rest ctx dctx cfg p g s v n l :
  own s = {| vms := v; vmPermits := n; live := l |} -> v !! p_key p = None ->
  g_key g = p_key p -> g_committed g = false -> g_released g = false ->
  twp hdl (rest ctx dctx cfg p g) (fun r s' => r = None /\ leftover v n l (own s')) s.
Proof.
  intros Ho Hk Hg Hc Hr. unfold rest. apply twp_bind.
  apply (twp_mono _ _ (fun _ s' => leftover v n l (own s'))); [intros [] s' Hl; by apply twp_ret|]. apply twp_bind.
  apply (twp_mono _ _ (fun _ s' => leftover v n l (own s'))).
  { intros err s1 Hl. assert (vms (own s1) !! p_key p = None) as Hk1 by (by destruct Hl as [-> _]).
    apply twp_bind, (twp_calm (p_key p)); [done | by calm_tac |]. intros [] s2 Ho2.
    apply (twp_calm (p_key p)); [by rewrite Ho2 | apply calm_finalize |]. intros [] s3 Ho3. by rewrite Ho3, Ho2. }
  apply twp_bind. unfold startVirtualMachine. apply twp_bind, (twp_calm (p_key p)); [by rewrite Ho | apply calm_create |].
  intros [vm|e] s1 Ho1; rewrite Ho in Ho1.
  2: { ret. apply twp_bind. eapply twp_release_gone; [exact Ho1 | done..|]. intros g' s2 Ho2. ret.
       rewrite Ho2. split; [done | by right]. }
  apply twp_bind. destruct s1 as [c1 t1 u1]. simpl in Ho1. subst u1. cbn [twp perform]. unfold traced_handler at 1.
  cbn [local own]. destruct (env _ _ (InstanceStart vm)) as [e|]; cbn [set_live].
  - apply twp_bind, (twp_calm (p_key p)); [done | by calm_tac |]. intros [] s2 Ho2. ret.
    apply twp_bind. eapply twp_release_gone; [exact Ho2 | done..|]. intros g' s3 Ho3. ret.
    rewrite Ho3. split; [done | by right].
  - apply twp_bind, (twp_calm (p_key p)); [done | by calm_tac |]. intros [] s2 Ho2.
    apply twp_bind, (twp_calm (p_key p)); [by rewrite Ho2 | apply calm_postStart |]. intros err s3 Ho3. ret.
    apply twp_bind. unfold Release. cbn. rewrite Hr. cbn. rewrite Ho3, Ho2. split; [done|]. left. by exists vm.
Qed.

End Gone.

(** ** The overlap *)

(** The first operation of the setup. *)
Definition setsUp X (e : macE X) : bool := match e with NewPlatformConfiguration _ _ _ => true | _ => false end.

Section Both.
Context `{PrintTable} `{Errdefs}.
Variables (Getenv : EnvCfg.environ) (iface : string) (env : oracle macE) (v : VirtualMachineData).
Variables (p : VirtualMachineParams) (ctx dctx : Ctx) (grace : Z) (n : nat) (l : gset Res.InstRef).

Abbreviation hdl := (traced_handler local env).
Abbreviation deletion := (DeleteVirtualMachine Getenv dctx (p_Namespace p) (p_Name p) grace).

(** How the two end: the creation never came to its setup, or the deletion ran first. *)
Definition overlapped (r : option error * option (option error)) (s : traced macE MacOSClient) : Prop :=
  fst r = None /\
  match snd r with
  | None => exists i, own s = mk v (p_key p) i n l
  | Some e => e = None /\ leftover v n l (own s)
  end.

Lemma twp_inject_op {X} (e : macE X) (k : X -> prog macE (option error)) Q s :
  setsUp X e = false -> twp hdl (perform e) (fun x => twp hdl (inject setsUp deletion (k x)) Q) s ->
  twp hdl (inject setsUp deletion (Do e k)) Q s.
Proof. intros He Hw. cbn [inject]. by rewrite He. Qed.

(** The creation ends early. *)
Definition ends (err : option error) (downloadCtx : Ctx) : prog macE (option error) :=
  perform (Cancel downloadCtx) ;; finalizeVirtualMachineInfo p err ;; Ret None.

Lemma twp_ends err downloadCtx evs i s :
  at_ v p evs i n l s -> twp hdl (inject setsUp deletion (ends err downloadCtx)) overlapped s.
Proof.
  intros Hs. unfold ends. apply twp_inject_missed; [by repeat split|]. apply twp_bind.
  eapply twp_sub; [by repeat split | exact Hs |]. intros [] s1 Hs1.
  apply twp_bind. eapply twp_finalize; [exact Hs1|]. intros s2 [_ Ho2]. apply twp_ret.
  split; [done|]. by eexists.
Qed.

(** The deletion, then the rest of the creation. *)
Lemma twp_overlap cfg downloadCtx evs i s :
  v !! p_key p = None -> PermitAcquired i = true -> Res.instance (Resource i) = None ->
  at_ v p evs i (S n) l s ->
  twp hdl (inject setsUp deletion (rest Getenv iface ctx downloadCtx cfg p
    {| g_key := p_key p; g_committed := false; g_released := false |})) overlapped s.
Proof.
  intros Hv Ha Hi [_ Ho]. destruct s as [t tr u]. simpl in Ho. subst u.
  apply (twp_inject_here hdl setsUp deletion (NewPlatformConfiguration cfg true (p_UID p))); [done|].
  pose proof (twp_delete_from Getenv env v t tr dctx (p_Namespace p) (p_Name p) grace i n l) as Hd.
  rewrite Ha in Hd. eapply twp_mono; [|exact Hd]. intros r s1 (Ho1 & _ & _ & Hr). rewrite Hi in Ho1, Hr.
  rewrite delete_id in Ho1 by exact Hv.
  set (g := {| g_key := p_key p; g_committed := false; g_released := false |}).
  eapply twp_mono; [|exact (twp_rest Getenv iface env ctx downloadCtx cfg p g s1 v n l Ho1 Hv eq_refl eq_refl eq_refl)].
  intros e s2 [-> Hl]. split; [done|]. by split.
Qed.

Lemma twp_creation_overlap :
  n < MaxVirtualMachines -> v !! p_key p = None ->
  twp hdl (inject setsUp deletion (creation Getenv iface ctx p)) overlapped (start {| vms := v; vmPermits := n; live := l |}).
Proof.
  intros Hn Hv. apply (twp_inject_op (NewConn (p_Namespace p) (p_Name p))); [done|]. cbn [twp perform].
  unfold traced_handler at 1. cbn [local own start].
  apply twp_inject_op; [done|]. cbn [twp perform]. unfold traced_handler at 1. cbn [local own].
  unfold LoadOrStore. rewrite key_eta. cbn [vms]. rewrite Hv.
  set (i0 := {| Ref := _ |}). set (s0 := Traced _ _ _).
  assert (at_ v p [] i0 n l s0) as Hs0 by done. clearbody s0.
  apply twp_inject_op; [done|]. eapply twp_record; [exact Hs0|]. clear s0 Hs0. intros s0 Hs0.
  apply twp_inject_op; [done|]. eapply twp_sub; [by quiet_tac | exact Hs0|]. intros c s1 Hs1.
  apply twp_inject_op; [done|]. eapply twp_modify; [exact Hs1|]. cbn [fst snd]. intros s2 Hs2.
  apply twp_inject_op; [done|]. eapply twp_sub; [by quiet_tac | exact Hs2|]. intros [[cfg d]|e] s3 Hs3.
  - apply twp_inject_op; [done|]. eapply twp_record; [exact Hs3|]. intros s4 Hs4.
    apply twp_inject_op; [done|]. eapply twp_select; [exact Hn | exact Hs4 | |].
    + intros e s5 Hs5. exact (twp_ends (Some (ctxErr e)) c _ _ s5 Hs5).
    + intros s5 Hs5. apply twp_inject_op; [done|]. eapply twp_modify; [exact Hs5|]. cbn [fst snd]. intros s6 Hs6.
      refine (twp_overlap cfg c _ _ s6 Hv _ _ Hs6); reflexivity.
  - destruct (errors_Is e errCanceled) eqn:Ee.
    + assert (unlessCanceled e (BackOffPullImage (p_Image p) (p_ContainerName p) e) = Ret tt) as Hu
        by (unfold unlessCanceled; by rewrite Ee).
      rewrite Hu. exact (twp_ends (Some e) c _ _ s3 Hs3).
    + assert (unlessCanceled e (BackOffPullImage (p_Image p) (p_ContainerName p) e)
        = perform (Record_ (BackOffPullImage (p_Image p) (p_ContainerName p) e))) as Hu
        by (unfold unlessCanceled; by rewrite Ee).
      rewrite Hu. apply twp_inject_op; [done|]. eapply twp_record; [exact Hs3|]. intros s4 Hs4.
      exact (twp_ends (Some e) c _ _ s4 Hs4).
Qed.


End Both.

(** ** Nothing fails, and three machines run *)

Abbreviation calls_of_pods :=
  (@pods_config pt errdefs_model (fun _ => "") ""
    [create_ "a" 1; (key "ns" "a", [PDelete 0%nat 0%Z]); create_ "b" 2; create_ "c" 3]).

(** The creation of [a] up to its permit, the whole deletion of [a], the rest of the
    creation, and two more creations up to their machines. *)
Definition between : list nat := (repeat 0 9 ++ repeat 1 6 ++ repeat 0 15 ++ repeat 2 15 ++ repeat 3 15)%nat%list.

Abbreviation obliged := (sched (traced_handler local obliging) unit (fun _ _ => []) between calls_of_pods).

(** In a world where every call succeeds: the machine of a deleted pod runs on, and two
    others are admitted next to it. *)
Lemma deleted_machine_runs_on :
  exists c, rtc (pool_step (traced_handler local obliging) unit (fun _ _ => [])) calls_of_pods c /\
    vms (own c.2) !! key "ns" "a" = None /\ live (own c.2) = {[1; 2; 3]}%nat /\
    MaxVirtualMachines < size (live (own c.2)).
Proof.
  destruct obliged as [c|] eqn:E.
  - exists c. split; [exact (sched_rtc _ _ _ _ _ _ E)|].
    assert (match obliged with
            | Some c => vms (own c.2) !! key "ns" "a" = None /\
                bool_decide (live (own c.2) = {[1; 2; 3]}%nat) = true
            | None => False end) as Hc by (vm_compute; split; reflexivity).
    rewrite E in Hc. destruct Hc as [Hk Hl]. apply bool_decide_eq_true in Hl. rewrite Hl.
    split_and!; [exact Hk | done | vm_compute; lia].
  - assert (is_some obliged = true) as Hs by (vm_compute; reflexivity). by rewrite E in Hs.
Qed.


End Overlap.
