(* ===== verification/SshConn.v ===== *)
(** * internal/sshconn: the persistent SSH connection of a virtual machine

    Every section of [connection.go] that holds the mutex is one function on the
    state ([acquire], [retire], [publish], [close]); what happens outside the mutex (a
    dial, opening a channel, a keepalive request) is a step of its own.  [step] is the
    transition system of any number of goroutines on one connection: it lets the
    critical sections run in any order, with any client pointer as argument, so every
    interleaving of the Go code is one of its runs.

    [NewSession] itself is a program over these sections and the channel open. *)
From Stdlib Require Import ZArith Lia.
From Stdlib Require Import Ascii String.
From stdpp Require Import base list gmap fin_maps strings relations.
From S2P Require Import Prelude GoStrings GoErrors Prog.
Local Open Scope string_scope.
Local Open Scope go_scope.

Module SshConn.

(* src/internal/sshconn/connection.go : 17-17 ErrClosed *)
Definition ErrClosed : error := errNew "ssh connection closed".

(** [*ssh.Client] and [*dialOp] pointers, and sessions. *)
Definition ClientRef := nat.
Definition OpRef := nat.
Definition SessRef := nat.

(** Where a dial is: running outside the mutex, back with a result that is not yet
    published, or done ([close(op.done)], with [op.client] and [op.err]). *)
(* src/internal/sshconn/connection.go : dialOp *)
Inductive dialOp :=
| Dialing
| Dialed (r : ClientRef + error)
| Done (r : ClientRef + error).

(* src/internal/sshconn/connection.go : Connection *)
Record Connection := {
  client : option ClientRef;
  kaCancel : option ClientRef;      (* the client whose keepalive it stops *)
  closed : bool;
  pending : option OpRef
}.

(** The connection and what its pointers lead to: the dials ever started, the
    transports that are open, the keepalive goroutines that run. *)
Record world := {
  conn : Connection;
  ops : gmap OpRef dialOp;
  cancelledOps : gset OpRef;
  opened : gset ClientRef;
  everOpened : gset ClientRef;
  keepalives : gset ClientRef
}.

(* src/internal/sshconn/connection.go : New *)
Definition New : world :=
  {| conn := {| client := None; kaCancel := None; closed := false; pending := None |};
     ops := ∅; cancelledOps := ∅; opened := ∅; everOpened := ∅; keepalives := ∅ |}.

Definition set_conn (c : Connection) (w : world) : world :=
  {| conn := c; ops := ops w; cancelledOps := cancelledOps w; opened := opened w; everOpened := everOpened w;
     keepalives := keepalives w |}.
Definition set_ops (o : gmap OpRef dialOp) (w : world) : world :=
  {| conn := conn w; ops := o; cancelledOps := cancelledOps w; opened := opened w; everOpened := everOpened w;
     keepalives := keepalives w |}.

(** [client.Close()] *)
Definition closeClient (c : ClientRef) (w : world) : world :=
  {| conn := conn w; ops := ops w; cancelledOps := cancelledOps w; opened := opened w ∖ {[c]};
     everOpened := everOpened w; keepalives := keepalives w |}.

Definition set_client (c : option ClientRef) (w : world) : world :=
  set_conn {| client := c; kaCancel := kaCancel (conn w); closed := closed (conn w); pending := pending (conn w) |} w.
Definition set_pending (p : option OpRef) (w : world) : world :=
  set_conn {| client := client (conn w); kaCancel := kaCancel (conn w); closed := closed (conn w); pending := p |} w.

(* src/internal/sshconn/connection.go : Connection.stopKeepaliveLocked *)
Definition stopKeepaliveLocked (w : world) : world :=
  match kaCancel (conn w) with
  | None => w
  | Some c =>
      {| conn := {| client := client (conn w); kaCancel := None; closed := closed (conn w); pending := pending (conn w) |};
         ops := ops w; cancelledOps := cancelledOps w; opened := opened w; everOpened := everOpened w;
         keepalives := keepalives w ∖ {[c]} |}
  end.

(** The retirement that [retire] and [clientForSession] share. *)
Definition dropClient (c : ClientRef) (w : world) : world :=
  set_client None (stopKeepaliveLocked (closeClient c w)).

(* src/internal/sshconn/connection.go : Connection.retire *)
Definition retire (c : ClientRef) (w : world) : world :=
  if closed (conn w) || negb (bool_decide (client (conn w) = Some c)) then w
  else dropClient c w.

(** The locked part of [clientForSession] ends with the connection closed, with a
    usable client, or with an operation to wait for, which this caller started or
    joined. *)
Inductive acquired := AClosed | ACached (c : ClientRef) | AWait (op : OpRef) (started : bool).

(** [op := c.pending; if op == nil { ... go c.runDial(dialCtx, op) }] *)
Definition joinPending (w : world) : acquired * world :=
  match pending (conn w) with
  | Some op => (AWait op false, w)
  | None =>
      let op := fresh (dom (ops w)) in
      (AWait op true, set_pending (Some op) (set_ops (<[op := Dialing]> (ops w)) w))
  end.

(* src/internal/sshconn/connection.go : 150-187 Connection.clientForSession *)
Definition acquire (stale : option ClientRef) (w : world) : acquired * world :=
  if closed (conn w) then (AClosed, w)
  else
    match client (conn w) with
    | Some c =>
        if bool_decide (stale = Some c) then joinPending (dropClient c w) else (ACached c, w)
    | None => joinPending w
    end.

(** The locked part of [runDial]; the deferred [close(op.done)] is the move to [Done]. *)
(* src/internal/sshconn/connection.go : Connection.runDial *)
Definition publish (op : OpRef) (r : ClientRef + error) (w : world) : world :=
  let w := set_pending None w in
  if closed (conn w) then
    let w := match r with inl c => closeClient c w | inr _ => w end in
    set_ops (<[op := Done (inr ErrClosed)]> (ops w)) w
  else
    match r with
    | inr e => set_ops (<[op := Done (inr e)]> (ops w)) w
    | inl c =>
        {| conn := {| client := Some c; kaCancel := Some c; closed := false; pending := None |};
           ops := <[op := Done (inl c)]> (ops w);
           cancelledOps := cancelledOps w; opened := opened w; everOpened := everOpened w;
           keepalives := {[c]} ∪ keepalives w |}
    end.

(* src/internal/sshconn/connection.go : Connection.Close *)
Definition close (w : world) : world :=
  if closed (conn w) then w
  else
    let w := set_conn {| client := client (conn w); kaCancel := kaCancel (conn w); closed := true;
                         pending := pending (conn w) |} w in
    let w := match pending (conn w) with
             | Some op => {| conn := conn w; ops := ops w; cancelledOps := {[op]} ∪ cancelledOps w;
                             opened := opened w; everOpened := everOpened w; keepalives := keepalives w |}
             | None => w
             end in
    let w := stopKeepaliveLocked w in
    match client (conn w) with
    | Some c => set_client None (closeClient c w)
    | None => w
    end.

(** ** The transition system *)

(** A dial that returns a client returns a new one, whose transport is open. *)
Definition dialReturns (op : OpRef) (r : ClientRef + error) (w : world) : world :=
  let s := match r with inl c => {[c]} | inr _ => ∅ end in
  {| conn := conn w; ops := <[op := Dialed r]> (ops w); cancelledOps := cancelledOps w;
     opened := s ∪ opened w; everOpened := s ∪ everOpened w; keepalives := keepalives w |}.

(** A keepalive goroutine ends by itself when a request fails. *)
Definition keepaliveEnds (c : ClientRef) (w : world) : world :=
  {| conn := conn w; ops := ops w; cancelledOps := cancelledOps w; opened := opened w; everOpened := everOpened w;
     keepalives := keepalives w ∖ {[c]} |}.

Inductive step : world -> world -> Prop :=
| SAcquire stale w : step w (snd (acquire stale w))
| SRetire c w : step w (retire c w)
| SDialReturns op r w : ops w !! op = Some Dialing ->
    match r with inl c => c ∉ everOpened w | inr _ => True end -> step w (dialReturns op r w)
| SPublish op r w : ops w !! op = Some (Dialed r) -> step w (publish op r w)
| SClose w : step w (close w)
| SKeepaliveEnds c w : step w (keepaliveEnds c w).

(** ** The invariant *)

(** The dial is not done yet. *)
Definition undone (w : world) (op : OpRef) : Prop :=
  exists d, ops w !! op = Some d /\ match d with Done _ => False | _ => True end.

(** A client that a dial has returned and nobody has published. *)
Definition inHand (w : world) (c : ClientRef) : Prop := exists op, ops w !! op = Some (Dialed (inl c)).

Record wf (w : world) : Prop := {
  wf_closed : closed (conn w) = true -> client (conn w) = None;
  wf_ka : kaCancel (conn w) = client (conn w);
  wf_keepalives : forall c, c ∈ keepalives w -> client (conn w) = Some c;
  wf_pending : forall op, undone w op <-> pending (conn w) = Some op;
  wf_idle : pending (conn w) <> None -> client (conn w) = None;
  wf_opened : forall c, c ∈ opened w -> client (conn w) = Some c \/ inHand w c;
  wf_client : forall c, client (conn w) = Some c -> c ∈ opened w /\ c ∈ everOpened w;
  wf_hand : forall c, inHand w c -> c ∈ opened w /\ c ∈ everOpened w;
}.

Lemma wf_New : wf New.
Proof.
  split; simpl; try done; try set_solver.
  - intros op. split; [intros (d & H & _); simpl in H; by rewrite lookup_empty in H | done].
  - intros c [op H]. simpl in H. by rewrite lookup_empty in H.
Qed.

(** Dropping the cached client keeps everything but the client. *)
Lemma dropClient_conn c w :
  kaCancel (conn w) = Some c ->
  conn (dropClient c w) =
    {| client := None; kaCancel := None; closed := closed (conn w); pending := pending (conn w) |} /\
  ops (dropClient c w) = ops w /\ opened (dropClient c w) = opened w ∖ {[c]} /\
  everOpened (dropClient c w) = everOpened w /\ keepalives (dropClient c w) = keepalives w ∖ {[c]}.
Proof. intros Hk. unfold dropClient, stopKeepaliveLocked. simpl. by rewrite Hk. Qed.

Lemma wf_drop c w : wf w -> client (conn w) = Some c -> wf (dropClient c w).
Proof.
  intros Hw Hc. pose proof (wf_ka w Hw) as Hk. rewrite Hc in Hk.
  destruct (dropClient_conn c w Hk) as (E1 & E2 & E3 & E4 & E5).
  assert (forall op, undone (dropClient c w) op <-> undone w op) as Hu by (intros; unfold undone; by rewrite E2).
  assert (forall c', inHand (dropClient c w) c' <-> inHand w c') as Hh by (intros; unfold inHand; by rewrite E2).
  split; rewrite ?E1, ?E3, ?E4, ?E5; simpl; try done.
  - intros c'. rewrite elem_of_difference, elem_of_singleton. intros [Hin Hne].
    pose proof (wf_keepalives w Hw c' Hin). congruence.
  - intros op. rewrite Hu. apply (wf_pending w Hw).
  - intros c'. rewrite elem_of_difference, elem_of_singleton. intros [Hin Hne].
    destruct (wf_opened w Hw c' Hin) as [H|H]; [congruence | right; by apply Hh].
  - intros c' [o Ho]. exfalso. rewrite E2 in Ho.
    assert (pending (conn w) = Some o) as Hp by (apply (wf_pending w Hw); by eexists).
    rewrite (wf_idle w Hw) in Hc by (by rewrite Hp). done.
Qed.

Lemma wf_join w : wf w -> closed (conn w) = false -> client (conn w) = None -> wf (snd (joinPending w)).
Proof.
  intros Hw Hcl Hc. unfold joinPending. destruct (pending (conn w)) as [op|] eqn:Ep; [done|].
  set (op := fresh (dom (ops w))).
  assert (ops w !! op = None) as Hf by (apply not_elem_of_dom, is_fresh).
  simpl.
  split; simpl; rewrite ?Hc; try done.
  - by rewrite (wf_ka w Hw), Hc.
  - intros c Hin. pose proof (wf_keepalives w Hw c Hin). congruence.
  - intros op'. unfold undone. simpl. destruct (decide (op = op')) as [<-|Hne].
    + rewrite lookup_insert_eq. split; [done|]. intros _. by exists Dialing.
    + rewrite lookup_insert_ne by done. split; [|intros [= ?]; congruence].
      intros Hu. assert (undone w op') as Hu' by done.
      apply (wf_pending w Hw) in Hu'. congruence.
  - intros c Hin. destruct (wf_opened w Hw c Hin) as [H|[o Ho]]; [congruence|]. right. exists o. simpl.
    rewrite lookup_insert_ne; [done | congruence].
  - intros c [o Ho]. simpl in Ho. destruct (decide (op = o)) as [<-|Hne].
    + by rewrite lookup_insert_eq in Ho.
    + rewrite lookup_insert_ne in Ho by done. apply (wf_hand w Hw). by exists o.
Qed.

Lemma wf_acquire stale w : wf w -> wf (snd (acquire stale w)).
Proof.
  intros Hw. unfold acquire. destruct (closed (conn w)) eqn:Ecl; [done|].
  destruct (client (conn w)) as [c|] eqn:Ec; [|by apply wf_join].
  case_bool_decide; [|done]. pose proof (wf_ka w Hw) as Hk. rewrite Ec in Hk.
  destruct (dropClient_conn c w Hk) as (E1 & _).
  apply wf_join; [by apply wf_drop | by rewrite E1 | by rewrite E1].
Qed.

Lemma wf_retire c w : wf w -> wf (retire c w).
Proof.
  intros Hw. unfold retire. destruct (closed (conn w)); [done|]. simpl.
  case_bool_decide; [|done]. simpl. by apply wf_drop.
Qed.

Lemma wf_dialReturns op r w :
  wf w -> ops w !! op = Some Dialing -> match r with inl c => c ∉ everOpened w | inr _ => True end ->
  wf (dialReturns op r w).
Proof.
  intros Hw Hop Hr.
  assert (forall op', undone (dialReturns op r w) op' <-> undone w op') as Hu.
  { intros op'. unfold undone. simpl. destruct (decide (op = op')) as [<-|Hne].
    - rewrite lookup_insert_eq, Hop. split; intros _; eexists; (split; [reflexivity | exact I]).
    - by rewrite lookup_insert_ne. }
  assert (forall c, inHand w c -> inHand (dialReturns op r w) c) as Hh.
  { intros c [o Ho]. exists o. simpl. rewrite lookup_insert_ne; [done | congruence]. }
  split; simpl; try apply Hw.
  - intros op'. rewrite Hu. apply (wf_pending w Hw).
  - intros c. rewrite elem_of_union. intros [Hin|Hin].
    + right. exists op. simpl. rewrite lookup_insert_eq. destruct r as [c'|e]; [|set_solver].
      apply elem_of_singleton in Hin as ->. done.
    + destruct (wf_opened w Hw c Hin) as [H|H]; [by left | right; by apply Hh].
  - intros c Hc. destruct (wf_client w Hw c Hc). set_solver.
  - intros c [o Ho]. simpl in Ho. destruct (decide (op = o)) as [<-|Hne].
    + rewrite lookup_insert_eq in Ho. injection Ho as ->. set_solver.
    + rewrite lookup_insert_ne in Ho by done.
      destruct (wf_hand w Hw c) as [? ?]; [by exists o | set_solver].
Qed.

(** The published operation was the only one under way. *)
Lemma publish_only op r w op' d :
  wf w -> ops w !! op = Some (Dialed r) -> op' <> op -> ops w !! op' = Some d -> exists x, d = Done x.
Proof.
  intros Hw Hop Hne Hd.
  assert (undone w op) as H1 by (by exists (Dialed r)).
  destruct d as [|r'|r']; [exfalso | exfalso | by eexists];
    (assert (undone w op') as H2 by (by eexists));
    apply (wf_pending w Hw) in H1, H2; congruence.
Qed.

Lemma wf_publish op r w : wf w -> ops w !! op = Some (Dialed r) -> wf (publish op r w).
Proof.
  intros Hw Hop.
  assert (pending (conn w) = Some op) as Hp by (apply (wf_pending w Hw); by exists (Dialed r)).
  assert (client (conn w) = None) as Hc by (apply (wf_idle w Hw); by rewrite Hp).
  pose proof (publish_only op r w) as Honly.
  assert (forall x op', ~ (exists d, <[op := Done x]> (ops w) !! op' = Some d /\ match d with Done _ => False | _ => True end)) as Hnone.
  { intros x op' (d & Hd & Hm). destruct (decide (op = op')) as [<-|Hne].
    - rewrite lookup_insert_eq in Hd. by injection Hd as <-.
    - rewrite lookup_insert_ne in Hd by done. by destruct (Honly op' d Hw Hop ltac:(done) Hd) as [y ->]. }
  assert (forall x c, ~ (exists o, <[op := Done x]> (ops w) !! o = Some (Dialed (inl c)))) as Hnoh.
  { intros x c [o Ho]. apply (Hnone x o). by exists (Dialed (inl c)). }
  assert (forall c, c ∈ opened w -> r = inl c) as Hop'.
  { intros c Hin. destruct (wf_opened w Hw c Hin) as [H|[o Ho]]; [congruence|].
    destruct (decide (o = op)) as [->|Hne]; [congruence|].
    by destruct (Honly o _ Hw Hop Hne Ho). }
  assert (forall c, c ∈ keepalives w -> False) as Hka.
  { intros c Hin. pose proof (wf_keepalives w Hw c Hin). congruence. }
  unfold publish. simpl. destruct (closed (conn w)) eqn:Ecl; [|destruct r as [c|e]].
  - destruct r as [c|e]; (split; simpl; rewrite ?Hc; try done;
      try (by rewrite (wf_ka w Hw), Hc); try (intros c' Hin; exfalso; by eapply Hka);
      try (intros op'; split; [intros Hu; exfalso; unfold undone in Hu; simpl in Hu; by eapply Hnone | done]);
      try (intros c' Hin; exfalso; unfold inHand in Hin; simpl in Hin; by eapply Hnoh)).
    + intros c'. rewrite elem_of_difference, elem_of_singleton. intros [Hin Hne].
      apply Hop' in Hin. congruence.
    + intros c' Hin. apply Hop' in Hin. congruence.
  - destruct (wf_hand w Hw c) as [Hin Hev]; [by exists op|].
    split; simpl; try done;
      try (intros c'; rewrite elem_of_union, elem_of_singleton; intros [->|H]; [done | exfalso; by eapply Hka]);
      try (intros op'; split; [intros Hu; exfalso; unfold undone in Hu; simpl in Hu; by eapply Hnone | done]);
      try (intros c' H; exfalso; unfold inHand in H; simpl in H; by eapply Hnoh).
    + intros c' H. apply Hop' in H as [= ->]. by left.
    + by intros c' [= <-].
  - split; simpl; rewrite ?Hc; try done;
      try (by rewrite (wf_ka w Hw), Hc); try (intros c' Hin; exfalso; by eapply Hka);
      try (intros op'; split; [intros Hu; exfalso; unfold undone in Hu; simpl in Hu; by eapply Hnone | done]);
      try (intros c' Hin; exfalso; unfold inHand in Hin; simpl in Hin; by eapply Hnoh).
    intros c' Hin. apply Hop' in Hin. congruence.
Qed.

(** The state after [Close], spelled out. *)
Lemma close_eq w :
  wf w -> closed (conn w) = false ->
  exists co, close w =
    {| conn := {| client := None; kaCancel := None; closed := true; pending := pending (conn w) |};
       ops := ops w; cancelledOps := co; everOpened := everOpened w;
       opened := match client (conn w) with Some c => opened w ∖ {[c]} | None => opened w end;
       keepalives := match client (conn w) with Some c => keepalives w ∖ {[c]} | None => keepalives w end |}.
Proof.
  intros Hw Hcl. pose proof (wf_ka w Hw) as Hk.
  destruct w as [[cl ka cd pe] os co opn ev kas]. simpl in *. subst cd ka.
  unfold close, stopKeepaliveLocked. simpl. destruct pe, cl; simpl; by eexists.
Qed.

Lemma wf_close w : wf w -> wf (close w).
Proof.
  intros Hw. destruct (closed (conn w)) eqn:Ecl; [unfold close; by rewrite Ecl|].
  destruct (close_eq w Hw Ecl) as [co ->].
  assert (forall c, c ∈ keepalives w -> client (conn w) = Some c) as Hka by apply Hw.
  split; simpl; try done.
  - intros c Hin. destruct (client (conn w)) as [c'|] eqn:Ec; [|by apply Hka in Hin].
    apply elem_of_difference in Hin as [Hin Hne]. apply Hka in Hin as [= ->]. set_solver.
  - intros op. unfold undone. simpl. apply (wf_pending w Hw).
  - intros c Hin. right. unfold inHand. simpl.
    destruct (client (conn w)) as [c'|] eqn:Ec.
    + apply elem_of_difference in Hin as [Hin Hne].
      destruct (wf_opened w Hw c Hin) as [H|H]; [|exact H]. rewrite Ec in H. injection H as ->. set_solver.
    + destruct (wf_opened w Hw c Hin) as [H|H]; [congruence | exact H].
  - intros c [o Ho]. simpl in Ho. destruct (client (conn w)) as [c'|] eqn:Ec.
    + exfalso. assert (pending (conn w) = Some o) as Hp by (apply (wf_pending w Hw); by eexists).
      rewrite (wf_idle w Hw) in Ec by (by rewrite Hp). done.
    + apply (wf_hand w Hw). by exists o.
Qed.

Lemma wf_keepaliveEnds c w : wf w -> wf (keepaliveEnds c w).
Proof.
  intros Hw. split; simpl; try apply Hw.
  intros c' Hin. apply elem_of_difference in Hin as [Hin _]. by apply (wf_keepalives w Hw).
Qed.

Lemma wf_step w w' : step w w' -> wf w -> wf w'.
Proof.
  intros [stale w1|c w1|op r w1 H1 H2|op r w1 H1|w1|c w1] Hw;
    [by apply wf_acquire | by apply wf_retire | by apply wf_dialReturns | by apply wf_publish
    | by apply wf_close | by apply wf_keepaliveEnds].
Qed.

Lemma wf_reach w : rtc step New w -> wf w.
Proof.
  intros Hr. assert (forall w0, wf w0 -> rtc step w0 w -> wf w) as H1; [|exact (H1 New wf_New Hr)].
  clear Hr. intros w0 H0 Hr. induction Hr as [|w1 w2 w3 Hs Hr IH]; [done|].
  apply IH. by eapply wf_step.
Qed.

(** C9: however many goroutines use a connection and however they interleave: at
    most one dial is under way; the only open transport is the cached client's or one
    that a dial has just returned, so no transport is lost; a keepalive runs only for
    the cached client; and once the connection is closed it caches nothing, runs no
    keepalive, and when the last dial has ended no transport is open at all. *)
Theorem connection_safe w :
  rtc step New w ->
  (forall op1 op2, undone w op1 -> undone w op2 -> op1 = op2) /\
  (forall c, c ∈ opened w -> client (conn w) = Some c \/ inHand w c) /\
  (forall c, c ∈ keepalives w -> client (conn w) = Some c) /\
  (closed (conn w) = true ->
     client (conn w) = None /\ keepalives w = ∅ /\ ((forall op, ~ undone w op) -> opened w = ∅)).
Proof.
  intros Hw%wf_reach. split_and!; try apply Hw.
  - intros op1 op2 H1%(wf_pending w Hw) H2%(wf_pending w Hw). congruence.
  - intros Hcl. pose proof (wf_closed w Hw Hcl) as Hc. split_and!; [done | |].
    + apply set_eq. intros c. split; [|set_solver]. intros Hin%(wf_keepalives w Hw). congruence.
    + intros Hno. apply set_eq. intros c. split; [|set_solver].
      intros Hin. destruct (wf_opened w Hw c Hin) as [H|[o Ho]]; [congruence|].
      exfalso. apply (Hno o). by eexists.
Qed.

(** A run to try it on: a dial, its publication, a second caller that finds the
    client dead, and [Close] while the second dial is under way. *)
Definition demo : world :=
  let w1 := snd (acquire None New) in
  let w2 := publish 0%nat (inl 7%nat) (dialReturns 0%nat (inl 7%nat) w1) in
  let w3 := snd (acquire (Some 7%nat) w2) in
  let w4 := close w3 in
  publish 1%nat (inl 8%nat) (dialReturns 1%nat (inl 8%nat) w4).

Lemma connection_safe_witness :
  closed (conn demo) = true /\ client (conn demo) = None /\ keepalives demo = ∅.
Proof.
  assert (rtc step New demo) as Hr.
  { unfold demo.
    eapply rtc_l; [apply (SAcquire None)|].
    eapply rtc_l; [apply (SDialReturns 0%nat (inl 7%nat)); [vm_compute; reflexivity | vm_compute; intros H; inversion H]|].
    eapply rtc_l; [apply (SPublish 0%nat (inl 7%nat)); vm_compute; reflexivity|].
    eapply rtc_l; [apply (SAcquire (Some 7%nat))|].
    eapply rtc_l; [apply SClose|].
    eapply rtc_l; [apply (SDialReturns 1%nat (inl 8%nat)); [vm_compute; reflexivity|]|].
    { intros Hin. apply (bool_decide_pack (8%nat ∈ _)) in Hin. vm_compute in Hin. exact Hin. }
    eapply rtc_l; [apply (SPublish 1%nat (inl 8%nat)); vm_compute; reflexivity|]. apply rtc_refl. }
  destruct (connection_safe demo Hr) as (_ & _ & _ & Hc).
  assert (closed (conn demo) = true) as Hcl by (vm_compute; reflexivity).
  destruct (Hc Hcl) as (H1 & H2 & _). split; [exact Hcl | split; [exact H1 | exact H2]].
Defined.

(** ** Opening a session *)

(** [errors.AsType[*ssh.OpenChannelError]] *)
Fixpoint isOpenChannelError (e : error) : bool :=
  match e with
  | errOpenChannel _ => true
  | errWrap _ e => isOpenChannelError e
  | errJoin es => existsb isOpenChannelError es
  | _ => false
  end.

Definition Ctx := nat.

(** The select of [openSession]: the channel request was answered, or the context
    was done first. *)
Inductive openResult := Opened (s : SessRef) | OpenFailed (e : error) | OpenCtxDone (e : error).

Inductive nsE : Type -> Type :=
| CtxErr (ctx : Ctx) : nsE (option error)
| Acquire (ctx : Ctx) (stale : option ClientRef) : nsE acquired
| GoRunDial (op : OpRef) : nsE unit                             (* go c.runDial(dialCtx, op) *)
| WaitDial (op : OpRef) (ctx : Ctx) : nsE (ClientRef + error)   (* select: op.done, or ctx.Done *)
| OpenSelect (c : ClientRef) (ctx : Ctx) : nsE openResult       (* go client.NewSession(); select *)
| Retire (c : ClientRef) : nsE unit
| GoDrain (c : ClientRef) : nsE unit.                           (* go: close the late session, if any *)

(** The whole of [clientForSession]: the locked part, then the wait. *)
(* src/internal/sshconn/connection.go : 154-198 Connection.clientForSession *)
Definition clientForSession (ctx : Ctx) (stale : option ClientRef) : prog nsE (ClientRef + error) :=
  a <- perform (Acquire ctx stale) ;;
  match a with
  | AClosed => Ret (inr ErrClosed)
  | ACached c => Ret (inl c)
  | AWait op started => (if started : bool then perform (GoRunDial op) else Ret tt) ;; perform (WaitDial op ctx)
  end.

(* src/internal/sshconn/connection.go : Connection.openSession *)
Definition openSession (ctx : Ctx) (c : ClientRef) : prog nsE (SessRef + error) :=
  r <- perform (OpenSelect c ctx) ;;
  match r with
  | Opened s => Ret (inl s)
  | OpenFailed e => Ret (inr e)
  | OpenCtxDone e => perform (Retire c) ;; perform (GoDrain c) ;; Ret (inr e)
  end.

(* src/internal/sshconn/connection.go : Connection.NewSession *)
Definition NewSession (ctx : Ctx) : prog nsE (SessRef + error) :=
  e <- perform (CtxErr ctx) ;;
  match e with
  | Some e => Ret (inr e)
  | None =>
      r <- clientForSession ctx None ;;
      match r with
      | inr e => Ret (inr e)
      | inl c =>
          r <- openSession ctx c ;;
          match r with
          | inl s => Ret (inl s)
          | inr e =>
              if isOpenChannelError e then Ret (inr e)
              else
                ce <- perform (CtxErr ctx) ;;
                match ce with
                | Some _ => Ret (inr e)
                | None =>
                    r <- clientForSession ctx (Some c) ;;
                    match r with inr e => Ret (inr e) | inl c => openSession ctx c end
                end
          end
      end
  end.

(** The other goroutines change the connection between the operations as they like:
    every answer is the oracle's. *)
Definition local : local_handler nsE unit := fun X e x s => Some (x, s).
Definition exec (env : oracle nsE) {A} (p : prog nsE A) := run (traced_handler local env) p (start tt).

Definition opens (c : call nsE) : option openResult :=
  match c with Call (OpenSelect _ _) r => Some r | _ => None end.
Definition acquires (c : call nsE) : option (option ClientRef) :=
  match c with Call (Acquire _ stale) _ => Some stale | _ => None end.
Definition drained (c : call nsE) : bool := match c with Call (GoDrain _) _ => true | _ => false end.

(** The last open decides the result. *)
Definition sessionOf (r : openResult) : SessRef + error :=
  match r with Opened s => inl s | OpenFailed e => inr e | OpenCtxDone e => inr e end.

(** Split on the next answer that the program looks at. *)
Ltac run_case env :=
  match goal with
  | |- context [match env ?X ?n ?e with _ => _ end] => destruct (env X n e) eqn:?
  | |- context [if isOpenChannelError ?e then _ else _] => destruct (isOpenChannelError e) eqn:?
  | |- context [if ?b then _ else _] => is_var b; destruct b
  end.

(** C33: [NewSession] always returns after at most two channel opens and at most two
    requests for a client.  It asks for a second client only after an open that failed
    with something other than a refusal of the live server, and then names the first
    client as dead; a session that it returns comes from its last open; and whenever
    the context ends an open, the late result is drained. *)
Theorem NewSession_bounded env ctx :
  exists r s, exec env (NewSession ctx) = Some (r, s) /\
  (length (omap opens (trace s)) <= 2)%nat /\ (length (omap acquires (trace s)) <= 2)%nat /\
  (forall sess, r = inl sess -> exists o l, omap opens (trace s) = o :: l /\ sessionOf o = inl sess) /\
  (forall o2 o1, omap opens (trace s) = [o2; o1] ->
     (exists e, sessionOf o1 = inr e /\ isOpenChannelError e = false) /\
     exists c, omap acquires (trace s) = [Some c; None]) /\
  (forall e, OpenCtxDone e ∈ omap opens (trace s) -> existsb drained (trace s) = true).
Proof.
  unfold exec. apply twp_run. unfold NewSession, clientForSession, openSession. cbn.
  repeat (run_case env; cbn).
  all: split_and!; [lia | lia | | | intros e' Hin; simpl in Hin; try reflexivity].
  all: try (by repeat (apply elem_of_cons in Hin as [?|Hin]); simplify_eq/=; apply not_elem_of_nil in Hin).
  all: by intros; simplify_eq/=; split_and?; eauto.
Qed.

(** ** The keepalive loop

    Each round is a select: the context's end or a tick, on which a request is sent.
    The number of ticks before the context ends is the oracle's. *)
Inductive kaE : Type -> Type :=
| Select : kaE bool                     (* the ticker, not the context *)
| SendRequest (name : string) (wantReply : bool) : kaE (option error).

(* src/internal/sshconn/connection.go : keepAlive *)
Fixpoint keepAlive (ticks : nat) : prog kaE unit :=
  match ticks with
  | O => Ret tt
  | S n =>
      tick <- perform Select ;;
      if negb tick then Ret tt
      else
        e <- perform (SendRequest "keepalive@openssh.com" true) ;;
        match e with Some _ => Ret tt | None => keepAlive n end
  end.

Definition kaLocal : local_handler kaE unit := fun X e x u => Some (x, u).

(** The results of the sends, in order. *)
Definition sendResult (c : call kaE) : option (option error) :=
  match c with
  | Call e x => match e in kaE X return X -> option (option error) with
                | SendRequest _ _ => fun x => Some x
                | Select => fun _ => None
                end x
  end.

Definition sends (tr : list (call kaE)) : list (option error) := rev (omap sendResult tr).

(** Every send but the last one succeeded: the loop ends with the first failure. *)
Lemma keepAlive_stops env n :
  exists s', run (traced_handler kaLocal env) (keepAlive n) (start tt) = Some (tt, s') /\
    exists ok lst, sends (trace s') = (replicate ok None ++ lst)%list /\ (List.length lst <= 1)%nat.
Proof.
  enough (forall k tr, sends tr = replicate (List.length (sends tr)) None ->
    exists s', run (traced_handler kaLocal env) (keepAlive n) (Traced k tr tt) = Some (tt, s') /\
      exists ok lst, sends (trace s') = (replicate ok None ++ lst)%list /\ (List.length lst <= 1)%nat) as H.
  { by apply H. }
  induction n as [|n IH]; intros k tr Htr.
  { eexists. split; [done|]. exists (List.length (sends tr)), []. rewrite app_nil_r. by split; [|simpl; lia]. }
  cbn. destruct (env bool k Select) eqn:Et; cbn.
  2: { eexists. split; [done|]. exists (List.length (sends tr)), []. rewrite app_nil_r. by split; [|simpl; lia]. }
  destruct (env _ (S k) (SendRequest _ _)) as [e|] eqn:Es; cbn.
  - eexists. split; [done|]. exists (List.length (sends tr)), [Some e]. cbn [trace].
    split; [|simpl; lia]. unfold sends in *. simpl. by rewrite <- Htr.
  - apply IH. unfold sends in *. simpl. rewrite length_app. cbn [List.length].
    rewrite replicate_add. f_equal. exact Htr.
Qed.

End SshConn.
