(* ===== verification/SshAuth.v ===== *)
(** * pkg/resourcemanager/macos_ssh.go: who the SSH connection is made as

    The authentication methods are chosen from the environment: a key given in base64
    or by its path, with or without a passphrase, and a password.  Module [Base64] is
    the part of encoding/base64 that this needs.  Parsing a key is x/crypto/ssh's and a
    parameter; the connection itself is [Dial.DialContext]. *)
From Stdlib Require Import ZArith Lia.
From Stdlib Require Import Ascii String.
From stdpp Require Import base list gmap strings.
From S2P Require Import Prelude GoStrings GoFormat GoErrors GoTime Prog EnvCfg Utils Resource NodeIO Stores MacOS.
Local Open Scope string_scope.

(** ** base64.StdEncoding *)
Module Base64.
Import Cmd.

Definition alphabet : string := "ABCDEFGHIJKLMNOPQRSTUVWXYZabcdefghijklmnopqrstuvwxyz0123456789+/".

Definition enc6 (z : Z) : ascii := default "A"%char (String.get (Z.to_nat z) alphabet).

Definition dec6 (c : ascii) : option Z :=
  if Str.is_upper c then Some (Str.byte c - 65)%Z
  else if Str.is_lower c then Some (Str.byte c - 71)%Z
  else if Str.is_digit c then Some (Str.byte c + 4)%Z
  else if Ascii.eqb c "+" then Some 62%Z
  else if Ascii.eqb c "/" then Some 63%Z
  else None.

(** [EncodeToString] *)
Fixpoint encode (bs : list Z) : string :=
  match bs with
  | [] => ""
  | [a] => String (enc6 (a / 4)) (String (enc6 (a mod 4 * 16)) "==")
  | [a; b] => String (enc6 (a / 4)) (String (enc6 (a mod 4 * 16 + b / 16)) (String (enc6 (b mod 16 * 4)) "="))
  | a :: b :: c :: bs =>
      String (enc6 (a / 4)) (String (enc6 (a mod 4 * 16 + b / 16))
        (String (enc6 (b mod 16 * 4 + c / 64)) (String (enc6 (c mod 64)) (encode bs))))
  end.

(** Line ends are skipped wherever they are. *)
Fixpoint strip_newlines (s : string) : string :=
  match s with
  | String c s => if Ascii.eqb c "010" || Ascii.eqb c "013" then strip_newlines s else String c (strip_newlines s)
  | EmptyString => ""
  end.

(** Quanta of four characters; padding only in the last one; the bits that padding
    leaves over are not looked at. *)
Fixpoint quanta (s : string) : option (list Z) :=
  match s with
  | EmptyString => Some []
  | String a (String b (String c (String d r))) =>
      match dec6 a, dec6 b with
      | Some a, Some b =>
          let x := (a * 4 + b / 16)%Z in
          if Ascii.eqb c "=" then
            if Ascii.eqb d "=" && String.eqb r "" then Some [x] else None
          else
            match dec6 c with
            | None => None
            | Some c =>
                let y := (b mod 16 * 16 + c / 4)%Z in
                if Ascii.eqb d "=" then if String.eqb r "" then Some [x; y] else None
                else
                  match dec6 d with
                  | None => None
                  | Some d =>
                      match quanta r with
                      | Some l => Some (x :: y :: (c mod 4 * 64 + d)%Z :: l)
                      | None => None
                      end
                  end
            end
      | _, _ => None
      end
  | _ => None
  end.

(** [DecodeString]; [None] is a [CorruptInputError]. *)
Definition DecodeString (s : string) : option string := option_map Str.of_bytes (quanta (strip_newlines s)).

(** *** Decoding undoes encoding *)

Lemma dec6_enc6 z : (0 <= z < 64)%Z -> dec6 (enc6 z) = Some z /\ Ascii.eqb (enc6 z) "=" = false
  /\ (Ascii.eqb (enc6 z) "010" || Ascii.eqb (enc6 z) "013") = false.
Proof.
  intros Hz.
  assert (forallb (fun n => match dec6 (enc6 (Z.of_nat n)) with Some v => Z.eqb v (Z.of_nat n) | None => false end
                            && negb (Ascii.eqb (enc6 (Z.of_nat n)) "=")
                            && negb (Ascii.eqb (enc6 (Z.of_nat n)) "010" || Ascii.eqb (enc6 (Z.of_nat n)) "013"))
            (seq 0 64) = true) as H by (vm_compute; reflexivity).
  rewrite forallb_forall in H. specialize (H (Z.to_nat z)). rewrite Z2Nat.id in H by lia.
  specialize (H ltac:(apply in_seq; lia)). apply andb_true_iff in H as [[H1 H2%negb_true_iff]%andb_true_iff H3%negb_true_iff].
  destruct (dec6 (enc6 z)) as [v|]; [|done]. apply Z.eqb_eq in H1 as ->. done.
Qed.

Definition is_byte (b : Z) : Prop := (0 <= b < 256)%Z.

(** Induction over groups of three. *)
Lemma list_ind3 {A} (P : list A -> Prop) :
  P [] -> (forall a, P [a]) -> (forall a b, P [a; b]) ->
  (forall a b c l, P l -> P (a :: b :: c :: l)) -> forall l, P l.
Proof.
  intros H0 H1 H2 H3. fix IH 1. intros [|a [|b [|c l]]]; [exact H0 | apply H1 | apply H2 | apply H3, IH].
Qed.

Definition is_sextet (z : Z) : Prop := (0 <= z < 64)%Z.

Lemma quantum2 a b : is_sextet a -> is_sextet b ->
  quanta (String (enc6 a) (String (enc6 b) "==")) = Some [(a * 4 + b / 16)%Z].
Proof. intros [Ha _]%dec6_enc6 [Hb _]%dec6_enc6. cbn -[Z.mul Z.div Z.add enc6 dec6]. by rewrite Ha, Hb. Qed.

Lemma quantum3 a b c : is_sextet a -> is_sextet b -> is_sextet c ->
  quanta (String (enc6 a) (String (enc6 b) (String (enc6 c) "=")))
  = Some [(a * 4 + b / 16)%Z; (b mod 16 * 16 + c / 4)%Z].
Proof.
  intros [Ha _]%dec6_enc6 [Hb _]%dec6_enc6 [Hc [Hc' _]]%dec6_enc6.
  cbn -[Z.mul Z.div Z.add Z.modulo enc6 dec6]. by rewrite Ha, Hb, Hc', Hc.
Qed.

Lemma quantum4 a b c d r : is_sextet a -> is_sextet b -> is_sextet c -> is_sextet d ->
  quanta (String (enc6 a) (String (enc6 b) (String (enc6 c) (String (enc6 d) r))))
  = option_map (fun l => (a * 4 + b / 16)%Z :: (b mod 16 * 16 + c / 4)%Z :: (c mod 4 * 64 + d)%Z :: l) (quanta r).
Proof.
  intros [Ha _]%dec6_enc6 [Hb _]%dec6_enc6 [Hc [Hc' _]]%dec6_enc6 [Hd [Hd' _]]%dec6_enc6.
  cbn -[Z.mul Z.div Z.add Z.modulo enc6 dec6]. rewrite Ha, Hb, Hc', Hc, Hd', Hd. by destruct (quanta r).
Qed.

Ltac b64_lia := unfold is_sextet, is_byte in *; Z.to_euclidean_division_equations; lia.

Lemma strip_sextet z s : is_sextet z -> strip_newlines (String (enc6 z) s) = String (enc6 z) (strip_newlines s).
Proof. intros (_ & _ & H)%dec6_enc6. cbn [strip_newlines]. by rewrite H. Qed.

Lemma encode_no_newlines bs : Forall is_byte bs -> strip_newlines (encode bs) = encode bs.
Proof.
  induction bs as [|a|a b|a b c l IH] using list_ind3; rewrite ?Forall_cons; intros Hb; [done|..];
    cbn [encode]; rewrite !strip_sextet by b64_lia; [done..|].
  by rewrite IH by apply Hb.
Qed.

Lemma quanta_encode bs : Forall is_byte bs -> quanta (encode bs) = Some bs.
Proof.
  induction bs as [|a|a b|a b c l IH] using list_ind3; rewrite ?Forall_cons; intros Hb; [done|..];
    cbn [encode].
  - rewrite quantum2 by b64_lia. f_equal. f_equal. b64_lia.
  - rewrite quantum3 by b64_lia. f_equal. f_equal; [b64_lia|f_equal; b64_lia].
  - rewrite quantum4, IH by (b64_lia || apply Hb). simpl. f_equal.
    f_equal; [b64_lia|]. f_equal; [b64_lia|]. f_equal. b64_lia.
Qed.

Lemma DecodeString_encode bs : Forall is_byte bs -> DecodeString (encode bs) = Some (Str.of_bytes bs).
Proof. intros Hb. unfold DecodeString. by rewrite encode_no_newlines, quanta_encode. Qed.

Lemma bytes_are_bytes s : Forall is_byte (Str.bytes s).
Proof.
  induction s as [|c s IH]; simpl; constructor; [|done].
  unfold is_byte, Str.byte. pose proof (N_ascii_bounded c). lia.
Qed.

Lemma of_bytes_bytes s : Str.of_bytes (Str.bytes s) = s.
Proof. induction s as [|c s IH]; [done|]. simpl. rewrite IH. f_equal. apply chr_byte. Qed.

End Base64.

(** ** getSSHAuthMethods *)

Module SshAuth.
Import VmData.

Section SshAuth.
(** [ssh.Signer] values, made from the text of a key and a passphrase; the offset that
    a [CorruptInputError] names. *)
Context `{PrintTable} {Signer : Type}.
Variable ParsePrivateKey : string -> Signer + error.
Variable ParsePrivateKeyWithPassphrase : string -> string -> Signer + error.
Variable ReadFile : string -> string + error.
Variable corruptAt : string -> Z.
Variable Getenv : EnvCfg.environ.

Inductive AuthMethod := PublicKeys (s : Signer) | Password (secret : string).

(** The private key's text; empty when no variable gives one. *)
Definition privateKey : string + error :=
  let keyBase64 := Str.trim_space (Getenv "VZ_SSH_PRIVATE_KEY_BASE64") in
  if negb (String.eqb keyBase64 "") then
    match Base64.DecodeString keyBase64 with
    | Some keyData => inl keyData
    | None => inr (InvalidInput ("failed to decode VZ_SSH_PRIVATE_KEY_BASE64: illegal base64 data at input byte "
                                 ++ Str.itoa (corruptAt keyBase64)))
    end
  else
    let keyPath := Str.trim_space (Getenv "VZ_SSH_PRIVATE_KEY_PATH") in
    if negb (String.eqb keyPath "") then
      match ReadFile keyPath with
      | inl keyData => inl keyData
      | inr e => inr (InvalidInput ("failed to read VZ_SSH_PRIVATE_KEY_PATH: " ++ Error e))
      end
    else inl "".

Definition keyAuth (key : string) : list AuthMethod + error :=
  if String.eqb key "" then inl []
  else
    let passphrase := Getenv "VZ_SSH_PRIVATE_KEY_PASSPHRASE" in
    match (if negb (String.eqb passphrase "") then ParsePrivateKeyWithPassphrase key passphrase
           else ParsePrivateKey key) with
    | inl signer => inl [PublicKeys signer]
    | inr e => inr (InvalidInput ("failed to parse VZ_SSH_PRIVATE_KEY: " ++ Error e))
    end.

Definition noAuth : error :=
  InvalidInput "VZ_SSH_PRIVATE_KEY_BASE64, VZ_SSH_PRIVATE_KEY_PATH, or VZ_SSH_PASSWORD env variable is required".

(* src/pkg/resourcemanager/macos_ssh.go : getSSHAuthMethods *)
Definition getSSHAuthMethods : (string * list AuthMethod) + error :=
  let sshUser := Getenv "VZ_SSH_USER" in
  if String.eqb sshUser "" then inr (InvalidInput "VZ_SSH_USER env variable is required")
  else
    match privateKey with
    | inr e => inr e
    | inl key =>
        match keyAuth key with
        | inr e => inr e
        | inl auth =>
            let sshPassword := Getenv "VZ_SSH_PASSWORD" in
            let auth := (auth ++ if negb (String.eqb sshPassword "") then [Password sshPassword] else [])%list in
            match auth with
            | [] => inr noAuth
            | _ => inl (sshUser, auth)
            end
        end
    end.

(** [ssh.ClientConfig]; the host key is not checked, and no list of key exchanges means
    the library's own. *)
Record ClientConfig := {
  User : string;
  Auth : list AuthMethod;
  Timeout : Z;
  KeyExchanges : option (list string)
}.

(** The race between the handshake and its deadline, for an address and a
    configuration. *)
Context {Client : Type}.
Variable race : string -> ClientConfig -> Dial.Race Client.

(** The entry and the instance as they are when the function looks; [inl] is the
    outcome of a dial. *)
(* src/pkg/resourcemanager/macos_ssh.go : MacOSClient.sshDialFunc *)
Definition sshDialFunc (entry : option VirtualMachineInfo) (h : Res.heap) : Dial.Outcome Client + error :=
  match entry with
  | None => inr (errNotFound "virtual machine not found")
  | Some info =>
      let ipAddr := Res.IPAddress h (Resource info) in
      if String.eqb ipAddr "" then inr (InvalidInput "virtual machine does not have an IP address")
      else
        match getSSHAuthMethods with
        | inr e => inr e
        | inl (sshUser, sshAuth) =>
            let kexList := Str.trim_space (Getenv "VZ_SSH_KEX_ALGORITHMS") in
            let config := {| User := sshUser; Auth := sshAuth; Timeout := EnvCfg.SSHDialTimeout Getenv;
                             KeyExchanges := if negb (String.eqb kexList "") then Some (Str.split "," kexList)
                                             else None |} in
            inl (Dial.DialContext (race (ipAddr ++ ":22") config))
        end
  end.

(** ** What is chosen *)

Definition passwordAuth : list AuthMethod :=
  if negb (String.eqb (Getenv "VZ_SSH_PASSWORD") "") then [Password (Getenv "VZ_SSH_PASSWORD")] else [].

Definition parsed (text : string) : Signer + error :=
  if negb (String.eqb (Getenv "VZ_SSH_PRIVATE_KEY_PASSPHRASE") "")
  then ParsePrivateKeyWithPassphrase text (Getenv "VZ_SSH_PRIVATE_KEY_PASSPHRASE") else ParsePrivateKey text.

(** The methods from a private key. *)
Definition keyChoice (l : list AuthMethod) : Prop :=
  (l = [] /\ privateKey = inl "") \/
  exists text s, l = [PublicKeys s] /\ privateKey = inl text /\ text <> "" /\ parsed text = inl s.

Lemma privateKey_base64 key :
  Str.trim_space (Getenv "VZ_SSH_PRIVATE_KEY_BASE64") = Base64.encode (Str.bytes key) -> key <> "" ->
  privateKey = inl key.
Proof.
  intros Hb Hk. unfold privateKey. rewrite Hb, Base64.DecodeString_encode by apply Base64.bytes_are_bytes.
  rewrite Base64.of_bytes_bytes. destruct key as [|c key]; [done|].
  assert (String.eqb (Base64.encode (Str.bytes (String c key))) "" = false) as ->; [|done].
  cbn [Str.bytes]. by destruct (Str.bytes key) as [|b [|d l]].
Qed.

Lemma privateKey_error e : privateKey = inr e -> exists e', e = errInvalidInput e'.
Proof.
  unfold privateKey. destruct (negb _).
  - destruct (Base64.DecodeString _); [done|]. intros [= <-]. by eexists.
  - destruct (negb _); [|done]. destruct (ReadFile _); [done|]. intros [= <-]. by eexists.
Qed.

Lemma keyAuth_cases :
  match privateKey with
  | inr _ => True
  | inl text => match keyAuth text with inl l => keyChoice l | inr e => exists e', e = errInvalidInput e' end
  end.
Proof.
  unfold keyChoice, keyAuth. destruct privateKey as [text|]; [|done].
  destruct (String.eqb_spec text "") as [->|Hne]; [by left|].
  fold (parsed text). destruct (parsed text) as [s|e] eqn:E; [|by eexists].
  right. by exists text, s.
Qed.

(** C30: the methods that an SSH connection offers: a user and one method at least; a key
    first, from the base64 variable rather than from the path, exactly the bytes that were
    encoded; then the password whenever it is set, next to a key too; everything that is
    missing or malformed is an invalid input. *)
Theorem ssh_auth_methods :
  (forall user auth, getSSHAuthMethods = inl (user, auth) ->
     user = Getenv "VZ_SSH_USER" /\ user <> "" /\ auth <> [] /\
     exists keys, auth = (keys ++ passwordAuth)%list /\ keyChoice keys) /\
  (forall e, getSSHAuthMethods = inr e -> exists e', e = errInvalidInput e') /\
  (forall key, Str.trim_space (Getenv "VZ_SSH_PRIVATE_KEY_BASE64") = Base64.encode (Str.bytes key) -> key <> "" ->
     privateKey = inl key).
Proof.
  pose proof keyAuth_cases as Hc. split_and!; [| |apply privateKey_base64].
  - intros user auth. unfold getSSHAuthMethods. destruct (String.eqb_spec (Getenv "VZ_SSH_USER") "") as [|Hu]; [done|].
    destruct privateKey as [text|e] eqn:Ep; [|done]. destruct (keyAuth text) as [l|e]; [|done].
    fold passwordAuth. destruct (l ++ passwordAuth)%list as [|m r] eqn:El; [done|].
    intros [= <- <-]. split_and!; [done | done | done |]. exists l. done.
  - intros e. unfold getSSHAuthMethods. destruct (String.eqb _ ""); [intros [= <-]; by eexists|].
    destruct privateKey as [text|e0] eqn:Ep; [|intros [= <-]; by apply (privateKey_error _ Ep)].
    destruct (keyAuth text) as [l|e0]; [|by intros [= <-]].
    fold passwordAuth. destruct (l ++ passwordAuth)%list; [|done]. intros [= <-]. by eexists.
Qed.

(** A dial goes to port 22 of the machine's current address, with the chosen methods. *)
Lemma sshDialFunc_inl entry h o : sshDialFunc entry h = inl o ->
  exists info user auth cfg, entry = Some info /\ getSSHAuthMethods = inl (user, auth) /\
    Res.IPAddress h (Resource info) <> "" /\
    o = Dial.DialContext (race (Res.IPAddress h (Resource info) ++ ":22") cfg) /\
    User cfg = user /\ Auth cfg = auth /\ Timeout cfg = EnvCfg.SSHDialTimeout Getenv.
Proof.
  unfold sshDialFunc. destruct entry as [info|]; [|done]. cbv zeta.
  destruct (String.eqb_spec (Res.IPAddress h (Resource info)) "") as [|Hip]; [done|].
  destruct getSSHAuthMethods as [[user auth]|e] eqn:E; [|done].
  intros [= <-]. eexists info, user, auth, _.
  do 4 (split; [reflexivity || done|]). done.
Qed.

End SshAuth.

(** A key in base64 and a password: both methods are offered, the key first. *)
Definition sample_env (x : string) : string :=
  if String.eqb x "VZ_SSH_USER" then "admin"
  else if String.eqb x "VZ_SSH_PRIVATE_KEY_BASE64" then "a2V5" ++ Str.newline
  else if String.eqb x "VZ_SSH_PRIVATE_KEY_PATH" then "/etc/key"
  else if String.eqb x "VZ_SSH_PASSWORD" then "secret"
  else "".

Lemma ssh_auth_methods_witness :
  privateKey (fun _ => inl "other") (fun _ => 0%Z) sample_env = inl "key" /\
  getSSHAuthMethods (Signer := string) inl (fun k _ => inl k) (fun _ => inl "other") (fun _ => 0%Z) sample_env
  = inl ("admin", [PublicKeys "key"; Password "secret"]).
Proof.
  split; [|vm_compute; reflexivity].
  apply (ssh_auth_methods (Signer := string) inl (fun k _ => inl k) (fun _ => inl "other") (fun _ => 0%Z) sample_env);
    [vm_compute; reflexivity | done].
Defined.

End SshAuth.
