(* ===== verification/VmConfig.v ===== *)
(** * internal/utils/clonefile.go, pkg/vm/config, and making a machine from an image

    The steps from a downloaded image to a machine that can be started: the clones of
    its two files, the platform, the devices, the shared directories and the instance.
    The framework's constructors are operations of other code that may fail; what they
    build is the data they are given ([DiskAttachment], [NetworkDevice], ...), so that
    the theorems can say what the machine is made of.  [implement] puts the constructors
    in the place of the manager's operations of [MacOS]. *)
From Stdlib Require Import ZArith Lia.
From Stdlib Require Import Ascii String.
From stdpp Require Import base list gmap strings.
From S2P Require Import Prelude GoStrings GoErrors GoTime Prog Json NetUtil GoPath Volumes Resource Instance SshAuth MacOS.
Local Open Scope string_scope.
Local Open Scope go_scope.

(** ** net.ParseMAC *)
Module Net.

(** Two hexadecimal digits, and the separator when something follows them. *)
Definition xtoi2 (s : string) (sep : ascii) : option Z :=
  match s with
  | String a (String b r) =>
      match Json.hex_value a, Json.hex_value b with
      | Some x, Some y =>
          match r with
          | String c _ => if Ascii.eqb c sep then Some (x * 16 + y)%Z else None
          | EmptyString => Some (x * 16 + y)%Z
          end
      | _, _ => None
      end
  | _ => None
  end.

(** [n] octets, three characters apart. *)
Fixpoint octets (n : nat) (sep : ascii) (s : string) : option (list Z) :=
  match n with
  | O => Some []
  | S n =>
      match xtoi2 s sep, octets n sep (Str.drop 3 s) with
      | Some b, Some bs => Some (b :: bs)
      | _, _ => None
      end
  end.

(** [n] groups of two octets, five characters apart. *)
Fixpoint groups (n : nat) (s : string) : option (list Z) :=
  match n with
  | O => Some []
  | S n =>
      match xtoi2 (Str.take 2 s) "0", xtoi2 (Str.drop 2 s) ".", groups n (Str.drop 5 s) with
      | Some a, Some b, Some bs => Some (a :: b :: bs)
      | _, _, _ => None
      end
  end.

Definition octet_count (n : nat) : bool := (n =? 6)%nat || (n =? 8)%nat || (n =? 20)%nat.

Definition ParseMAC (s : string) : list Z + error :=
  let invalid := inr (errMsg ("address " ++ s ++ ": invalid MAC address")) in
  let l := String.length s in
  if (l <? 14)%nat then invalid
  else
    let parsed :=
      match String.get 2 s, String.get 4 s with
      | Some c2, Some c4 =>
          if Ascii.eqb c2 ":" || Ascii.eqb c2 "-" then
            if (((l + 1) mod 3 =? 0) && octet_count ((l + 1) / 3))%nat then octets ((l + 1) / 3) c2 s else None
          else if Ascii.eqb c4 "." then
            if (((l + 1) mod 5 =? 0) && octet_count (2 * (l + 1) / 5))%nat then groups ((l + 1) / 5) s else None
          else None
      | _, _ => None
      end in
    match parsed with Some bs => inl bs | None => invalid end.

Definition octet_reads (b : Z) : bool :=
  match Str.hex_byte b with
  | String x (String y EmptyString) =>
      match Json.hex_value x, Json.hex_value y with
      | Some u, Some v => Z.eqb (u * 16 + v) b
      | _, _ => false
      end
  | _ => false
  end.

Lemma octet_read b : (0 <= b < 256)%Z ->
  exists x y u v, Str.hex_byte b = String x (String y "") /\ Json.hex_value x = Some u /\
    Json.hex_value y = Some v /\ (u * 16 + v = b)%Z.
Proof.
  intros Hb. assert (octet_reads b = true) as H.
  { assert (forallb octet_reads (map Z.of_nat (seq 0 256)) = true) as H by (vm_compute; reflexivity).
    rewrite forallb_forall in H. apply H, in_map_iff. exists (Z.to_nat b). rewrite in_seq. lia. }
  unfold octet_reads in H. destruct (Str.hex_byte b) as [|x [|y [|]]]; [done | done | | done].
  destruct (Json.hex_value x) as [u|] eqn:Hu, (Json.hex_value y) as [v|] eqn:Hv; [|done..].
  apply Z.eqb_eq in H. by exists x, y, u, v.
Qed.

Lemma octets_cons b n rest : (0 <= b < 256)%Z ->
  octets (S n) ":" (Str.hex_byte b ++ ":" ++ rest) = option_map (cons b) (octets n ":" rest).
Proof.
  intros Hb. destruct (octet_read b Hb) as (x & y & u & v & -> & Hx & Hy & Hv).
  change (String x (String y "") ++ ":" ++ rest)%string with (String x (String y (String ":" rest))).
  cbn [octets xtoi2]. rewrite Hx, Hy, Ascii.eqb_refl, Hv. cbn [Str.drop]. by destruct (octets n ":" rest).
Qed.

Lemma octets_String bs :
  bs <> [] -> Forall (fun b => 0 <= b < 256)%Z bs ->
  octets (List.length bs) ":" (NetUtil.HardwareAddr_String bs) = Some bs.
Proof.
  unfold NetUtil.HardwareAddr_String. induction bs as [|b bs IH]; [done|]. intros _ [Hb Hbs]%Forall_cons.
  destruct bs as [|b' bs].
  - destruct (octet_read b Hb) as (x & y & u & v & Hh & Hx & Hy & Hv).
    cbn [map Str.join List.length octets]. rewrite Hh. simpl. by rewrite Hx, Hy, Hv.
  - change (map Str.hex_byte (b :: b' :: bs)) with (Str.hex_byte b :: map Str.hex_byte (b' :: bs)).
    change (Str.join ":" (Str.hex_byte b :: map Str.hex_byte (b' :: bs)))
      with (Str.hex_byte b ++ ":" ++ Str.join ":" (map Str.hex_byte (b' :: bs))).
    change (List.length (b :: b' :: bs)) with (S (List.length (b' :: bs))).
    by rewrite octets_cons, IH.
Qed.

Lemma length_String bs :
  bs <> [] -> S (String.length (NetUtil.HardwareAddr_String bs)) = (3 * List.length bs)%nat.
Proof.
  unfold NetUtil.HardwareAddr_String. induction bs as [|b bs IH]; [done|]. intros _.
  destruct bs as [|b' bs]; [done|].
  change (map Str.hex_byte (b :: b' :: bs)) with (Str.hex_byte b :: map Str.hex_byte (b' :: bs)).
  change (Str.join ":" (Str.hex_byte b :: map Str.hex_byte (b' :: bs)))
    with (Str.hex_byte b ++ ":" ++ Str.join ":" (map Str.hex_byte (b' :: bs))).
  rewrite !Str.length_app. specialize (IH ltac:(done)). simpl List.length in *. simpl String.length at 1 2. lia.
Qed.

(** Reading an address back that [String] wrote. *)
Lemma ParseMAC_String bs :
  List.length bs = 6%nat -> Forall (fun b => 0 <= b < 256)%Z bs ->
  ParseMAC (NetUtil.HardwareAddr_String bs) = inl bs.
Proof.
  intros Hl Hb. assert (bs <> []) as Hne by by destruct bs.
  pose proof (length_String bs Hne) as HL. pose proof (octets_String bs Hne Hb) as HO.
  assert (String.get 2 (NetUtil.HardwareAddr_String bs) = Some ":"%char /\
          is_Some (String.get 4 (NetUtil.HardwareAddr_String bs))) as [H2 [c4 H4]].
  { destruct bs as [|b [|b' [|b2 bs]]]; [done..|]. split; [done | eexists; done]. }
  rewrite Hl in *. unfold ParseMAC.
  assert (String.length (NetUtil.HardwareAddr_String bs) = 17%nat) as -> by lia.
  rewrite H2, H4. cbn -[octets]. by rewrite HO.
Qed.

End Net.

Module VmConfig.
Import MacOS (MacPlatformConfigurationOptions).

(** ** The data *)

(* src/pkg/vm/config/virtual_machine.go : 17-17 MacOSSharedDirectoryPath *)
Definition MacOSSharedDirectoryPath : string := "/Volumes/My Shared Files".

(* src/pkg/vm/config/platform.go : PlatformConfiguration *)
Record PlatformConfiguration := {
  BlockStoragePath : string;
  AuxiliaryStoragePath : string;
  IsOverlay : bool;
  auxiliaryStorage : string;       (* of the embedded platform: the path that was opened *)
  hardwareModel : string;          (* and the decoded data *)
  machineIdentifier : string
}.

(** What the framework's constructors are given. *)
Record DiskAttachment := { da_path : string; da_readOnly : bool }.
Inductive NetworkAttachment := Bridged (identifier : string) | NAT.
Record NetworkDevice := { nd_attachment : NetworkAttachment; nd_mac : option (list Z) }.
Inductive PointingDevice := USBScreenCoordinate | MacTrackpad.
Record Display := { dp_width : Z; dp_height : Z; dp_ppi : Z }.
Inductive SoundStream := HostInput | HostOutput.
Record SharedDirectory := { sd_path : string; sd_readOnly : bool }.
Record FileSystemDevice := { fs_tag : string; fs_share : gmap string SharedDirectory }.

(** vz.VirtualMachineConfiguration: what the setters have set, [None] before. *)
Record VzConfig := {
  v_cpuCount : Z;
  v_memorySize : Z;
  v_platform : option PlatformConfiguration;
  v_graphics : option (list (list Display));
  v_storage : option (list DiskAttachment);
  v_network : option (list NetworkDevice);
  v_pointing : option (list PointingDevice);
  v_keyboards : option nat;                       (* how many *)
  v_audio : option (list (list SoundStream));
  v_sharing : option (list FileSystemDevice)
}.

(* src/pkg/vm/config/virtual_machine.go : VirtualMachineConfiguration *)
Record VirtualMachineConfiguration := {
  MACAddress : list Z;
  NetworkInterface : string;
  overlayBlockStoragePath : string;
  overlayAuxiliaryStoragePath : string;
  vz : VzConfig
}.

(** The part that the instance reads later. *)
Definition instance_config (c : VirtualMachineConfiguration) : Instance.Config :=
  {| Instance.NetworkInterface := NetworkInterface c;
     Instance.overlayBlockStoragePath := overlayBlockStoragePath c;
     Instance.overlayAuxiliaryStoragePath := overlayAuxiliaryStoragePath c |}.

Definition six : Type := ascii * ascii * ascii * ascii * ascii * ascii.
Definition octets_of (b : six) : list Z :=
  let '(a, b, c, d, e, f) := b in map Str.byte [a; b; c; d; e; f].

Inductive vmE : Type -> Type :=
(* os, unix, crypto/rand, time *)
| TempDir : vmE string
| SysClonefile (src dst : string) (flags : Z) : vmE (option error)
| OsRemove (path : string) : vmE (option error)
| RandRead : vmE (six + error)                         (* into a buffer of six bytes *)
| Now : vmE Time.t
(* vz *)
| NewMacAuxiliaryStorage (path : string) : vmE (option error)
| NewMacHardwareModelWithData (data : string) : vmE (option error)
| NewMacMachineIdentifierWithData (data : string) : vmE (option error)
| NewMacPlatformConfiguration : vmE (option error)
| NewMacOSBootLoader : vmE (option error)
| NewVzConfiguration (cpuCount memorySize : Z) : vmE (option error)
| NewMacGraphicsDeviceConfiguration : vmE (option error)
| NewMacGraphicsDisplayConfiguration (d : Display) : vmE (option error)
| NewDiskImageStorageDeviceAttachment (path : string) (readOnly : bool) : vmE (option error)
| NewVirtioBlockDeviceConfiguration : vmE (option error)
| NetworkInterfaces : vmE (list string)                (* the identifiers *)
| NewBridgedNetworkDeviceAttachment (identifier : string) : vmE (option error)
| NewNATNetworkDeviceAttachment : vmE (option error)
| NewVirtioNetworkDeviceConfiguration : vmE (option error)
| NewMACAddress (mac : list Z) : vmE (option error)
| NewUSBScreenCoordinatePointingDeviceConfiguration : vmE (option error)
| NewMacTrackpadConfiguration : vmE (option error)
| NewUSBKeyboardConfiguration : vmE (option error)
| NewVirtioSoundDeviceConfiguration : vmE (option error)
| NewVirtioSoundDeviceHostInputStreamConfiguration : vmE (option error)
| NewVirtioSoundDeviceHostOutputStreamConfiguration : vmE (option error)
| MacOSGuestAutomountTag : vmE (string + error)
| NewSharedDirectory (path : string) (readOnly : bool) : vmE (option error)
| NewMultipleDirectoryShare : vmE (option error)
| NewVirtioFileSystemDeviceConfiguration (tag : string) : vmE (option error)
| Validate (c : VzConfig) : vmE (bool + error)
| NewVirtualMachine (c : VzConfig) : vmE (option error)
| GoHandleStateChanges : vmE unit.                     (* go instance.handleStateChanges(ctx) *)

(** An operation that only succeeds or fails. *)
Definition ok (c : vmE (option error)) : prog vmE (unit + error) :=
  r <- perform c ;; Ret (match r with None => inl tt | Some e => inr e end).

Definition same (e : error) : error := e.

Notation "'try!' x <- c 'or' w ;; k" := (attempt w c (fun x => k))
  (at level 100, x name, c at level 99, w at level 99, k at level 200, right associativity) : go_scope.
Notation "'do!' c 'or' w ;; k" := (attempt w c (fun _ => k))
  (at level 100, c at level 99, w at level 99, k at level 200, right associativity) : go_scope.

(** ** clonefile.go *)

(* src/internal/utils/clonefile.go : 11-16 FileCloner *)
Record FileCloner := { fc_TempDir : string; fc_FilenamePrefix : string }.

(* src/internal/utils/clonefile.go : NewFileCloner *)
Definition NewFileCloner : prog vmE FileCloner :=
  d <- perform TempDir ;; Ret {| fc_TempDir := d; fc_FilenamePrefix := "macosvz_file_" |}.

(** The name of a clone. *)
Definition clonedName (fc : FileCloner) (path pattern : string) : string :=
  fc_FilenamePrefix fc ++ Path.Base path ++ "." ++ pattern.

Definition clonedPath (fc : FileCloner) (path pattern : string) : string :=
  Path.Join [fc_TempDir fc; clonedName fc path pattern].

(* src/internal/utils/clonefile.go : FileCloner.Clonefile *)
Definition Clonefile (fc : FileCloner) (path pattern : string) : prog vmE (string + error) :=
  let dst := clonedPath fc path pattern in
  perform (OsRemove dst) ;;
  do! ok (SysClonefile path dst 0) or Errorf "failed to clone storage file" ;;
  Ret (inl dst).

(** ** platform.go *)

(** The paths that the platform is given: the clones, or the image's own. *)
Definition storagePaths (opts : MacPlatformConfigurationOptions) (useOverlay : bool) (uid : string)
  : prog vmE ((string * string) + error) :=
  let block := MacOS.BlockStoragePath opts in
  let aux := MacOS.AuxiliaryStoragePath opts in
  if useOverlay then
    fc <- NewFileCloner ;;
    try! block' <- Clonefile fc block uid or same ;;
    try! aux' <- Clonefile fc aux uid or same ;;
    Ret (inl (block', aux'))
  else Ret (inl (block, aux)).

(** base64.StdEncoding.DecodeString; the offset in the text of its error is left out. *)
Definition decodeBase64 (s : string) : prog vmE (string + error) :=
  Ret (match Base64.DecodeString s with
       | Some d => inl d
       | None => inr (errMsg "illegal base64 data")
       end).

(* src/pkg/vm/config/platform.go : NewPlatformConfiguration *)
Definition NewPlatformConfiguration (opts : MacPlatformConfigurationOptions) (useOverlay : bool) (uid : string)
  : prog vmE (PlatformConfiguration + error) :=
  try! paths <- storagePaths opts useOverlay uid or same ;;
  do! ok (NewMacAuxiliaryStorage (snd paths)) or Errorf "failed to create a new mac auxiliary storage" ;;
  try! hw <- decodeBase64 (MacOS.HardwareModelData opts) or Errorf "failed to decode hardware model data" ;;
  do! ok (NewMacHardwareModelWithData hw) or Errorf "failed to create a new hardware model" ;;
  try! mid <- decodeBase64 (MacOS.MachineIdentifierData opts) or Errorf "failed to decode machine identifier data" ;;
  do! ok (NewMacMachineIdentifierWithData mid) or Errorf "failed to create a new machine identifier" ;;
  do! ok NewMacPlatformConfiguration or Errorf "failed to create a new mac platform configuration" ;;
  Ret (inl {| BlockStoragePath := fst paths; AuxiliaryStoragePath := snd paths; IsOverlay := useOverlay;
              auxiliaryStorage := snd paths; hardwareModel := hw; machineIdentifier := mid |}).

(** ** virtual_machine.go *)

(* src/pkg/vm/config/virtual_machine.go : createGraphicsDeviceConfiguration *)
Definition createGraphicsDeviceConfiguration : prog vmE (list Display + error) :=
  let d := {| dp_width := 1920; dp_height := 1200; dp_ppi := 80 |} in
  do! ok NewMacGraphicsDeviceConfiguration or same ;;
  do! ok (NewMacGraphicsDisplayConfiguration d) or same ;;
  Ret (inl [d]).

(** The interface with the identifier, if it is not empty; else NAT. *)
Definition networkAttachment (iface : string) : prog vmE (NetworkAttachment + error) :=
  if negb (String.eqb iface "") then
    ifs <- perform NetworkInterfaces ;;
    match find_first (fun b => String.eqb b iface) ifs with
    | None => Ret (inr (errMsg ("network interface " ++ iface ++ " not found")))
    | Some b => do! ok (NewBridgedNetworkDeviceAttachment b) or same ;; Ret (inl (Bridged b))
    end
  else do! ok NewNATNetworkDeviceAttachment or same ;; Ret (inl NAT).

(* src/pkg/vm/config/virtual_machine.go : createNetworkDeviceConfiguration *)
Definition createNetworkDeviceConfiguration (iface : string) : prog vmE (NetworkDevice + error) :=
  try! att <- networkAttachment iface or same ;;
  do! ok NewVirtioNetworkDeviceConfiguration or same ;;
  Ret (inl {| nd_attachment := att; nd_mac := None |}).

(* src/pkg/vm/config/virtual_machine.go : createAudioDeviceConfiguration *)
Definition createAudioDeviceConfiguration : prog vmE (list SoundStream + error) :=
  do! ok NewVirtioSoundDeviceConfiguration or Errorf "failed to create sound device configuration" ;;
  do! ok NewVirtioSoundDeviceHostInputStreamConfiguration or Errorf "failed to create input stream configuration" ;;
  do! ok NewVirtioSoundDeviceHostOutputStreamConfiguration or Errorf "failed to create output stream configuration" ;;
  Ret (inl [HostInput; HostOutput]).

(** A trackpad is added where the host supports one. *)
Definition pointingDevices : prog vmE (list PointingDevice + error) :=
  do! ok NewUSBScreenCoordinatePointingDeviceConfiguration or Errorf "failed to create pointing device configuration" ;;
  err <- perform NewMacTrackpadConfiguration ;;
  Ret (inl (USBScreenCoordinate :: match err with None => [MacTrackpad] | Some _ => [] end)).

(* src/pkg/vm/config/virtual_machine.go : attachDeviceConfigurations *)
Definition attachDeviceConfigurations (config : VzConfig) (pc : PlatformConfiguration) (iface : string) (mac : list Z)
  : prog vmE (VzConfig + error) :=
  try! graphics <- createGraphicsDeviceConfiguration or Errorf "failed to create graphics device configuration" ;;
  do! ok (NewDiskImageStorageDeviceAttachment (BlockStoragePath pc) false)
    or Errorf "failed to create disk image storage device attachment" ;;
  do! ok NewVirtioBlockDeviceConfiguration or Errorf "failed to create block device configuration" ;;
  try! nd <- createNetworkDeviceConfiguration iface or Errorf "failed to create network device configuration" ;;
  do! ok (NewMACAddress mac) or Errorf "failed to create mac address" ;;
  try! pointing <- pointingDevices or same ;;
  do! ok NewUSBKeyboardConfiguration or Errorf "failed to create keyboard device configuration" ;;
  try! audio <- createAudioDeviceConfiguration or Errorf "failed to create audio device configuration" ;;
  Ret (inl {| v_cpuCount := v_cpuCount config; v_memorySize := v_memorySize config;
              v_platform := Some pc;
              v_graphics := Some [graphics];
              v_storage := Some [{| da_path := BlockStoragePath pc; da_readOnly := false |}];
              v_network := Some [{| nd_attachment := nd_attachment nd; nd_mac := Some mac |}];
              v_pointing := Some pointing;
              v_keyboards := Some 1;
              v_audio := Some [audio];
              v_sharing := v_sharing config |}).

(** One iteration of the loop over the mounts. *)
Definition shareMount (dirs : gmap string SharedDirectory) (m : Volumes.Mount)
  : prog vmE (error + gmap string SharedDirectory) :=
  err <- perform (NewSharedDirectory (Volumes.m_HostPath m) (Volumes.m_ReadOnly m)) ;;
  Ret (match err with
       | Some e => inl (Errorf "failed to create shared directory" e)
       | None =>
           inr (<[Path.Base (Volumes.m_ContainerPath m) :=
                    {| sd_path := Volumes.m_HostPath m; sd_readOnly := Volumes.m_ReadOnly m |}]> dirs)
       end).

Definition set_sharing (d : FileSystemDevice) (c : VzConfig) : VzConfig :=
  {| v_cpuCount := v_cpuCount c; v_memorySize := v_memorySize c; v_platform := v_platform c;
     v_graphics := v_graphics c; v_storage := v_storage c; v_network := v_network c;
     v_pointing := v_pointing c; v_keyboards := v_keyboards c; v_audio := v_audio c;
     v_sharing := Some [d] |}.

Definition shareMounts (mounts : list Volumes.Mount) : prog vmE (gmap string SharedDirectory + error) :=
  r <- foldR shareMount mounts ∅ ;;
  Ret (match r with inl e => inr e | inr d => inl d end).

(* src/pkg/vm/config/virtual_machine.go : attachDirectorySharingDevicesConfiguration *)
Definition attachDirectorySharingDevicesConfiguration (config : VzConfig) (mounts : list Volumes.Mount)
  : prog vmE (VzConfig + error) :=
  match mounts with
  | [] => Ret (inl config)
  | _ =>
      try! tag <- perform MacOSGuestAutomountTag or Errorf "failed to get macOS guest automount tag" ;;
      try! dirs <- shareMounts mounts or same ;;
      do! ok NewMultipleDirectoryShare or Errorf "failed to create directory share" ;;
      do! ok (NewVirtioFileSystemDeviceConfiguration tag) or Errorf "failed to create file system device configuration" ;;
      Ret (inl (set_sharing {| fs_tag := tag; fs_share := dirs |} config))
  end.

(** netutil.GenerateRandMAC and net.ParseMAC. *)
Definition generateMAC : prog vmE (list Z + error) :=
  r <- perform RandRead ;;
  let rand := match r with inl b => inl (octets_of b) | inr e => inr e end in
  match NetUtil.GenerateRandMAC rand with
  | (_, Some e) => Ret (inr (Errorf "failed to generate random mac address" e))
  | (macAddrStr, None) =>
      try! mac <- Ret (Net.ParseMAC macAddrStr) or Errorf "failed to parse mac address" ;; Ret (inl mac)
  end.

(** vz.NewVirtualMachineConfiguration(bootloader, cpuCount, memorySize) *)
Definition freshConfig (cpuCount memorySize : Z) : VzConfig :=
  {| v_cpuCount := cpuCount; v_memorySize := memorySize; v_platform := None; v_graphics := None;
     v_storage := None; v_network := None; v_pointing := None; v_keyboards := None; v_audio := None;
     v_sharing := None |}.

(* src/pkg/vm/config/virtual_machine.go : NewVirtualMachineConfiguration *)
Definition NewVirtualMachineConfiguration (pc : PlatformConfiguration) (cpuCount memorySize : Z) (iface : string)
    (mounts : list Volumes.Mount) : prog vmE (VirtualMachineConfiguration + error) :=
  do! ok NewMacOSBootLoader or Errorf "failed to create a new macOS bootloader" ;;
  do! ok (NewVzConfiguration cpuCount memorySize) or Errorf "failed to create a new virtual machine configuration" ;;
  try! mac <- generateMAC or same ;;
  try! config <- attachDeviceConfigurations (freshConfig cpuCount memorySize) pc iface mac
    or Errorf "failed to attach device configurations" ;;
  try! config <- attachDirectorySharingDevicesConfiguration config mounts
    or Errorf "failed to attach volume mounts configurations" ;;
  try! validated <- perform (Validate config) or Errorf "failed to validate configuration" ;;
  if negb validated then Ret (inr (errMsg "invalid configuration"))
  else
    Ret (inl {| MACAddress := mac;
                NetworkInterface := iface;
                overlayBlockStoragePath := if IsOverlay pc then BlockStoragePath pc else "";
                overlayAuxiliaryStoragePath := if IsOverlay pc then AuxiliaryStoragePath pc else "";
                vz := config |}).

(** ** pkg/vm/instance.go *)

(* src/pkg/vm/instance.go : NewVirtualMachineInstance *)
Definition NewVirtualMachineInstance (config : VirtualMachineConfiguration) : prog vmE (Instance.Fields + error) :=
  do! ok (NewVirtualMachine (vz config)) or same ;;
  now <- perform Now ;;
  perform GoHandleStateChanges ;;
  Ret (inl {| Instance.IPAddress := ""; Instance.CreatedAt := now; Instance.StartedAt := None;
              Instance.FinishedAt := None;
              Instance.macAddr := NetUtil.NormalizeMACAddress (NetUtil.HardwareAddr_String (MACAddress config));
              Instance.config := instance_config config; Instance.ipRetrievalCancelFunc := false |}).

(** ** Running, and which calls failed *)

Definition local : local_handler vmE unit := fun X e x s => Some (x, s).
Definition exec (env : oracle vmE) {A} (p : prog vmE A) := run (traced_handler local env) p (start tt).

(** What makes a call a failure for the program: a missing trackpad and a clone that
    was not there to be removed are none; an interface that is not listed and a
    configuration that is not valid are. *)
Definition failed_op (iface : string) {X} (e : vmE X) : X -> bool :=
  match e in vmE X return X -> bool with
  | TempDir | OsRemove _ | Now | NewMacTrackpadConfiguration | GoHandleStateChanges => fun _ => false
  | RandRead => fun r => match r with inr _ => true | inl _ => false end
  | MacOSGuestAutomountTag => fun r => match r with inr _ => true | inl _ => false end
  | NetworkInterfaces => fun ifs => negb (existsb (fun b => String.eqb b iface) ifs)
  | Validate _ => fun r => match r with inl true => false | _ => true end
  | SysClonefile _ _ _ | NewMacAuxiliaryStorage _ | NewMacHardwareModelWithData _
  | NewMacMachineIdentifierWithData _ | NewMacPlatformConfiguration | NewMacOSBootLoader
  | NewVzConfiguration _ _ | NewMacGraphicsDeviceConfiguration | NewMacGraphicsDisplayConfiguration _
  | NewDiskImageStorageDeviceAttachment _ _ | NewVirtioBlockDeviceConfiguration
  | NewBridgedNetworkDeviceAttachment _ | NewNATNetworkDeviceAttachment | NewVirtioNetworkDeviceConfiguration
  | NewMACAddress _ | NewUSBScreenCoordinatePointingDeviceConfiguration | NewUSBKeyboardConfiguration
  | NewVirtioSoundDeviceConfiguration | NewVirtioSoundDeviceHostInputStreamConfiguration
  | NewVirtioSoundDeviceHostOutputStreamConfiguration | NewSharedDirectory _ _ | NewMultipleDirectoryShare
  | NewVirtioFileSystemDeviceConfiguration _ | NewVirtualMachine _ =>
      fun r => match r with Some _ => true | None => false end
  end.

Definition failed (iface : string) (c : call vmE) : bool :=
  match c with Call e x => failed_op iface e x end.

Definition is_error {A} (r : A + error) : bool := match r with inr _ => true | inl _ => false end.

(** *** A program that fails exactly when one of its calls fails *)
Section Reports.
Variable iface : string.

(** [bad]: a call has failed already. *)
Fixpoint reports {A} (bad : bool) (p : prog vmE (A + error)) : Prop :=
  match p with
  | Ret r => is_error r = bad
  | Do e k => forall x, reports (bad || failed_op iface e x) (k x)
  end.

Lemma reports_attempt {A B} bad w (c : prog vmE (A + error)) (k : A -> prog vmE (B + error)) :
  reports bad c -> (forall x, reports false (k x)) -> reports bad (attempt w c k).
Proof.
  unfold attempt. revert bad. induction c as [[a|e]|X e c IH]; intros bad; simpl.
  - intros <- Hk. apply Hk.
  - by intros <- _.
  - intros H Hk x. by apply IH.
Qed.

Lemma reports_ok (c : vmE (option error)) :
  (forall x, failed_op iface c x = match x with Some _ => true | None => false end) -> reports false (ok c).
Proof. intros H x. simpl. rewrite H. by destruct x. Qed.

Lemma reports_run {A} (p : prog vmE (A + error)) bad env s :
  reports bad p ->
  exists r s' tr, run (traced_handler local env) p s = Some (r, s') /\ trace s' = app tr (trace s) /\
    is_error r = orb bad (existsb (failed iface) tr).
Proof.
  revert bad s. induction p as [r|X e k IH]; intros bad s; simpl.
  - intros H. exists r, s, []. split_and!; [done | done|]. by rewrite orb_false_r.
  - intros H. set (x := env X (clock s) e).
    destruct (IH x _ (Traced (S (clock s)) (Call e x :: trace s) (own s)) (H x)) as (r & s' & tr & Hr & Ht & He).
    exists r, s', (app tr [Call e x]). split_and!; [exact Hr | by rewrite Ht, <- app_assoc|].
    rewrite He, existsb_app. simpl. rewrite orb_false_r. by destruct bad, (failed_op _ _ _), (existsb _ tr).
Qed.

End Reports.

Lemma succeeds_ok {A} (Q : A -> Prop) w c (k : unit -> prog vmE (A + error)) :
  (forall x, succeeds Q (k x)) -> succeeds Q (attempt w (ok c) k).
Proof. intros H. apply (succeeds_attempt (fun _ => True)); [intros [e|]; exact I | intros x _; apply H]. Qed.

(** *** Every step reports its failures *)

Ltac reporting :=
  repeat first
    [ apply reports_ok; intros []; reflexivity
    | apply reports_attempt; [| intros ?]
    | reflexivity ].

Section Steps.
Variable iface : string.

Lemma storagePaths_reports opts overlay uid : reports iface false (storagePaths opts overlay uid).
Proof.
  unfold storagePaths. destruct overlay; [|done]. cbn [NewFileCloner perform bind reports failed_op orb]. intros d.
  unfold Clonefile. apply reports_attempt; [cbn [perform bind reports failed_op orb]; intros _; reporting|].
  intros b. apply reports_attempt; [cbn [perform bind reports failed_op orb]; intros _; reporting | done].
Qed.

Lemma decoded_reports s d : Base64.DecodeString s = Some d -> reports iface false (decodeBase64 s).
Proof. intros H. unfold decodeBase64. by rewrite H. Qed.

Lemma NewPlatformConfiguration_reports opts overlay uid hw mid :
  Base64.DecodeString (MacOS.HardwareModelData opts) = Some hw ->
  Base64.DecodeString (MacOS.MachineIdentifierData opts) = Some mid ->
  reports iface false (NewPlatformConfiguration opts overlay uid).
Proof.
  intros Hh Hm. unfold NewPlatformConfiguration.
  apply reports_attempt; [apply storagePaths_reports|]. intros paths. reporting; eauto using decoded_reports.
Qed.

Lemma networkAttachment_reports : reports iface false (networkAttachment iface).
Proof.
  unfold networkAttachment. destruct (negb (String.eqb iface "")); [|reporting].
  cbn [perform bind reports failed_op orb]. intros ifs.
  destruct (find_first (fun b => String.eqb b iface) ifs) as [b|] eqn:E.
  - apply find_first_Some in E as [Hin Hb].
    assert (existsb (fun b => String.eqb b iface) ifs = true) as ->; [|simpl negb; reporting].
    apply existsb_exists. exists b. by rewrite <- list_elem_of_In.
  - assert (existsb (fun b => String.eqb b iface) ifs = false) as ->; [|done].
    apply not_true_is_false. intros (b & Hb%list_elem_of_In & Hf)%existsb_exists.
    rewrite find_first_None in E. by rewrite (E b Hb) in Hf.
Qed.

Lemma attachDeviceConfigurations_reports config pc mac :
  reports iface false (attachDeviceConfigurations config pc iface mac).
Proof.
  unfold attachDeviceConfigurations, createGraphicsDeviceConfiguration, createNetworkDeviceConfiguration,
    createAudioDeviceConfiguration.
  reporting; auto using networkAttachment_reports. by intros [e|].
Qed.

Lemma shareMounts_reports mounts : reports iface false (shareMounts mounts).
Proof.
  unfold shareMounts. generalize (∅ : gmap string SharedDirectory).
  induction mounts as [|m l IH]; intros dirs; [done|].
  cbn [foldR shareMount perform bind reports failed_op orb]. intros [e|]; [done | apply IH].
Qed.

Lemma sharing_reports config mounts :
  reports iface false (attachDirectorySharingDevicesConfiguration config mounts).
Proof.
  unfold attachDirectorySharingDevicesConfiguration. destruct mounts as [|m l]; [done|].
  apply reports_attempt; [cbn [perform bind reports failed_op orb]; by intros [t|e]|]. intros tag.
  reporting. apply shareMounts_reports.
Qed.

Lemma byte_range c : (0 <= Str.byte c < 256)%Z.
Proof. unfold Str.byte. pose proof (N_ascii_bounded c). lia. Qed.

(** The address that is made of six random octets. *)
Lemma octets_of_normal b :
  exists b0 rest, NetUtil.fixBits (octets_of b) = b0 :: rest /\ List.length (b0 :: rest) = 6%nat /\
    Z.land b0 3 = 2%Z /\ NetUtil.GenerateRandMAC (inl (octets_of b)) = (NetUtil.HardwareAddr_String (b0 :: rest), None) /\
    Net.ParseMAC (NetUtil.HardwareAddr_String (b0 :: rest)) = inl (b0 :: rest) /\
    NetUtil.NormalizeMACAddress (NetUtil.HardwareAddr_String (b0 :: rest))
      = Str.join ":" (map NetUtil.arp_octet (b0 :: rest)).
Proof.
  assert (List.length (octets_of b) = 6%nat) as Hl by by destruct b as [[[[[? ?] ?] ?] ?] ?].
  assert (Forall (fun b => 0 <= b < 256)%Z (octets_of b)) as Hr.
  { destruct b as [[[[[? ?] ?] ?] ?] ?]. unfold octets_of. repeat constructor; apply byte_range. }
  destruct (NetUtil.GenerateRandMAC_normal _ Hl Hr) as (b0 & rest & Hf & Hl' & Hm & Hg & Hn).
  exists b0, rest. rewrite Hg in Hn. split_and!; [done..| |exact Hn].
  apply Net.ParseMAC_String; [done|]. rewrite <- Hf.
  destruct b as [[[[[? ?] ?] ?] ?] ?]. unfold octets_of, NetUtil.fixBits in *. cbn [map] in *.
  inversion_clear Hr as [|? ? H0 Hr']. constructor; [|done].
  pose proof (NetUtil.octet_all _ H0) as Ho. unfold NetUtil.octet_ok in Ho. rewrite !andb_true_iff in Ho.
  destruct Ho as [[[_ _] Hlo] Hhi]. bool_lia.
Qed.

Lemma generateMAC_reports : reports iface false generateMAC.
Proof.
  unfold generateMAC. cbn [perform bind reports failed_op orb]. intros [b|e]; [|done].
  destruct (octets_of_normal b) as (b0 & rest & _ & _ & _ & -> & Hp & _). by rewrite Hp.
Qed.

Lemma NewVirtualMachineConfiguration_reports pc cpu mem mounts :
  reports iface false (NewVirtualMachineConfiguration pc cpu mem iface mounts).
Proof.
  unfold NewVirtualMachineConfiguration.
  do 2 (apply reports_attempt; [reporting | intros _]).
  apply reports_attempt; [apply generateMAC_reports | intros mac].
  apply reports_attempt; [apply attachDeviceConfigurations_reports | intros c].
  apply reports_attempt; [apply sharing_reports | intros c'].
  intros [[|]|e]; done.
Qed.

End Steps.

(** ** The configuration that a success returns *)

(** The directories the mounts are shared as: the last one of a name wins. *)
Definition sharedDirs (mounts : list Volumes.Mount) : gmap string SharedDirectory :=
  foldl (fun dirs m => <[Path.Base (Volumes.m_ContainerPath m) :=
           {| sd_path := Volumes.m_HostPath m; sd_readOnly := Volumes.m_ReadOnly m |}]> dirs) ∅ mounts.

Definition attachmentFor (iface : string) : NetworkAttachment :=
  if String.eqb iface "" then NAT else Bridged iface.

Definition devices (cpu mem : Z) (pc : PlatformConfiguration) (iface : string) (mac : list Z)
    (pointing : list PointingDevice) (sharing : option (list FileSystemDevice)) : VzConfig :=
  {| v_cpuCount := cpu; v_memorySize := mem; v_platform := Some pc;
     v_graphics := Some [[{| dp_width := 1920; dp_height := 1200; dp_ppi := 80 |}]];
     v_storage := Some [{| da_path := BlockStoragePath pc; da_readOnly := false |}];
     v_network := Some [{| nd_attachment := attachmentFor iface; nd_mac := Some mac |}];
     v_pointing := Some pointing; v_keyboards := Some 1%nat; v_audio := Some [[HostInput; HostOutput]];
     v_sharing := sharing |}.

Definition sharing_of (tag : string) (mounts : list Volumes.Mount) : option (list FileSystemDevice) :=
  match mounts with [] => None | _ => Some [{| fs_tag := tag; fs_share := sharedDirs mounts |}] end.

(** Six octets, locally administered and unicast. *)
Definition local_unicast (mac : list Z) : Prop :=
  List.length mac = 6%nat /\ exists b0 rest, mac = b0 :: rest /\ Z.land b0 3 = 2%Z.

Record built (pc : PlatformConfiguration) (cpu mem : Z) (iface : string) (mounts : list Volumes.Mount)
    (vc : VirtualMachineConfiguration) : Prop := {
  built_mac : local_unicast (MACAddress vc) /\
    NetUtil.NormalizeMACAddress (NetUtil.HardwareAddr_String (MACAddress vc))
      = Str.join ":" (map NetUtil.arp_octet (MACAddress vc));
  built_iface : NetworkInterface vc = iface;
  built_overlays : IsOverlay pc = true ->
    overlayBlockStoragePath vc = BlockStoragePath pc /\ overlayAuxiliaryStoragePath vc = AuxiliaryStoragePath pc;
  built_no_overlays : IsOverlay pc = false ->
    overlayBlockStoragePath vc = "" /\ overlayAuxiliaryStoragePath vc = "";
  built_devices : exists tag trackpad,
    vz vc = devices cpu mem pc iface (MACAddress vc) (USBScreenCoordinate :: trackpad) (sharing_of tag mounts) /\
    (trackpad = [] \/ trackpad = [MacTrackpad])
}.

Lemma generateMAC_succeeds :
  succeeds (fun mac => local_unicast mac /\
    NetUtil.NormalizeMACAddress (NetUtil.HardwareAddr_String mac) = Str.join ":" (map NetUtil.arp_octet mac))
    generateMAC.
Proof.
  unfold succeeds, generateMAC. cbn [perform bind all_results]. intros [b|e]; [|exact I].
  destruct (octets_of_normal b) as (b0 & rest & _ & Hl & Hm & -> & Hp & Hn). rewrite Hp.
  split; [split; [done | by exists b0, rest] | done].
Qed.

Lemma networkAttachment_succeeds iface :
  succeeds (fun att => att = attachmentFor iface) (networkAttachment iface).
Proof.
  unfold networkAttachment, attachmentFor. destruct (String.eqb iface ""); simpl.
  - by apply succeeds_ok.
  - intros ifs. destruct (find_first _ ifs) as [b|] eqn:E; [|exact I].
    apply succeeds_ok. intros _. by apply find_first_Some in E as [_ ->%String.eqb_eq].
Qed.

Lemma pointingDevices_succeeds :
  succeeds (fun l => exists t, l = USBScreenCoordinate :: t /\ (t = [] \/ t = [MacTrackpad])) pointingDevices.
Proof.
  apply succeeds_ok. intros _ [e|]; [exists []; auto | exists [MacTrackpad]; auto].
Qed.

Lemma attachDevice_succeeds cpu mem pc iface mac :
  succeeds (fun c => exists t, c = devices cpu mem pc iface mac (USBScreenCoordinate :: t) None /\
                               (t = [] \/ t = [MacTrackpad]))
    (attachDeviceConfigurations (freshConfig cpu mem) pc iface mac).
Proof.
  unfold attachDeviceConfigurations.
  apply (succeeds_attempt (fun g => g = [{| dp_width := 1920; dp_height := 1200; dp_ppi := 80 |}])).
  { unfold createGraphicsDeviceConfiguration. by do 2 (apply succeeds_ok; intros _). }
  intros g ->. do 2 (apply succeeds_ok; intros _).
  apply (succeeds_attempt (fun nd => nd_attachment nd = attachmentFor iface)).
  { unfold createNetworkDeviceConfiguration. eapply succeeds_attempt; [apply networkAttachment_succeeds|].
    intros att ->. by apply succeeds_ok. }
  intros nd Hnd. apply succeeds_ok; intros _.
  eapply succeeds_attempt; [apply pointingDevices_succeeds|]. intros p (t & -> & Ht).
  apply succeeds_ok; intros _.
  apply (succeeds_attempt (fun a => a = [HostInput; HostOutput])).
  { unfold createAudioDeviceConfiguration. by do 3 (apply succeeds_ok; intros _). }
  intros a ->. exists t. by rewrite Hnd.
Qed.

Lemma shareMounts_succeeds mounts : succeeds (fun d => d = sharedDirs mounts) (shareMounts mounts).
Proof.
  unfold shareMounts, sharedDirs. generalize (∅ : gmap string SharedDirectory).
  induction mounts as [|m l IH]; intros dirs; [done|]. intros [e|]; [exact I | apply IH].
Qed.

Lemma sharing_succeeds c mounts :
  v_sharing c = None ->
  succeeds (fun c' => exists tag, c' = match sharing_of tag mounts with Some [d] => set_sharing d c | _ => c end)
    (attachDirectorySharingDevicesConfiguration c mounts).
Proof.
  intros Hc. unfold attachDirectorySharingDevicesConfiguration. destruct mounts as [|m l]; [by exists ""|].
  eapply succeeds_attempt; [apply succeeds_any|]. intros tag _.
  eapply succeeds_attempt; [apply shareMounts_succeeds|]. intros d ->.
  do 2 (apply succeeds_ok; intros _). by exists tag.
Qed.

Lemma NewVirtualMachineConfiguration_succeeds pc cpu mem iface mounts :
  succeeds (built pc cpu mem iface mounts) (NewVirtualMachineConfiguration pc cpu mem iface mounts).
Proof.
  unfold NewVirtualMachineConfiguration. do 2 (apply succeeds_ok; intros _).
  eapply succeeds_attempt; [apply generateMAC_succeeds|]. intros mac Hmac.
  eapply succeeds_attempt; [apply attachDevice_succeeds|]. intros c (t & -> & Ht).
  eapply succeeds_attempt; [by apply sharing_succeeds|]. intros c' (tag & ->).
  eapply succeeds_attempt; [apply succeeds_any|]. intros v _. destruct (negb v); [exact I|].
  split; cbn [MACAddress NetworkInterface overlayBlockStoragePath overlayAuxiliaryStoragePath vz].
  - exact Hmac.
  - done.
  - by intros ->.
  - by intros ->.
  - exists tag, t. split; [by destruct mounts | done].
Qed.

(** *** Going back from a success *)

Lemma attempt_inl {A B} env w (c : prog vmE (A + error)) (k : A -> prog vmE (B + error)) s b s' :
  run (traced_handler local env) (attempt w c k) s = Some (inl b, s') ->
  exists x s1, run (traced_handler local env) c s = Some (inl x, s1) /\
    run (traced_handler local env) (k x) s1 = Some (inl b, s').
Proof.
  unfold attempt. rewrite run_bind. destruct (run _ c s) as [[[x|e] s1]|]; simpl; [|done..]. by exists x, s1.
Qed.

Lemma ok_inl {A} env w c (k : unit -> prog vmE (A + error)) s b s' :
  run (traced_handler local env) (attempt w (ok c) k) s = Some (inl b, s') ->
  exists s1, run (traced_handler local env) (k tt) s1 = Some (inl b, s').
Proof. intros ([] & s1 & _ & H)%attempt_inl. by exists s1. Qed.

Lemma succeeds_run {A} P env (p : prog vmE (A + error)) s a s' :
  succeeds P p -> run (traced_handler local env) p s = Some (inl a, s') -> P a.
Proof. intros H Hr. exact (all_results_run _ _ p s (inl a) s' H Hr). Qed.

(** C28: the configuration of a machine always comes back, with an error exactly when
    one of the calls it makes fails (an interface that is not listed and a
    configuration that is not valid among them, a missing trackpad not).  A success
    has one writable disk, the platform's; one network device, bridged to the named
    interface or behind NAT when none is named, with a fresh unicast address that is
    also the one recorded; the directory that each mount's base name stands for; and
    the framework has validated exactly this configuration. *)
Theorem configuration_built env pc cpu mem iface mounts :
  exists r s, exec env (NewVirtualMachineConfiguration pc cpu mem iface mounts) = Some (r, s) /\
  is_error r = existsb (failed iface) (trace s) /\
  forall vc, r = inl vc ->
    built pc cpu mem iface mounts vc /\ Call (Validate (vz vc)) (inl true) ∈ trace s.
Proof.
  destruct (reports_run iface _ false env (start tt) (NewVirtualMachineConfiguration_reports iface pc cpu mem mounts))
    as (r & s & tr & Hr & Ht & He).
  exists r, s. split; [exact Hr|]. split.
  { rewrite He, Ht. simpl. by rewrite app_nil_r. }
  intros vc ->. split; [apply (succeeds_run _ _ _ _ _ _ (NewVirtualMachineConfiguration_succeeds _ _ _ _ _) Hr)|].
  clear He Ht. unfold NewVirtualMachineConfiguration in Hr.
  apply ok_inl in Hr as (s1 & Hr). apply ok_inl in Hr as (s2 & Hr).
  apply attempt_inl in Hr as (mac & s3 & _ & Hr). apply attempt_inl in Hr as (c & s4 & _ & Hr).
  apply attempt_inl in Hr as (c' & s5 & _ & Hr). apply attempt_inl in Hr as (v & s6 & Hv & Hr).
  destruct v; simpl in Hr; [|done]. injection Hr as <- <-. cbn [vz].
  rewrite run_perform in Hv. unfold traced_handler, local in Hv. injection Hv as Hv <-.
  cbn [trace]. rewrite Hv. by left.
Qed.

(** *** The shared directories *)

Lemma foldl_insert_other {V} (f : Volumes.Mount -> string) (g : Volumes.Mount -> V) l (d : gmap string V) k :
  k ∉ map f l -> foldl (fun d m => <[f m := g m]> d) d l !! k = d !! k.
Proof.
  revert d. induction l as [|m l IH]; intros d; simpl; [done|]. intros H.
  rewrite IH by (intros ?; apply H; by right). apply lookup_insert_ne. intros <-. apply H. by left.
Qed.

(** With distinct base names every mount is shared, under its base name. *)
Lemma sharedDirs_all mounts m :
  NoDup (map (fun m => Path.Base (Volumes.m_ContainerPath m)) mounts) -> m ∈ mounts ->
  sharedDirs mounts !! Path.Base (Volumes.m_ContainerPath m)
    = Some {| sd_path := Volumes.m_HostPath m; sd_readOnly := Volumes.m_ReadOnly m |}.
Proof.
  unfold sharedDirs. generalize (∅ : gmap string SharedDirectory).
  induction mounts as [|m' l IH]; intros d Hn Hm; [by apply not_elem_of_nil in Hm|]. simpl.
  inversion_clear Hn as [|? ? Hnot Hn']. apply elem_of_cons in Hm as [->|Hm]; [|by apply IH].
  rewrite (foldl_insert_other (fun m => Path.Base (Volumes.m_ContainerPath m))
             (fun m => {| sd_path := Volumes.m_HostPath m; sd_readOnly := Volumes.m_ReadOnly m |})) by done.
  apply lookup_insert_eq.
Qed.

(** Two mounts below different directories with one base name: the first is lost. *)
Lemma shared_dirs_collide h1 h2 :
  sharedDirs [ {| Volumes.m_Name := "a"; Volumes.m_HostPath := h1; Volumes.m_ContainerPath := "/etc/app/config"; Volumes.m_ReadOnly := true |};
               {| Volumes.m_Name := "b"; Volumes.m_HostPath := h2; Volumes.m_ContainerPath := "/etc/db/config"; Volumes.m_ReadOnly := false |} ]
  = {[ "config" := {| sd_path := h2; sd_readOnly := false |} ]}.
Proof. reflexivity. Qed.

(** ** From an image to an instance *)

(** [setupVM] with the constructors it calls. *)
(* src/pkg/resourcemanager/macos.go : setupVM *)
Definition setupVM (opts : MacPlatformConfigurationOptions) (uid : string) (cpu mem : Z) (iface : string)
    (mounts : list Volumes.Mount) : prog vmE (Instance.Fields + error) :=
  try! pc <- NewPlatformConfiguration opts true uid or Errorf "failed to create platform configuration" ;;
  try! vc <- NewVirtualMachineConfiguration pc cpu mem iface mounts
    or Errorf "failed to create virtual machine configuration" ;;
  try! i <- NewVirtualMachineInstance vc or Errorf "failed to create virtual machine instance" ;;
  Ret (inl i).

(** What a call does with paths of the host: the source of a clone; a file that is
    removed, made or opened, perhaps to be written; a directory that the guest sees,
    with everything below it. *)
Inductive Use := Copied (path : string) | Opened (path : string) (writable : bool) | Shared (dir : string) (readOnly : bool).

Definition uses {X} (e : vmE X) : list Use :=
  match e with
  | OsRemove p => [Opened p true]
  | SysClonefile src dst _ => [Copied src; Opened dst true]
  | NewMacAuxiliaryStorage p => [Opened p true]
  | NewDiskImageStorageDeviceAttachment p readOnly => [Opened p (negb readOnly)]
  | NewSharedDirectory d readOnly => [Shared d readOnly]
  | _ => []
  end.

Definition used (c : call vmE) : list Use := match c with Call e _ => uses e end.

(** A file below a directory: paths as they are written, without following links. *)
Definition within (d p : string) : Prop := exists rest, p = d ++ rest.

(** The use lets the file be changed. *)
Definition writes (u : Use) (p : string) : Prop :=
  match u with
  | Copied _ => False
  | Opened q w => w = true /\ q = p
  | Shared d readOnly => readOnly = false /\ within d p
  end.

(** The image of the options has files that no clone is named like. *)
Definition proper_image (opts : MacPlatformConfigurationOptions) : Prop :=
  forall p, p ∈ [MacOS.BlockStoragePath opts; MacOS.AuxiliaryStoragePath opts] ->
    Path.Base p <> "/" /\ Str.has_prefix "macosvz_file_" (Path.Base p) = false.

Section Clones.
Variables (opts : MacPlatformConfigurationOptions) (uid : string) (mounts : list Volumes.Mount).

Definition images : list string := [MacOS.BlockStoragePath opts; MacOS.AuxiliaryStoragePath opts].

Definition is_clone (p : string) : Prop :=
  exists src, src ∈ images /\ Path.Base p = "macosvz_file_" ++ Path.Base src ++ "." ++ uid.

(** What a machine may do with a path: the image is cloned, the clones are used, and
    the directories of the mounts are shared the way the mounts say. *)
Definition allowed (u : Use) : Prop :=
  match u with
  | Copied p => p ∈ images
  | Opened p _ => is_clone p
  | Shared d readOnly => exists m, m ∈ mounts /\ Volumes.m_HostPath m = d /\ Volumes.m_ReadOnly m = readOnly
  end.

Definition on_clones (X : Type) (e : vmE X) : Prop := foldr (fun u P => allowed u /\ P) True (uses e).

Lemma on_clones_allowed X (e : vmE X) u : on_clones X e -> u ∈ uses e -> allowed u.
Proof.
  unfold on_clones. induction (uses e) as [|v l IH]; [by intros _ ?%elem_of_nil|].
  intros [Hv Hl] [->|Hu]%elem_of_cons; [done | by apply IH].
Qed.

Hypothesis Himage : proper_image opts.
Hypothesis Huid : Str.count_char "/" uid = 0%nat.

Lemma clonedPath_is_clone dir src :
  src ∈ images -> is_clone (clonedPath {| fc_TempDir := dir; fc_FilenamePrefix := "macosvz_file_" |} src uid).
Proof using Himage Huid.
  intros Hs. exists src. split; [done|]. unfold clonedPath. simpl fc_TempDir.
  rewrite Path.Base_Join; [done|]. unfold clonedName, Path.plain_name. simpl fc_FilenamePrefix.
  split; [|done]. destruct (Himage src Hs) as [Hroot _]. rewrite !Str.count_char_app.
  destruct (Path.Base_free src) as [?|Hf]; [done|]. by rewrite Hf, Huid.
Qed.

Lemma clone_not_image p src : is_clone p -> src ∈ images -> p <> src.
Proof using Himage.
  intros (src' & Hs' & Hb) Hs ->. destruct (Himage src Hs) as [_ Hp]. rewrite Hb in Hp.
  by rewrite Str.has_prefix_app in Hp.
Qed.

Lemma clone_not_empty p : is_clone p -> p <> "".
Proof. intros (src & _ & Hb) ->. done. Qed.

Lemma all_ops_ok {A} (P : forall X, vmE X -> Prop) w (c : vmE (option error)) (k : unit -> prog vmE (A + error)) :
  P _ c -> all_ops P (k tt) -> all_ops P (attempt w (ok c) k).
Proof.
  intros Hc Hk. apply (all_ops_attempt (fun _ => True)); [| apply succeeds_any | by intros []].
  split; [done|]. by intros [e|].
Qed.

(** The clones of a platform that was made. *)
Definition cloned (pc : PlatformConfiguration) : Prop :=
  is_clone (BlockStoragePath pc) /\ is_clone (AuxiliaryStoragePath pc).

Lemma storagePaths_clones :
  all_ops on_clones (storagePaths opts true uid) /\
  succeeds (fun p => is_clone (fst p) /\ is_clone (snd p)) (storagePaths opts true uid).
Proof using Himage Huid.
  assert (MacOS.BlockStoragePath opts ∈ images) as Hb by by left.
  assert (MacOS.AuxiliaryStoragePath opts ∈ images) as Ha by (right; by left).
  pose proof (fun d => clonedPath_is_clone d _ Hb) as Cb. pose proof (fun d => clonedPath_is_clone d _ Ha) as Ca.
  split.
  - split; [done|]. intros d. split; [split; [apply Cb | done]|]. intros ?. split; [split; [done | split; [apply Cb | done]]|].
    intros [e|]; [done|]. split; [split; [apply Ca | done]|]. intros ?. split; [split; [done | split; [apply Ca | done]]|]. by intros [e|].
  - intros d ? [e|]; [done|]. intros ? [e|]; [done|]. split; [apply Cb | apply Ca].
Qed.

Lemma NewPlatformConfiguration_clones :
  all_ops on_clones (NewPlatformConfiguration opts true uid) /\
  succeeds cloned (NewPlatformConfiguration opts true uid).
Proof using Himage Huid.
  destruct storagePaths_clones as [Ho Hs]. unfold NewPlatformConfiguration. split.
  - eapply all_ops_attempt; [exact Ho | exact Hs|]. intros [b a] [Hb Ha].
    apply all_ops_ok; [by split|].
    unfold decodeBase64. destruct (Base64.DecodeString (MacOS.HardwareModelData opts)); [|done].
    apply all_ops_ok; [done|].
    destruct (Base64.DecodeString (MacOS.MachineIdentifierData opts)); [|done].
    by do 2 (apply all_ops_ok; [done|]).
  - eapply succeeds_attempt; [exact Hs|]. intros [b a] [Hb Ha]. apply succeeds_ok; intros _.
    eapply succeeds_attempt; [apply succeeds_any|]. intros hw _. apply succeeds_ok; intros _.
    eapply succeeds_attempt; [apply succeeds_any|]. intros mid _. by do 2 (apply succeeds_ok; intros _).
Qed.

Lemma shareMounts_clones : all_ops on_clones (shareMounts mounts).
Proof.
  unfold shareMounts. assert (forall m, m ∈ mounts -> m ∈ mounts) as Hin by done. revert Hin.
  generalize mounts at 1 3 as l. generalize (∅ : gmap string SharedDirectory).
  intros dirs l. revert dirs. induction l as [|m l IH]; intros dirs Hl; [done|].
  split; [split; [exists m; split_and!; [apply Hl; left | done | done] | done]|].
  intros [e|]; [done|]. apply IH. intros m' Hm. apply Hl. by right.
Qed.

Lemma attachDevice_clones c pc iface mac :
  is_clone (BlockStoragePath pc) -> all_ops on_clones (attachDeviceConfigurations c pc iface mac).
Proof.
  intros Hb. unfold attachDeviceConfigurations, createGraphicsDeviceConfiguration, createAudioDeviceConfiguration,
    createNetworkDeviceConfiguration.
  eapply all_ops_attempt; [by repeat (apply all_ops_ok; [done|]) | apply succeeds_any|]. intros g _.
  apply all_ops_ok; [by split|]. apply all_ops_ok; [done|].
  eapply all_ops_attempt; [|apply succeeds_any|].
  { eapply all_ops_attempt; [|apply succeeds_any|].
    - unfold networkAttachment. destruct (negb _); [|by apply all_ops_ok].
      split; [done|]. intros ifs. cbn [bind]. destruct (find_first (fun b => String.eqb b iface) ifs); [by apply all_ops_ok | done].
    - intros att _. by apply all_ops_ok. }
  intros nd _. apply all_ops_ok; [done|].
  eapply all_ops_attempt; [by apply all_ops_ok; [|split] | apply succeeds_any|]. intros p _.
  apply all_ops_ok; [done|].
  eapply all_ops_attempt; [by repeat (apply all_ops_ok; [done|]) | apply succeeds_any | done].
Qed.

Lemma NewVirtualMachineConfiguration_clones pc cpu mem iface :
  is_clone (BlockStoragePath pc) -> all_ops on_clones (NewVirtualMachineConfiguration pc cpu mem iface mounts).
Proof.
  intros Hb. unfold NewVirtualMachineConfiguration. do 2 (apply all_ops_ok; [done|]).
  eapply all_ops_attempt; [|apply succeeds_any|].
  { split; [done|]. intros r. cbn [bind]. destruct (NetUtil.GenerateRandMAC _) as [m [e|]]; [done|].
    by destruct (Net.ParseMAC m). }
  intros mac _. eapply all_ops_attempt; [by apply attachDevice_clones | apply succeeds_any|]. intros c _.
  eapply all_ops_attempt; [|apply succeeds_any|].
  { unfold attachDirectorySharingDevicesConfiguration. destruct mounts as [|m l] eqn:El; [done|]. rewrite <- El.
    eapply all_ops_attempt; [by split | apply succeeds_any|]. intros tag _.
    eapply all_ops_attempt; [apply shareMounts_clones | apply succeeds_any|]. intros d _.
    by do 2 (apply all_ops_ok; [done|]). }
  intros c' _. eapply all_ops_attempt; [by split | apply succeeds_any|]. intros v _. by destruct (negb v).
Qed.

Lemma setupVM_clones cpu mem iface : all_ops on_clones (setupVM opts uid cpu mem iface mounts).
Proof using Himage Huid.
  destruct NewPlatformConfiguration_clones as [Ho Hs]. unfold setupVM.
  eapply all_ops_attempt; [exact Ho | exact Hs|]. intros pc [Hb _].
  eapply all_ops_attempt; [by apply NewVirtualMachineConfiguration_clones | apply succeeds_any|]. intros vc _.
  eapply all_ops_attempt; [by apply all_ops_ok; [|split; [|intros ?; split]] | apply succeeds_any | done].
Qed.

End Clones.

Lemma run_extends env {A} (p : prog vmE A) s a s' :
  run (traced_handler local env) p s = Some (a, s') -> forall c, c ∈ trace s -> c ∈ trace s'.
Proof.
  revert s. induction p as [x|X e k IH]; intros s; simpl; [by intros [= <- <-]|].
  intros H c Hc. apply (IH _ _ H). by right.
Qed.

Lemma Clonefile_inl env fc path uid s b s' :
  run (traced_handler local env) (Clonefile fc path uid) s = Some (inl b, s') ->
  b = clonedPath fc path uid /\ Call (SysClonefile path b 0) None ∈ trace s'.
Proof.
  unfold Clonefile. cbn [bind perform run]. unfold traced_handler at 1, local at 1. intros H.
  unfold attempt, ok in H. cbn [bind perform run] in H. unfold traced_handler, local in H. cbn [clock trace own] in H.
  match type of H with context [match ?x with None => inl tt | Some e => inr e end] => destruct x eqn:E; [done|] end.
  cbn in H. injection H as <- <-. split; [done|]. cbn [trace]. by left.
Qed.

(** What a platform with clones was made of. *)
Lemma NewPlatformConfiguration_inl env opts uid s pc s' :
  run (traced_handler local env) (NewPlatformConfiguration opts true uid) s = Some (inl pc, s') ->
  IsOverlay pc = true /\ auxiliaryStorage pc = AuxiliaryStoragePath pc /\
  Call (SysClonefile (MacOS.BlockStoragePath opts) (BlockStoragePath pc) 0) None ∈ trace s' /\
  Call (SysClonefile (MacOS.AuxiliaryStoragePath opts) (AuxiliaryStoragePath pc) 0) None ∈ trace s' /\
  Base64.DecodeString (MacOS.HardwareModelData opts) = Some (hardwareModel pc) /\
  Base64.DecodeString (MacOS.MachineIdentifierData opts) = Some (machineIdentifier pc).
Proof.
  unfold NewPlatformConfiguration. intros ([b a] & s1 & Hp & Hr)%attempt_inl.
  assert (Call (SysClonefile (MacOS.BlockStoragePath opts) b 0) None ∈ trace s1 /\
          Call (SysClonefile (MacOS.AuxiliaryStoragePath opts) a 0) None ∈ trace s1) as [Hb Ha].
  { unfold storagePaths, NewFileCloner in Hp. cbn [bind perform run] in Hp.
    apply attempt_inl in Hp as (b' & s2 & Hb & Hp). apply attempt_inl in Hp as (a' & s3 & Ha & Hp).
    injection Hp as -> -> ->. apply Clonefile_inl in Hb as [_ Hb]. pose proof (Clonefile_inl _ _ _ _ _ _ _ Ha) as [_ Ha'].
    split; [apply (run_extends _ _ _ _ _ Ha _ Hb) | exact Ha']. }
  assert (forall c, c ∈ trace s1 -> c ∈ trace s') as Hext by exact (run_extends _ _ _ _ _ Hr).
  apply ok_inl in Hr as (s4 & Hr). unfold decodeBase64 in Hr.
  destruct (Base64.DecodeString (MacOS.HardwareModelData opts)) as [hw|]; [|done].
  apply attempt_inl in Hr as (hw' & s5 & [= <- <-] & Hr). apply ok_inl in Hr as (s6 & Hr).
  destruct (Base64.DecodeString (MacOS.MachineIdentifierData opts)) as [mid|]; [|done].
  apply attempt_inl in Hr as (mid' & s7 & [= <- <-] & Hr). apply ok_inl in Hr as (s8 & Hr).
  apply ok_inl in Hr as (s9 & Hr). injection Hr as <- <-. split_and!; auto.
Qed.

(** C25: setting a machine up always comes back, and touches no other file than the
    clones of the image and what the mounts name: every path that is removed, written
    or opened is a clone's; a file of the image is only the source of a clone; and a
    directory that the guest sees is the host path of one of the mounts, writable only
    if that mount is.  So a file of the image can be changed only through a writable
    mount that covers it.  The instance of a success has the two clones of the image's
    files as its overlays, and stopping it, whatever has happened to it since, removes
    exactly these two files; and the address it is looked up by is the one of its
    network device, spelled as [arp] spells it.  The statement is about images whose
    files are not themselves named like clones ([proper_image]: two paths that have a
    last element, without the prefix [macosvz_file_]) and pod UIDs without a slash, as
    those of Kubernetes are. *)
Theorem machine_runs_on_clones env opts uid cpu mem iface mounts :
  proper_image opts -> Str.count_char "/" uid = 0%nat ->
  exists r s, exec env (setupVM opts uid cpu mem iface mounts) = Some (r, s) /\
  (forall c u, c ∈ trace s -> u ∈ used c ->
    match u with
    | Copied p => p ∈ images opts
    | Opened p _ => is_clone opts uid p
    | Shared d readOnly => exists m, m ∈ mounts /\ Volumes.m_HostPath m = d /\ Volumes.m_ReadOnly m = readOnly
    end) /\
  (forall p, p ∈ images opts ->
    (forall m, m ∈ mounts -> Volumes.m_ReadOnly m = false -> ~ within (Volumes.m_HostPath m) p) ->
    forall c u, c ∈ trace s -> u ∈ used c -> ~ writes u p) /\
  (forall i, r = inl i ->
    exists block aux mac,
      Instance.GetOverlays (Instance.config i) = (block, aux, true) /\
      is_clone opts uid block /\ is_clone opts uid aux /\
      Call (SysClonefile (MacOS.BlockStoragePath opts) block 0) None ∈ trace s /\
      Call (SysClonefile (MacOS.AuxiliaryStoragePath opts) aux 0) None ∈ trace s /\
      local_unicast mac /\ Instance.macAddr i = Str.join ":" (map NetUtil.arp_octet mac) /\
      Instance.NetworkInterface (Instance.config i) = iface /\
      forall env' i', Instance.config i' = Instance.config i ->
        exists r' s', Instance.exec env' Instance.Stop i' = Some (r', s') /\
          rev (omap Instance.removed (trace s')) = [block; aux]).
Proof.
  intros Himg Huid.
  assert (twp (traced_handler local env) (setupVM opts uid cpu mem iface mounts)
            (fun _ s => Forall (on_call (on_clones opts uid mounts)) (trace s)) (start tt)) as Ht.
  { apply (twp_quiet _ _ (on_clones opts uid mounts)); [intros X e x _; by eexists | by apply setupVM_clones|].
    intros a n tr Htr. simpl. by rewrite app_nil_r. }
  apply twp_run in Ht as (r & s & Hr & Htr). exists r, s. split; [exact Hr|].
  assert (forall c u, c ∈ trace s -> u ∈ used c -> allowed opts uid mounts u) as Hall.
  { intros [X e x] u Hc Hu. rewrite Forall_forall in Htr. exact (on_clones_allowed _ _ _ X e u (Htr _ Hc) Hu). }
  split; [exact Hall|]. split.
  { intros p Hp Hm c u Hc Hu Hw. specialize (Hall c u Hc Hu). destruct u as [q|q w|d ro]; simpl in *; [done| |].
    - destruct Hw as [_ ->]. by destruct (clone_not_image opts uid Himg p p Hall Hp).
    - destruct Hall as (m & Hin & <- & Hro). destruct Hw as [-> Hw]. by apply (Hm m). }
  intros i ->. unfold setupVM in Hr. apply attempt_inl in Hr as (pc & s1 & Hpc & Hr).
  destruct (NewPlatformConfiguration_clones opts uid mounts Himg Huid) as [_ Hcl].
  pose proof (succeeds_run _ _ _ _ _ _ Hcl Hpc) as [Cb Ca].
  destruct (NewPlatformConfiguration_inl _ _ _ _ _ _ Hpc) as (Hov & _ & Sb & Sa & _).
  pose proof (run_extends _ _ _ _ _ Hr) as Hext.
  apply attempt_inl in Hr as (vc & s2 & Hvc & Hr).
  pose proof (succeeds_run _ _ _ _ _ _ (NewVirtualMachineConfiguration_succeeds _ _ _ _ _) Hvc) as Hbuilt.
  apply attempt_inl in Hr as (i' & s3 & Hi & Hr). injection Hr as -> ->.
  unfold NewVirtualMachineInstance in Hi. apply ok_inl in Hi as (s4 & Hi). injection Hi as <- <-.
  destruct (built_overlays _ _ _ _ _ _ Hbuilt Hov) as [Eb Ea]. destruct (built_mac _ _ _ _ _ _ Hbuilt) as [Hmac Hn].
  exists (BlockStoragePath pc), (AuxiliaryStoragePath pc), (MACAddress vc).
  assert (Instance.GetOverlays (instance_config vc) = (BlockStoragePath pc, AuxiliaryStoragePath pc, true)) as Hg.
  { unfold Instance.GetOverlays. cbn. rewrite Eb, Ea. do 2 f_equal.
    destruct (String.eqb_spec (BlockStoragePath pc) "") as [E|]; [by destruct (clone_not_empty _ _ _ Cb)|].
    destruct (String.eqb_spec (AuxiliaryStoragePath pc) "") as [E|]; [by destruct (clone_not_empty _ _ _ Ca) | done]. }
  split_and!; [exact Hg | done | done | by apply Hext | by apply Hext | done | done | apply Hbuilt|].
  intros env' i' Hi'. apply (Instance.Stop_removes _ _ _ _ true). by rewrite Hi'.
Qed.

(** ** The operations of [MacOS.setupVM] are these constructors *)

(** The manager knows platforms, configurations and instances by references: here they
    are the places in the lists of those made so far. *)
Record Heap := {
  platforms : list PlatformConfiguration;
  configs : list VirtualMachineConfiguration;
  instances : list Instance.Fields
}.

(** A constructor's result becomes a reference to it. *)
Definition made {A} (c : prog vmE (A + error)) (size : nat) (store : A -> Heap) (h : Heap)
  : prog vmE (option ((nat + error) * Heap)) :=
  r <- c ;;
  Ret (Some (match r with inl x => (inl size, store x) | inr e => (inr e, h) end)).

(** The three operations; the others are not its, and a reference that was not handed
    out is not one. *)
Definition construct {X} (e : MacOS.macE X) (h : Heap) : prog vmE (option (X * Heap)) :=
  match e in MacOS.macE X return prog vmE (option (X * Heap)) with
  | MacOS.NewPlatformConfiguration cfg overlay uid =>
      made (NewPlatformConfiguration cfg overlay uid) (List.length (platforms h))
        (fun x => {| platforms := (platforms h ++ [x])%list; configs := configs h; instances := instances h |}) h
  | MacOS.NewVirtualMachineConfiguration pc cpu mem iface mounts =>
      match platforms h !! pc with
      | Some p =>
          made (NewVirtualMachineConfiguration p cpu mem iface mounts) (List.length (configs h))
            (fun x => {| platforms := platforms h; configs := (configs h ++ [x])%list; instances := instances h |}) h
      | None => Ret None
      end
  | MacOS.NewVirtualMachineInstance vc =>
      match configs h !! vc with
      | Some c =>
          made (NewVirtualMachineInstance c) (List.length (instances h))
            (fun x => {| platforms := platforms h; configs := configs h; instances := (instances h ++ [x])%list |}) h
      | None => Ret None
      end
  | _ => Ret None
  end.

Fixpoint implement {A} (p : prog MacOS.macE A) (h : Heap) : prog vmE (option (A * Heap)) :=
  match p with
  | Ret a => Ret (Some (a, h))
  | Do e k =>
      r <- construct e h ;;
      match r with Some (x, h) => implement (k x) h | None => Ret None end
  end.

Lemma run_made env {A} (c : prog vmE (A + error)) size store h s :
  run (traced_handler local env) (made c size store h) s =
  match run (traced_handler local env) c s with
  | Some (inl x, s') => Some (Some (inl size, store x), s')
  | Some (inr e, s') => Some (Some (inr e, h), s')
  | None => None
  end.
Proof. unfold made. rewrite run_bind. by destruct (run _ c s) as [[[x|e] s']|]. Qed.

Lemma run_attempt env {A B} w (c : prog vmE (A + error)) (k : A -> prog vmE (B + error)) s :
  run (traced_handler local env) (attempt w c k) s =
  match run (traced_handler local env) c s with
  | Some (inl x, s') => run (traced_handler local env) (k x) s'
  | Some (inr e, s') => Some (inr (w e), s')
  | None => None
  end.
Proof. unfold attempt. rewrite run_bind. by destruct (run _ c s) as [[[x|e] s']|]. Qed.

(** The manager's [setupVM], with its three operations implemented by the
    constructors of this file, does what [setupVM] above does, from every state and
    whatever the framework answers: it always comes back, with the same calls in the
    same order, the same error, or a reference to the same instance; and no reference
    that it uses was not handed out. *)
Lemma setupVM_implements env opts uid cpu mem iface mounts h s :
  exists r s', run (traced_handler local env) (setupVM opts uid cpu mem iface mounts) s = Some (r, s') /\
  exists r' h', run (traced_handler local env) (implement (MacOS.setupVM opts uid cpu mem iface mounts) h) s
                = Some (Some (r', h'), s') /\
  match r, r' with
  | inl i, inl ref => instances h' !! ref = Some i
  | inr e, inr e' => e = e'
  | _, _ => False
  end.
Proof.
  assert (forall A (p : prog vmE A) s, is_Some (run (traced_handler local env) p s)) as Htotal.
  { intros A p s0. apply traced_run_total. intros X e x u. by eexists. }
  unfold setupVM, MacOS.setupVM, perform. cbn [bind implement construct].
  rewrite run_attempt, run_bind, run_made.
  destruct (Htotal _ (NewPlatformConfiguration opts true uid) s) as [[[pc|e] s1] ->]; cbn [run bind implement].
  2: { do 2 eexists. split; [done|]. do 2 eexists. by split. }
  cbn [platforms configs instances construct]. rewrite lookup_app_r, Nat.sub_diag by done. cbn [lookup list_lookup].
  rewrite run_attempt, run_bind, run_made.
  destruct (Htotal _ (NewVirtualMachineConfiguration pc cpu mem iface mounts) s1) as [[[vc|e] s2] ->]; cbn [run bind implement].
  2: { do 2 eexists. split; [done|]. do 2 eexists. by split. }
  cbn [platforms configs instances construct]. rewrite lookup_app_r, Nat.sub_diag by done. cbn [lookup list_lookup].
  rewrite run_attempt, run_bind, run_made.
  destruct (Htotal _ (NewVirtualMachineInstance vc) s2) as [[[i|e] s3] ->]; cbn [run bind implement].
  2: { do 2 eexists. split; [done|]. do 2 eexists. by split. }
  do 2 eexists. split; [done|]. do 2 eexists. split; [done|]. cbn [instances].
  rewrite lookup_app_r, Nat.sub_diag by done. done.
Qed.

(** *** Concrete runs *)

(** A host on which everything works, except perhaps opening the auxiliary storage. *)
Definition host (aux : option error) : oracle vmE := fun X n e =>
  match e in vmE X return X with
  | TempDir => "/tmp"
  | RandRead => inl ("a", "b", "c", "d", "e", "f")%char
  | Now => 7%Z
  | NewMacAuxiliaryStorage _ => aux
  | NetworkInterfaces => ["en0"; "en1"]
  | MacOSGuestAutomountTag => inl "com.apple.virtio-fs.automount"
  | Validate _ => inl true
  | GoHandleStateChanges => tt
  | SysClonefile _ _ _ | OsRemove _ | NewMacHardwareModelWithData _
  | NewMacMachineIdentifierWithData _ | NewMacPlatformConfiguration | NewMacOSBootLoader
  | NewVzConfiguration _ _ | NewMacGraphicsDeviceConfiguration | NewMacGraphicsDisplayConfiguration _
  | NewDiskImageStorageDeviceAttachment _ _ | NewVirtioBlockDeviceConfiguration
  | NewBridgedNetworkDeviceAttachment _ | NewNATNetworkDeviceAttachment | NewVirtioNetworkDeviceConfiguration
  | NewMACAddress _ | NewUSBScreenCoordinatePointingDeviceConfiguration | NewUSBKeyboardConfiguration
  | NewMacTrackpadConfiguration
  | NewVirtioSoundDeviceConfiguration | NewVirtioSoundDeviceHostInputStreamConfiguration
  | NewVirtioSoundDeviceHostOutputStreamConfiguration | NewSharedDirectory _ _ | NewMultipleDirectoryShare
  | NewVirtioFileSystemDeviceConfiguration _ | NewVirtualMachine _ => None
  end.

Definition sample_image : MacPlatformConfigurationOptions :=
  {| MacOS.BlockStoragePath := "/cache/sha256/disk.img"; MacOS.AuxiliaryStoragePath := "/cache/sha256/aux.img";
     MacOS.HardwareModelData := "aHc="; MacOS.MachineIdentifierData := "bWlk" |}.

Lemma sample_image_proper : proper_image sample_image.
Proof.
  intros p [-> | [-> | H%not_elem_of_nil]%elem_of_cons]%elem_of_cons; [| | done]; split; vm_compute; done.
Qed.

Definition paths_of (r : Instance.Fields + error) : option (string * string * string) :=
  match r with
  | inl i => let '(b, a, _) := Instance.GetOverlays (Instance.config i) in Some (b, a, Instance.macAddr i)
  | inr _ => None
  end.

Definition sample_mounts : list Volumes.Mount :=
  [{| Volumes.m_Name := "work"; Volumes.m_HostPath := "/srv/work"; Volumes.m_ContainerPath := "/work"; Volumes.m_ReadOnly := false |}].

Lemma sample_mounts_apart : Forall (fun m => ~ within (Volumes.m_HostPath m) "/cache/sha256/disk.img") sample_mounts.
Proof. constructor; [|constructor]. intros (rest & H). discriminate H. Qed.

Lemma machine_runs_on_clones_witness :
  exists r s, exec (host None) (setupVM sample_image "1234" 4 8 "en1" sample_mounts) = Some (r, s) /\
    paths_of r = Some ("/tmp/macosvz_file_disk.img.1234", "/tmp/macosvz_file_aux.img.1234", "62:62:63:64:65:66") /\
    forall c u, c ∈ trace s -> u ∈ used c -> ~ writes u "/cache/sha256/disk.img".
Proof.
  destruct (machine_runs_on_clones (host None) sample_image "1234" 4 8 "en1" sample_mounts sample_image_proper eq_refl)
    as (r & s & Hr & _ & Hu & _).
  exists r, s. split; [exact Hr|]. split.
  - vm_compute in Hr. injection Hr as <- _. reflexivity.
  - apply Hu; [by left|]. intros m Hm _. exact (proj1 (Forall_forall _ _) sample_mounts_apart m Hm).
Defined.

(** A platform that fails after the first clone leaves its clones: they are named in
    no configuration, and nothing removes them. *)
Lemma clones_left_behind :
  let r := exec (host (Some (errExternal 1 "bad file"))) (setupVM sample_image "1234" 4 8 "" []) in
  exists e s, r = Some (inr e, s) /\
    trace s = [Call (NewMacAuxiliaryStorage "/tmp/macosvz_file_aux.img.1234") (Some (errExternal 1 "bad file"));
               Call (SysClonefile "/cache/sha256/aux.img" "/tmp/macosvz_file_aux.img.1234" 0) None;
               Call (OsRemove "/tmp/macosvz_file_aux.img.1234") None;
               Call (SysClonefile "/cache/sha256/disk.img" "/tmp/macosvz_file_disk.img.1234" 0) None;
               Call (OsRemove "/tmp/macosvz_file_disk.img.1234") None;
               Call TempDir "/tmp"].
Proof. eexists _, _. split; [vm_compute; reflexivity | reflexivity]. Qed.

End VmConfig.
