(* ===== verification/ClientApi.v ===== *)
(** * pkg/client/client_apis.go and pkg/resourcemanager/containerinterface.go

    The types that the layers exchange: a virtualization group, the parameters of a
    container, and [ContainersClient], the interface through which the client uses a
    container runtime.  Its methods are the operations [ctrE]: the client's theorems
    hold for every answer to them, and an implementation, such as that of [Docker],
    gives each method a program. *)
From Stdlib Require Import ZArith.
From Stdlib Require Import String.
From stdpp Require Import base list gmap strings.
From S2P Require Import Prelude GoStrings GoErrors GoTime Prog Utils Resource K8s Volumes NodeIO Stores.
Local Open Scope string_scope.

Module Api.

(** [MacOSVirtualMachine] is an interface value: [None] is nil. *)
(* src/pkg/client/client_apis.go : VirtualizationGroup *)
Record VirtualizationGroup := {
  vg_VM : option Res.MacOSVirtualMachine;
  vg_Containers : list Res.Container
}.

(* src/pkg/resourcemanager/containerinterface.go : ContainerParams *)
Record ContainerParams := {
  cp_PodNamespace : string;
  cp_PodName : string;
  cp_Name : string;
  cp_Image : string;
  cp_ImagePullPolicy : K8s.PullPolicy;
  cp_RegistryCreds : Creds.RegistryCredentials;
  cp_Mounts : list Volumes.Mount;
  cp_Env : list EnvVar;
  cp_Command : list string;
  cp_Args : list string;
  cp_WorkingDir : string;
  cp_TTY : bool;
  cp_Stdin : bool;
  cp_StdinOnce : bool;
  cp_PostStartAction : option Res.ExecAction
}.

(** [api.ContainerLogOpts], the fields the code reads. *)
Record ContainerLogOpts := {
  lo_Tail : Z;
  lo_SinceSeconds : Z;
  lo_SinceTime : Time.t;
  lo_Timestamps : bool;
  lo_Follow : bool
}.

(** [io.ReadCloser] values are known by name. *)
Definition StreamRef := nat.

(** [stats.ContainerStats]: the fields the code writes; [None] is a nil pointer. *)
Record ContainerStats := {
  sc_Name : string;
  sc_StartTime : Time.t;
  sc_Time : Time.t;
  sc_UsageNanoCores : option Z;
  sc_UsageCoreNanoSeconds : option Z;
  sc_UsageBytes : option Z;
  sc_WorkingSetBytes : option Z;
  sc_RSSBytes : option Z
}.

(** The methods of the interface, as operations: a caller's program performs them. *)
(* src/pkg/resourcemanager/containerinterface.go : 39-49 ContainersClient *)
Inductive ctrE : Type -> Type :=
| CreateContainer (ctx : Ctx) (params : ContainerParams) : ctrE (option error)
| RemoveContainers (ns name : string) (gracePeriod : Z) : ctrE (option error)
| GetContainers (ns name : string) : ctrE (list Res.Container * option error)
| GetContainersListResult : ctrE (gmap NamespacedName (list Res.Container) * option error)
| GetContainerLogs (ns name containerName : string) (opts : ContainerLogOpts) : ctrE (StreamRef + error)
| ExecInContainer (ctx : Ctx) (ns name containerName : string) (cmd : list string) (attach : option Node.ExecIO)
  : ctrE (option error)
| AttachToContainer (ctx : Ctx) (ns name containerName : string) (attach : Node.ExecIO) : ctrE (option error)
| IsContainerPresent (ns name containerName : string) : ctrE bool
| GetContainerStats (ns name containerName : string) : ctrE (ContainerStats + error).

(** An implementation of the interface: a program for every method. *)
Definition ContainersClient (E : Type -> Type) : Type := forall X, ctrE X -> prog E X.

End Api.
