(* ===== verification/VmStats.v ===== *)
(** * pkg/resourcemanager/macos_stats.go: the statistics of a virtual machine

    The script that the guest's shell reads, the JSON line that it prints and its
    decoding.  The two buffers of the exec are what the oracle says that the guest
    wrote; the exec itself is that of [MacOS]. *)
From Stdlib Require Import ZArith Lia.
From Stdlib Require Import Ascii String.
From stdpp Require Import base list gmap strings.
From S2P Require Import Prelude GoStrings GoFormat GoErrors GoTime Prog Utils Json Resource NodeIO Stores MacOS ClientApi.
From S2P Require Import EnvCfg.
Local Open Scope string_scope.
Local Open Scope go_scope.

Module VmStats.
Import Api.

(** A double quote, written as a back quote here. *)
Definition quoted (s : string) : string := Str.map_str (fun c => if Ascii.eqb c "`" then Str.dquote else c) s.

(* src/pkg/resourcemanager/macos_stats.go : buildVMStatsCommand *)
Definition buildVMStatsCommand : list string := map quoted
  ["JXA='ObjC.import(`Foundation`); ObjC.bindFunction(`mach_host_self`,[`unsigned int`,[]]); ObjC.bindFunction(`host_statistics`,[`int`,[`unsigned int`,`int`,`void *`,`void *`]]); var info=$.NSMutableData.dataWithLength(16); var cnt=$.NSMutableData.alloc.initWithBase64EncodedStringOptions($(`BAAAAA==`),0); $.host_statistics($.mach_host_self(),3,info.mutableBytes,cnt.mutableBytes); ObjC.unwrap(info.base64EncodedStringWithOptions(0));'";
   "clkTck=$(getconf CLK_TCK)";
   "b1=$(osascript -l JavaScript -e `$JXA`); t1=$(perl -MTime::HiRes=time -e 'printf `%.6f`, time')";
   "sleep 1";
   "b2=$(osascript -l JavaScript -e `$JXA`); t2=$(perl -MTime::HiRes=time -e 'printf `%.6f`, time')";
   "set -- $(echo `$b1` | base64 -d | od -An -tu4); u1=$1; s1=$2; n1=$4";
   "set -- $(echo `$b2` | base64 -d | od -An -tu4); u2=$1; s2=$2; n2=$4";
   "busy1=$((u1+s1+n1)); busy2=$((u2+s2+n2))";
   "cpuUsageCoreNanoSeconds=$(( busy2 * 1000000000 / clkTck ))";
   "cpuUsageNanoCores=$(awk -v db=$((busy2-busy1)) -v c=$clkTck -v t1=$t1 -v t2=$t2 'BEGIN{dt=t2-t1; if(dt<=0)dt=1; if(db<0)db=0; printf `%.0f`, db*1000000000/c/dt}')";
   "vmStat=$(vm_stat)";
   "pageSize=$(sysctl -n vm.pagesize 2>/dev/null || echo `$vmStat` | awk '/page size of/ {print $8}')";
   "active=$(echo `$vmStat` | awk '/Pages active/ {gsub(/\./,``,$3); print $3}')";
   "inactive=$(echo `$vmStat` | awk '/Pages inactive/ {gsub(/\./,``,$3); print $3}')";
   "wired=$(echo `$vmStat` | awk '/Pages wired down/ {gsub(/\./,``,$4); print $4}')";
   "compressor=$(echo `$vmStat` | awk '/Pages occupied by compressor/ {gsub(/\./,``,$5); print $5}')";
   "memoryUsageBytes=$(( (active + inactive + wired + compressor) * pageSize ))";
   "memoryWorkingSetBytes=$(( (active + wired + compressor) * pageSize ))";
   "memoryRssBytes=$(( active * pageSize ))";
   "echo `{\`cpuUsageNanoCores\`: $cpuUsageNanoCores, \`cpuUsageCoreNanoSeconds\`: $cpuUsageCoreNanoSeconds, \`memoryUsageBytes\`: $memoryUsageBytes, \`memoryRssBytes\`: $memoryRssBytes, \`memoryWorkingSetBytes\`: $memoryWorkingSetBytes}`"].

(* src/pkg/resourcemanager/macos_stats.go : 89-91 maxStderrInError *)
Definition maxStderrInError : nat := 1024.

(* src/pkg/resourcemanager/macos_stats.go : truncateForError *)
Definition truncateForError (s : string) (limit : nat) : string :=
  if (String.length s <=? limit)%nat then s
  else Str.take limit s ++ "...(" ++ Str.itoa (Z.of_nat (String.length s) - Z.of_nat limit) ++ " more bytes)".

(** Two buffers, one for each stream; no terminal, no input. *)
(* src/pkg/resourcemanager/macos_stats.go : newStatsExecIO *)
Definition newStatsExecIO : Node.ExecIO := Node.NewExecIO false false true true false.

(** ** Decoding *)

(* src/pkg/resourcemanager/macos_stats.go : vmStatsData *)
Record vmStatsData := {
  CPUUsageNanoCores : string;
  CPUUsageCoreNanoSeconds : string;
  MemoryUsageBytes : string;
  MemoryRSSBytes : string;
  MemoryWorkingSetBytes : string
}.

Definition noData : vmStatsData :=
  {| CPUUsageNanoCores := ""; CPUUsageCoreNanoSeconds := ""; MemoryUsageBytes := ""; MemoryRSSBytes := "";
     MemoryWorkingSetBytes := "" |}.

Definition statsNames : list string :=
  ["cpuUsageNanoCores"; "cpuUsageCoreNanoSeconds"; "memoryUsageBytes"; "memoryRssBytes"; "memoryWorkingSetBytes"].

Definition storeStat (f : string) (v : Json.value) (d : vmStatsData) : option vmStatsData :=
  let '{| CPUUsageNanoCores := a; CPUUsageCoreNanoSeconds := b; MemoryUsageBytes := u; MemoryRSSBytes := r;
          MemoryWorkingSetBytes := w |} := d in
  let mk a b u r w := {| CPUUsageNanoCores := a; CPUUsageCoreNanoSeconds := b; MemoryUsageBytes := u;
                         MemoryRSSBytes := r; MemoryWorkingSetBytes := w |} in
  if String.eqb f "cpuUsageNanoCores" then n ← Json.store_number v a; Some (mk n b u r w)
  else if String.eqb f "cpuUsageCoreNanoSeconds" then n ← Json.store_number v b; Some (mk a n u r w)
  else if String.eqb f "memoryUsageBytes" then n ← Json.store_number v u; Some (mk a b n r w)
  else if String.eqb f "memoryRssBytes" then n ← Json.store_number v r; Some (mk a b u n w)
  else n ← Json.store_number v w; Some (mk a b u r n).

(** The pointers of the result are never nil when there is no error. *)
(* src/pkg/resourcemanager/macos_stats.go : parsedVMStatsData *)
Record parsedVMStatsData := {
  p_CPUUsageNanoCores : Z;
  p_CPUUsageCoreNanoSeconds : Z;
  p_MemoryUsageBytes : Z;
  p_MemoryRSSBytes : Z;
  p_MemoryWorkingSetBytes : Z
}.

Section Stats.
Context `{PrintTable} `{JsonText} `{Errdefs}.

(** [num.Int64()] and the conversion to [uint64], with the field's name on the error. *)
Definition convert (name num : string) : Z + error :=
  match Strconv.ParseInt num with
  | inr e => inr (Errorf name e)
  | inl v => inl (wrap_u64 v)
  end.

(* src/pkg/resourcemanager/macos_stats.go : parseStatsJSON *)
Definition parseStatsJSON (data : string) : parsedVMStatsData + error :=
  match Json.Unmarshal statsNames storeStat data noData with
  | inr e => inr e
  | inl d =>
      match convert "cpuUsageNanoCores" (CPUUsageNanoCores d) with
      | inr e => inr e
      | inl a =>
          match convert "cpuUsageCoreNanoSeconds" (CPUUsageCoreNanoSeconds d) with
          | inr e => inr e
          | inl b =>
              match convert "memoryUsageBytes" (MemoryUsageBytes d) with
              | inr e => inr e
              | inl u =>
                  match convert "memoryRssBytes" (MemoryRSSBytes d) with
                  | inr e => inr e
                  | inl r =>
                      match convert "memoryWorkingSetBytes" (MemoryWorkingSetBytes d) with
                      | inr e => inr e
                      | inl w =>
                          inl {| p_CPUUsageNanoCores := a; p_CPUUsageCoreNanoSeconds := b; p_MemoryUsageBytes := u;
                                 p_MemoryRSSBytes := r; p_MemoryWorkingSetBytes := w |}
                      end
                  end
              end
          end
      end
  end.

(** ** The operation *)

Inductive statsE : Type -> Type :=
| Mac {X : Type} (e : MacOS.macE X) : statsE X
| Stdout : statsE string                 (* what the guest wrote, after the exec *)
| Stderr : statsE string.

Variable Getenv : EnvCfg.environ.

(* src/pkg/resourcemanager/macos_stats.go : MacOSClient.GetVirtualMachineStats *)
Definition GetVirtualMachineStats (ctx : Ctx) (ns name : string) : prog statsE (ContainerStats + error) :=
  r <- lift (fun X e => Mac e) (MacOS.ExecInVirtualMachine Getenv ctx ns name buildVMStatsCommand newStatsExecIO) ;;
  match r with
  | Some e => Ret (inr (Errorf "error executing script" e))
  | None =>
      out <- perform Stdout ;;
      match parseStatsJSON out with
      | inr e =>
          err <- perform Stderr ;;
          Ret (inr (Errorf ("error parsing JSON output (stderr="
                            ++ Quote.quote (truncateForError err maxStderrInError) ++ ")") e))
      | inl d =>
          time <- perform (Mac MacOS.Now) ;;
          Ret (inl {| sc_Name := ""; sc_StartTime := Time.zero; sc_Time := time;
                      sc_UsageNanoCores := Some (p_CPUUsageNanoCores d);
                      sc_UsageCoreNanoSeconds := Some (p_CPUUsageCoreNanoSeconds d);
                      sc_UsageBytes := Some (p_MemoryUsageBytes d);
                      sc_WorkingSetBytes := Some (p_MemoryWorkingSetBytes d);
                      sc_RSSBytes := Some (p_MemoryRSSBytes d) |})
      end
  end.

End Stats.

(** ** The line that the script prints *)

(** A shell's reading of a double-quoted word after its opening quote: an escaped double
    quote stands for itself, a dollar and a name for the variable's value. *)
Fixpoint take_name (s : string) : string * string :=
  match s with
  | String c s' =>
      if Str.is_alnum c || Ascii.eqb c "_" then let '(n, r) := take_name s' in (String c n, r) else ("", s)
  | EmptyString => ("", "")
  end.

Fixpoint expand (fuel : nat) (env : string -> string) (s : string) : string :=
  match fuel, s with
  | O, _ | _, EmptyString => ""
  | S n, String c s' =>
      if Ascii.eqb c Str.dquote then ""
      else if Ascii.eqb c "$" then let '(x, r) := take_name s' in env x ++ expand n env r
      else if Ascii.eqb c Quote.backslash then
        match s' with
        | String d r => String d (expand n env r)
        | EmptyString => ""
        end
      else String c (expand n env s')
  end.

(** What the last statement of the script, an [echo], writes. *)
Definition printed (env : string -> string) : string :=
  match last buildVMStatsCommand with
  | Some st => expand (String.length st) env (Str.trim_prefix st ("echo " ++ Str.dquote_s)) ++ Str.newline
  | None => ""
  end.

(** ** The line is read back *)

Definition statsLine (env : string -> string) : Json.value :=
  Json.VObj (map (fun n => (n, Json.VNum (env n))) statsNames).

Lemma printed_line env : printed env = Json.print " " (statsLine env) ++ Str.newline.
Proof.
  unfold printed, statsLine, statsNames. cbn [last buildVMStatsCommand map]. f_equal.
  cbn [Json.print map fst snd Str.join]. rewrite <- !Str.app_assoc. vm_compute. reflexivity.
Qed.

Lemma printed_read `{JsonText} env :
  (forall n, n ∈ statsNames -> Json.isValidNumber (env n) = true) ->
  Json.Unmarshal statsNames storeStat (printed env) noData =
  inl {| CPUUsageNanoCores := env "cpuUsageNanoCores"; CPUUsageCoreNanoSeconds := env "cpuUsageCoreNanoSeconds";
         MemoryUsageBytes := env "memoryUsageBytes"; MemoryRSSBytes := env "memoryRssBytes";
         MemoryWorkingSetBytes := env "memoryWorkingSetBytes" |}.
Proof.
  intros Hv. unfold Json.Unmarshal, Json.parse. rewrite printed_line, Json.parse_first_print; [|done| |done|done].
  - reflexivity.
  - cbn [statsLine Json.numbers_ok]. apply forallb_forall. intros [k v] Hin.
    apply in_map_iff in Hin as (n & [= <- <-] & Hn). apply Hv. by apply list_elem_of_In.
Qed.

Lemma convert_range `{PrintTable} name num v : convert name num = inl v -> is_u64 v.
Proof. unfold convert. destruct (Strconv.ParseInt num); [intros [= <-]; apply wrap_u64_range | done]. Qed.

Lemma convert_itoa `{PrintTable} name v : (0 <= v < 2 ^ 63)%Z -> convert name (Str.itoa v) = inl v.
Proof. intros Hv. unfold convert. rewrite Strconv.ParseInt_itoa by done. f_equal. apply wrap_u64_id. unfold is_u64. lia. Qed.

Lemma parsed_range `{PrintTable} `{JsonText} data d : parseStatsJSON data = inl d ->
  is_u64 (p_CPUUsageNanoCores d) /\ is_u64 (p_CPUUsageCoreNanoSeconds d) /\ is_u64 (p_MemoryUsageBytes d) /\
  is_u64 (p_MemoryRSSBytes d) /\ is_u64 (p_MemoryWorkingSetBytes d).
Proof.
  unfold parseStatsJSON. destruct (Json.Unmarshal _ _ _ _) as [s|]; [|done].
  repeat match goal with |- context [convert ?n ?x] => destruct (convert n x) eqn:?; [|done] end.
  intros [= <-]. simpl. split_and!; by eapply convert_range.
Qed.

(** C29: the script and the parser agree: when the five variables of the script's last
    statement hold the decimal text of numbers below 2^63, the line that it prints, as a
    shell expands it, is decoded into exactly these numbers; whatever else the guest
    prints, what is accepted are five unsigned 64-bit numbers; and the command stays one
    that is written to the guest's shell statement by statement. *)
Theorem stats_line_read `{PrintTable} `{JsonText} env a b u r w :
  env "cpuUsageNanoCores" = Str.itoa a -> env "cpuUsageCoreNanoSeconds" = Str.itoa b ->
  env "memoryUsageBytes" = Str.itoa u -> env "memoryRssBytes" = Str.itoa r ->
  env "memoryWorkingSetBytes" = Str.itoa w ->
  Forall (fun v => 0 <= v < 2 ^ 63)%Z [a; b; u; r; w] ->
  parseStatsJSON (printed env) =
    inl {| p_CPUUsageNanoCores := a; p_CPUUsageCoreNanoSeconds := b; p_MemoryUsageBytes := u;
           p_MemoryRSSBytes := r; p_MemoryWorkingSetBytes := w |} /\
  (forall data d, parseStatsJSON data = inl d ->
     is_u64 (p_CPUUsageNanoCores d) /\ is_u64 (p_CPUUsageCoreNanoSeconds d) /\ is_u64 (p_MemoryUsageBytes d) /\
     is_u64 (p_MemoryRSSBytes d) /\ is_u64 (p_MemoryWorkingSetBytes d)) /\
  (forall vars, snd (Cmd.BuildExecCommandString buildVMStatsCommand vars) <> None).
Proof.
  intros Ea Eb Eu Er Ew Hall. split_and!.
  - rewrite !Forall_cons in Hall. destruct Hall as (Ha & Hb & Hu & Hr & Hw & _).
    unfold parseStatsJSON. rewrite printed_read.
    2: { intros n Hn. unfold statsNames in Hn. rewrite !elem_of_cons, elem_of_nil in Hn.
         repeat destruct Hn as [->|Hn]; rewrite ?Ea, ?Eb, ?Eu, ?Er, ?Ew; try done;
           apply Json.canonical_valid, Strconv.itoa_canonical; lia. }
    cbn [CPUUsageNanoCores CPUUsageCoreNanoSeconds MemoryUsageBytes MemoryRSSBytes MemoryWorkingSetBytes].
    by rewrite Ea, Eb, Eu, Er, Ew, !convert_itoa.
  - apply parsed_range.
  - intros vars. by vm_compute.
Qed.

(** A negative number is accepted and wraps around. *)
Lemma negative_wraps `{PrintTable} `{JsonText} :
  match parseStatsJSON (printed (fun x => if String.eqb x "memoryRssBytes" then "-1" else "7")) with
  | inl d => p_MemoryRSSBytes d = (2 ^ 64 - 1)%Z
  | inr _ => False
  end.
Proof. vm_compute. reflexivity. Qed.

Lemma stats_line_read_witness :
  @parseStatsJSON (fun _ => false) Json.sample_text
    (printed (fun x => if String.eqb x "cpuUsageNanoCores" then "250000000" else "9000000000")) =
  inl {| p_CPUUsageNanoCores := 250000000; p_CPUUsageCoreNanoSeconds := 9000000000; p_MemoryUsageBytes := 9000000000;
         p_MemoryRSSBytes := 9000000000; p_MemoryWorkingSetBytes := 9000000000 |}.
Proof.
  apply (@stats_line_read (fun _ => false) Json.sample_text); try reflexivity.
  repeat constructor; lia.
Defined.

End VmStats.
