(* ===== verification/PodStatus.v ===== *)
(** * pkg/provider/virtualizationgroup_to_pod.go: the pod status of a group

    The virtual machine is read while it changes: every call of the Go code that
    reads it gets the heap of its own moment, [now 0], [now 1], ...  A theorem that
    relates what different calls saw assumes that nothing changed between them. *)
From Stdlib Require Import ZArith Lia.
From Stdlib Require Import String.
From stdpp Require Import base list gmap strings.
From S2P Require Import Prelude GoStrings GoErrors GoTime Utils Resource K8s ClientApi.
Local Open Scope string_scope.

Module PodStatus.
Import Res Api.

(** [fmt.Sprintf("%v", err)] *)
Definition showError (e : option error) : string :=
  match e with Some e => Error e | None => "<nil>" end.

(* src/pkg/provider/virtualizationgroup_to_pod.go : vmToContainerState *)
Definition vmToContainerState (h : heap) (vm : MacOSVirtualMachine) (podCreationTime : Time.t) : K8s.ContainerState :=
  let startTime := default podCreationTime (StartedAt h vm) in
  let finishTime := default podCreationTime (FinishedAt h vm) in
  match State h vm with
  | VirtualMachineStatePreparing => K8s.Waiting "Downloading" "VM is downloading image from the registry"
  | VirtualMachineStateStarting => K8s.Waiting "Starting" "VM is starting"
  | VirtualMachineStateRunning => K8s.Running startTime
  | VirtualMachineStateTerminating | VirtualMachineStateTerminated =>
      K8s.Terminated 0 "Completed" "VM is stopped" startTime finishTime
  | VirtualMachineStateFailed =>
      K8s.Terminated 1 "Error" ("VM has failed: " ++ showError (err vm)) startTime finishTime
  end.

(* src/pkg/provider/virtualizationgroup_to_pod.go : containerToContainerState *)
Definition containerToContainerState (c : Container) (podCreationTime : Time.t) : K8s.ContainerState :=
  let st := c_State c in
  let startTime := if Time.IsZero (cs_StartedAt st) then podCreationTime else cs_StartedAt st in
  let finishTime := if Time.IsZero (cs_FinishedAt st) then podCreationTime else cs_FinishedAt st in
  match cs_Status st with
  | ContainerStatusWaiting =>
      if String.eqb (cs_Error st) "" then K8s.Waiting "ContainerCreating" ""
      else K8s.Waiting "Error" (cs_Error st)
  | ContainerStatusCreated => K8s.Waiting "ContainerCreated" "Container has been created"
  | ContainerStatusRunning => K8s.Running startTime
  | ContainerStatusPaused => K8s.Waiting "ContainerPaused" "Container is paused"
  | ContainerStatusRestarting => K8s.Waiting "ContainerRestarting" "Container is restarting"
  | ContainerStatusOOMKilled =>
      K8s.Terminated 137 "OOMKilled" "Container was killed due to out of memory" startTime finishTime
  | ContainerStatusDead =>
      K8s.Terminated (wrap_i32 (cs_ExitCode st)) "ContainerDead" (cs_Error st) startTime finishTime
  | ContainerStatusUnknown =>
      K8s.Terminated (wrap_i32 (cs_ExitCode st)) "Unknown" (cs_Error st) startTime finishTime
  end.

(* src/pkg/provider/virtualizationgroup_to_pod.go : getContainerWithName *)
Definition getContainerWithName (name : string) (l : list Container) : Container + error :=
  match find_first (fun c => String.eqb (c_Name c) name) l with
  | Some c => inl c
  | None => inr (errMsg ("container " ++ name ++ " not found"))
  end.

(** The loop over the sidecars in the phase: a status that decides at once, or whether
    all of them run. *)
Fixpoint phaseLoop (allContainersRunning : bool) (l : list Container) : K8s.PodPhase + bool :=
  match l with
  | [] => inr allContainersRunning
  | c :: l =>
      match cs_Status (c_State c) with
      | ContainerStatusWaiting | ContainerStatusCreated => inl K8s.PodPending
      | ContainerStatusRunning => phaseLoop allContainersRunning l
      | ContainerStatusOOMKilled | ContainerStatusUnknown => inl K8s.PodFailed
      | _ => phaseLoop false l
      end
  end.

Definition phaseFromContainers (hasIP : bool) (l : list Container) : K8s.PodPhase :=
  match phaseLoop true l with
  | inl p => p
  | inr allRunning =>
      if negb hasIP then K8s.PodPending else if allRunning then K8s.PodRunning else K8s.PodUnknown
  end.

(* src/pkg/provider/virtualizationgroup_to_pod.go : getPodPhaseFromVirtualizationGroup *)
Definition getPodPhaseFromVirtualizationGroup (h : heap) (vm : MacOSVirtualMachine) (groupContainers : list Container)
  : K8s.PodPhase :=
  let hasIP := negb (String.eqb (IPAddress h vm) "") in
  match State h vm with
  | VirtualMachineStatePreparing | VirtualMachineStateStarting => K8s.PodPending
  | VirtualMachineStateTerminated => K8s.PodSucceeded
  | VirtualMachineStateFailed => K8s.PodFailed
  | VirtualMachineStateTerminating | VirtualMachineStateRunning =>
      match groupContainers with
      | [] => if hasIP then K8s.PodRunning else K8s.PodPending
      | _ => phaseFromContainers hasIP groupContainers
      end
  end.

(** The loop over the sidecars in the conditions: the two statuses it leaves, and
    whether all of them run. *)
Definition condStep (acc : bool * bool * bool) (c : Container) : bool * bool * bool :=
  let '(initialized, ready, allContainersRunning) := acc in
  match cs_Status (c_State c) with
  | ContainerStatusWaiting | ContainerStatusCreated => (false, false, allContainersRunning)
  | ContainerStatusRunning => acc
  | ContainerStatusOOMKilled | ContainerStatusUnknown => (false, false, false)
  | _ => (initialized, ready, false)
  end.

(** The statuses of Initialized and Ready. *)
Definition initializedReady (h : heap) (vm : MacOSVirtualMachine) (groupContainers : list Container)
    (macOSPostStartSatisfied : bool) : bool * bool :=
  match State h vm with
  | VirtualMachineStatePreparing | VirtualMachineStateStarting => (false, false)
  | VirtualMachineStateTerminated => (true, false)
  | VirtualMachineStateFailed => (false, false)
  | VirtualMachineStateTerminating | VirtualMachineStateRunning =>
      let '(initialized, ready, all) := foldl condStep (false, false, true) groupContainers in
      let '(initialized, ready) := if all : bool then (true, true) else (initialized, ready) in
      (initialized, if macOSPostStartSatisfied then ready else false)
  end.

(* src/pkg/provider/virtualizationgroup_to_pod.go : getPodConditionsFromVirtualizationGroup *)
Definition getPodConditionsFromVirtualizationGroup (h : heap) (vm : MacOSVirtualMachine) (groupContainers : list Container)
    (podCreationTime firstContainerStartTime lastUpdateTime : Time.t)
    (macOSPostStartSatisfied : bool) (postStartFinishedAt : option Time.t) : list K8s.PodCondition :=
  let '(initialized, ready) := initializedReady h vm groupContainers macOSPostStartSatisfied in
  let readyTime := match ready, postStartFinishedAt with
                   | true, Some t => t
                   | _, _ => lastUpdateTime
                   end in
  [ {| K8s.pc_Type := K8s.PodScheduled; K8s.pc_Status := true; K8s.pc_LastTransitionTime := podCreationTime |};
    {| K8s.pc_Type := K8s.PodInitialized; K8s.pc_Status := initialized;
       K8s.pc_LastTransitionTime := firstContainerStartTime |};
    {| K8s.pc_Type := K8s.PodReady; K8s.pc_Status := ready; K8s.pc_LastTransitionTime := readyTime |} ].

(** The variables of the loop over the pod's containers. *)
Record acc := {
  first : Time.t;
  last : Time.t;
  satisfied : bool;
  finished : option Time.t;
  statuses : list K8s.ContainerStatus
}.

Definition acc0 : acc :=
  {| first := Time.zero; last := Time.zero; satisfied := true; finished := None; statuses := [] |}.

Definition isRunning (s : ContainerStatus) : bool := bool_decide (s = ContainerStatusRunning).

Section Build.
Variable now : nat -> heap.
Variables (nodeIPAddress : string) (vm : MacOSVirtualMachine) (groupContainers : list Container) (pod : K8s.Pod).

(** [i == 0]: the macOS container. *)
Definition vmStatus (podIp : string) (c : K8s.Container) (a : acc) : acc :=
  let h := now 1%nat in
  let postStartFinishedAt := PostStartFinishedAt vm in
  let satisfied := is_some postStartFinishedAt in
  let started := negb (String.eqb podIp "") && satisfied in
  let ready := bool_decide (State h vm = VirtualMachineStateRunning) && satisfied in
  let '(first, last) := match StartedAt h vm with Some t => (t, t) | None => (first a, last a) end in
  let last := default last (FinishedAt h vm) in
  {| first := first; last := last; satisfied := satisfied; finished := postStartFinishedAt;
     statuses := (statuses a ++
       [{| K8s.st_Name := K8s.ct_Name c;
           K8s.st_State := vmToContainerState (now 2%nat) vm (K8s.pod_CreationTimestamp pod);
           K8s.st_Ready := ready; K8s.st_Started := Some started; K8s.st_RestartCount := 0;
           K8s.st_Image := K8s.ct_Image c;
           K8s.st_ContainerID := ContainerID.GetContainerID MacOSRuntime (K8s.ct_Name c) |}])%list |}.

(** The other containers. *)
Definition sidecarStatus (a : acc) (c : K8s.Container) : acc :=
  match getContainerWithName (K8s.ct_Name c) groupContainers with
  | inr _ => a
  | inl container =>
      let state := cs_Status (c_State container) in
      let startedAt := cs_StartedAt (c_State container) in
      let finishedAt := cs_FinishedAt (c_State container) in
      let first := if negb (Time.IsZero startedAt)
                      && (Time.Before startedAt (first a) || Time.IsZero (first a))
                   then startedAt else first a in
      let last := if Time.After startedAt (last a) then startedAt else last a in
      let last := if negb (Time.IsZero finishedAt) && (Time.After finishedAt last || Time.IsZero last)
                  then finishedAt else last in
      {| first := first; last := last; satisfied := satisfied a; finished := finished a;
         statuses := (statuses a ++
           [{| K8s.st_Name := K8s.ct_Name c;
               K8s.st_State := containerToContainerState container (K8s.pod_CreationTimestamp pod);
               K8s.st_Ready := isRunning state; K8s.st_Started := Some (isRunning state); K8s.st_RestartCount := 0;
               K8s.st_Image := K8s.ct_Image c;
               K8s.st_ContainerID := ContainerID.GetContainerID ContainerRuntime (K8s.ct_Name c) |}])%list |}
  end.

Definition containerLoop (podIp : string) : acc :=
  match K8s.pod_Containers pod with
  | [] => acc0
  | c :: cs => foldl sidecarStatus (vmStatus podIp c acc0) cs
  end.

Definition podStatus : K8s.PodStatus :=
  let podIp := IPAddress (now 0%nat) vm in
  let a := containerLoop podIp in
  {| K8s.ps_Phase := getPodPhaseFromVirtualizationGroup (now 3%nat) vm groupContainers;
     K8s.ps_Conditions :=
       getPodConditionsFromVirtualizationGroup (now 4%nat) vm groupContainers (K8s.pod_CreationTimestamp pod)
         (first a) (last a) (satisfied a) (finished a);
     K8s.ps_HostIP := nodeIPAddress;
     K8s.ps_PodIP := podIp;
     K8s.ps_StartTime := if Time.IsZero (first a) then None else Some (first a);
     K8s.ps_ContainerStatuses := statuses a |}.

End Build.

(** [None]: the group has no virtual machine, and the first method call on the nil
    interface panics. *)
(* src/pkg/provider/virtualizationgroup_to_pod.go : MacOSVZProvider.buildPodStatus *)
Definition buildPodStatus (now : nat -> heap) (nodeIPAddress : string) (vg : VirtualizationGroup) (pod : K8s.Pod)
  : option K8s.PodStatus :=
  match vg_VM vg with
  | None => None
  | Some vm => Some (podStatus now nodeIPAddress vm (vg_Containers vg) pod)
  end.

(** ** Conditions *)

(** The sidecar statuses that do not keep the pod from being ready. *)
Definition condAllows (s : ContainerStatus) : bool :=
  match s with
  | ContainerStatusWaiting | ContainerStatusCreated | ContainerStatusRunning => true
  | _ => false
  end.

Definition sidecars (P : ContainerStatus -> bool) (l : list Container) : bool :=
  forallb (fun c => P (cs_Status (c_State c))) l.

Lemma condStep_fold l all :
  foldl condStep (false, false, all) l = (false, false, all && sidecars condAllows l).
Proof.
  revert all. induction l as [|c l IH]; intros all; simpl; [by rewrite andb_true_r|].
  destruct (cs_Status (c_State c)); simpl; rewrite IH; by destruct all.
Qed.

(** A state in which the pod's machine is up, or on its way down. *)
Definition active (s : VirtualMachineState) : bool :=
  match s with VirtualMachineStateTerminating | VirtualMachineStateRunning => true | _ => false end.

Lemma initializedReady_spec h vm l sat :
  initializedReady h vm l sat =
  (bool_decide (State h vm = VirtualMachineStateTerminated) || active (State h vm) && sidecars condAllows l,
   active (State h vm) && sidecars condAllows l && sat).
Proof.
  unfold initializedReady. destruct (State h vm); simpl; try done;
    rewrite condStep_fold; simpl; destruct (sidecars condAllows l), sat; done.
Qed.

Lemma phaseLoop_true l :
  match phaseLoop true l with
  | inr true => sidecars isRunning l = true
  | inl K8s.PodPending | inl K8s.PodFailed | inr false => sidecars isRunning l = false
  | inl _ => False
  end.
Proof.
  induction l as [|c l IH]; simpl; [done|].
  assert (forall l', match phaseLoop false l' with
                     | inr true => False | inl K8s.PodPending | inl K8s.PodFailed | inr false => True
                     | inl _ => False end) as Hf.
  { clear. induction l' as [|c l' IH]; simpl; [done|]. by destruct (cs_Status (c_State c)). }
  unfold sidecars in *. simpl. destruct (cs_Status (c_State c)) eqn:E; simpl; try done.
  - specialize (Hf l). destruct (phaseLoop false l) as [[]|[]]; done.
  - specialize (Hf l). destruct (phaseLoop false l) as [[]|[]]; done.
  - specialize (Hf l). destruct (phaseLoop false l) as [[]|[]]; done.
Qed.

(** The phase is Running exactly when the machine is active, has an address, and
    every sidecar runs. *)
Lemma phase_Running h vm l :
  getPodPhaseFromVirtualizationGroup h vm l = K8s.PodRunning <->
  active (State h vm) = true /\ IPAddress h vm <> "" /\ sidecars isRunning l = true.
Proof.
  unfold getPodPhaseFromVirtualizationGroup, phaseFromContainers.
  pose proof (phaseLoop_true l) as Hl.
  destruct (String.eqb_spec (IPAddress h vm) "") as [Eip|Eip];
    destruct (State h vm); simpl; destruct l as [|c l]; try (split; [done | by intros (? & ? & ?)]);
    try (by split); destruct (phaseLoop true (c :: l)) as [[]|[]]; try done;
    try (split; [done | intros (? & ? & ?); congruence]).
Qed.

(** ** Start time *)

(** The start times that the loop has seen, zero ones left out. *)
Definition startTimes (now : nat -> heap) (vm : MacOSVirtualMachine) (l : list Container) (pod : K8s.Pod) : list Time.t :=
  match K8s.pod_Containers pod with
  | [] => []
  | _ :: cs =>
      filter (fun t => Time.IsZero t = false)
        (option_list (StartedAt (now 1%nat) vm) ++
         omap (fun c => match getContainerWithName (K8s.ct_Name c) l with
                        | inl k => Some (cs_StartedAt (c_State k))
                        | inr _ => None
                        end) cs)%list
  end.

(** [t] is the smallest element of [l], or zero when there is none. *)
Definition least (t : Time.t) (l : list Time.t) : Prop :=
  if Time.IsZero t then l = [] else t ∈ l /\ forall t', t' ∈ l -> (t <= t')%Z.

Lemma least_snoc t l x :
  least t l -> Time.IsZero x = false ->
  least (if Time.Before x t || Time.IsZero t then x else t) (l ++ [x])%list.
Proof.
  unfold least, Time.Before. intros Hl Hx. destruct (Time.IsZero t) eqn:Et.
  - subst l. rewrite orb_true_r, Hx. split; [left|]. intros t' Ht'. apply list_elem_of_singleton in Ht'. lia.
  - rewrite orb_false_r. destruct Hl as [Hin Hmin]. destruct (x <? t)%Z eqn:E.
    + rewrite Hx. split; [apply elem_of_app; right; left|]. intros t' [H| ->%list_elem_of_singleton]%elem_of_app; [|lia].
      apply Hmin in H. bool_lia.
    + rewrite Et. split; [apply elem_of_app; by left|].
      intros t' [H| ->%list_elem_of_singleton]%elem_of_app; [by apply Hmin | bool_lia].
Qed.

Lemma sidecars_first l pod cs a ts :
  least (first a) ts ->
  least (first (foldl (sidecarStatus l pod) a cs))
    (ts ++ filter (fun t => Time.IsZero t = false)
        (omap (fun c => match getContainerWithName (K8s.ct_Name c) l with
                        | inl k => Some (cs_StartedAt (c_State k))
                        | inr _ => None
                        end) cs))%list.
Proof.
  revert a ts. induction cs as [|c cs IH]; intros a ts Ha; simpl; [by rewrite app_nil_r|].
  unfold sidecarStatus at 2. destruct (getContainerWithName (K8s.ct_Name c) l) as [k|e]; [|by apply IH].
  destruct (Time.IsZero (cs_StartedAt (c_State k))) eqn:Ez.
  - rewrite filter_cons_False by (by rewrite Ez). by apply IH.
  - rewrite filter_cons_True by done. 
    assert (forall x r, ts ++ x :: r = (ts ++ [x]) ++ r)%list as -> by (intros; by rewrite <- app_assoc).
    apply IH. simpl.
    by apply least_snoc.
Qed.

Lemma containerLoop_first now vm l pod podIp :
  least (first (containerLoop now vm l pod podIp)) (startTimes now vm l pod).
Proof.
  unfold containerLoop, startTimes. destruct (K8s.pod_Containers pod) as [|c cs]; [done|].
  rewrite filter_app. apply sidecars_first. unfold vmStatus. simpl.
  destruct (StartedAt (now 1%nat) vm) as [t|]; simpl; [|done].
  unfold least. destruct (Time.IsZero t) eqn:E.
  - rewrite filter_cons_False by (by rewrite E). done.
  - rewrite filter_cons_True by done. split; [left|]. intros t' ->%list_elem_of_singleton. lia.
Qed.

(** The post-start marker reaches the conditions when the pod has a container. *)
Lemma sidecars_marker l pod cs a :
  satisfied (foldl (sidecarStatus l pod) a cs) = satisfied a /\
  finished (foldl (sidecarStatus l pod) a cs) = finished a.
Proof.
  revert a. induction cs as [|c cs IH]; intros a; simpl; [done|].
  destruct (IH (sidecarStatus l pod a c)) as [-> ->]. unfold sidecarStatus.
  by destruct (getContainerWithName _ _).
Qed.

Lemma containerLoop_marker now vm l pod podIp :
  K8s.pod_Containers pod <> [] ->
  satisfied (containerLoop now vm l pod podIp) = is_some (PostStartFinishedAt vm) /\
  finished (containerLoop now vm l pod podIp) = PostStartFinishedAt vm.
Proof.
  unfold containerLoop. destruct (K8s.pod_Containers pod) as [|c cs]; [done|]. intros _.
  destruct (sidecars_marker l pod cs (vmStatus now vm pod podIp c acc0)) as [-> ->].
  unfold vmStatus. by destruct (StartedAt _ _).
Qed.

Lemma sidecars_statuses l pod cs a :
  exists tl, statuses (foldl (sidecarStatus l pod) a cs) = (statuses a ++ tl)%list /\
    map K8s.st_Name tl =
      filter (fun n => is_some (find_first (fun k => String.eqb (c_Name k) n) l) = true) (map K8s.ct_Name cs).
Proof.
  revert a. induction cs as [|c cs IH]; intros a; simpl; [exists []; by rewrite app_nil_r|].
  destruct (IH (sidecarStatus l pod a c)) as (tl & -> & Hn).
  unfold sidecarStatus, getContainerWithName in *.
  destruct (find_first (fun k => String.eqb (c_Name k) (K8s.ct_Name c)) l) as [k|] eqn:E; simpl.
  - rewrite filter_cons_True by (by rewrite E). rewrite <- app_assoc. eexists. split; [reflexivity|].
    simpl. by rewrite Hn.
  - rewrite filter_cons_False by (by rewrite E). by exists tl.
Qed.

Lemma condition_ready h vm l created first last sat fin :
  K8s.condition K8s.PodReady (getPodConditionsFromVirtualizationGroup h vm l created first last sat fin) =
  let ready := active (State h vm) && sidecars condAllows l && sat in
  Some {| K8s.pc_Type := K8s.PodReady; K8s.pc_Status := ready;
          K8s.pc_LastTransitionTime := match ready, fin with true, Some t => t | _, _ => last end |}.
Proof. unfold getPodConditionsFromVirtualizationGroup. by rewrite initializedReady_spec. Qed.

Lemma condition_initialized h vm l created first last sat fin :
  K8s.condition K8s.PodInitialized (getPodConditionsFromVirtualizationGroup h vm l created first last sat fin) =
  Some {| K8s.pc_Type := K8s.PodInitialized;
          K8s.pc_Status := bool_decide (State h vm = VirtualMachineStateTerminated)
                           || active (State h vm) && sidecars condAllows l;
          K8s.pc_LastTransitionTime := first |}.
Proof. unfold getPodConditionsFromVirtualizationGroup. by rewrite initializedReady_spec. Qed.

(** ** What the status says *)

Definition condIs (t : K8s.ConditionType) (b : bool) (st : K8s.PodStatus) : Prop :=
  K8s.pc_Status <$> K8s.condition t (K8s.ps_Conditions st) = Some b.

(** C11: a pod is Ready exactly when its machine is up (or on its way down), no
    sidecar has ended or is held, and the post-start marker is set; whatever happens to
    the machine while the status is built, a pod whose SSH probe (or hook) has not
    finished is not Ready, and the transition is stamped with the moment it did. *)
Theorem pod_ready_iff now node vm l pod st :
  K8s.pod_Containers pod <> [] ->
  buildPodStatus now node {| vg_VM := Some vm; vg_Containers := l |} pod = Some st ->
  exists c, K8s.condition K8s.PodReady (K8s.ps_Conditions st) = Some c /\
    (K8s.pc_Status c = true <->
       active (State (now 4%nat) vm) = true /\ sidecars condAllows l = true /\
       exists t, PostStartFinishedAt vm = Some t) /\
    (K8s.pc_Status c = true -> PostStartFinishedAt vm = Some (K8s.pc_LastTransitionTime c)).
Proof.
  intros Hne [= <-]. simpl.
  destruct (containerLoop_marker now vm l pod (IPAddress (now 0%nat) vm) Hne) as [-> ->].
  eexists. split; [apply condition_ready|]. simpl.
  destruct (active _), (sidecars _ _), (PostStartFinishedAt vm) as [t|]; simpl; split; try done;
    split; try done; try (by intros (? & ? & ? & ?)); try (by intros (? & ? & ?)). intros _. by split_and!; [..|exists t].
Qed.

(** C12: when nothing changes while the status is built, its parts agree: a Running
    pod is Initialized, and Ready as soon as its post-start marker is set; a failed
    machine makes the pod Failed, neither Initialized nor Ready; a machine that has
    stopped makes it Succeeded, Initialized and not Ready; the first container status
    is the machine's, and says ready or started only behind the marker; the others are
    those of the sidecars that exist, in the order of the spec. *)
Theorem pod_status_coherent h now node vm l c0 cs pod st :
  (forall i, now i = h) -> K8s.pod_Containers pod = c0 :: cs ->
  buildPodStatus now node {| vg_VM := Some vm; vg_Containers := l |} pod = Some st ->
  (K8s.ps_Phase st = K8s.PodRunning ->
     condIs K8s.PodInitialized true st /\ K8s.ps_PodIP st <> "" /\
     (PostStartFinishedAt vm <> None -> condIs K8s.PodReady true st)) /\
  (State h vm = VirtualMachineStateFailed ->
     K8s.ps_Phase st = K8s.PodFailed /\ condIs K8s.PodInitialized false st /\ condIs K8s.PodReady false st) /\
  (State h vm = VirtualMachineStateTerminated ->
     K8s.ps_Phase st = K8s.PodSucceeded /\ condIs K8s.PodInitialized true st /\ condIs K8s.PodReady false st) /\
  exists s0 ss, K8s.ps_ContainerStatuses st = s0 :: ss /\
    (K8s.st_Ready s0 = true <-> State h vm = VirtualMachineStateRunning /\ PostStartFinishedAt vm <> None) /\
    (K8s.st_Started s0 = Some true <-> K8s.ps_PodIP st <> "" /\ PostStartFinishedAt vm <> None) /\
    map K8s.st_Name (s0 :: ss) =
      K8s.ct_Name c0 :: filter (fun n => is_some (find_first (fun k => String.eqb (c_Name k) n) l) = true)
                          (map K8s.ct_Name cs).
Proof.
  intros Hnow Hcs [= <-].
  destruct (containerLoop_marker now vm l pod (IPAddress (now 0%nat) vm)) as [Es Ef]; [by rewrite Hcs|].
  unfold condIs. simpl. rewrite !condition_initialized, !condition_ready, Es, Ef, !Hnow. simpl.
  split_and!.
  - rewrite phase_Running. intros (Ha & Hip & Hs). rewrite Ha.
    assert (sidecars condAllows l = true) as ->.
    { revert Hs. unfold sidecars. rewrite !forallb_forall. intros Hs x Hx. apply Hs in Hx.
      by destruct (cs_Status (c_State x)). }
    rewrite orb_true_r. split_and!; [done | done |]. by destruct (PostStartFinishedAt vm).
  - intros Hst. unfold getPodPhaseFromVirtualizationGroup. by rewrite Hst.
  - intros Hst. unfold getPodPhaseFromVirtualizationGroup. by rewrite Hst.
  - unfold containerLoop. rewrite Hcs.
    destruct (sidecars_statuses l pod cs (vmStatus now vm pod (IPAddress h vm) c0 acc0)) as (tl & -> & Hn).
    unfold vmStatus. rewrite Hnow. destruct (match StartedAt h vm with Some t => (t, t) | None => _ end) as [f la].
    simpl. eexists _, tl. split; [reflexivity|]. simpl. rewrite Hn.
    case_bool_decide; destruct (String.eqb_spec (IPAddress h vm) ""), (PostStartFinishedAt vm); simpl;
      split_and!; try done; split; try done; by intros [].
Qed.

(** The pod's start time is the earliest non-zero start of the machine and of the
    reported sidecars, and is absent only when there is none. *)
Theorem pod_start_time now node vm l pod st :
  buildPodStatus now node {| vg_VM := Some vm; vg_Containers := l |} pod = Some st ->
  match K8s.ps_StartTime st with
  | None => startTimes now vm l pod = []
  | Some t => t ∈ startTimes now vm l pod /\ forall t', t' ∈ startTimes now vm l pod -> (t <= t')%Z
  end.
Proof.
  intros [= <-]. pose proof (containerLoop_first now vm l pod (IPAddress (now 0%nat) vm)) as H.
  unfold least in H. simpl. by destruct (Time.IsZero _).
Qed.

(** *** Inputs *)

Definition sample_heap (s : VzState) : heap := fun _ =>
  {| iv_IPAddress := "192.168.64.2"; iv_StartedAt := Some 100%Z; iv_FinishedAt := None; iv_State := s |}.

Definition sample_vm : MacOSVirtualMachine :=
  {| env := []; instance := Some 0%nat; err := None; postStartFinishedAt := 120%Z |}.

Definition sample_container (n : string) : K8s.Container :=
  {| K8s.ct_Name := n; K8s.ct_Image := "img"; K8s.ct_ImagePullPolicy := K8s.PullAlways; K8s.ct_Command := [];
     K8s.ct_Args := []; K8s.ct_WorkingDir := ""; K8s.ct_Env := []; K8s.ct_VolumeMounts := [];
     K8s.ct_Requests := ∅; K8s.ct_Lifecycle := None; K8s.ct_TTY := false; K8s.ct_Stdin := false;
     K8s.ct_StdinOnce := false |}.

Definition sample_pod : K8s.Pod :=
  {| K8s.pod_Namespace := "default"; K8s.pod_Name := "p"; K8s.pod_UID := "u"; K8s.pod_CreationTimestamp := 50%Z;
     K8s.pod_DeletionTimestamp := None; K8s.pod_DeletionGracePeriodSeconds := None;
     K8s.pod_Containers := [sample_container "macos"; sample_container "redis"]; K8s.pod_Volumes := [];
     K8s.pod_ImagePullSecrets := []; K8s.pod_ServiceAccountName := "";
     K8s.pod_AutomountServiceAccountToken := None;
     K8s.pod_Status := {| K8s.ps_Phase := K8s.PodPending; K8s.ps_Conditions := []; K8s.ps_HostIP := "";
                          K8s.ps_PodIP := ""; K8s.ps_StartTime := None; K8s.ps_ContainerStatuses := [] |} |}.

Definition sample_sidecar (s : ContainerStatus) : Container :=
  {| c_ID := "1"; c_Name := "redis";
     c_State := {| cs_Status := s; cs_StartedAt := 90%Z; cs_FinishedAt := 0%Z; cs_ExitCode := 0; cs_Error := "" |} |}.

Definition sample_status (s : VzState) (c : ContainerStatus) : K8s.PodStatus :=
  podStatus (fun _ => sample_heap s) "10.0.0.1" sample_vm [sample_sidecar c] sample_pod.

Lemma pod_ready_iff_witness :
  exists c, K8s.condition K8s.PodReady (K8s.ps_Conditions (sample_status VzRunning ContainerStatusRunning)) = Some c /\
    K8s.pc_Status c = true /\ K8s.pc_LastTransitionTime c = 120%Z.
Proof.
  destruct (pod_ready_iff (fun _ => sample_heap VzRunning) "10.0.0.1" sample_vm [sample_sidecar ContainerStatusRunning]
    sample_pod (sample_status VzRunning ContainerStatusRunning)) as (c & Hc & Hr & Ht);
    [discriminate | reflexivity |].
  exists c. assert (K8s.pc_Status c = true) as Hs.
  { apply Hr. split; [reflexivity | split; [reflexivity | exists 120%Z; reflexivity]]. }
  split; [exact Hc | split; [exact Hs|]]. specialize (Ht Hs). injection Ht as <-. reflexivity.
Defined.

Lemma pod_status_coherent_witness :
  K8s.ps_Phase (sample_status VzStopped ContainerStatusRunning) = K8s.PodSucceeded.
Proof.
  destruct (pod_status_coherent (sample_heap VzStopped) (fun _ => sample_heap VzStopped) "10.0.0.1" sample_vm
    [sample_sidecar ContainerStatusRunning] (sample_container "macos") [sample_container "redis"]
    sample_pod (sample_status VzStopped ContainerStatusRunning)) as (_ & _ & H & _); [intros; reflexivity | reflexivity | reflexivity |].
  apply H. reflexivity.
Defined.

Lemma pod_start_time_witness :
  K8s.ps_StartTime (sample_status VzRunning ContainerStatusRunning) = Some 90%Z /\
  (90%Z ∈ startTimes (fun _ => sample_heap VzRunning) sample_vm [sample_sidecar ContainerStatusRunning] sample_pod).
Proof.
  split; [reflexivity|].
  exact (proj1 (pod_start_time (fun _ => sample_heap VzRunning) "10.0.0.1" sample_vm
    [sample_sidecar ContainerStatusRunning] sample_pod _ eq_refl)).
Defined.

(** With the machine up and a sidecar that is still waiting (or only created), the
    phase says Pending and the sidecar is not ready, and yet the pod's Initialized and
    Ready conditions are True: the loop of the conditions leaves
    [allContainersRunning] set in that case. *)
Theorem waiting_sidecar_is_ready s :
  s = ContainerStatusWaiting \/ s = ContainerStatusCreated ->
  let st := sample_status VzRunning s in
  K8s.ps_Phase st = K8s.PodPending /\ condIs K8s.PodInitialized true st /\ condIs K8s.PodReady true st /\
  map K8s.st_Ready (K8s.ps_ContainerStatuses st) = [true; false].
Proof. by intros [-> | ->]. Qed.

Lemma waiting_sidecar_is_ready_witness :
  K8s.ps_Phase (sample_status VzRunning ContainerStatusWaiting) = K8s.PodPending.
Proof. exact (proj1 (waiting_sidecar_is_ready _ (or_introl eq_refl))). Defined.

(** A group without a machine (a pod that only the container store still knows)
    makes the status panic. *)
Lemma no_machine_panics now node l pod :
  buildPodStatus now node {| vg_VM := None; vg_Containers := l |} pod = None.
Proof. done. Qed.

End PodStatus.
