(* ===== verification/DockerData.v ===== *)
(** * pkg/resourcemanager/docker.go: the values exchanged with the Docker engine

    Container names and their parsing, the configuration of a new container, the
    state and the statistics of a running one.  [Docker] has the operations. *)
From Stdlib Require Import ZArith Lia.
From Stdlib Require Import Ascii String.
From stdpp Require Import base list gmap strings.
From S2P Require Import Prelude GoStrings GoFormat GoErrors GoTime Prog Utils Resource K8s Volumes NodeIO.
From S2P Require Import ClientApi.
Local Open Scope string_scope.

Module DockerData.
Import Api.

(** ** Names *)

(* src/pkg/resourcemanager/docker.go : 40-42 ContainerNamePrefix *)
Definition ContainerNamePrefix : string := "macos-vz".

(* src/pkg/resourcemanager/docker.go : getUnderlyingContainerName *)
Definition getUnderlyingContainerName (podNs podName containerName : string) : string :=
  ContainerNamePrefix ++ "_" ++ podNs ++ "_" ++ podName ++ "_" ++ containerName.

(* src/pkg/resourcemanager/docker.go : extractNamespacedName *)
Definition extractNamespacedName (containerName : string) : NamespacedName + error :=
  let name := Str.trim_prefix containerName ("/" ++ ContainerNamePrefix ++ "_") in
  match Str.splitN "_" name 3 with
  | [p0; p1; _] => inl {| Namespace := p0; Name := p1 |}
  | _ => inr (errMsg ("invalid container name format: " ++ name))
  end.

(** What Docker lists: a container and its names, each with a leading slash. *)
Record Summary := { su_ID : string; su_Names : list string }.

Definition addName (id : string) (m : gmap NamespacedName (list string)) (name : string)
  : gmap NamespacedName (list string) :=
  match extractNamespacedName name with
  | inl k => <[k := (default [] (m !! k) ++ [id])%list]> m
  | inr _ => m
  end.

(** The map that [getActiveContainers] makes of the listed containers. *)
(* src/pkg/resourcemanager/docker.go : 674-685 getActiveContainers *)
Definition groupContainers (l : list Summary) : gmap NamespacedName (list string) :=
  foldl (fun m c => foldl (addName (su_ID c)) m (su_Names c)) ∅ l.

(** A name of a Kubernetes object has no underscore. *)
Definition plain (s : string) : Prop := Str.count_char "_" s = 0%nat.

Lemma splitN3 a b c :
  plain a -> plain b -> Str.splitN "_" (a ++ "_" ++ b ++ "_" ++ c) 3 = [a; b; c].
Proof.
  intros Ha Hb. cbn [Str.splitN]. change ("_" ++ (b ++ "_" ++ c)) with (String "_" (b ++ String "_" c)).
  rewrite Str.cut_app by done. by rewrite Str.cut_app.
Qed.

(** The name under which a container is created names its pod: read back from
    Docker's list, with the slash that Docker puts in front, it gives the pod's
    namespace and name, and two containers have the same name only if pod and
    container agree. *)
Theorem container_name_roundtrip ns name c ns' name' c' :
  plain ns -> plain name -> plain ns' -> plain name' ->
  extractNamespacedName ("/" ++ getUnderlyingContainerName ns name c) = inl {| Namespace := ns; Name := name |} /\
  (getUnderlyingContainerName ns name c = getUnderlyingContainerName ns' name' c' ->
   ns = ns' /\ name = name' /\ c = c').
Proof.
  intros Hns Hname Hns' Hname'. unfold extractNamespacedName, getUnderlyingContainerName. split.
  - rewrite (Str.app_assoc ContainerNamePrefix "_"), (Str.app_assoc "/" (ContainerNamePrefix ++ "_")).
    rewrite Str.trim_prefix_app, splitN3 by done. done.
  - intros H. rewrite !(Str.app_assoc ContainerNamePrefix "_") in H.
    apply (f_equal (Str.drop (String.length (ContainerNamePrefix ++ "_")))) in H. rewrite !Str.drop_app in H.
    apply (f_equal (fun s => Str.splitN "_" s 3)) in H. rewrite !splitN3 in H by done. by injection H.
Qed.

Lemma container_name_roundtrip_witness :
  extractNamespacedName "/macos-vz_ci_build-1_redis_x" = inl {| Namespace := "ci"; Name := "build-1" |}.
Proof. exact (proj1 (container_name_roundtrip "ci" "build-1" "redis_x" "ci" "p" "c" eq_refl eq_refl eq_refl eq_refl)). Defined.

Example not_ours : exists e, extractNamespacedName "/other" = inr e.
Proof. vm_compute. eauto. Qed.

(** ** The configuration of a container *)

Record Config := {
  cf_Hostname : string; cf_Env : list string; cf_Entrypoint : list string; cf_Cmd : list string;
  cf_Image : string; cf_Volumes : gset string; cf_WorkingDir : string; cf_Tty : bool;
  cf_OpenStdin : bool; cf_StdinOnce : bool
}.

(* src/pkg/resourcemanager/docker.go : createDockerContainerConfig *)
Definition createDockerContainerConfig (params : ContainerParams) : Config :=
  {| cf_Hostname := cp_PodName params;
     cf_Env := map (fun e => env_name e ++ "=" ++ env_value e) (cp_Env params);
     cf_Entrypoint := cp_Command params;
     cf_Cmd := cp_Args params;
     cf_Image := cp_Image params;
     cf_Volumes := list_to_set (map Volumes.m_ContainerPath (cp_Mounts params));
     cf_WorkingDir := cp_WorkingDir params;
     cf_Tty := cp_TTY params;
     cf_OpenStdin := cp_Stdin params;
     cf_StdinOnce := cp_StdinOnce params |}.

(** The [Binds] of the host configuration. *)
(* src/pkg/resourcemanager/docker.go : createDockerHostConfigFromMounts *)
Definition createDockerHostConfigFromMounts (mounts : list Volumes.Mount) : list string :=
  map (fun m => Volumes.m_HostPath m ++ ":" ++ Volumes.m_ContainerPath m ++ ":" ++
                (if Volumes.m_ReadOnly m then "ro" else "rw")) mounts.

Record ExecConfig := {
  ec_Cmd : list string; ec_ConsoleSize : option (Z * Z);
  ec_AttachStdin : bool; ec_AttachStdout : bool; ec_AttachStderr : bool; ec_Tty : bool
}.

(* src/pkg/resourcemanager/docker.go : execConfigFromAttachIO *)
Definition execConfigFromAttachIO (cmd : list string) (consoleSize : option (Z * Z)) (attach : option Node.ExecIO)
  : ExecConfig :=
  match attach with
  | None => {| ec_Cmd := cmd; ec_ConsoleSize := consoleSize; ec_AttachStdin := false; ec_AttachStdout := false;
               ec_AttachStderr := false; ec_Tty := false |}
  | Some a => {| ec_Cmd := cmd; ec_ConsoleSize := consoleSize; ec_AttachStdin := Node.stdin a;
                 ec_AttachStdout := Node.stdout a; ec_AttachStderr := Node.stderr a; ec_Tty := Node.tty a |}
  end.

(** Every mount of the container is bound, in order, read-only exactly when asked. *)
Lemma binds_spec mounts i m :
  mounts !! i = Some m ->
  createDockerHostConfigFromMounts mounts !! i =
    Some (Volumes.m_HostPath m ++ ":" ++ Volumes.m_ContainerPath m ++ ":" ++
          (if Volumes.m_ReadOnly m then "ro" else "rw")).
Proof. intros H. unfold createDockerHostConfigFromMounts. by rewrite list_lookup_fmap, H. Qed.

(** ** States *)

(** [types.ContainerState], the fields the code reads. *)
Record DockerState := {
  ds_Status : string; ds_Running : bool; ds_Paused : bool; ds_Restarting : bool; ds_OOMKilled : bool;
  ds_Dead : bool; ds_ExitCode : Z; ds_Error : string; ds_StartedAt : string; ds_FinishedAt : string
}.

Definition dockerStatus (s : DockerState) : Res.ContainerStatus :=
  if ds_Running s then Res.ContainerStatusRunning
  else if ds_Paused s then Res.ContainerStatusPaused
  else if ds_Restarting s then Res.ContainerStatusRestarting
  else if ds_OOMKilled s then Res.ContainerStatusOOMKilled
  else if ds_Dead s then Res.ContainerStatusDead
  else if String.eqb (ds_Status s) "created" then Res.ContainerStatusCreated
  else Res.ContainerStatusUnknown.

Definition zeroState : Res.ContainerState :=
  {| Res.cs_Status := Res.ContainerStatusWaiting; Res.cs_StartedAt := Time.zero; Res.cs_FinishedAt := Time.zero;
     Res.cs_ExitCode := 0; Res.cs_Error := "" |}.

Definition withStatus (st : Res.ContainerStatus) (s : Res.ContainerState) : Res.ContainerState :=
  {| Res.cs_Status := st; Res.cs_StartedAt := Res.cs_StartedAt s; Res.cs_FinishedAt := Res.cs_FinishedAt s;
     Res.cs_ExitCode := Res.cs_ExitCode s; Res.cs_Error := Res.cs_Error s |}.
Definition withStateError (e : string) (s : Res.ContainerState) : Res.ContainerState :=
  {| Res.cs_Status := Res.cs_Status s; Res.cs_StartedAt := Res.cs_StartedAt s; Res.cs_FinishedAt := Res.cs_FinishedAt s;
     Res.cs_ExitCode := Res.cs_ExitCode s; Res.cs_Error := e |}.

(** [time.Parse(time.RFC3339, s)], the zero time when it fails. *)
Definition parseOrZero (s : string) : Time.t := default Time.zero (Time.parseRFC3339 s).

(* src/pkg/resourcemanager/docker.go : containerStateFromDockerState *)
Definition containerStateFromDockerState (state : option DockerState) : Res.ContainerState :=
  match state with
  | None => withStatus Res.ContainerStatusUnknown zeroState
  | Some s =>
      {| Res.cs_Status := dockerStatus s;
         Res.cs_StartedAt := parseOrZero (ds_StartedAt s);
         Res.cs_FinishedAt := parseOrZero (ds_FinishedAt s);
         Res.cs_ExitCode := ds_ExitCode s;
         Res.cs_Error := ds_Error s |}
  end.

(** A state from Docker is never Waiting: Waiting means that Docker does not know the
    container yet. *)
Lemma docker_state_not_waiting s :
  Res.cs_Status (containerStateFromDockerState s) <> Res.ContainerStatusWaiting.
Proof. destruct s as [s|]; [|done]. simpl. unfold dockerStatus. by repeat case_match. Qed.

(** Docker's flags are not exclusive, a paused container also counts as running; the
    first of them wins. *)
Lemma paused_reported_running s :
  ds_Running s = true -> ds_Paused s = true ->
  Res.cs_Status (containerStateFromDockerState (Some s)) = Res.ContainerStatusRunning.
Proof. intros H _. simpl. unfold dockerStatus. by rewrite H. Qed.

(** ** Statistics *)

(** [types.StatsJSON], the fields the code reads; counters are [uint64]. *)
Record StatsJSON := {
  sj_TotalUsage : Z; sj_SystemUsage : Z; sj_OnlineCPUs : Z; sj_PercpuUsage : list Z;
  sj_PreTotalUsage : Z; sj_PreSystemUsage : Z;
  sj_MemUsage : Z; sj_MemStats : gmap string Z
}.

Definition onlineCPUs (s : StatsJSON) : Z :=
  if (sj_OnlineCPUs s =? 0)%Z then wrap_u32 (Z.of_nat (List.length (sj_PercpuUsage s))) else sj_OnlineCPUs s.

Definition nanoCores (s : StatsJSON) : Z :=
  F64.to_u64 (F64.mul (F64.mul (F64.div (F64.of_Z (wrap_u64 (sj_TotalUsage s - sj_PreTotalUsage s)))
                                        (F64.of_Z (wrap_u64 (sj_SystemUsage s - sj_PreSystemUsage s))))
                               (F64.of_Z (onlineCPUs s)))
                      (F64.of_Z 1000000000)).

Definition memKey (m : gmap string Z) (k1 k2 : string) : Z :=
  match m !! k1 with Some v => v | None => default 0%Z (m !! k2) end.

Definition workingSet (s : StatsJSON) : Z :=
  let inactiveFile := memKey (sj_MemStats s) "inactive_file" "total_inactive_file" in
  if (inactiveFile <=? sj_MemUsage s)%Z then wrap_u64 (sj_MemUsage s - inactiveFile) else 0%Z.

(* src/pkg/resourcemanager/docker.go : dockerContainerStats *)
Definition dockerContainerStats (name : string) (s : StatsJSON) (now : Time.t) : ContainerStats :=
  let usageNanoCores :=
    if (sj_PreTotalUsage s <=? sj_TotalUsage s)%Z && (sj_PreSystemUsage s <? sj_SystemUsage s)%Z
       && (0 <? onlineCPUs s)%Z
    then Some (nanoCores s) else None in
  {| sc_Name := name;
     sc_StartTime := Time.zero;
     sc_Time := now;
     sc_UsageNanoCores := usageNanoCores;
     sc_UsageCoreNanoSeconds := Some (sj_TotalUsage s);
     sc_UsageBytes := Some (sj_MemUsage s);
     sc_WorkingSetBytes := Some (workingSet s);
     sc_RSSBytes := Some (memKey (sj_MemStats s) "anon" "rss") |}.

(** The counters are [uint64]s, as the decoder makes them. *)
Record wf_stats (s : StatsJSON) : Prop := {
  wf_total : is_u64 (sj_TotalUsage s);
  wf_pre : is_u64 (sj_PreTotalUsage s);
  wf_sys : is_u64 (sj_SystemUsage s);
  wf_presys : is_u64 (sj_PreSystemUsage s);
  wf_online : (0 <= sj_OnlineCPUs s < 2 ^ 32)%Z;
  wf_usage : is_u64 (sj_MemUsage s);
  wf_mem : map_Forall (fun _ => is_u64) (sj_MemStats s)
}.

Lemma memKey_range s k1 k2 : wf_stats s -> is_u64 (memKey (sj_MemStats s) k1 k2).
Proof.
  intros Hw. unfold memKey. destruct (_ !! k1) as [v|] eqn:E; [by apply (wf_mem s Hw k1)|].
  destruct (_ !! k2) as [v|] eqn:E2; simpl; [by apply (wf_mem s Hw k2) | unfold is_u64; lia].
Qed.

(** The statistics of a sidecar: a CPU rate is reported exactly when the counters
    moved forward and a number of CPUs is known, so the restart of a counter reports
    none instead of a wrapped difference, and it is the quotient of the true
    differences; the working set is the usage less the inactive files, 0 instead of an
    underflow, and at most the usage; cgroup v2's keys win over v1's even when 0. *)
Theorem docker_stats_sound name s now :
  wf_stats s ->
  let r := dockerContainerStats name s now in
  (is_Some (sc_UsageNanoCores r) <->
     (sj_PreTotalUsage s <= sj_TotalUsage s)%Z /\ (sj_PreSystemUsage s < sj_SystemUsage s)%Z /\ (0 < onlineCPUs s)%Z) /\
  (forall n, sc_UsageNanoCores r = Some n ->
     is_u64 n /\
     n = F64.to_u64 (F64.mul (F64.mul (F64.div (F64.of_Z (sj_TotalUsage s - sj_PreTotalUsage s))
                                               (F64.of_Z (sj_SystemUsage s - sj_PreSystemUsage s)))
                                      (F64.of_Z (onlineCPUs s))) (F64.of_Z 1000000000))) /\
  sc_WorkingSetBytes r =
    Some (Z.max 0 (sj_MemUsage s - memKey (sj_MemStats s) "inactive_file" "total_inactive_file")) /\
  (forall w, sc_WorkingSetBytes r = Some w -> 0 <= w <= sj_MemUsage s)%Z /\
  (forall v, sj_MemStats s !! "anon" = Some v -> sc_RSSBytes r = Some v).
Proof.
  intros Hw r. subst r. simpl.
  destruct (wf_total s Hw), (wf_pre s Hw), (wf_sys s Hw), (wf_presys s Hw), (wf_usage s Hw).
  pose proof (memKey_range s "inactive_file" "total_inactive_file" Hw) as [Hi1 Hi2].
  assert (workingSet s = Z.max 0 (sj_MemUsage s - memKey (sj_MemStats s) "inactive_file" "total_inactive_file")) as Ews.
  { unfold workingSet. destruct (_ <=? sj_MemUsage s)%Z eqn:E; [|bool_lia].
    rewrite wrap_u64_id by (unfold is_u64; bool_lia). bool_lia. }
  rewrite Ews.
  match goal with |- context [if ?x then Some (nanoCores s) else None] => set (b := x) end.
  assert (b = true <-> (sj_PreTotalUsage s <= sj_TotalUsage s)%Z /\ (sj_PreSystemUsage s < sj_SystemUsage s)%Z /\
            (0 < onlineCPUs s)%Z) as Hb.
  { subst b. rewrite !andb_true_iff, Z.leb_le, !Z.ltb_lt. tauto. }
  split_and!; [| | done | intros w [= <-]; lia | intros v Hv; unfold memKey; by rewrite Hv].
  - rewrite <- Hb. destruct b; split; eauto; [by intros [] | done].
  - intros n. destruct b; [|done]. intros [= <-]. destruct (proj1 Hb eq_refl) as (? & ? & ?).
    split; [apply F64.to_u64_range|]. unfold nanoCores.
    rewrite !wrap_u64_id by (unfold is_u64; lia). done.
Qed.

Definition sample_stats : StatsJSON :=
  {| sj_TotalUsage := 3000; sj_SystemUsage := 20000; sj_OnlineCPUs := 0; sj_PercpuUsage := [1%Z; 2%Z];
     sj_PreTotalUsage := 1000; sj_PreSystemUsage := 12000; sj_MemUsage := 500;
     sj_MemStats := {["inactive_file" := 700%Z]} |}.

Lemma docker_stats_sound_witness :
  sc_UsageNanoCores (dockerContainerStats "redis" sample_stats 0%Z) = Some 500000000%Z /\
  sc_WorkingSetBytes (dockerContainerStats "redis" sample_stats 0%Z) = Some 0%Z.
Proof.
  assert (wf_stats sample_stats) as Hw.
  { split; try (unfold is_u64; simpl; lia). simpl. apply map_Forall_singleton. unfold is_u64. lia. }
  destruct (docker_stats_sound "redis" sample_stats 0%Z Hw) as (_ & _ & H & _).
  split; [vm_compute; reflexivity | rewrite H; vm_compute; reflexivity].
Defined.

End DockerData.
