(* ===== verification/Docker.v ===== *)
(** * pkg/resourcemanager/docker.go: the sidecar containers of a pod

    [DockerClient] keeps [ContainerData] and drives the Docker engine.  Its handlers
    are programs over [dkE]: the steps of the container store act on the state, the
    calls into the Docker client and the other components are answered by an oracle.
    The goroutine of a creation is [handleDockerContainerCreation]; [DockerProofs] has
    the theorems. *)
From Stdlib Require Import ZArith Lia.
From Stdlib Require Import Ascii String.
From stdpp Require Import base list gmap strings.
From S2P Require Import Prelude GoStrings GoFormat GoErrors GoTime Prog Utils Resource K8s Event NodeIO.
From S2P Require Import Volumes Stores ClientApi DockerData.
Local Open Scope string_scope.
Local Open Scope go_scope.

Module Docker.
Import Api DockerData.

(** A stream of the engine: the progress of a pull, a hijacked connection, a body. *)
Definition StreamRef := nat.

Record LogsOptions := { do_Since : string; do_Timestamps : bool; do_Follow : bool; do_Tail : string }.

Inductive dkE : Type -> Type :=
| Cd {X : Type} (e : ContainerData.cdE X) : dkE X
(* the engine *)
| ContainerList : dkE (list Summary + error)
| ContainerRemove (id : string) : dkE (option error)
| ImageRemove (ref : string) : dkE unit
| ImagePull (ref auth : string) : dkE (StreamRef + error)
| ReadToEnd (r : StreamRef) : dkE bool                        (* the lines; did io.EOF end them? *)
| CloseStream (r : StreamRef) : dkE (option error)
| ContainerCreate (cfg : Config) (binds : list string) (name : string) : dkE (string + error)
| ContainerStart (id : string) : dkE (option error)
| ContainerInspect (id : string) : dkE (option DockerState + error)
| ContainerLogs (name : string) (o : LogsOptions) : dkE (StreamRef + error)
| ContainerExecCreate (name : string) (cfg : ExecConfig) : dkE (string + error)
| ContainerExecAttach (id : string) (tty : bool) (size : option (Z * Z)) : dkE (StreamRef + error)
| ContainerAttach (name : string) (stream stdin stdout stderr : bool) : dkE (StreamRef + error)
| ContainerStats_ (id : string) : dkE (StreamRef + error)
| DecodeStats (r : StreamRef) : dkE (StatsJSON + error)
(* goroutines and copies of one call *)
| GoHandleCreation (ctx : Ctx) (p : ContainerParams) : dkE unit
| GoResize (target : string) : dkE unit
| GoCopyLogs (r : StreamRef) : dkE StreamRef                  (* the reading end of the pipe *)
| ConsoleSize (ctx : Ctx) : dkE (option Node.TermSize)
| CopyStdin (r : StreamRef) : dkE (option error)
| CloseWrite (r : StreamRef) : dkE (option error)
| CopyOutput (r : StreamRef) (stderrToStdout : bool) : dkE (option error)
| FirstDone (r : StreamRef) (stdin stdout : bool) : dkE (option error)   (* <-doneCh *)
(* the retry loop of apimachinery's wait package *)
| BackoffRounds (steps : nat) : dkE nat
| BackoffEnd : dkE error
(* contexts, time, events *)
| WithTimeout (ctx : Ctx) (d : Z) : dkE Ctx
| Cancel (ctx : Ctx) : dkE unit
| Rounds (ctx : Ctx) : dkE nat
| CtxDone (ctx : Ctx) : dkE error
| Now : dkE Time.t
| Record_ (ev : Event) : dkE unit.

(** The state is the container store: [c.containers]. *)
(* src/pkg/resourcemanager/docker.go : DockerClient *)
Definition DockerClient := ContainerData.ContainerData.

(** Receiving from [doneCh] blocks when no goroutine was started to send. *)
Definition local : local_handler dkE DockerClient := fun X e =>
  match e in dkE X return X -> DockerClient -> option (X * DockerClient) with
  | Cd e => fun _ s => Some (ContainerData.step e s)
  | FirstDone _ stdin stdout => fun x s => if stdin || stdout then Some (x, s) else None
  | _ => fun x s => Some (x, s)
  end.

Definition cd {A} (p : prog ContainerData.cdE A) : prog dkE A := lift (fun X e => Cd e) p.

(* src/pkg/resourcemanager/docker.go : 44-48 DefaultMaxAttempts *)
Definition DefaultMaxAttempts : nat := 5.

Section Client.
(** [registrytypes.EncodeAuthConfig], [time.Duration.String] of what a pull took, and
    [time.Time.Format(time.RFC3339)] in the local zone. *)
Variable EncodeAuthConfig : Creds.RegistryCredentials -> string + error.
Variable FormatRFC3339 : Time.t -> string.

(** ** Start *)

Definition removeDangling (id : string) : prog dkE unit := perform (ContainerRemove id) ;; Ret tt.

(* src/pkg/resourcemanager/docker.go : getActiveContainers *)
Definition getActiveContainers : prog dkE (gmap NamespacedName (list string) + error) :=
  r <- perform ContainerList ;;
  Ret (match r with inr e => inr e | inl l => inl (groupContainers l) end).

(** [available] says whether there is a Docker client at all. *)
(* src/pkg/resourcemanager/docker.go : NewDockerClient *)
Definition NewDockerClient (available : bool) : prog dkE (option error) :=
  if negb available then Ret (Some (errMsg "must provide a containers client"))
  else
    r <- getActiveContainers ;;
    match r with
    | inr e => Ret (Some e)
    | inl m => forM (map_to_list m) (fun kids => forM (snd kids) removeDangling) ;; Ret None
    end.

(** ** Creation *)

(* src/pkg/resourcemanager/docker.go : encodeRegistryAuth *)
Definition encodeRegistryAuth (creds : Creds.RegistryCredentials) : string + error :=
  if Creds.IsEmpty creds then inl "" else EncodeAuthConfig creds.

(** The rounds of [wait.ExponentialBackoffWithContext] and its condition. *)
(* src/pkg/resourcemanager/docker.go : 196-222 DockerClient.pullImage *)
Fixpoint pullLoop (n : nat) (ref containerName auth : string) : prog dkE (option error) :=
  match n with
  | O => e <- perform BackoffEnd ;; Ret (Some e)
  | S n =>
      r <- perform (ImagePull ref auth) ;;
      match r with
      | inr e => perform (Record_ (FailedToPullImage ref containerName e)) ;; pullLoop n ref containerName auth
      | inl rd =>
          eof <- perform (ReadToEnd rd) ;;
          ce <- perform (CloseStream rd) ;;
          match ce with
          | Some e => Ret (Some e)
          | None => if eof : bool then Ret None else pullLoop n ref containerName auth
          end
      end
  end.

(* src/pkg/resourcemanager/docker.go : DockerClient.pullImage *)
Definition pullImage (ref containerName : string) (creds : Creds.RegistryCredentials) : prog dkE (option error) :=
  match encodeRegistryAuth creds with
  | inr e => Ret (Some (Errorf "failed to encode registry auth" e))
  | inl auth =>
      n <- perform (BackoffRounds DefaultMaxAttempts) ;;
      pullLoop (Nat.min n DefaultMaxAttempts) ref containerName auth
  end.

(* src/pkg/resourcemanager/docker.go : DockerClient.handleContainerIO *)
Definition handleContainerIO (hr : StreamRef) (stdin stdout stderr : bool) : prog dkE (option error) :=
  perform (FirstDone hr stdin stdout).

(* src/pkg/resourcemanager/docker.go : DockerClient.handleContainerIOSync *)
Definition handleContainerIOSync (hr : StreamRef) (stdin stdout stderr : bool) : prog dkE (option error) :=
  e <- (if stdin then
          e <- perform (CopyStdin hr) ;;
          match e with Some e => Ret (Some e) | None => perform (CloseWrite hr) end
        else Ret None) ;;
  match e with
  | Some e => Ret (Some e)
  | None => if stdout then perform (CopyOutput hr (negb stderr)) else Ret None
  end.

(** The streams of an exec whose [attach] is there. *)
Definition attachExec (id : string) (consoleSize : option (Z * Z)) (a : Node.ExecIO) : prog dkE (option error) :=
  r <- perform (ContainerExecAttach id (Node.tty a) consoleSize) ;;
  match r with
  | inr e => Ret (Some e)
  | inl hr =>
      err <- (if Node.tty a then handleContainerIO hr (Node.stdin a) (Node.stdout a) (Node.stderr a)
              else handleContainerIOSync hr (Node.stdin a) (Node.stdout a) (Node.stderr a)) ;;
      perform (CloseStream hr) ;;                                   (* deferred *)
      Ret err
  end.

(* src/pkg/resourcemanager/docker.go : DockerClient.ExecInContainer *)
Definition ExecInContainer (ctx : Ctx) (ns name containerName : string) (cmd : list string)
    (attach : option Node.ExecIO) : prog dkE (option error) :=
  let isTTY := match attach with Some a => Node.tty a | None => false end in
  consoleSizeCtx <- perform (WithTimeout ctx (5 * Time.Second)) ;;
  sz <- (if isTTY then perform (ConsoleSize consoleSizeCtx) else Ret None) ;;
  let consoleSize := Node.GetConsoleSize attach sz in
  r <- perform (ContainerExecCreate (getUnderlyingContainerName ns name containerName)
                  (execConfigFromAttachIO cmd consoleSize attach)) ;;
  err <- match r with
         | inr e => Ret (Some e)
         | inl id =>
             (if isTTY then perform (GoResize id) else Ret tt) ;;
             match attach with None => Ret None | Some a => attachExec id consoleSize a end
         end ;;
  perform (Cancel consoleSizeCtx) ;;                                (* deferred *)
  Ret err.

(** The wait for the container to run: [n] ticks before the context is done. *)
Fixpoint waitRunning (n : nat) (ctx : Ctx) (id : string) (k : prog dkE (option error)) : prog dkE (option error) :=
  match n with
  | O => e <- perform (CtxDone ctx) ;; Ret (Some e)
  | S n =>
      r <- perform (ContainerInspect id) ;;
      match r with
      | inr e => Ret (Some e)
      | inl st =>
          if match st with Some s => ds_Running s | None => false end then k
          else waitRunning n ctx id k
      end
  end.

(* src/pkg/resourcemanager/docker.go : DockerClient.execPostStartAction *)
Definition execPostStartAction (ctx : Ctx) (id ns name containerName : string) (action : Res.ExecAction)
  : prog dkE (option error) :=
  n <- perform (Rounds ctx) ;;
  waitRunning n ctx id
    (ectx <- perform (WithTimeout ctx (Res.TimeoutDuration action)) ;;
     err <- ExecInContainer ectx ns name containerName (Res.Command action) (Some Node.DiscardingExecIO) ;;
     perform (Cancel ectx) ;;                                       (* deferred *)
     Ret err).

(** What the deferred function of a creation does with its final [err]. *)
Definition finishCreation (p : ContainerParams) (info : ContainerData.ContainerInfo) (err : option error)
  : prog dkE unit :=
  match err with
  | Some e =>
      cd (ContainerData.Store (cp_PodNamespace p) (cp_PodName p) (cp_Name p)
            (ContainerData.WithError info (Some e)))
  | None => Ret tt
  end.

Definition pulls (pp : K8s.PullPolicy) : bool :=
  match pp with K8s.PullAlways | K8s.PullIfNotPresent => true | _ => false end.

(** The [switch] on the pull policy: the error that ends the creation, if any. *)
Definition pullByPolicy (p : ContainerParams) : prog dkE (option error) :=
  (if bool_decide (cp_ImagePullPolicy p = K8s.PullAlways) then perform (ImageRemove (cp_Image p)) else Ret tt) ;;
  if pulls (cp_ImagePullPolicy p) then
    perform (Record_ (PullingImage (cp_Image p) (cp_Name p))) ;;
    t0 <- perform Now ;;
    err <- pullImage (cp_Image p) (cp_Name p) (cp_RegistryCreds p) ;;
    match err with
    | Some e => perform (Record_ (BackOffPullImage (cp_Image p) (cp_Name p) e)) ;; Ret (Some e)
    | None =>
        t1 <- perform Now ;;
        perform (Record_ (PulledImage (cp_Image p) (cp_Name p) (Time.Duration_String (t1 - t0)))) ;; Ret None
    end
  else Ret None.

(** The body of a creation: the container info known at its end, and [err]. *)
Definition creationBody (ctx : Ctx) (p : ContainerParams) : prog dkE (ContainerData.ContainerInfo * option error) :=
  err <- pullByPolicy p ;;
  match err with
  | Some e => Ret (ContainerData.noInfo, Some e)
  | None =>
      r <- perform (ContainerCreate (createDockerContainerConfig p) (createDockerHostConfigFromMounts (cp_Mounts p))
                      (getUnderlyingContainerName (cp_PodNamespace p) (cp_PodName p) (cp_Name p))) ;;
      match r with
      | inr e => perform (Record_ (FailedToCreateContainer (cp_Name p) e)) ;; Ret (ContainerData.noInfo, Some e)
      | inl id =>
          let info := ContainerData.WithID ContainerData.noInfo id in
          cd (ContainerData.Store (cp_PodNamespace p) (cp_PodName p) (cp_Name p) info) ;;
          perform (Record_ (CreatedContainer (cp_Name p))) ;;
          err <- perform (ContainerStart id) ;;
          match err with
          | Some e => perform (Record_ (FailedToStartContainer (cp_Name p) e)) ;; Ret (info, Some e)
          | None =>
              perform (Record_ (StartedContainer (cp_Name p))) ;;
              match cp_PostStartAction p with
              | None => Ret (info, None)
              | Some action =>
                  e <- execPostStartAction ctx id (cp_PodNamespace p) (cp_PodName p) (cp_Name p) action ;;
                  match e with
                  | Some e => perform (Record_ (FailedPostStartHook (cp_Name p) (Res.Command action) e))
                  | None => Ret tt
                  end ;;
                  Ret (info, None)
              end
          end
      end
  end.

(* src/pkg/resourcemanager/docker.go : DockerClient.handleDockerContainerCreation *)
Definition handleDockerContainerCreation (ctx : Ctx) (p : ContainerParams) : prog dkE unit :=
  r <- creationBody ctx p ;;
  finishCreation p (fst r) (snd r).                                 (* deferred *)

(* src/pkg/resourcemanager/docker.go : DockerClient.CreateContainer *)
Definition CreateContainer (ctx : Ctx) (p : ContainerParams) : prog dkE (option error) :=
  r <- cd (ContainerData.LoadOrStore (cp_PodNamespace p) (cp_PodName p) (cp_Name p) ContainerData.noInfo) ;;
  if snd r : bool then Ret (Some (AsInvalidInput (errMsg ("container " ++ cp_Name p ++ " already exists"))))
  else perform (GoHandleCreation ctx p) ;; Ret None.

(** ** Removal *)

(** One iteration of the loop over the containers. *)
(* src/pkg/resourcemanager/docker.go : 303-312 DockerClient.RemoveContainers *)
Definition removeOne (errs : list error) (ci : string * ContainerData.ContainerInfo) : prog dkE (list error) :=
  if String.eqb (ContainerData.ID (snd ci)) "" then Ret errs
  else
    e <- perform (ContainerRemove (ContainerData.ID (snd ci))) ;;
    Ret (match e with Some e => errs ++ [e] | None => errs end)%list.

(* src/pkg/resourcemanager/docker.go : DockerClient.RemoveContainers *)
Definition RemoveContainers (ns name : string) (gracePeriod : Z) : prog dkE (option error) :=
  r <- cd (ContainerData.LoadAndDelete ns name) ;;
  match r with
  | None => Ret (Some (errNotFound "containers not found"))
  | Some m => errs <- foldM removeOne (map_to_list m) [] ;; Ret (errors_Join (map Some errs))
  end.

(** ** Queries *)

(** The state of one container: the stored error, else what Docker says of it. *)
Definition wrapOne (acc : list Res.Container) (ci : string * ContainerData.ContainerInfo)
  : prog dkE (list Res.Container) :=
  let info := snd ci in
  st <- match ContainerData.CError info with
        | Some e => Ret (withStateError (Error e) zeroState)
        | None =>
            if String.eqb (ContainerData.ID info) "" then Ret zeroState
            else
              r <- perform (ContainerInspect (ContainerData.ID info)) ;;
              Ret (match r with
                   | inr e => withStateError (Error e) zeroState
                   | inl s => containerStateFromDockerState s
                   end)
        end ;;
  Ret (acc ++ [{| Res.c_ID := ContainerData.ID info; Res.c_Name := fst ci; Res.c_State := st |}])%list.

(* src/pkg/resourcemanager/docker.go : DockerClient.getContainersWrapped *)
Definition getContainersWrapped (m : ContainerData.inner) : prog dkE (list Res.Container) :=
  foldM wrapOne (map_to_list m) [].

(* src/pkg/resourcemanager/docker.go : DockerClient.GetContainers *)
Definition GetContainers (ns name : string) : prog dkE (list Res.Container * option error) :=
  r <- cd (ContainerData.LoadAll ns name) ;;
  match r with
  | None => Ret ([], Some (errNotFound "containers not found"))
  | Some m => l <- getContainersWrapped m ;; Ret (l, None)
  end.

Definition wrapPod (acc : gmap NamespacedName (list Res.Container)) (km : NamespacedName * ContainerData.inner)
  : prog dkE (gmap NamespacedName (list Res.Container)) :=
  l <- getContainersWrapped (snd km) ;; Ret (<[fst km := l]> acc).

(* src/pkg/resourcemanager/docker.go : DockerClient.GetContainersListResult *)
Definition GetContainersListResult : prog dkE (gmap NamespacedName (list Res.Container) * option error) :=
  all <- cd ContainerData.All ;;
  r <- foldM wrapPod (map_to_list all) ∅ ;; Ret (r, None).

(** [if opts.SinceSeconds > 0 { ... } else if !opts.SinceTime.IsZero() { ... }] *)
Definition since (now : Time.t) (opts : ContainerLogOpts) : string :=
  if (0 <? lo_SinceSeconds opts)%Z then FormatRFC3339 (now + wrap_i64 (- lo_SinceSeconds opts * Time.Second))%Z
  else if Time.IsZero (lo_SinceTime opts) then "" else FormatRFC3339 (lo_SinceTime opts).

(* src/pkg/resourcemanager/docker.go : DockerClient.GetContainerLogs *)
Definition GetContainerLogs (ns name containerName : string) (opts : ContainerLogOpts) : prog dkE (StreamRef + error) :=
  now <- (if (0 <? lo_SinceSeconds opts)%Z then perform Now else Ret Time.zero) ;;
  r <- perform (ContainerLogs (getUnderlyingContainerName ns name containerName)
                  {| do_Since := since now opts; do_Timestamps := lo_Timestamps opts; do_Follow := lo_Follow opts;
                     do_Tail := Str.itoa (lo_Tail opts) |}) ;;
  match r with
  | inr e => Ret (inr e)
  | inl s => pr <- perform (GoCopyLogs s) ;; Ret (inl pr)
  end.

(* src/pkg/resourcemanager/docker.go : DockerClient.AttachToContainer *)
Definition AttachToContainer (ctx : Ctx) (ns name containerName : string) (a : Node.ExecIO) : prog dkE (option error) :=
  let target := getUnderlyingContainerName ns name containerName in
  (if Node.tty a then perform (GoResize target) else Ret tt) ;;
  r <- perform (ContainerAttach target (Node.tty a) (Node.stdin a) (Node.stdout a) (Node.stderr a)) ;;
  match r with
  | inr e => Ret (Some e)
  | inl hr =>
      err <- handleContainerIO hr (Node.stdin a) (Node.stdout a) (Node.stderr a) ;;
      perform (CloseStream hr) ;;                                   (* deferred *)
      Ret err
  end.

(* src/pkg/resourcemanager/docker.go : DockerClient.IsContainerPresent *)
Definition IsContainerPresent (ns name containerName : string) : prog dkE bool :=
  r <- cd (ContainerData.Load ns name containerName) ;; Ret (snd r).

(** The deferred close of the body joins its error to the function's. *)
Definition closeBody (b : StreamRef) (r : ContainerStats + error) : prog dkE (ContainerStats + error) :=
  ce <- perform (CloseStream b) ;;
  Ret (match ce with
       | None => r
       | Some c =>
           let c := Errorf "failed to close stats response body" c in
           match errors_Join [match r with inr e => Some e | inl _ => None end; Some c] with
           | Some e => inr e
           | None => r
           end
       end).

(* src/pkg/resourcemanager/docker.go : DockerClient.GetContainerStats *)
Definition GetContainerStats (ns name containerName : string) : prog dkE (ContainerStats + error) :=
  r <- cd (ContainerData.Load ns name containerName) ;;
  if negb (snd r) then Ret (inr (errNotFound "container not found"))
  else
    b <- perform (ContainerStats_ (ContainerData.ID (fst r))) ;;
    match b with
    | inr e => Ret (inr (Errorf "failed to get container stats" e))
    | inl b =>
        d <- perform (DecodeStats b) ;;
        match d with
        | inr e => closeBody b (inr (Errorf "failed to decode stats" e))
        | inl s => t <- perform Now ;; closeBody b (inl (dockerContainerStats containerName s t))
        end
    end.

(** The goroutine that an operation starts. *)
Definition spawns (X : Type) (e : dkE X) : list (prog dkE unit) :=
  match e with GoHandleCreation ctx p => [handleDockerContainerCreation ctx p] | _ => [] end.

(** The Docker implementation of the interface. *)
Definition client : ContainersClient dkE := fun X e =>
  match e with
  | Api.CreateContainer ctx p => CreateContainer ctx p
  | Api.RemoveContainers ns name gp => RemoveContainers ns name gp
  | Api.GetContainers ns name => GetContainers ns name
  | Api.GetContainersListResult => GetContainersListResult
  | Api.GetContainerLogs ns name c o => GetContainerLogs ns name c o
  | Api.ExecInContainer ctx ns name c cmd a => ExecInContainer ctx ns name c cmd a
  | Api.AttachToContainer ctx ns name c a => AttachToContainer ctx ns name c a
  | Api.IsContainerPresent ns name c => IsContainerPresent ns name c
  | Api.GetContainerStats ns name c => GetContainerStats ns name c
  end.

End Client.
End Docker.
