(* ===== verification/DockerProofs.v ===== *)
(** * What the Docker client does with containers

    Theorems on [Docker] for one goroutine running alone, for every behaviour of the
    engine (every oracle), and the run of two goroutines in which a creation outlives
    the removal of its pod. *)
From Stdlib Require Import ZArith Lia.
From Stdlib Require Import Ascii String.
From stdpp Require Import base list gmap strings relations.
From S2P Require Import Prelude GoStrings GoFormat GoErrors GoTime Prog Utils Resource K8s Event NodeIO.
From S2P Require Import Volumes Stores ClientApi DockerData Docker.
Local Open Scope string_scope.
Local Open Scope go_scope.

Module DockerProofs.
Import Api DockerData Docker.

(** ** Observations on a trace *)

Inductive Obs :=
| OEvent (ev : Event)
| OCreated (id : string)
| OStarted (id : string)
| ORemove (id : string) (r : option error).

#[global] Instance Obs_eq_dec : EqDecision Obs.
Proof. solve_decision. Defined.

Definition obs_of (c : call dkE) : option Obs :=
  match c with
  | Call e x =>
      match e in dkE X return X -> option Obs with
      | Record_ ev => fun _ => Some (OEvent ev)
      | ContainerCreate _ _ _ => fun x => match x with inl id => Some (OCreated id) | inr _ => None end
      | ContainerStart id => fun x => match x with None => Some (OStarted id) | Some _ => None end
      | ContainerRemove id => fun x => Some (ORemove id x)
      | _ => fun _ => None
      end x
  end.

(** What was observed, in order. *)
Definition seen (s : traced dkE DockerClient) : list Obs := rev (omap obs_of (trace s)).

(** Operations that are not observed, leave the store alone and do not block. *)
Definition quiet X (e : dkE X) : Prop :=
  match e with
  | Cd _ | Record_ _ | ContainerCreate _ _ _ | ContainerStart _ | ContainerRemove _ => False
  | FirstDone _ i o => i || o = true
  | _ => True
  end.

Definition isCd X (e : dkE X) : Prop := match e with Cd _ => True | _ => False end.

Lemma docker_quiet_local X (e : dkE X) x u : quiet X e -> exists x', local X e x u = Some (x', u).
Proof. destruct e; simpl; intros H; try done; try rewrite H; eauto. Qed.

Lemma unseen tr : Forall (on_call quiet) tr \/ Forall (on_call isCd) tr -> omap obs_of tr = [].
Proof.
  intros [H|H]; induction H as [|c tr Hc Htr IH]; try done; cbn; rewrite IH;
    destruct c as [X e x]; by destruct e.
Qed.

Ltac quiet_step :=
  match goal with
  | |- all_ops _ (Ret _) => exact I
  | |- all_ops _ (bind _ _) => apply all_ops_bind; [|intros]
  | |- all_ops _ (perform _) => apply all_ops_perform; first [exact I | reflexivity]
  | |- all_ops _ (match ?x with _ => _ end) => destruct x
  | |- all_ops _ (if ?x then _ else _) => destruct x
  end.
Ltac quiet_tac := repeat quiet_step.

Ltac ret := apply twp_ret; cbv beta iota; cbn [fst snd].

Lemma docker_quiet_exec ctx ns name c cmd : all_ops quiet (ExecInContainer ctx ns name c cmd (Some Node.DiscardingExecIO)).
Proof.
  unfold ExecInContainer, attachExec, handleContainerIOSync.
  cbn [Node.tty Node.stdin Node.stdout Node.stderr Node.DiscardingExecIO]. quiet_tac.
Qed.

Lemma quiet_postStart ctx id ns name c a : all_ops quiet (execPostStartAction ctx id ns name c a).
Proof.
  unfold execPostStartAction. apply all_ops_bind; [quiet_tac|]. intros n.
  induction n as [|n IH]; cbn [waitRunning]; quiet_tac; auto using docker_quiet_exec.
Qed.

Section Alone.
Variable env : oracle dkE.
Abbreviation hdl := (traced_handler local env).

(** [os] has been observed, and the store stands for the map [m]. *)
Definition at_ (os : list Obs) (m : gmap NamespacedName ContainerData.inner) (s : traced dkE DockerClient) : Prop :=
  seen s = os /\ ContainerData.wf (own s) /\ ContainerData.view (own s) = m.

Lemma seen_app n tr s u : omap obs_of tr = [] -> seen (Traced n (tr ++ trace s) u) = seen s.
Proof. intros H. unfold seen. simpl. by rewrite omap_app, H. Qed.

Lemma docker_twp_sub {A} (q : prog dkE A) os m s (Q : A -> traced dkE DockerClient -> Prop) :
  all_ops quiet q -> at_ os m s -> (forall a s', at_ os m s' -> Q a s') -> twp hdl q Q s.
Proof.
  intros Hq (Ho & Hw & Hv) HQ.
  apply (twp_quiet local env quiet); [intros; by apply docker_quiet_local | done |].
  intros a n tr Htr. apply HQ. split_and!; [|done|done]. rewrite seen_app; [done | apply unseen; by left].
Qed.

(** A program over the store, whose run is known. *)
Lemma twp_cd_acc {A} (p : prog ContainerData.cdE A) u a u' n tr0 acc (Q : A -> traced dkE DockerClient -> Prop) :
  run ContainerData.cd_handler p u = Some (a, u') -> Forall (on_call isCd) acc ->
  (forall n' tr, Forall (on_call isCd) tr -> Q a (Traced n' (tr ++ tr0) u')) ->
  twp hdl (cd p) Q (Traced n (acc ++ tr0) u).
Proof.
  revert u n acc. induction p as [b|X e k IH]; intros u n acc Hr Hacc HQ; simpl in *.
  - injection Hr as -> ->. by apply HQ.
  - unfold ContainerData.cd_handler in Hr. unfold traced_handler. simpl.
    destruct (ContainerData.step e u) as [x u1] eqn:E. simpl in Hr.
    apply (IH x u1 (S n) (Call (Cd e) x :: acc)); [exact Hr | by constructor | exact HQ].
Qed.

Lemma twp_cd {A} (p : prog ContainerData.cdE A) os m m' a s (Q : A -> traced dkE DockerClient -> Prop) :
  at_ os m s ->
  (exists u', run ContainerData.cd_handler p (own s) = Some (a, u') /\ ContainerData.wf u' /\ ContainerData.view u' = m') ->
  (forall s', at_ os m' s' -> Q a s') -> twp hdl (cd p) Q s.
Proof.
  intros (Ho & Hw & Hv) (u' & Hr & Hw' & Hv') HQ. destruct s as [n tr u].
  apply (twp_cd_acc p u a u' n tr [] Q Hr); [constructor|].
  intros n' tr' Htr. apply HQ. split_and!; [|done|done].
  rewrite <- Ho. apply (seen_app n' tr' (Traced n tr u)). apply unseen. by right.
Qed.

Lemma docker_twp_record os m ev s (Q : unit -> traced dkE DockerClient -> Prop) :
  at_ os m s -> (forall s', at_ (os ++ [OEvent ev]) m s' -> Q tt s') -> twp hdl (perform (Record_ ev)) Q s.
Proof.
  intros (Ho & Hw & Hv) HQ. destruct s as [n tr u]. simpl. unfold traced_handler. simpl.
  destruct (env _ n (Record_ ev)). apply HQ. split_and!; [|done|done]. by rewrite <- Ho.
Qed.

End Alone.

(** ** Creation *)

(** The calls of a run outside the container store, in order, with their answers. *)
Definition engine (c : call dkE) : bool :=
  match c with Call e _ => match e with Cd _ => false | _ => true end end.
Definition asked (s : traced dkE DockerClient) : list (call dkE) := List.filter engine (rev (trace s)).

Definition report (ev : Event) : call dkE := Call (Record_ ev) tt.

Definition info (id : string) (e : option error) : ContainerData.ContainerInfo :=
  {| ContainerData.ID := id; ContainerData.CError := e |}.

Section Creation.
Variable env : oracle dkE.
Variable EncodeAuthConfig : Creds.RegistryCredentials -> string + error.
Variable ctx : Ctx.
Variable p : ContainerParams.
Abbreviation hdl := (traced_handler local env).
Abbreviation img := (cp_Image p).
Abbreviation name := (cp_Name p).

(** An attempt that is followed by another one: the engine refused the pull, which is
    reported; or its stream did not end with [io.EOF], which is not. *)
Inductive Attempt := Refused (e : error) | Broken (rd : StreamRef).

Definition attempt (auth : string) (a : Attempt) : list (call dkE) :=
  match a with
  | Refused e => [Call (ImagePull img auth) (inr e); report (FailedToPullImage img name e)]
  | Broken rd => [Call (ImagePull img auth) (inl rd); Call (ReadToEnd rd) false; Call (CloseStream rd) None]
  end.

(** The pulls in at most [n] rounds: the image is there, a stream could not be closed,
    or every round was used. *)
Inductive Pull (auth : string) (n : nat) : list (call dkE) -> option error -> Prop :=
| PullComplete l rd : (length l < n)%nat ->
    Pull auth n (flat_map (attempt auth) l ++ [Call (ImagePull img auth) (inl rd); Call (ReadToEnd rd) true;
                                               Call (CloseStream rd) None])%list None
| PullCloseFails l rd eof e : (length l < n)%nat ->
    Pull auth n (flat_map (attempt auth) l ++ [Call (ImagePull img auth) (inl rd); Call (ReadToEnd rd) eof;
                                               Call (CloseStream rd) (Some e)])%list (Some e)
| PullGivesUp l e : length l = n -> Pull auth n (flat_map (attempt auth) l ++ [Call BackoffEnd e])%list (Some e).

(** The image is pulled with the credentials, in the rounds that the context leaves. *)
Inductive Pulls : list (call dkE) -> option error -> Prop :=
| NotEncoded e : encodeRegistryAuth EncodeAuthConfig (cp_RegistryCreds p) = inr e ->
    Pulls [] (Some (Errorf "failed to encode registry auth" e))
| Attempted auth n cs r : encodeRegistryAuth EncodeAuthConfig (cp_RegistryCreds p) = inl auth ->
    Pull auth (Nat.min n 5) cs r -> Pulls (Call (BackoffRounds 5) n :: cs) r.

(** What the pull policy asks for; a tag that must be fresh is removed first. *)
Definition wanted : Prop := cp_ImagePullPolicy p = K8s.PullAlways \/ cp_ImagePullPolicy p = K8s.PullIfNotPresent.
Definition removal : list (call dkE) :=
  if bool_decide (cp_ImagePullPolicy p = K8s.PullAlways) then [Call (ImageRemove img) tt] else [].

Inductive Image : list (call dkE) -> option error -> Prop :=
| NotPulled : ~ wanted -> Image [] None
| NotThere t0 cs e : wanted -> Pulls cs (Some e) ->
    Image (removal ++ [report (PullingImage img name); Call Now t0] ++ cs ++
           [report (BackOffPullImage img name e)])%list (Some e)
| There t0 cs t1 : wanted -> Pulls cs None ->
    Image (removal ++ [report (PullingImage img name); Call Now t0] ++ cs ++
           [Call Now t1; report (PulledImage img name (Time.Duration_String (t1 - t0)))])%list None.

(** The calls of a run of the post-start hook and its result. *)
Definition Hook (id : string) (cs : list (call dkE)) (r : option error) : Prop :=
  match cp_PostStartAction p with
  | None => cs = [] /\ r = None
  | Some a => exists s1 s2, trace s2 = (rev cs ++ trace s1)%list /\
                run hdl (execPostStartAction ctx id (cp_PodNamespace p) (cp_PodName p) name a) s1 = Some (r, s2)
  end.
Definition hookReport (r : option error) : list (call dkE) :=
  match cp_PostStartAction p, r with
  | Some a, Some e => [report (FailedPostStartHook name (Res.Command a) e)]
  | _, _ => []
  end.

Definition create (r : string + error) : call dkE :=
  Call (ContainerCreate (createDockerContainerConfig p) (createDockerHostConfigFromMounts (cp_Mounts p))
          (getUnderlyingContainerName (cp_PodNamespace p) (cp_PodName p) name)) r.

(** The specification of a creation: every call it makes, and the entry it leaves. *)
Inductive Outcome : list (call dkE) -> ContainerData.ContainerInfo -> Prop :=
| ImageFails cs e : Image cs (Some e) -> Outcome cs (info "" (Some e))
| CreateFails cs e : Image cs None ->
    Outcome (cs ++ [create (inr e); report (FailedToCreateContainer name e)])%list (info "" (Some e))
| StartFails cs id e : Image cs None ->
    Outcome (cs ++ [create (inl id); report (CreatedContainer name); Call (ContainerStart id) (Some e);
                    report (FailedToStartContainer name e)])%list (info id (Some e))
| Runs cs id hook r : Image cs None -> Hook id hook r ->
    Outcome (cs ++ [create (inl id); report (CreatedContainer name); Call (ContainerStart id) None;
                    report (StartedContainer name)] ++ hook ++ hookReport r)%list (info id None).

(** [cs] was asked, and the store stands for the map [m]. *)
Definition after (cs : list (call dkE)) (m : gmap NamespacedName ContainerData.inner)
    (s : traced dkE DockerClient) : Prop :=
  asked s = cs /\ ContainerData.wf (own s) /\ ContainerData.view (own s) = m.

Lemma asked_app n tr tr0 u u0 n0 :
  asked (Traced n (tr ++ tr0)%list u) = (asked (Traced n0 tr0 u0) ++ List.filter engine (rev tr))%list.
Proof. unfold asked. simpl. by rewrite rev_app_distr, List.filter_app. Qed.

(** The calls of the engine that do not wait for a goroutine. *)
Definition plain X (e : dkE X) : Prop := match e with Cd _ | FirstDone _ _ _ => False | _ => True end.

Lemma twp_call {X} (e : dkE X) cs m s (Q : X -> traced dkE DockerClient -> Prop) :
  plain X e -> after cs m s -> (forall x s', after (cs ++ [Call e x]) m s' -> Q x s') -> twp hdl (perform e) Q s.
Proof.
  intros He (Ha & Hw & Hv) HQ. destruct s as [n tr u]. simpl. unfold traced_handler. simpl.
  assert (local X e (env X n e) u = Some (env X n e, u)) as -> by (by destruct e).
  apply HQ. split_and!; [|done|done]. etrans; [exact (asked_app (S n) [Call e (env X n e)] tr u u n)|].
  rewrite Ha. f_equal. by destruct e.
Qed.

Lemma quiet_engine tr : Forall (on_call quiet) tr -> List.filter engine (rev tr) = rev tr.
Proof.
  induction 1 as [|c tr Hc Htr IH]; [done|]. cbn [rev]. rewrite List.filter_app, IH. f_equal.
  destruct c as [X e x]. by destruct e.
Qed.

Lemma cd_engine tr : Forall (on_call isCd) tr -> List.filter engine (rev tr) = [].
Proof.
  induction 1 as [|c tr Hc Htr IH]; [done|]. cbn [rev]. rewrite List.filter_app, IH.
  destruct c as [X e x]. by destruct e.
Qed.

(** A program of quiet calls adds its run. *)
Lemma twp_quiet_run {A} (q : prog dkE A) cs m s (Q : A -> traced dkE DockerClient -> Prop) :
  all_ops quiet q -> after cs m s ->
  (forall a tr s', run hdl q s = Some (a, s') -> trace s' = (rev tr ++ trace s)%list -> after (cs ++ tr) m s' -> Q a s') ->
  twp hdl q Q s.
Proof.
  intros Hq (Ha & Hw & Hv) HQ.
  assert (twp hdl q (fun a s' => exists n tr, Forall (on_call quiet) tr /\ s' = Traced n (tr ++ trace s) (own s)) s) as H.
  { apply (twp_quiet local env quiet); [intros; by apply docker_quiet_local | done | eauto]. }
  apply twp_run in H as (a & s' & Hr & n & tr & Htr & ->). eapply run_twp; [exact Hr|].
  apply (HQ a (rev tr)); [exact Hr | simpl; by rewrite rev_involutive |]. split_and!; [|done|done].
  destruct s as [n0 tr0 u]. rewrite (asked_app _ tr tr0 _ u n0), Ha. f_equal. by apply quiet_engine.
Qed.

(** The map with [i] as the entry of the container. *)
Definition with_ (i : ContainerData.ContainerInfo) (m : gmap NamespacedName ContainerData.inner)
  : gmap NamespacedName ContainerData.inner :=
  let k := ContainerData.key (cp_PodNamespace p) (cp_PodName p) in
  <[k := <[name := i]> (default ∅ (m !! k))]> m.

Lemma with_with i j m : with_ i (with_ j m) = with_ i m.
Proof. unfold with_. rewrite lookup_insert_eq. simpl. by rewrite !insert_insert_eq. Qed.

Lemma twp_store i cs m s (Q : unit -> traced dkE DockerClient -> Prop) :
  after cs m s -> (forall s', after cs (with_ i m) s' -> Q tt s') ->
  twp hdl (cd (ContainerData.Store (cp_PodNamespace p) (cp_PodName p) name i)) Q s.
Proof.
  intros (Ha & Hw & Hv) HQ. destruct s as [n tr u].
  destruct (ContainerData.Store_spec u (cp_PodNamespace p) (cp_PodName p) name i Hw) as (u' & Hr & Hw' & Hv').
  apply (twp_cd_acc env _ u tt u' n tr [] Q Hr); [constructor|].
  intros n' tr' Htr. apply HQ. split_and!; [|done|simpl; rewrite Hv'; by subst m].
  rewrite (asked_app _ tr' tr _ u n), cd_engine, app_nil_r; done.
Qed.

(** The pulls of the image, round by round. *)
Lemma Pull_again auth n a cs r : Pull auth n cs r -> Pull auth (S n) (attempt auth a ++ cs)%list r.
Proof. intros [l rd H|l rd eof e H|l e H]; rewrite app_assoc; [apply (PullComplete auth (S n) (a :: l)) | apply (PullCloseFails auth (S n) (a :: l)) | apply (PullGivesUp auth (S n) (a :: l))]; simpl; lia. Qed.

Lemma twp_pullLoop n auth cs m s (Q : option error -> traced dkE DockerClient -> Prop) :
  after cs m s -> (forall cs' r s', Pull auth n cs' r -> after (cs ++ cs') m s' -> Q r s') ->
  twp hdl (pullLoop n img name auth) Q s.
Proof.
  revert cs s Q. induction n as [|n IH]; intros cs s Q Hs HQ; cbn [pullLoop]; apply twp_bind.
  - eapply twp_call; [done | exact Hs |]. intros e s1 Hs1. ret. by apply (HQ _ _ _ (PullGivesUp auth 0 [] e eq_refl)).
  - eapply twp_call; [done | exact Hs |]. intros [rd|e] s1 Hs1; apply twp_bind.
    + eapply twp_call; [done | exact Hs1 |]. intros eof s2 Hs2. apply twp_bind.
      eapply twp_call; [done | exact Hs2 |]. intros ce s3 Hs3. rewrite <- !app_assoc in Hs3. destruct ce as [e|].
      * ret. by apply (HQ _ _ _ (PullCloseFails auth (S n) [] rd eof e (Nat.lt_0_succ n))).
      * destruct eof; [ret; by apply (HQ _ _ _ (PullComplete auth (S n) [] rd (Nat.lt_0_succ n)))|].
        eapply IH; [exact Hs3|]. intros cs' r s4 Hp Hs4. rewrite <- app_assoc in Hs4.
        by apply (HQ _ _ _ (Pull_again auth n (Broken rd) _ _ Hp)).
    + eapply twp_call; [done | exact Hs1 |]. intros [] s2 Hs2. eapply IH; [exact Hs2|].
      intros cs' r s3 Hp Hs3. rewrite <- !app_assoc in Hs3. by apply (HQ _ _ _ (Pull_again auth n (Refused e) _ _ Hp)).
Qed.

Lemma twp_pullImage cs m s (Q : option error -> traced dkE DockerClient -> Prop) :
  after cs m s -> (forall cs' r s', Pulls cs' r -> after (cs ++ cs') m s' -> Q r s') ->
  twp hdl (pullImage EncodeAuthConfig img name (cp_RegistryCreds p)) Q s.
Proof.
  intros Hs HQ. unfold pullImage. destruct (encodeRegistryAuth EncodeAuthConfig (cp_RegistryCreds p)) as [auth|e] eqn:E.
  - apply twp_bind. eapply twp_call; [done | exact Hs |]. intros n s1 Hs1. eapply twp_pullLoop; [exact Hs1|].
    intros cs' r s2 Hp Hs2. rewrite <- app_assoc in Hs2. apply (HQ _ _ _ (Attempted _ _ _ _ E Hp) Hs2).
  - ret. apply (HQ _ _ _ (NotEncoded e E)). by rewrite app_nil_r.
Qed.

Lemma pulls_wanted : if pulls (cp_ImagePullPolicy p) then wanted else ~ wanted.
Proof. unfold wanted. destruct (cp_ImagePullPolicy p); simpl; first [by left | by right | intros []; done]. Qed.

Lemma twp_removal m s (Q : unit -> traced dkE DockerClient -> Prop) :
  after [] m s -> (forall s', after removal m s' -> Q tt s') ->
  twp hdl (if bool_decide (cp_ImagePullPolicy p = K8s.PullAlways) then perform (ImageRemove img) else Ret tt) Q s.
Proof.
  intros Hs HQ. unfold removal in HQ. case_bool_decide; [|ret; by apply HQ].
  eapply twp_call; [done | exact Hs |]. intros [] s1 Hs1. by apply HQ.
Qed.

Lemma twp_pullByPolicy m s (Q : option error -> traced dkE DockerClient -> Prop) :
  after [] m s -> (forall cs r s', Image cs r -> after cs m s' -> Q r s') ->
  twp hdl (pullByPolicy EncodeAuthConfig p) Q s.
Proof.
  intros Hs HQ. unfold pullByPolicy. pose proof pulls_wanted as Hp. apply twp_bind, twp_removal with (m := m); [done|].
  intros s1 Hs1. destruct (pulls (cp_ImagePullPolicy p)).
  2: { ret. apply (HQ _ _ _ (NotPulled Hp)). unfold removal in Hs1. by rewrite bool_decide_eq_false_2 in Hs1 by (intros H; apply Hp; by left). }
  apply twp_bind. eapply twp_call; [done | exact Hs1 |]. intros [] s2 Hs2. apply twp_bind.
  eapply twp_call; [done | exact Hs2 |]. intros t0 s3 Hs3. apply twp_bind.
  eapply twp_pullImage; [exact Hs3|]. intros cs [e|] s4 Hpl Hs4; apply twp_bind.
  - eapply twp_call; [done | exact Hs4 |]. intros [] s5 Hs5. ret. rewrite <- !app_assoc in Hs5.
    by apply (HQ _ _ _ (NotThere t0 cs e Hp Hpl)).
  - eapply twp_call; [done | exact Hs4 |]. intros t1 s5 Hs5. apply twp_bind.
    eapply twp_call; [done | exact Hs5 |]. intros [] s6 Hs6. ret. rewrite <- !app_assoc in Hs6.
    by apply (HQ _ _ _ (There t0 cs t1 Hp Hpl)).
Qed.

(** After the container was started. *)
Lemma twp_hook id cs m s (Q : ContainerData.ContainerInfo * option error -> traced dkE DockerClient -> Prop) :
  after cs m s ->
  (forall hook r s', Hook id hook r -> after (cs ++ hook ++ hookReport r) m s' -> Q (info id None, None) s') ->
  twp hdl (match cp_PostStartAction p with
           | None => Ret (info id None, None)
           | Some action =>
               e <- execPostStartAction ctx id (cp_PodNamespace p) (cp_PodName p) name action ;;
               match e with
               | Some e => perform (Record_ (FailedPostStartHook name (Res.Command action) e))
               | None => Ret tt
               end ;;
               Ret (info id None, None)
           end) Q s.
Proof.
  unfold Hook, hookReport. intros Hs HQ. destruct (cp_PostStartAction p) as [a|].
  2: { ret. apply (HQ [] None); [done | by rewrite app_nil_r]. }
  apply twp_bind. eapply twp_quiet_run; [apply quiet_postStart | exact Hs |]. intros r tr s1 Hr Ht Hs1.
  apply twp_bind. destruct r as [e|].
  - eapply twp_call; [done | exact Hs1 |]. intros [] s2 Hs2. ret. rewrite <- app_assoc in Hs2.
    apply (HQ tr (Some e)); [by exists s, s1 | done].
  - ret. ret. apply (HQ tr None); [by exists s, s1 | by rewrite app_nil_r].
Qed.

(** The body: its calls and result; the entry is stored before the container starts. *)
Lemma docker_twp_body m s (Q : ContainerData.ContainerInfo * option error -> traced dkE DockerClient -> Prop) :
  after [] m s ->
  (forall cs e s', Outcome cs (info "" (Some e)) -> after cs m s' -> Q (info "" None, Some e) s') ->
  (forall cs id e s', Outcome cs (info id e) -> after cs (with_ (info id None) m) s' -> Q (info id None, e) s') ->
  twp hdl (creationBody EncodeAuthConfig ctx p) Q s.
Proof.
  intros Hs Q1 Q2. unfold creationBody. apply twp_bind. eapply twp_pullByPolicy; [exact Hs|].
  intros cs [e|] s1 Hi Hs1; [ret; by apply (Q1 _ _ _ (ImageFails cs e Hi))|].
  apply twp_bind. eapply twp_call; [done | exact Hs1 |]. intros [id|e] s2 Hs2; apply twp_bind.
  2: { eapply twp_call; [done | exact Hs2 |]. intros [] s3 Hs3. ret. rewrite <- app_assoc in Hs3.
       by apply (Q1 _ _ _ (CreateFails cs e Hi)). }
  eapply twp_store; [exact Hs2|]. intros s3 Hs3. apply twp_bind.
  eapply twp_call; [done | exact Hs3 |]. intros [] s4 Hs4. apply twp_bind.
  eapply twp_call; [done | exact Hs4 |]. intros [e|] s5 Hs5; apply twp_bind.
  - eapply twp_call; [done | exact Hs5 |]. intros [] s6 Hs6. ret. rewrite <- !app_assoc in Hs6.
    by apply (Q2 _ _ _ _ (StartFails cs id e Hi)).
  - eapply twp_call; [done | exact Hs5 |]. intros [] s6 Hs6. eapply (twp_hook id); [exact Hs6|].
    intros hook r s7 Hh Hs7. rewrite <- !app_assoc in Hs7. by apply (Q2 _ _ _ _ (Runs cs id hook r Hi Hh)).
Qed.

(** C10: a creation always ends, whatever the engine does, with exactly the calls of
    one of the outcomes of the specification.  The image is pulled in at most five
    attempts, and only when the policy asks for it: a pull that the engine refuses is
    reported ([FailedToPullImage]) and tried again, one whose stream breaks is tried
    again without a report, and giving up is reported with the error that ends the
    creation, as are a container that cannot be made or started and a post-start hook
    that fails.  The entry keeps the error of the step that failed and the id of a
    container that was made, so every container made is one that [RemoveContainers]
    will find; a started container has no error, even when its hook fails. *)
Theorem docker_creation_outcome u :
  ContainerData.wf u ->
  exists s' cs i,
    run hdl (handleDockerContainerCreation EncodeAuthConfig ctx p) (start u) = Some (tt, s') /\
    asked s' = cs /\ Outcome cs i /\ ContainerData.wf (own s') /\
    ContainerData.view (own s') = with_ i (ContainerData.view u).
Proof.
  intros Hu. set (m := ContainerData.view u).
  assert (twp hdl (handleDockerContainerCreation EncodeAuthConfig ctx p)
    (fun _ s' => exists cs i, Outcome cs i /\ after cs (with_ i m) s') (start u)) as H.
  2: { apply twp_run in H as ([] & s' & Hr & cs & i & Ho & H1 & H2 & H3). by exists s', cs, i. }
  apply twp_bind, (docker_twp_body m); [done | |]; unfold finishCreation; cbn [fst snd].
  - intros cs e s1 Ho Hs1. eapply twp_store; [exact Hs1|]. eauto.
  - intros cs id [e|] s1 Ho Hs1; [|ret; eauto].
    eapply twp_store; [exact Hs1|]. intros s2 Hs2. rewrite with_with in Hs2. eauto.
Qed.

End Creation.

(** ** Removal and queries *)

Section Queries.
Variable env : oracle dkE.
Abbreviation hdl := (traced_handler local env).

(** The ids of the containers of a pod that were made, in the order of the map. *)
Definition madeIds (l : list (string * ContainerData.ContainerInfo)) : list string :=
  filter (fun id => id <> "") (map (fun ci => ContainerData.ID (snd ci)) l).
Definition created (m : ContainerData.inner) : list string := madeIds (map_to_list m).

Lemma errors_Join_omap (l : list (option error)) : errors_Join (map Some (omap id l)) = errors_Join l.
Proof.
  unfold errors_Join. assert (omap id (map Some (omap id l)) = omap id l) as ->; [|done].
  induction l as [|[e|] l IH]; simpl; [done | by f_equal | done].
Qed.

Lemma twp_removeAll l errs os m s (Q : list error -> traced dkE DockerClient -> Prop) :
  at_ os m s ->
  (forall rs s', length rs = length (madeIds l) -> at_ (os ++ zip_with ORemove (madeIds l) rs) m s' -> Q (errs ++ omap id rs)%list s') ->
  twp hdl (foldM removeOne l errs) Q s.
Proof.
  revert errs os s Q. induction l as [|[c i] l IH]; intros errs os s Q Hs HQ; cbn [foldM].
  - ret. rewrite <- (app_nil_r errs). apply (HQ []); [done|]. simpl. by rewrite app_nil_r.
  - apply twp_bind. unfold removeOne at 1. cbn [snd]. unfold madeIds in HQ. cbn [map snd] in HQ.
    destruct (String.eqb_spec (ContainerData.ID i) "") as [Ei|Ei].
    + ret. eapply IH; [exact Hs|]. intros rs s'. rewrite filter_cons_False in HQ by (by intros H). apply HQ.
    + rewrite filter_cons_True in HQ by done. apply twp_bind. destruct s as [n tr u]. destruct Hs as (Ho & Hw & Hv).
      simpl. unfold traced_handler at 1. simpl. set (r := env _ n (ContainerRemove (ContainerData.ID i))).
      eapply (IH _ (os ++ [ORemove (ContainerData.ID i) r])%list).
      { split_and!; [|done|done]. by rewrite <- Ho. }
      intros rs s' Hl Hs'. specialize (HQ (r :: rs) s'). simpl in HQ. rewrite <- app_assoc in Hs'.
      assert ((match r with Some e => (errs ++ [e])%list | None => errs end ++ omap id rs)%list =
              (errs ++ omap id (r :: rs))%list) as ->.
      { destruct r; simpl; [by rewrite <- app_assoc | done]. }
      apply HQ; [by f_equal | exact Hs'].
Qed.

Lemma twp_RemoveContainers ns name gp u :
  ContainerData.wf u ->
  let k := ContainerData.key ns name in
  twp hdl (RemoveContainers ns name gp) (fun r s' => exists os, at_ os (delete k (ContainerData.view u)) s' /\
    match ContainerData.view u !! k with
    | None => r = Some (errNotFound "containers not found") /\ os = []
    | Some m => exists rs, length rs = length (created m) /\ os = zip_with ORemove (created m) rs /\
                  r = errors_Join rs
    end) (start u).
Proof.
  intros Hu k. destruct (ContainerData.LoadAndDelete_spec u ns name) as (u' & Hr & Hw & Hv); [done|].
  unfold RemoveContainers. apply twp_bind.
  apply (twp_cd env _ [] (ContainerData.view u) (delete k (ContainerData.view u)) (ContainerData.view u !! k));
    [by split_and! | by exists u' |].
  intros s1 Hs1. destruct (ContainerData.view u !! k) as [m|] eqn:Ek; [|ret; by exists []].
  apply twp_bind. eapply twp_removeAll; [exact Hs1|]. intros rs s2 Hl Hs2. ret.
  exists (zip_with ORemove (created m) rs). split; [exact Hs2|]. exists rs. split_and!; [done | done |].
  simpl. apply errors_Join_omap.
Qed.

(** C36: removing a pod's containers: an unknown pod is not found; otherwise the pod's
    entry is gone afterwards, whatever the engine answers, every container that was
    made is removed exactly once, containers never made are skipped, and the result
    joins exactly the errors of the removals. *)
Theorem remove_containers_spec ns name gp u :
  ContainerData.wf u ->
  exists r s', run hdl (RemoveContainers ns name gp) (start u) = Some (r, s') /\ ContainerData.wf (own s') /\
    let k := ContainerData.key ns name in
    ContainerData.view (own s') = delete k (ContainerData.view u) /\
    match ContainerData.view u !! k with
    | None => r = Some (errNotFound "containers not found") /\ seen s' = []
    | Some m => exists rs, length rs = length (created m) /\ seen s' = zip_with ORemove (created m) rs /\
                  r = errors_Join rs
    end.
Proof.
  intros Hu. destruct (twp_run _ _ _ _ (twp_RemoveContainers ns name gp u Hu))
    as (r & s' & Hrun & os & (<- & H2 & H3) & H4).
  by exists r, s'.
Qed.

(** What a listed container is, given its entry. *)
Definition wrapped (ci : string * ContainerData.ContainerInfo) (r : Res.Container) : Prop :=
  Res.c_Name r = fst ci /\ Res.c_ID r = ContainerData.ID (snd ci) /\
  match ContainerData.CError (snd ci) with
  | Some e => Res.c_State r = withStateError (Error e) zeroState
  | None =>
      if String.eqb (ContainerData.ID (snd ci)) "" then Res.c_State r = zeroState
      else (exists st, Res.c_State r = containerStateFromDockerState st) \/
           (exists e, Res.c_State r = withStateError (Error e) zeroState)
  end.

Lemma twp_wrapOne ci acc os m s (Q : list Res.Container -> traced dkE DockerClient -> Prop) :
  at_ os m s -> (forall r s', at_ os m s' -> wrapped ci r -> Q (acc ++ [r])%list s') ->
  twp hdl (wrapOne acc ci) Q s.
Proof.
  intros Hs HQ. unfold wrapOne. apply twp_bind.
  destruct (ContainerData.CError (snd ci)) as [e|] eqn:Ee.
  - ret. ret. apply HQ; [exact Hs|]. unfold wrapped. by rewrite Ee.
  - destruct (String.eqb (ContainerData.ID (snd ci)) "") eqn:Ei.
    + ret. ret. apply HQ; [exact Hs|]. unfold wrapped. by rewrite Ee, Ei.
    + apply twp_bind. eapply docker_twp_sub; [by quiet_tac | exact Hs |]. intros r s1 Hs1. ret. ret.
      apply HQ; [exact Hs1|]. unfold wrapped. rewrite Ee, Ei. split_and!; [done | done |].
      destruct r as [st|e]; [left; by exists st | right; by exists e].
Qed.

Lemma twp_wrap l acc os m s (Q : list Res.Container -> traced dkE DockerClient -> Prop) :
  at_ os m s -> (forall r s', at_ os m s' -> Forall2 wrapped l r -> Q (acc ++ r)%list s') ->
  twp hdl (foldM wrapOne l acc) Q s.
Proof.
  revert acc s. induction l as [|ci l IH]; intros acc s Hs HQ; cbn [foldM].
  - ret. rewrite <- (app_nil_r acc). apply HQ; [done | constructor].
  - apply twp_bind. eapply twp_wrapOne; [exact Hs|]. intros r s1 Hs1 Hr.
    apply IH; [exact Hs1|]. intros rs s2 Hs2 Hrs. rewrite <- app_assoc. apply HQ; [exact Hs2|]. by constructor.
Qed.

(** The containers listed for a pod are exactly its entries, each with its name
    and id and in the state that belongs to it: a creation that failed shows its error
    and waits, one that has no container yet waits, and a container shows what the
    engine says of it.  The query changes nothing. *)
Theorem containers_listed ns name u :
  ContainerData.wf u ->
  exists l e s', run hdl (GetContainers ns name) (start u) = Some ((l, e), s') /\
    ContainerData.view (own s') = ContainerData.view u /\ seen s' = [] /\
    match ContainerData.view u !! ContainerData.key ns name with
    | None => l = [] /\ e = Some (errNotFound "containers not found")
    | Some m => e = None /\ Forall2 wrapped (map_to_list m) l
    end.
Proof.
  intros Hu. set (k := ContainerData.key ns name).
  assert (twp hdl (GetContainers ns name) (fun r s' => at_ [] (ContainerData.view u) s' /\
    match ContainerData.view u !! k with
    | None => fst r = [] /\ snd r = Some (errNotFound "containers not found")
    | Some m => snd r = None /\ Forall2 wrapped (map_to_list m) (fst r)
    end) (start u)) as H.
  2: { apply twp_run in H as ([l e] & s' & Hrun & (H1 & H2 & H3) & H4). by exists l, e, s'. }
  unfold GetContainers. apply twp_bind.
  apply (twp_cd env _ [] (ContainerData.view u) (ContainerData.view u) (ContainerData.view u !! k));
    [by split_and! | exists u; split_and!; [apply ContainerData.LoadAll_spec | done | done] |].
  intros s1 Hs1. destruct (ContainerData.view u !! k) as [m|]; [|ret; by split_and!].
  apply twp_bind. unfold getContainersWrapped. eapply twp_wrap; [exact Hs1|]. intros r s2 Hs2 Hr. ret. by split_and!.
Qed.

End Queries.

(** ** Inputs *)

(** An engine on which everything works; the container gets the id [c1]. *)
Definition works : oracle dkE := fun X n e =>
  match e in dkE X return X with
  | Cd e => fst (ContainerData.step e ContainerData.NewContainerData)
  | ContainerList => inl []
  | ContainerRemove _ => None
  | ImageRemove _ => tt
  | ImagePull _ _ => inl 0%nat
  | ReadToEnd _ => true
  | CloseStream _ => None
  | ContainerCreate _ _ _ => inl "c1"
  | ContainerStart _ => None
  | ContainerInspect _ => inl None
  | ContainerLogs _ _ => inl 0%nat
  | ContainerExecCreate _ _ => inl "x1"
  | ContainerExecAttach _ _ _ => inl 0%nat
  | ContainerAttach _ _ _ _ _ => inl 0%nat
  | ContainerStats_ _ => inl 0%nat
  | DecodeStats _ => inl sample_stats
  | GoHandleCreation _ _ => tt
  | GoResize _ => tt
  | GoCopyLogs r => r
  | ConsoleSize _ => None
  | CopyStdin _ => None
  | CloseWrite _ => None
  | CopyOutput _ _ => None
  | FirstDone _ _ _ => None
  | BackoffRounds n => n
  | BackoffEnd => errMsg "timed out waiting for the condition"
  | WithTimeout ctx _ => ctx
  | Cancel _ => tt
  | Rounds _ => 1%nat
  | CtxDone _ => errCanceled
  | Now => 0%Z
  | Record_ _ => tt
  end.

Definition sample_params : ContainerParams :=
  {| cp_PodNamespace := "ci"; cp_PodName := "p"; cp_Name := "redis"; cp_Image := "redis:7";
     cp_ImagePullPolicy := K8s.PullNever; cp_RegistryCreds := Creds.noCredentials; cp_Mounts := []; cp_Env := [];
     cp_Command := []; cp_Args := []; cp_WorkingDir := ""; cp_TTY := false; cp_Stdin := false; cp_StdinOnce := false;
     cp_PostStartAction := None |}.

(** The engine's calls without a configured encoder. *)
Definition noEncode (c : Creds.RegistryCredentials) : string + error := inl "auth".

Lemma docker_creation_outcome_witness :
  exists s' cs i,
    run (traced_handler local works) (handleDockerContainerCreation noEncode 0%nat sample_params)
      (start ContainerData.NewContainerData) = Some (tt, s') /\ asked s' = cs /\
    Outcome works noEncode 0%nat sample_params cs i.
Proof.
  destruct (docker_creation_outcome works noEncode 0%nat sample_params ContainerData.NewContainerData
    ContainerData.wf_new) as (s' & cs & i & H1 & H2 & H3 & _).
  exists s', cs, i. split; [exact H1 | split; [exact H2 | exact H3]].
Defined.

Lemma remove_containers_spec_witness :
  exists r s', run (traced_handler local works) (RemoveContainers "ci" "p" 0%Z)
    (start ContainerData.NewContainerData) = Some (r, s') /\ r = Some (errNotFound "containers not found").
Proof.
  destruct (remove_containers_spec works "ci" "p" 0%Z ContainerData.NewContainerData ContainerData.wf_new)
    as (r & s' & H1 & _ & _ & H2 & _).
  exists r, s'. split; [exact H1 | exact H2].
Defined.

Lemma containers_listed_witness :
  exists l e s', run (traced_handler local works) (GetContainers "ci" "p")
    (start ContainerData.NewContainerData) = Some ((l, e), s') /\ l = [].
Proof.
  destruct (containers_listed works "ci" "p" ContainerData.NewContainerData ContainerData.wf_new)
    as (l & e & s' & H1 & _ & _ & H2 & _).
  exists l, e, s'. split; [exact H1 | exact H2].
Defined.

(** ** A creation that outlives the removal of its pod *)

(** Two goroutines: the creation of the sidecar (which starts a third), and the
    removal of the pod. *)
Definition overlap : list (prog dkE (option error)) :=
  [CreateContainer 0%nat sample_params; RemoveContainers "ci" "p" 30%Z].

Definition spawned (X : Type) (e : dkE X) : list (prog dkE (option error)) :=
  map (fun q => q ;; Ret None) (spawns noEncode X e).

Abbreviation demo := (sched (traced_handler local works) (option error) spawned).

(** The creation is requested, the engine makes the container, the whole removal runs,
    and the creation goes on. *)
Definition late : list nat := [0; 0; 0; 2; 1; 1; 2; 2; 2; 2; 2]%nat.

(** One schedule, on an engine where every call succeeds: the pod's containers are
    removed, without an error, between the moment the engine makes the container and
    the moment its id is stored.  The creation then stores the entry anew and starts
    the container: in the end everything has returned, no container was ever removed,
    the container runs, and the store knows the removed pod again. *)
Lemma creation_outlives_removal :
  exists c, rtc (pool_step (traced_handler local works) (option error) spawned)
              (overlap, start ContainerData.NewContainerData) c /\
    fst c = [Ret None; Ret None; Ret None] /\
    (forall id r, ORemove id r ∉ seen (snd c)) /\ OStarted "c1" ∈ seen (snd c) /\
    ContainerData.view (own (snd c)) !! ContainerData.key "ci" "p" = Some {["redis" := info "c1" None]}.
Proof.
  destruct (demo late (overlap, start ContainerData.NewContainerData)) as [c|] eqn:E.
  2: { assert (is_some (demo late (overlap, start ContainerData.NewContainerData)) = true) as H
         by (vm_compute; reflexivity). by rewrite E in H. }
  assert (match demo late (overlap, start ContainerData.NewContainerData) with
          | Some c => match fst c with [Ret None; Ret None; Ret None] => true | _ => false end &&
                      bool_decide (seen (snd c) = [OCreated "c1"; OEvent (CreatedContainer "redis"); OStarted "c1";
                                                   OEvent (StartedContainer "redis")]) &&
                      bool_decide (ContainerData.view (own (snd c)) !! ContainerData.key "ci" "p"
                                   = Some {["redis" := info "c1" None]})
          | None => false
          end = true) as H by (vm_compute; reflexivity).
  rewrite E in H. apply andb_true_iff in H as [[H1 H2]%andb_true_iff H3].
  apply bool_decide_eq_true_1 in H2, H3. exists c. split_and!.
  - exact (sched_rtc _ _ _ _ _ _ E).
  - destruct (fst c) as [|[[]|] [|[[]|] [|[[]|] []]]]; done.
  - intros id r Hin. rewrite H2 in Hin. by repeat (apply elem_of_cons in Hin as [?|Hin]); [..|apply not_elem_of_nil in Hin].
  - rewrite H2. right. right. left.
  - exact H3.
Qed.

End DockerProofs.
