(* ===== verification/Client.v ===== *)
(** * pkg/client/vz.go: virtualization groups

    [VzClientAPIs] puts a virtual machine and the sidecars of a pod together.  The
    methods of the two clients below it are operations ([vmE], [Api.ctrE]) that an
    oracle answers; its own state is the map of [virtualizationGroupExtras], which are
    shared by pointer between the calls on one group, and the directories and contexts
    it makes.

    The goroutines that one call starts and waits for work on different containers.
    The model runs them one after another, in any order: the order is an operation
    too.  What several calls on one group do to each other is the subject of the pool
    theorems in [ClientProofs]. *)
From Stdlib Require Import ZArith Lia.
From Stdlib Require Import Ascii String.
From stdpp Require Import base list gmap strings.
From S2P Require Import Prelude GoStrings GoFormat GoErrors GoTime GoPath Prog EnvCfg Utils Resource Instance.
From S2P Require Import K8s Event NodeIO Volumes Stores MacOS ClientApi DockerData Docker.
Local Open Scope string_scope.
Local Open Scope go_scope.

Module Client.
Import Api.

(** The methods of [rm.MacOSClient]. *)
Inductive vmE : Type -> Type :=
| CreateVirtualMachine (ctx : Ctx) (params : MacOS.VirtualMachineParams) : vmE (option error)
| DeleteVirtualMachine (ctx : Ctx) (ns name : string) (gracePeriod : Z) : vmE (option error)
| GetVirtualMachine (ns name : string) : vmE (Res.MacOSVirtualMachine * option error)
| GetVirtualMachineListResult : vmE (gmap NamespacedName Res.MacOSVirtualMachine * option error)
| ExecInVirtualMachine (ctx : Ctx) (ns name : string) (cmd : list string) (attach : option Node.ExecIO) : vmE (option error)
| GetVirtualMachineStats (ns name : string) : vmE (ContainerStats + error).

(** ** State *)

(** [sync.Once]: not used, running, done. *)
Inductive OnceState := OnceFresh | OnceRunning | OnceDone.

(** [deleteDone] has room for one value. *)
(* src/pkg/client/vz.go : virtualizationGroupExtras *)
Record virtualizationGroupExtras := {
  rootDir : string;
  cancelFunc : option Ctx;
  deleteOnce : OnceState;
  deleteDone : option (option error);
  deleteDoneClosed : bool
}.

Definition ExtrasRef := nat.

(* src/pkg/client/vz.go : VzClientAPIs *)
Record VzClientAPIs := {
  extras : gmap NamespacedName ExtrasRef;
  eheap : gmap ExtrasRef virtualizationGroupExtras;
  enext : ExtrasRef
}.

Definition noExtras : VzClientAPIs := {| extras := ∅; eheap := ∅; enext := 0 |}.

Definition zeroExtras (root : string) : virtualizationGroupExtras :=
  {| rootDir := root; cancelFunc := None; deleteOnce := OnceFresh; deleteDone := None; deleteDoneClosed := false |}.

Inductive cliE : Type -> Type :=
| Vm {X : Type} (e : vmE X) : cliE X
| Ctr {X : Type} (e : ctrE X) : cliE X
| Fs {X : Type} (e : Volumes.fsE X) : cliE X
| RemoveAll (path : string) : cliE (option error)
| WithCancel (ctx : Ctx) : cliE Ctx
| Cancel (ctx : Ctx) : cliE unit
| Order : cliE (list nat)
| NewExtras (root : string) : cliE ExtrasRef
| SetCancel (r : ExtrasRef) (ctx : Ctx) : cliE unit
| ReadExtras (r : ExtrasRef) : cliE virtualizationGroupExtras
| ExtrasStore (k : NamespacedName) (r : ExtrasRef) : cliE unit
| ExtrasLoad (k : NamespacedName) : cliE (option ExtrasRef)
| ExtrasDelete (k : NamespacedName) : cliE unit
| OnceBegin (r : ExtrasRef) : cliE bool
| OnceEnd (r : ExtrasRef) : cliE unit
| SendDone (r : ExtrasRef) (v : option error) : cliE unit
| CloseDone (r : ExtrasRef) : cliE unit
| RecvDone (ctx : Ctx) (r : ExtrasRef) : cliE (error + option error).   (* select: ctx.Done, or a value *)

Definition set_extras (m : gmap NamespacedName ExtrasRef) (s : VzClientAPIs) : VzClientAPIs :=
  {| extras := m; eheap := eheap s; enext := enext s |}.
Definition set_ex (r : ExtrasRef) (x : virtualizationGroupExtras) (s : VzClientAPIs) : VzClientAPIs :=
  {| extras := extras s; eheap := <[r := x]> (eheap s); enext := enext s |}.
Definition get_ex (s : VzClientAPIs) (r : ExtrasRef) : virtualizationGroupExtras := default (zeroExtras "") (eheap s !! r).

Definition withCancel (c : option Ctx) (x : virtualizationGroupExtras) : virtualizationGroupExtras :=
  {| rootDir := rootDir x; cancelFunc := c; deleteOnce := deleteOnce x; deleteDone := deleteDone x;
     deleteDoneClosed := deleteDoneClosed x |}.
Definition withOnce (o : OnceState) (x : virtualizationGroupExtras) : virtualizationGroupExtras :=
  {| rootDir := rootDir x; cancelFunc := cancelFunc x; deleteOnce := o; deleteDone := deleteDone x;
     deleteDoneClosed := deleteDoneClosed x |}.
Definition withDone (d : option (option error)) (x : virtualizationGroupExtras) : virtualizationGroupExtras :=
  {| rootDir := rootDir x; cancelFunc := cancelFunc x; deleteOnce := deleteOnce x; deleteDone := d;
     deleteDoneClosed := deleteDoneClosed x |}.
Definition withClosed (x : virtualizationGroupExtras) : virtualizationGroupExtras :=
  {| rootDir := rootDir x; cancelFunc := cancelFunc x; deleteOnce := deleteOnce x; deleteDone := deleteDone x;
     deleteDoneClosed := true |}.

(** [Once.Do] makes later callers wait while the function runs; a send waits for room
    and a receive for a value or the close. *)
Definition local : local_handler cliE VzClientAPIs := fun X e =>
  match e in cliE X return X -> VzClientAPIs -> option (X * VzClientAPIs) with
  | NewExtras root => fun _ s =>
      Some (enext s, {| extras := extras s; eheap := <[enext s := zeroExtras root]> (eheap s); enext := S (enext s) |})
  | SetCancel r c => fun _ s => Some (tt, set_ex r (withCancel (Some c) (get_ex s r)) s)
  | ReadExtras r => fun _ s => Some (get_ex s r, s)
  | ExtrasStore k r => fun _ s => Some (tt, set_extras (<[k := r]> (extras s)) s)
  | ExtrasLoad k => fun _ s => Some (extras s !! k, s)
  | ExtrasDelete k => fun _ s => Some (tt, set_extras (delete k (extras s)) s)
  | OnceBegin r => fun _ s =>
      match deleteOnce (get_ex s r) with
      | OnceFresh => Some (true, set_ex r (withOnce OnceRunning (get_ex s r)) s)
      | OnceRunning => None
      | OnceDone => Some (false, s)
      end
  | OnceEnd r => fun _ s => Some (tt, set_ex r (withOnce OnceDone (get_ex s r)) s)
  | SendDone r v => fun _ s =>
      match deleteDone (get_ex s r) with
      | Some _ => None
      | None => Some (tt, set_ex r (withDone (Some v) (get_ex s r)) s)
      end
  | CloseDone r => fun _ s => Some (tt, set_ex r (withClosed (get_ex s r)) s)
  | RecvDone _ r => fun x s =>
      match x with
      | inl e => Some (inl e, s)
      | inr _ =>
          match deleteDone (get_ex s r) with
          | Some v => Some (inr v, set_ex r (withDone None (get_ex s r)) s)
          | None => if deleteDoneClosed (get_ex s r) then Some (inr None, s) else None
          end
      end
  | _ => fun x s => Some (x, s)
  end.

(** ** Goroutines *)

(** How a goroutine, or a call, ends: it returns, or it panics and takes the process
    down. *)
Inductive ended := Returned (e : option error) | Panicked.

(** The order in which goroutines run: the next is the [n]th of those left. *)
Fixpoint arrange {A} (o : list nat) (l : list A) : list A :=
  match o with
  | [] => l
  | n :: o =>
      let i := (n mod List.length l)%nat in
      match l !! i with
      | Some x => x :: arrange o (delete i l)
      | None => l
      end
  end.

(** [errgroup.Group]: the first error, in the order of time, is the result of [Wait]. *)
Fixpoint runGroup (l : list (prog cliE ended)) (first : option error) : prog cliE ended :=
  match l with
  | [] => Ret (Returned first)
  | p :: l =>
      r <- p ;;
      match r with
      | Panicked => Ret Panicked
      | Returned e => runGroup l (match first with Some _ => first | None => e end)
      end
  end.

Definition group (l : list (prog cliE ended)) : prog cliE ended :=
  o <- perform Order ;; runGroup (arrange o l) None.

(** The two goroutines of a deletion: both run, in either order. *)
Definition both {A B} (p : prog cliE A) (q : prog cliE B) : prog cliE (A * B) :=
  o <- perform Order ;;
  match o with
  | [] => a <- p ;; b <- q ;; Ret (a, b)
  | _ => b <- q ;; a <- p ;; Ret (a, b)
  end.

Section Client.
Context `{PrintTable} `{Errdefs}.
(** The environment, the cache directory, whether there is a container client, and
    the limits of the virtualization framework. *)
Variables (Getenv : EnvCfg.environ) (cachePath : string) (hasCtr : bool).
Variables maxCPU minCPU maxMemory minMemory : Z.
(** [reference.ParseNormalizedNamed] and [reference.Domain] of distribution;
    [remote.NewRepository] of oras. *)
Variable imageDomain : string -> option string.
Variable NewRepository : string -> option error.

(* src/pkg/client/vz.go : 36-40 PodMountsDir *)
Definition PodMountsDir : string := "mounts".

(* src/pkg/client/vz.go : 42-44 errVirtualizationGroupNotFound *)
Definition errVirtualizationGroupNotFound : error := errNotFound "virtualization group not found".

(* src/pkg/client/vz.go : resolvePostStartCommandTimeout *)
Definition PostStartCommandTimeout : Z := fst (EnvCfg.PostStartTimeoutChecked Getenv).

(* src/pkg/downloader/download.go : ValidateImageReference *)
Definition ValidateImageReference (ref : string) : option error := NewRepository ref.

(* src/pkg/client/vz.go : VzClientAPIs.getPodVolumeRoot *)
Definition getPodVolumeRoot (pod : K8s.Pod) : string := Path.Join [cachePath; PodMountsDir; K8s.pod_UID pod].

Definition podKey (pod : K8s.Pod) : NamespacedName := VmData.key (K8s.pod_Namespace pod) (K8s.pod_Name pod).

(** ** Creation *)

Definition postStartActionOf (c : K8s.Container) : option Res.ExecAction :=
  if Podstatus.HasExecPostStartHook c
  then Some {| Res.Command := Podstatus.postStartCommand c; Res.TimeoutDuration := PostStartCommandTimeout |}
  else None.

Section Create.
Variables (pod : K8s.Pod) (serviceAccountToken : string) (configMaps : gmap string K8s.ConfigMap).
Variable creds : Creds.RegistryCredentialStore.

(** The mounts of one container, as the goroutines make them. *)
Definition mountsOf (root : string) (c : K8s.Container) : prog cliE (Volumes.failure + list Volumes.Mount) :=
  lift (fun X e => Fs e) (Volumes.CreateContainerMounts pod root serviceAccountToken configMaps c).

Definition vmParams (c : K8s.Container) (cpu mem : Z) (mounts : list Volumes.Mount) : MacOS.VirtualMachineParams :=
  {| MacOS.p_UID := K8s.pod_UID pod;
     MacOS.p_Image := K8s.ct_Image c;
     MacOS.p_Namespace := K8s.pod_Namespace pod;
     MacOS.p_Name := K8s.pod_Name pod;
     MacOS.p_ContainerName := K8s.ct_Name c;
     MacOS.p_CPU := cpu;
     MacOS.p_MemorySize := mem;
     MacOS.p_Mounts := mounts;
     MacOS.p_Env := K8s.ct_Env c;
     MacOS.p_PostStartAction := postStartActionOf c;
     MacOS.p_IgnoreImageCache := bool_decide (K8s.ct_ImagePullPolicy c = K8s.PullAlways);
     MacOS.p_RegistryCreds := fst (Creds.ForImage imageDomain creds (K8s.ct_Image c)) |}.

Definition ctrParams (c : K8s.Container) (mounts : list Volumes.Mount) : ContainerParams :=
  {| cp_PodNamespace := K8s.pod_Namespace pod;
     cp_PodName := K8s.pod_Name pod;
     cp_Name := K8s.ct_Name c;
     cp_Image := K8s.ct_Image c;
     cp_ImagePullPolicy := K8s.ct_ImagePullPolicy c;
     cp_RegistryCreds := fst (Creds.ForImage imageDomain creds (K8s.ct_Image c));
     cp_Mounts := mounts;
     cp_Env := K8s.ct_Env c;
     cp_Command := K8s.ct_Command c;
     cp_Args := K8s.ct_Args c;
     cp_WorkingDir := K8s.ct_WorkingDir c;
     cp_TTY := K8s.ct_TTY c;
     cp_Stdin := K8s.ct_Stdin c;
     cp_StdinOnce := K8s.ct_StdinOnce c;
     cp_PostStartAction := postStartActionOf c |}.

(** The body of a goroutine: mounts, then the call that creates the container. *)
Definition createOne (root : string) (c : K8s.Container)
    (call : list Volumes.Mount -> prog cliE (option error)) : prog cliE ended :=
  r <- mountsOf root c ;;
  match r with
  | inl (Volumes.Fail e) => Ret (Returned (Some e))
  | inl Volumes.NilDeref => Ret Panicked
  | inr mounts => e <- call mounts ;; Ret (Returned e)
  end.

Definition createVM (ctx : Ctx) (root : string) (c : K8s.Container) (cpu mem : Z) : prog cliE ended :=
  createOne root c (fun mounts => perform (Vm (CreateVirtualMachine ctx (vmParams c cpu mem mounts)))).

Definition createSidecar (ctx : Ctx) (root : string) (c : K8s.Container) : prog cliE ended :=
  createOne root c (fun mounts => perform (Ctr (CreateContainer ctx (ctrParams c mounts)))).

(** Everything that is checked before anything is registered: the error, or the CPU
    count and the memory size. *)
(* src/pkg/client/vz.go : 146-168 CreateVirtualizationGroup *)
Definition validate (c : K8s.Container) : error + Z * Z :=
  let '(cpu, err) := Requests.ExtractCPURequest (K8s.ct_Requests c) in
  match err with Some e => inl (AsInvalidInput e) | None =>
  match snd (Limits.ValidateCPUCount maxCPU minCPU cpu) with Some e => inl (AsInvalidInput e) | None =>
  let '(mem, err) := Requests.ExtractMemoryRequest (K8s.ct_Requests c) in
  match err with Some e => inl (AsInvalidInput e) | None =>
  match snd (Limits.ValidateMemorySize maxMemory minMemory mem) with Some e => inl (AsInvalidInput e) | None =>
  match ValidateImageReference (K8s.ct_Image c) with
  | Some e => inl (InvalidInput ("invalid image reference " ++ Quote.quote (K8s.ct_Image c) ++ ": " ++ Error e))
  | None => inr (cpu, mem)
  end end end end end.

(** Up to the deferred cleanup. *)
Definition createBody (ctx : Ctx) (ex : ExtrasRef) (root : string) : prog cliE ended :=
  if (1 <? List.length (K8s.pod_Containers pod))%nat && negb hasCtr
  then Ret (Returned (Some (InvalidInput "regular containers are not supported")))
  else
    match K8s.pod_Containers pod with
    | [] => Ret Panicked                                            (* Containers[0] *)
    | c :: cs =>
        match validate c with
        | inl e => Ret (Returned (Some e))
        | inr (cpu, mem) =>
            gctx <- perform (WithCancel ctx) ;;
            perform (SetCancel ex gctx) ;;
            perform (ExtrasStore (podKey pod) ex) ;;
            group (createVM gctx root c cpu mem :: map (createSidecar gctx root) cs)
        end
    end.

(** The deferred function, when the result is an error. *)
Definition createCleanup (ex : ExtrasRef) : prog cliE unit :=
  perform (ExtrasDelete (podKey pod)) ;;
  x <- perform (ReadExtras ex) ;;
  perform (RemoveAll (rootDir x)) ;;
  match cancelFunc x with Some c => perform (Cancel c) | None => Ret tt end.

(* src/pkg/client/vz.go : VzClientAPIs.CreateVirtualizationGroup *)
Definition CreateVirtualizationGroup (ctx : Ctx) : prog cliE ended :=
  ex <- perform (NewExtras (getPodVolumeRoot pod)) ;;
  r <- createBody ctx ex (getPodVolumeRoot pod) ;;
  match r with
  | Returned (Some e) => createCleanup ex ;; Ret (Returned (Some e))
  | _ => Ret r
  end.

End Create.

(** ** Deletion *)

(** The [switch] on the two errors: what is sent on [deleteDone]. *)
Definition deleteResult (vmErr containerErr : option error) : option error :=
  match vmErr, containerErr with
  | Some v, Some c =>
      if IsNotFound (Some v) && IsNotFound (Some c) then Some errVirtualizationGroupNotFound
      else errors_Join [vmErr; containerErr]
  | Some v, None => if IsNotFound (Some v) then None else vmErr
  | None, Some c => if IsNotFound (Some c) then None else containerErr
  | None, None => None
  end.

(** The function of the [sync.Once], its deferred cleanup included. *)
Definition deleteBody (ctx : Ctx) (ns name : string) (gracePeriod : Z) (ex : ExtrasRef) : prog cliE unit :=
  r <- both (perform (Vm (DeleteVirtualMachine ctx ns name gracePeriod)))
            (if hasCtr then perform (Ctr (RemoveContainers ns name gracePeriod)) else Ret None) ;;
  perform (SendDone ex (deleteResult (fst r) (snd r))) ;;
  perform (ExtrasDelete (VmData.key ns name)) ;;                    (* deferred, from here *)
  perform (CloseDone ex) ;;
  x <- perform (ReadExtras ex) ;;
  match cancelFunc x with Some c => perform (Cancel c) | None => Ret tt end ;;
  if String.eqb (rootDir x) "" then Ret tt else perform (RemoveAll (rootDir x)) ;; Ret tt.

(* src/pkg/client/vz.go : VzClientAPIs.DeleteVirtualizationGroup *)
Definition DeleteVirtualizationGroup (ctx : Ctx) (ns name : string) (gracePeriod : Z) : prog cliE (option error) :=
  o <- perform (ExtrasLoad (VmData.key ns name)) ;;
  match o with
  | None => Ret (Some errVirtualizationGroupNotFound)
  | Some ex =>
      mine <- perform (OnceBegin ex) ;;
      (if mine : bool then deleteBody ctx ns name gracePeriod ex ;; perform (OnceEnd ex) else Ret tt) ;;
      r <- perform (RecvDone ctx ex) ;;
      Ret (match r with inl e => Some e | inr v => v end)
  end.

(** ** Queries *)

(** The result of the two fetches. *)
Definition groupResult (containers : list Res.Container) (containerErr : option error)
    (vm : Res.MacOSVirtualMachine) (vmErr : option error) : option VirtualizationGroup * option error :=
  let err := if is_some containerErr && negb (IsNotFound containerErr) then containerErr else None in
  let err := if is_some vmErr && negb (IsNotFound vmErr)
             then match err with Some _ => errors_Join [err; vmErr] | None => vmErr end
             else err in
  let vg := {| vg_VM := Some vm; vg_Containers := containers |} in
  if IsNotFound containerErr && IsNotFound vmErr then (None, Some errVirtualizationGroupNotFound)
  else if is_some containerErr && is_some vmErr then (Some vg, errors_Join [containerErr; vmErr])
  else (Some vg, err).

(* src/pkg/client/vz.go : VzClientAPIs.GetVirtualizationGroup *)
Definition GetVirtualizationGroup (ns name : string) : prog cliE (option VirtualizationGroup * option error) :=
  c <- (if hasCtr then perform (Ctr (GetContainers ns name))
        else Ret ([], Some (errNotFound "container client not available"))) ;;
  v <- perform (Vm (GetVirtualMachine ns name)) ;;
  Ret (groupResult (fst c) (snd c) (fst v) (snd v)).

(** The two loops that combine the results: the second adds the containers to a group
    of the first, or makes a group without a machine. *)
Definition combine (vms : gmap NamespacedName Res.MacOSVirtualMachine)
    (containers : gmap NamespacedName (list Res.Container)) : gmap NamespacedName VirtualizationGroup :=
  let l := fmap (M := gmap NamespacedName) (fun v => {| vg_VM := Some v; vg_Containers := [] |}) vms in
  map_fold (fun k c acc =>
    <[k := match acc !! k with
           | Some vg => {| vg_VM := vg_VM vg; vg_Containers := c |}
           | None => {| vg_VM := None; vg_Containers := c |}
           end]> acc) l containers.

Definition listErr (vmErr containerErr : option error) : option error :=
  match vmErr, containerErr with
  | Some _, Some _ => errors_Join [vmErr; containerErr]
  | Some _, None => vmErr
  | None, _ => containerErr
  end.

(* src/pkg/client/vz.go : VzClientAPIs.GetVirtualizationGroupListResult *)
Definition GetVirtualizationGroupListResult : prog cliE (gmap NamespacedName VirtualizationGroup * option error) :=
  r <- both (perform (Vm GetVirtualMachineListResult))
            (if hasCtr then perform (Ctr GetContainersListResult) else Ret (∅, None)) ;;
  Ret (combine (fst (fst r)) (fst (snd r)), listErr (snd (fst r)) (snd (snd r))).

(** [c.ContainerClient != nil && c.ContainerClient.IsContainerPresent(...)] *)
Definition isSidecar (ns podName containerName : string) : prog cliE bool :=
  if hasCtr then perform (Ctr (IsContainerPresent ns podName containerName)) else Ret false.

(* src/pkg/client/vz.go : VzClientAPIs.GetContainerLogs *)
Definition GetContainerLogs (ns podName containerName : string) (opts : ContainerLogOpts) : prog cliE (StreamRef + error) :=
  b <- isSidecar ns podName containerName ;;
  if b : bool then perform (Ctr (Api.GetContainerLogs ns podName containerName opts))
  else Ret (inr (InvalidInput "container logs are not supported for macOS virtual machines")).

(* src/pkg/client/vz.go : VzClientAPIs.ExecuteContainerCommand *)
Definition ExecuteContainerCommand (ctx : Ctx) (ns podName containerName : string) (cmd : list string)
    (attach : option Node.ExecIO) : prog cliE (option error) :=
  b <- isSidecar ns podName containerName ;;
  if b : bool then perform (Ctr (ExecInContainer ctx ns podName containerName cmd attach))
  else perform (Vm (ExecInVirtualMachine ctx ns podName cmd attach)).

(* src/pkg/client/vz.go : VzClientAPIs.AttachToContainer *)
Definition AttachToContainer (ctx : Ctx) (ns podName containerName : string) (attach : Node.ExecIO)
  : prog cliE (option error) :=
  b <- isSidecar ns podName containerName ;;
  if b : bool then perform (Ctr (Api.AttachToContainer ctx ns podName containerName attach))
  else perform (Vm (ExecInVirtualMachine ctx ns podName [] (Some attach))).

Definition setName (n : string) (s : ContainerStats) : ContainerStats :=
  {| sc_Name := n; sc_StartTime := sc_StartTime s; sc_Time := sc_Time s; sc_UsageNanoCores := sc_UsageNanoCores s;
     sc_UsageCoreNanoSeconds := sc_UsageCoreNanoSeconds s; sc_UsageBytes := sc_UsageBytes s;
     sc_WorkingSetBytes := sc_WorkingSetBytes s; sc_RSSBytes := sc_RSSBytes s |}.

Definition addStats (ns name : string) (acc : list ContainerStats) (c : string)
  : prog cliE (error + list ContainerStats) :=
  r <- perform (Ctr (GetContainerStats ns name c)) ;;
  Ret (match r with inl s => inr (acc ++ [s])%list | inr e => inl e end).

(** [containers] are the names of the pod's containers; [None] is the panic of
    [containers[0]] when there is none. *)
(* src/pkg/client/vz.go : VzClientAPIs.GetVirtualizationGroupStats *)
Definition GetVirtualizationGroupStats (ns name : string) (containers : list string)
  : prog cliE (option (error + list ContainerStats)) :=
  r <- perform (Vm (GetVirtualMachineStats ns name)) ;;
  match r, containers with
  | inr e, _ => Ret (Some (inl e))
  | inl _, [] => Ret None
  | inl vmStats, c :: cs =>
      if (1 <? List.length containers)%nat && negb hasCtr
      then Ret (Some (inl (errNotFound "container client not available")))
      else r <- foldR (addStats ns name) cs [setName c vmStats] ;; Ret (Some r)
  end.

End Client.
(** ** Making a client *)

(** What the constructor does besides [NewMacOSClient], which performs nothing. *)
Inductive newE : Type -> Type :=
| RemoveMounts (path : string) : newE (option error)          (* os.RemoveAll *)
| ForDocker {X : Type} (e : Docker.dkE X) : newE X
| WarnNoContainers (e : error) : newE unit.

(** Whether the client has containers ([hasCtr] above). *)
(* src/pkg/client/vz.go : NewVzClientAPIs *)
Definition NewVzClientAPIs (cachePath : string) (dockerAvailable : bool) : prog newE bool :=
  perform (RemoveMounts (Path.Join [cachePath; PodMountsDir])) ;;
  err <- lift (fun X e => ForDocker e) (Docker.NewDockerClient dockerAvailable) ;;
  match err with
  | Some e => perform (WarnNoContainers e) ;; Ret false
  | None => Ret true
  end.

(** Without a docker client there are no containers, and nothing but the old mounts is
    touched. *)
Lemma no_docker_no_containers cachePath :
  exists k, NewVzClientAPIs cachePath false = Do (RemoveMounts (Path.Join [cachePath; PodMountsDir])) k /\
    forall x, k x = Do (WarnNoContainers (errMsg "must provide a containers client")) (fun _ => Ret false).
Proof. by eexists. Qed.

End Client.
