(* ===== verification/ClientProofs.v ===== *)
(** * What the operations on virtualization groups do

    For one call running alone, and every behaviour of the clients below it: creation
    (what is rejected, what is registered, what an error undoes), deletion and its
    table of errors, the queries.  For any number of deletions of one group at once:
    the group is deleted once. *)
From Stdlib Require Import ZArith Lia.
From Stdlib Require Import Ascii String.
From stdpp Require Import base list gmap strings relations.
From S2P Require Import Prelude GoStrings GoFormat GoErrors GoTime GoPath Prog Once EnvCfg Utils Resource.
From S2P Require Import Instance K8s Event NodeIO Volumes Stores MacOS ClientApi PodStatus Client.
Local Open Scope string_scope.
Local Open Scope go_scope.

Module ClientProofs.
Import Api Client.

(** ** Goroutine orders *)

Lemma arrange_perm {A} o (l : list A) : arrange o l ≡ₚ l.
Proof.
  revert l. induction o as [|n o IH]; intros l; simpl; [done|].
  destruct (l !! (n mod length l)%nat) as [x|] eqn:E; [|done].
  rewrite IH. by rewrite <- delete_Permutation.
Qed.

(** ** Observations *)

Inductive Obs :=
| OCreateVM (ctx : Ctx) (p : MacOS.VirtualMachineParams) (r : option error)
| OCreateCtr (ctx : Ctx) (p : ContainerParams) (r : option error)
| ODeleteVM (r : option error)
| ORemoveCtrs (r : option error)
| ORemoveAll (path : string)
| OCancel (ctx : Ctx).

Definition obs_of (c : call cliE) : option Obs :=
  match c with
  | Call e x =>
      match e in cliE X return X -> option Obs with
      | Vm e => match e in vmE X return X -> option Obs with
                | CreateVirtualMachine ctx p => fun r => Some (OCreateVM ctx p r)
                | DeleteVirtualMachine _ _ _ _ => fun r => Some (ODeleteVM r)
                | _ => fun _ => None
                end
      | Ctr e => match e in ctrE X return X -> option Obs with
                 | CreateContainer ctx p => fun r => Some (OCreateCtr ctx p r)
                 | RemoveContainers _ _ _ => fun r => Some (ORemoveCtrs r)
                 | _ => fun _ => None
                 end
      | RemoveAll p => fun _ => Some (ORemoveAll p)
      | Cancel c => fun _ => Some (OCancel c)
      | _ => fun _ => None
      end x
  end.

Definition seen (s : traced cliE VzClientAPIs) : list Obs := rev (omap obs_of (trace s)).

Lemma seen_cons n c tr u :
  seen (Traced n (c :: tr) u) = (seen (Traced 0 tr u) ++ option_list (obs_of c))%list.
Proof.
  unfold seen. cbn [trace]. change (omap obs_of (c :: tr)) with
    (match obs_of c with Some y => y :: omap obs_of tr | None => omap obs_of tr end).
  destruct (obs_of c); simpl; [done | by rewrite List.app_nil_r].
Qed.

(** File operations: the only operations of a goroutine besides its one call. *)
Definition isFs X (e : cliE X) : Prop := match e with Fs _ => True | _ => False end.

Lemma isFs_unseen tr : Forall (on_call isFs) tr -> omap obs_of tr = [].
Proof. induction 1 as [|c tr Hc Htr IH]; [done|]. cbn. rewrite IH. destruct c as [X e x]. by destruct e. Qed.

Ltac ret := apply twp_ret; cbv beta iota; cbn [fst snd].

(** The outcome of a goroutine in a group: what was observed, and its result. *)
Abbreviation out := (list Obs * option error)%type.

Section Alone.
Variable env : oracle cliE.
Abbreviation hdl := (traced_handler local env).

Definition at_ (os : list Obs) (u : VzClientAPIs) (s : traced cliE VzClientAPIs) : Prop := seen s = os /\ own s = u.

(** One operation that acts on the client's own state and is not observed. *)
Lemma twp_own {X} (e : cliE X) x u' os u s (Q : X -> traced cliE VzClientAPIs -> Prop) :
  at_ os u s -> (forall a, local X e a u = Some (x, u')) -> (forall a, obs_of (Call e a) = None) ->
  (forall s', at_ os u' s' -> Q x s') -> twp hdl (perform e) Q s.
Proof.
  intros [Hs Hu] Hl Ho HQ. destruct s as [n tr v]. simpl in Hu. subst v. simpl.
  unfold traced_handler. simpl. rewrite Hl. apply HQ. split; [|done]. rewrite seen_cons, Ho, app_nil_r. exact Hs.
Qed.

(** One operation that the oracle answers. *)
Lemma twp_ask {X} (e : cliE X) os u s (Q : X -> traced cliE VzClientAPIs -> Prop) :
  (forall a v, local X e a v = Some (a, v)) ->
  at_ os u s -> (forall a s', at_ (os ++ option_list (obs_of (Call e a))) u s' -> Q a s') -> twp hdl (perform e) Q s.
Proof.
  intros Hl [Hs Hu] HQ. destruct s as [n tr v]. simpl in Hu. subst v. simpl.
  unfold traced_handler. simpl. rewrite Hl. apply HQ. split; [|done]. rewrite seen_cons. f_equal. exact Hs.
Qed.

(** An unobserved one. *)
Lemma twp_ask0 {X} (e : cliE X) os u s (Q : X -> traced cliE VzClientAPIs -> Prop) :
  (forall a v, local X e a v = Some (a, v)) -> (forall a, obs_of (Call e a) = None) ->
  at_ os u s -> (forall a s', at_ os u s' -> Q a s') -> twp hdl (perform e) Q s.
Proof.
  intros Hl Ho Hs HQ. eapply twp_ask; [done | exact Hs |]. intros a s'. rewrite Ho. simpl. rewrite app_nil_r. apply HQ.
Qed.

Lemma twp_fs {A} (R : A -> Prop) (q : prog cliE A) os u s (Q : A -> traced cliE VzClientAPIs -> Prop) :
  all_ops isFs q -> all_results R q -> at_ os u s -> (forall a s', R a -> at_ os u s' -> Q a s') -> twp hdl q Q s.
Proof.
  intros Hq HR [Hs Hu] HQ. apply (twp_quiet_res local env isFs R); [| done | done |].
  - intros X e x He. destruct e; try done. simpl. eauto.
  - intros a n tr Ha Htr. apply HQ; [done|]. split; [|done]. unfold seen. simpl.
    by rewrite omap_app, isFs_unseen.
Qed.

(** ** A group of goroutines *)

(** How one goroutine ends: [R] relates what it is observed to do and its result. *)
Definition goes (p : prog cliE ended) (R : list Obs -> option error -> Prop) : Prop :=
  forall os u s (Q : ended -> traced cliE VzClientAPIs -> Prop), at_ os u s ->
    (forall os' r s', R os' r -> at_ (os ++ os') u s' -> Q (Returned r) s') -> twp hdl p Q s.

Definition ends (pr : prog cliE ended * (list Obs -> option error -> Prop)) (x : out) : Prop := snd pr (fst x) (snd x).

Lemma twp_runGroup l (first : option error) os u s (Q : ended -> traced cliE VzClientAPIs -> Prop) :
  Forall (fun pr => goes (fst pr) (snd pr)) l -> at_ os u s ->
  (forall (outs : list out) r s', Forall2 ends l outs -> at_ (os ++ flat_map fst outs) u s' ->
     (r = None <-> first = None /\ Forall (fun x => snd x = None) outs) ->
     (is_Some r -> r = first \/ r ∈ map snd outs) -> Q (Returned r) s') ->
  twp hdl (runGroup (map fst l) first) Q s.
Proof.
  revert first os s. induction l as [|[p R] l IH]; intros first os s Hl Hs HQ; cbn [map runGroup].
  - ret. apply (HQ []); [constructor | by rewrite app_nil_r | split; [by split | by intros [? _]] | by left].
  - inversion_clear Hl as [|? ? Hp Hl']. apply twp_bind. simpl in Hp. eapply Hp; [exact Hs|].
    intros os1 r1 s1 HR Hs1. eapply IH; [done | exact Hs1 |]. intros outs r s2 Ho Hs2 Hr He.
    apply (HQ ((os1, r1) :: outs)); [by constructor | by rewrite <- app_assoc in Hs2 | |].
    + rewrite Hr, Forall_cons. simpl. destruct first as [f|]; [split; by intros [? ?] | tauto].
    + intros Hx. simpl. destruct (He Hx) as [->|Hin]; [|by right; right].
      destruct first as [f|]; [by left | right; left].
Qed.

(** The goroutines in any order: every one of them runs, whatever the others do. *)
Lemma twp_group l os u s (Q : ended -> traced cliE VzClientAPIs -> Prop) :
  Forall (fun pr => goes (fst pr) (snd pr)) l -> at_ os u s ->
  (forall (outs : list out) os' r s', Forall2 ends l outs -> os' ≡ₚ flat_map fst outs -> at_ (os ++ os') u s' ->
     (r = None <-> Forall (fun x => snd x = None) outs) -> (is_Some r -> r ∈ map snd outs) -> Q (Returned r) s') ->
  twp hdl (group (map fst l)) Q s.
Proof.
  intros Hl Hs HQ. unfold group. apply twp_bind.
  eapply (twp_ask0 Order); [done | done | exact Hs |]. intros o s1 Hs1.
  assert (arrange o (map fst l) = map fst (arrange o l)) as ->.
  { clear. revert l. induction o as [|n o IH]; intros l; simpl; [done|]. rewrite length_map, list_lookup_fmap.
    destruct (l !! _) as [x|] eqn:E; simpl; [|done]. f_equal. rewrite <- IH. f_equal. symmetry. apply list_fmap_delete. }
  pose proof (arrange_perm o l) as Hp.
  eapply twp_runGroup; [by rewrite Hp | exact Hs1 |].
  intros outs r s2 Ho Hs2 Hr He. destruct (Permutation_Forall2 Hp Ho) as (outs' & Hp' & Ho').
  eapply (HQ outs' (flat_map fst outs)); [exact Ho' | by apply Permutation_flat_map | exact Hs2 | |].
  - rewrite Hr, !Forall_forall. setoid_rewrite Hp'. tauto.
  - intros Hx. destruct (He Hx) as [->|Hin]; [by destruct Hx|]. apply (Permutation_map snd) in Hp'. by rewrite <- Hp'.
Qed.

End Alone.

(** ** Creation *)

Section Creation.
Context `{PrintTable} `{Errdefs}.
Variables (env : oracle cliE) (Getenv : EnvCfg.environ) (cachePath : string) (hasCtr : bool).
Variables maxCPU minCPU maxMemory minMemory : Z.
Variables (imageDomain : string -> option string) (NewRepository : string -> option error).
Variables (pod : K8s.Pod) (token : string) (cms : gmap string K8s.ConfigMap) (creds : Creds.RegistryCredentialStore).
Abbreviation hdl := (traced_handler local env).
Abbreviation root := (getPodVolumeRoot cachePath pod).
Abbreviation validate := (validate maxCPU minCPU maxMemory minMemory NewRepository).
Abbreviation create := (CreateVirtualizationGroup Getenv cachePath hasCtr maxCPU minCPU maxMemory minMemory
  imageDomain NewRepository pod token cms creds).

(** How the goroutine of a container ends: it has made one call, which [asks] accepts,
    and its result is the answer; or it could not make the mounts of a container that
    has some, made no call, and its result is the error. *)
Definition once (c : K8s.Container) (asks : option error -> Obs -> Prop) (os : list Obs) (r : option error) : Prop :=
  (exists o, os = [o] /\ asks r o) \/ (os = [] /\ is_Some r /\ K8s.ct_VolumeMounts c <> []).

Definition postStartHook (c : K8s.Container) : option Res.ExecAction :=
  if Podstatus.HasExecPostStartHook c
  then Some {| Res.Command := Podstatus.postStartCommand c; Res.TimeoutDuration := PostStartCommandTimeout Getenv |}
  else None.

(** The machine that is asked for: the first container's image with the resources that
    were requested, for this pod, with the mounts of the specification. *)
Definition asksVM (gctx : Ctx) (c : K8s.Container) (cpu mem : Z) (r : option error) (o : Obs) : Prop :=
  exists p, o = OCreateVM gctx p r /\
    MacOS.p_CPU p = cpu /\ MacOS.p_MemorySize p = mem /\ MacOS.p_Image p = K8s.ct_Image c /\
    MacOS.p_UID p = K8s.pod_UID pod /\ MacOS.p_Namespace p = K8s.pod_Namespace pod /\ MacOS.p_Name p = K8s.pod_Name pod /\
    MacOS.p_ContainerName p = K8s.ct_Name c /\ MacOS.p_Mounts p = Volumes.expectedMounts pod root c /\
    MacOS.p_Env p = K8s.ct_Env c /\ MacOS.p_PostStartAction p = postStartHook c /\
    (MacOS.p_IgnoreImageCache p = true <-> K8s.ct_ImagePullPolicy c = K8s.PullAlways) /\
    MacOS.p_RegistryCreds p = fst (Creds.ForImage imageDomain creds (K8s.ct_Image c)).

(** And a sidecar. *)
Definition asksCtr (gctx : Ctx) (c : K8s.Container) (r : option error) (o : Obs) : Prop :=
  exists p, o = OCreateCtr gctx p r /\
    cp_PodNamespace p = K8s.pod_Namespace pod /\ cp_PodName p = K8s.pod_Name pod /\ cp_Name p = K8s.ct_Name c /\
    cp_Image p = K8s.ct_Image c /\ cp_ImagePullPolicy p = K8s.ct_ImagePullPolicy c /\
    cp_Mounts p = Volumes.expectedMounts pod root c /\ cp_Env p = K8s.ct_Env c /\
    cp_Command p = K8s.ct_Command c /\ cp_Args p = K8s.ct_Args c /\ cp_WorkingDir p = K8s.ct_WorkingDir c /\
    cp_TTY p = K8s.ct_TTY c /\ cp_Stdin p = K8s.ct_Stdin c /\ cp_StdinOnce p = K8s.ct_StdinOnce c /\
    cp_PostStartAction p = postStartHook c /\
    cp_RegistryCreds p = fst (Creds.ForImage imageDomain creds (K8s.ct_Image c)).

Lemma goes_createOne c call (asks : option error -> Obs -> Prop) :
  Volumes.itemsHaveFields pod ->
  (forall os u s (Q : option error -> traced cliE VzClientAPIs -> Prop), at_ os u s ->
     (forall o r s', asks r o -> at_ (os ++ [o]) u s' -> Q r s') ->
     twp hdl (call (Volumes.expectedMounts pod root c)) Q s) ->
  goes env (createOne pod token cms root c call) (once c asks).
Proof.
  intros Hi Hcall os u s Q Hs HQ. unfold createOne. apply twp_bind.
  eapply (twp_fs env (fun r => Volumes.noPanic r /\ Volumes.mountsOr pod root c r)); [| | exact Hs |].
  - apply all_ops_lift. done.
  - apply all_results_lift. eapply all_results_and; [by apply Volumes.mounts_noPanic | apply Volumes.mounts_expected | by split].
  - intros [[e|]|mounts] s1 [Hr Hm] Hs1; [| done |].
    + ret. apply (HQ []); [by right | by rewrite app_nil_r].
    + cbn in Hm. subst mounts. apply twp_bind. eapply Hcall; [exact Hs1|]. intros o r s2 Ho Hs2. ret.
      eapply HQ; [left; by exists o | exact Hs2].
Qed.

Lemma goes_createVM ctx c cpu mem :
  Volumes.itemsHaveFields pod ->
  goes env (createVM Getenv imageDomain pod token cms creds ctx root c cpu mem) (once c (asksVM ctx c cpu mem)).
Proof.
  intros Hi. apply goes_createOne; [done|]. intros os u s Q Hs HQ.
  eapply twp_ask; [done | exact Hs |]. intros r s' Hs'. eapply HQ; [|exact Hs'].
  eexists. split; [reflexivity|]. split_and!; try done. apply bool_decide_eq_true.
Qed.

Lemma goes_createSidecar ctx c :
  Volumes.itemsHaveFields pod ->
  goes env (createSidecar Getenv imageDomain pod token cms creds ctx root c) (once c (asksCtr ctx c)).
Proof.
  intros Hi. apply goes_createOne; [done|]. intros os u s Q Hs HQ.
  eapply twp_ask; [done | exact Hs |]. intros r s' Hs'. eapply HQ; [|exact Hs'].
  eexists. split; [reflexivity|]. by split_and!.
Qed.

(** A machine without mounts is always asked for. *)
Lemma goes_plainVM ctx c cpu mem :
  K8s.ct_VolumeMounts c = [] ->
  goes env (createVM Getenv imageDomain pod token cms creds ctx root c cpu mem) (fun os r => exists p, os = [OCreateVM ctx p r]).
Proof.
  intros Hc os u s Q Hs HQ. unfold createVM, createOne, mountsOf, Volumes.CreateContainerMounts. rewrite Hc. cbn [foldR lift bind].
  apply twp_bind. eapply twp_ask; [done | exact Hs |]. intros r s' Hs'. ret. eapply HQ; [by eexists | exact Hs'].
Qed.

(** A sidecar whose config maps are not all there fails. *)
Lemma goes_fetched ctx c :
  Volumes.itemsHaveFields pod ->
  goes env (createSidecar Getenv imageDomain pod token cms creds ctx root c)
    (fun os r => ~ Forall (Volumes.mountFetched pod cms) (K8s.ct_VolumeMounts c) -> is_Some r).
Proof.
  intros Hi os u s Q Hs HQ. unfold createSidecar, createOne. apply twp_bind.
  eapply (twp_fs env (fun r => match r with
    | inl f => f <> Volumes.NilDeref | inr _ => Forall (Volumes.mountFetched pod cms) (K8s.ct_VolumeMounts c) end));
    [by apply all_ops_lift | | exact Hs |].
  - apply all_results_lift. eapply all_results_and; [by apply Volumes.mounts_noPanic | apply Volumes.mounts_fetched |].
    by intros [f|mounts].
  - intros [[e|]|mounts] s1 Hr Hs1; [| done |].
    + ret. eapply (HQ []); [by eexists | by rewrite app_nil_r].
    + apply twp_bind. eapply twp_ask; [done | exact Hs1 |]. intros r s2 Hs2. ret. eapply HQ; [|exact Hs2]. by intros Hn.
Qed.

(** The specification of what is rejected before anything is done. *)
Definition rejected (e : error) : Prop :=
  ((1 < length (K8s.pod_Containers pod))%nat /\ hasCtr = false /\
     e = InvalidInput "regular containers are not supported") \/
  (((length (K8s.pod_Containers pod) <= 1)%nat \/ hasCtr = true) /\
     exists c cs, K8s.pod_Containers pod = c :: cs /\ validate c = inl e).

(** The state with new extras for this call. *)
Definition fresh (u : VzClientAPIs) : VzClientAPIs :=
  {| extras := extras u; eheap := <[enext u := zeroExtras root]> (eheap u); enext := S (enext u) |}.

Lemma get_fresh u : get_ex (fresh u) (enext u) = zeroExtras root.
Proof. unfold get_ex, fresh. simpl. by rewrite lookup_insert_eq. Qed.

Lemma body_rejected e ctx ex r :
  rejected e -> createBody Getenv hasCtr maxCPU minCPU maxMemory minMemory imageDomain NewRepository
                  pod token cms creds ctx ex r = Ret (Returned (Some e)).
Proof.
  unfold createBody. intros [(Hl & -> & ->)|(Hl & c & cs & Hc & Hv)].
  - by destruct (Nat.ltb_spec 1 (length (K8s.pod_Containers pod))); [|lia].
  - assert ((1 <? length (K8s.pod_Containers pod))%nat && negb hasCtr = false) as ->.
    { destruct Hl as [Hl| ->]; [|by rewrite andb_false_r]. by destruct (Nat.ltb_spec 1 (length (K8s.pod_Containers pod))); [lia|]. }
    by rewrite Hc, Hv.
Qed.

(** The cleanup after an error. *)
Lemma twp_cleanup ex x os u s (Q : unit -> traced cliE VzClientAPIs -> Prop) :
  at_ os u s -> get_ex u ex = x ->
  (forall s', at_ (os ++ ORemoveAll (rootDir x) :: option_list (OCancel <$> cancelFunc x))
                (set_extras (delete (podKey pod) (extras u)) u) s' -> Q tt s') ->
  twp hdl (createCleanup pod ex) Q s.
Proof.
  intros Hs Hx HQ. unfold createCleanup. apply twp_bind.
  eapply (twp_own env (ExtrasDelete (podKey pod)) tt); [exact Hs | done | done |]. intros s1 Hs1. apply twp_bind.
  eapply (twp_own env (ReadExtras ex) (get_ex u ex)); [exact Hs1 | done | done |]. intros s2 Hs2. rewrite Hx.
  apply twp_bind. eapply twp_ask; [done | exact Hs2 |]. intros a s3 Hs3. simpl in Hs3.
  destruct (cancelFunc x) as [c|].
  - eapply twp_ask; [done | exact Hs3 |]. intros [] s4 Hs4. apply HQ. rewrite <- app_assoc in Hs4. exact Hs4.
  - ret. apply HQ. exact Hs3.
Qed.

(** A rejected pod reaches no client: nothing is created and no context is made.  The
    one trace in the state is that the pod's entry is gone. *)
Lemma create_rejected e ctx u :
  rejected e ->
  exists s', run hdl (create ctx) (start u) = Some (Returned (Some e), s') /\
    seen s' = [ORemoveAll root] /\ extras (own s') = delete (podKey pod) (extras u).
Proof.
  intros Hr. assert (twp hdl (create ctx) (fun r s' => r = Returned (Some e) /\
    at_ [ORemoveAll root] (set_extras (delete (podKey pod) (extras u)) (fresh u)) s') (start u)) as Ht.
  2: { apply twp_run in Ht as (r & s' & Hrun & -> & H1 & H2). exists s'. by rewrite H2. }
  unfold CreateVirtualizationGroup. apply twp_bind.
  eapply (twp_own env (NewExtras root) (enext u) (fresh u) []); [done | done | done |]. intros s1 Hs1. apply twp_bind.
  rewrite (body_rejected e) by done. ret. apply twp_bind.
  eapply twp_cleanup; [exact Hs1 | apply get_fresh |]. intros s2 Hs2. ret. by split.
Qed.

(** A total run that returns. *)
Lemma twp_run_returned ctx u (P : option error -> traced cliE VzClientAPIs -> Prop) :
  twp hdl (create ctx) (fun r s' => exists r', r = Returned r' /\ P r' s') (start u) ->
  exists r s', run hdl (create ctx) (start u) = Some (Returned r, s') /\ P r s'.
Proof. intros Ht. apply twp_run in Ht as (r & s' & Hrun & r' & -> & Hp). by exists r', s'. Qed.

(** The state with the pod registered. *)
Definition registered (gctx : Ctx) (u : VzClientAPIs) : VzClientAPIs :=
  set_extras (<[podKey pod := enext u]> (extras u)) (set_ex (enext u) (withCancel (Some gctx) (zeroExtras root)) (fresh u)).

Lemma get_registered gctx u : get_ex (registered gctx u) (enext u) = withCancel (Some gctx) (zeroExtras root).
Proof. unfold get_ex, registered, set_extras, set_ex. simpl. by rewrite lookup_insert_eq. Qed.

(** The goroutines of a creation, whatever is known of each. *)
Lemma twp_createGroup ctx u c cs cpu mem (Rv : Ctx -> list Obs -> option error -> Prop)
    (Rs : Ctx -> K8s.Container -> list Obs -> option error -> Prop)
    (Q : ended -> traced cliE VzClientAPIs -> Prop) :
  K8s.pod_Containers pod = c :: cs -> cs = [] \/ hasCtr = true -> validate c = inr (cpu, mem) ->
  (forall gctx, goes env (createVM Getenv imageDomain pod token cms creds gctx root c cpu mem) (Rv gctx)) ->
  (forall gctx c', c' ∈ cs -> goes env (createSidecar Getenv imageDomain pod token cms creds gctx root c') (Rs gctx c')) ->
  (forall gctx (v : out) (outs : list out) os r s',
     Rv gctx (fst v) (snd v) -> Forall2 (fun c' (x : out) => Rs gctx c' (fst x) (snd x)) cs outs ->
     os ≡ₚ (fst v ++ flat_map fst outs)%list -> (r = None <-> Forall (fun x => snd x = None) (v :: outs)) ->
     (is_Some r -> r ∈ map snd (v :: outs)) ->
     match r with
     | None => at_ os (registered gctx u) s'
     | Some e => at_ (os ++ [ORemoveAll root; OCancel gctx])%list
                   (set_extras (delete (podKey pod) (extras u)) (registered gctx u)) s'
     end -> Q (Returned r) s') ->
  twp hdl (create ctx) Q (start u).
Proof.
  intros Hc Hctr Hv Hgv Hgs HQ. unfold CreateVirtualizationGroup. apply twp_bind.
  eapply (twp_own env (NewExtras root) (enext u) (fresh u) []); [done | done | done |]. intros s1 Hs1. apply twp_bind.
  unfold createBody. assert ((1 <? length (K8s.pod_Containers pod))%nat && negb hasCtr = false) as ->.
  { rewrite Hc. destruct Hctr as [-> | ->]; [done | by rewrite andb_false_r]. }
  rewrite Hc, Hv. apply twp_bind. eapply (twp_ask0 env (WithCancel ctx)); [done | done | exact Hs1 |].
  intros gctx s2 Hs2. apply twp_bind.
  eapply (twp_own env (SetCancel (enext u) gctx) tt); [exact Hs2 | done | done |]. intros s3 Hs3. apply twp_bind.
  eapply (twp_own env (ExtrasStore (podKey pod) (enext u)) tt (registered gctx u));
    [exact Hs3 | intros; simpl; by rewrite get_fresh | done |]. intros s4 Hs4.
  set (l := map (fun c' => (createSidecar Getenv imageDomain pod token cms creds gctx root c', Rs gctx c')) cs).
  assert (createVM Getenv imageDomain pod token cms creds gctx root c cpu mem
          :: map (createSidecar Getenv imageDomain pod token cms creds gctx root) cs =
          map fst ((createVM Getenv imageDomain pod token cms creds gctx root c cpu mem, Rv gctx) :: l)) as ->
    by (subst l; simpl; by rewrite map_map).
  eapply (twp_group env); [| exact Hs4 |].
  - constructor; [apply Hgv|]. apply Forall_map, Forall_forall. intros c' Hc'. by apply Hgs.
  - intros outs os r s5 Houts Hos Hs5 Hr He. inversion Houts as [|? v ? outs' HRv Hrest]; subst outs.
    assert (Forall2 (fun c' (x : out) => Rs gctx c' (fst x) (snd x)) cs outs') as Hrest'.
    { subst l. clear -Hrest. revert outs' Hrest. induction cs as [|c' cs' IH]; intros outs'; inversion_clear 1; constructor; auto. }
    destruct r as [e|].
    + apply twp_bind. eapply twp_cleanup; [exact Hs5 | apply get_registered |]. intros s6 [Ha Hb]. ret.
      apply (HQ gctx v outs' os (Some e)); [done | done | done | done | done |]. split; [exact Ha|].
      rewrite Hb. unfold registered, set_extras. simpl. f_equal. by rewrite delete_insert_eq.
    + ret. by apply (HQ gctx v outs' os None).
Qed.

(** *** What is accepted *)

(** The resources that a container requests: each as an unsigned number, where an absent
    request is the zero quantity and a quantity that is not whole is none. *)
Definition requests (c : K8s.Container) (resource : string) (n : Z) : Prop :=
  exists q, AsInt64 (default zeroQuantity (K8s.ct_Requests c !! resource)) = Some q /\ n = wrap_u64 q.

(** A container can be a machine: both requests are within the framework's bounds, and
    oras can parse the image's name. *)
Definition admissible (c : K8s.Container) (cpu mem : Z) : Prop :=
  requests c "cpu" cpu /\ (minCPU <= cpu <= maxCPU)%Z /\
  requests c "memory" mem /\ (minMemory <= mem <= maxMemory)%Z /\ NewRepository (K8s.ct_Image c) = None.

(** A pod is accepted: its first container can be a machine, and there is a container
    runtime if it has others. *)
Definition accepted (c : K8s.Container) (cs : list K8s.Container) (cpu mem : Z) : Prop :=
  (cs = [] \/ hasCtr = true) /\ admissible c cpu mem.

Lemma validate_admissible c cpu mem : validate c = inr (cpu, mem) <-> admissible c cpu mem.
Proof.
  unfold validate, admissible, requests, Requests.ExtractCPURequest, Requests.ExtractMemoryRequest, Requests.rl_get,
    ValidateImageReference, Limits.ValidateCPUCount, Limits.ValidateMemorySize.
  destruct (AsInt64 (default _ (K8s.ct_Requests c !! "cpu"))) as [q|]; [|split; [done | by intros ((q & ? & _) & _)]].
  destruct (maxCPU <? wrap_u64 q)%Z eqn:E1; cbn [snd];
    [split; [done | intros ((q' & [= <-] & ->) & Hb & _); bool_lia]|].
  destruct (wrap_u64 q <? minCPU)%Z eqn:E2; cbn [snd];
    [split; [done | intros ((q' & [= <-] & ->) & Hb & _); bool_lia]|].
  destruct (AsInt64 (default _ (K8s.ct_Requests c !! "memory"))) as [m|]; [|split; [done | by intros (_ & _ & (m & ? & _) & _)]].
  destruct (maxMemory <? wrap_u64 m)%Z eqn:E3; cbn [snd];
    [split; [done | intros (_ & _ & (m' & [= <-] & ->) & Hb & _); bool_lia]|].
  destruct (wrap_u64 m <? minMemory)%Z eqn:E4; cbn [snd];
    [split; [done | intros (_ & _ & (m' & [= <-] & ->) & Hb & _); bool_lia]|].
  destruct (NewRepository (K8s.ct_Image c)) eqn:E5; [split; [done | by intros (_ & _ & _ & _ & ?)]|]. split.
  - intros [= <- <-]. split_and!; [by exists q | bool_lia | bool_lia | by exists m | bool_lia | bool_lia | done].
  - by intros ((q' & [= <-] & ->) & _ & (m' & [= <-] & ->) & _).
Qed.

Lemma validate_invalid c e : validate c = inl e -> exists e', e = errInvalidInput e'.
Proof.
  unfold validate. destruct (Requests.ExtractCPURequest _) as [cpu [e1|]]; [intros [= <-]; by eexists|].
  destruct (snd (Limits.ValidateCPUCount _ _ _)); [intros [= <-]; by eexists|].
  destruct (Requests.ExtractMemoryRequest _) as [mem [e3|]]; [intros [= <-]; by eexists|].
  destruct (snd (Limits.ValidateMemorySize _ _ _)); [intros [= <-]; by eexists|].
  destruct (ValidateImageReference _ _); [intros [= <-]; by eexists | done].
Qed.

(** A pod is accepted, or rejected with an error of the caller's. *)
Lemma accepted_or_rejected c cs :
  K8s.pod_Containers pod = c :: cs ->
  (exists cpu mem, accepted c cs cpu mem) \/ exists e, rejected (errInvalidInput e).
Proof.
  intros Hc. destruct (decide (cs = [] \/ hasCtr = true)) as [Hr|Hr].
  - destruct (validate c) as [e|[cpu mem]] eqn:Ev.
    + right. destruct (validate_invalid c e Ev) as [e' ->]. exists e'. right. rewrite Hc. split.
      * destruct Hr as [->|Hr]; [left; simpl; lia | by right].
      * by exists c, cs.
    + left. exists cpu, mem. split; [exact Hr|]. by apply validate_admissible.
  - right. eexists. left. rewrite Hc. destruct cs as [|c' cs]; [destruct Hr; by left|].
    split_and!; [simpl; lia | destruct hasCtr; [destruct Hr; by right | done] | reflexivity].
Qed.

(** A creation that has succeeded has asked for the machine. *)
Lemma once_succeeds c asks (x : out) : once c asks (fst x) (snd x) -> snd x = None -> exists o, fst x = [o] /\ asks None o.
Proof. intros [(o & H1 & H2)|(_ & Hs & _)] Hx; rewrite Hx in *; [by exists o | by destruct Hs]. Qed.

(** C6: creating a group of a pod whose downward API items all have a field (one that has
    none makes the goroutine panic).  A pod that is not accepted is rejected, with an
    error that is the caller's fault, before any client is called.  For an accepted pod
    every container's goroutine runs, in any order and whatever happens to the others: it
    asks exactly once for its machine or its sidecar, as the pod describes it and under
    the group's context, or it has failed to make the container's mounts.  The creation
    succeeds exactly when all of them did, and then the group is registered with its
    directory and its context; otherwise the result is one of their errors, the group is
    not registered, its directory is removed, and its context is cancelled last. *)
Theorem client_create_outcome `{!ErrdefsLaws} ctx u c cs :
  Volumes.itemsHaveFields pod -> K8s.pod_Containers pod = c :: cs ->
  ((forall cpu mem, ~ accepted c cs cpu mem) ->
     exists e s', run hdl (create ctx) (start u) = Some (Returned (Some e), s') /\ IsInvalidInput (Some e) = true /\
       seen s' = [ORemoveAll root] /\ extras (own s') !! podKey pod = None) /\
  (forall cpu mem, accepted c cs cpu mem ->
     exists r s', run hdl (create ctx) (start u) = Some (Returned r, s') /\
     exists gctx os (v : out) (outs : list out),
       once c (asksVM gctx c cpu mem) (fst v) (snd v) /\
       Forall2 (fun c' (x : out) => once c' (asksCtr gctx c') (fst x) (snd x)) cs outs /\
       os ≡ₚ (fst v ++ flat_map fst outs)%list /\
       (r = None <-> Forall (fun x => snd x = None) (v :: outs)) /\ (is_Some r -> r ∈ map snd (v :: outs)) /\
       match r with
       | None => seen s' = os /\
           exists ex, extras (own s') !! podKey pod = Some ex /\
             get_ex (own s') ex = withCancel (Some gctx) (zeroExtras root)
       | Some _ => seen s' = (os ++ [ORemoveAll root; OCancel gctx])%list /\ extras (own s') !! podKey pod = None
       end).
Proof.
  intros Hi Hc. split.
  - intros Hn. destruct (accepted_or_rejected c cs Hc) as [(cpu & mem & Ha)|[e Hr]]; [by destruct (Hn cpu mem)|].
    destruct (create_rejected _ ctx u Hr) as (s' & Hrun & Hseen & Hx). exists (errInvalidInput e), s'.
    split_and!; [done | apply InvalidInput_is | done | by rewrite Hx, lookup_delete_eq].
  - intros cpu mem [Hctr Hv%validate_admissible]. apply twp_run_returned.
    eapply twp_createGroup; [exact Hc | exact Hctr | exact Hv | intros gctx; by apply goes_createVM
      | intros gctx c' _; by apply (goes_createSidecar gctx c') |].
    intros gctx v outs os r s' HRv Hrest Hos Hr He Hs'. exists r. split; [done|]. exists gctx, os, v, outs.
    split_and!; [done | done | done | done | done|]. destruct r as [e|]; destruct Hs' as [Hs' ->]; (split; [exact Hs'|]).
    + simpl. by rewrite lookup_delete_eq.
    + exists (enext u). split; [|apply get_registered]. simpl. by rewrite lookup_insert_eq.
Qed.

(** However it goes, a creation returns; a success has made the machine, and a failure
    has unregistered the group. *)
Lemma create_returns ctx u :
  Volumes.itemsHaveFields pod -> K8s.pod_Containers pod <> [] ->
  exists r s', run hdl (create ctx) (start u) = Some (Returned r, s') /\
    match r with
    | None => exists g p, OCreateVM g p None ∈ seen s'
    | Some _ => extras (own s') !! podKey pod = None
    end.
Proof.
  intros Hi Hne. destruct (K8s.pod_Containers pod) as [|c cs] eqn:Ec; [done|]. clear Hne.
  destruct (accepted_or_rejected c cs Ec) as [(cpu & mem & Hctr & Hv%validate_admissible)|[e Hr]].
  - apply twp_run_returned.
    eapply twp_createGroup; [exact Ec | exact Hctr | exact Hv | intros gctx; by apply goes_createVM
      | intros gctx c' _; by apply (goes_createSidecar gctx c') |].
    intros gctx v outs os r s' HRv Hrest Hos Hr _ Hs'. exists r. split; [done|]. destruct r as [e|]; destruct Hs' as [Hs' Hu].
    + rewrite Hu. simpl. by rewrite lookup_delete_eq.
    + pose proof (proj1 Hr eq_refl) as Hall. inversion_clear Hall as [|? ? Hn _].
      destruct (once_succeeds _ _ _ HRv Hn) as (o & Ho & p & -> & _). exists gctx, p. rewrite Hs', Hos, Ho. by left.
  - destruct (create_rejected _ ctx u Hr) as (s' & H1 & _ & H3). exists (Some (errInvalidInput e)), s'.
    split; [done|]. by rewrite H3, lookup_delete_eq.
Qed.

(** A sidecar that fails, next to a machine that was asked for. *)
Lemma create_failing ctx u c cs c' cpu mem :
  Volumes.itemsHaveFields pod -> K8s.pod_Containers pod = c :: cs -> hasCtr = true -> validate c = inr (cpu, mem) ->
  K8s.ct_VolumeMounts c = [] -> c' ∈ cs -> ~ Forall (Volumes.mountFetched pod cms) (K8s.ct_VolumeMounts c') ->
  exists e s', run hdl (create ctx) (start u) = Some (Returned (Some e), s') /\
    (exists g p r, OCreateVM g p r ∈ seen s') /\ extras (own s') !! podKey pod = None.
Proof.
  intros Hi Hc Hctr Hv Hm Hin Hf.
  assert (twp hdl (create ctx) (fun r s' => exists e, r = Returned (Some e) /\
    (exists g p r, OCreateVM g p r ∈ seen s') /\ extras (own s') !! podKey pod = None) (start u)) as Ht.
  2: { apply twp_run in Ht as (r & s' & Hrun & e & -> & Hp). by exists e, s'. }
  eapply (twp_createGroup ctx u c cs cpu mem _ (fun _ => _)); [exact Hc | by right | exact Hv | intros gctx; by apply goes_plainVM
    | intros gctx x _; by apply goes_fetched |].
  intros gctx v outs os r s' HRv Hrest Hos Hr _ Hs'.
  assert (is_Some r) as [e ->].
  { destruct r as [e|]; [by eexists|]. pose proof (proj1 Hr eq_refl) as Hall. inversion_clear Hall as [|? ? _ Hn].
    apply list_elem_of_lookup in Hin as [i Hi']. destruct (Forall2_lookup_l _ _ _ _ _ Hrest Hi') as (x & Hx & HR).
    specialize (HR Hf). rewrite (Forall_lookup_1 _ _ _ _ Hn Hx) in HR. by destruct HR. }
  exists e. split; [done|]. destruct Hs' as [Hs' Hu]. split.
  - destruct HRv as [p HRv]. exists gctx, p, (snd v). rewrite Hs', Hos, HRv. set_solver.
  - rewrite Hu. simpl. by rewrite lookup_delete_eq.
Qed.

End Creation.

(** ** Deletion *)

Section Deletion.
Context `{PrintTable} `{ED : Errdefs}.
Variables (env : oracle cliE) (hasCtr : bool) (ns name : string).
Abbreviation hdl := (traced_handler local env).
Abbreviation key := (VmData.key ns name).

(** The two deletions, in either order; without a container runtime there is one. *)
Definition deletions (v c : option error) (os : list Obs) : Prop :=
  if hasCtr then os = [ODeleteVM v; ORemoveCtrs c] \/ os = [ORemoveCtrs c; ODeleteVM v]
  else os = [ODeleteVM v] /\ c = None.

Lemma twp_both ctx gp os u s (Q : option error * option error -> traced cliE VzClientAPIs -> Prop) :
  at_ os u s ->
  (forall v c ds s', deletions v c ds -> at_ (os ++ ds) u s' -> Q (v, c) s') ->
  twp hdl (both (perform (Vm (DeleteVirtualMachine ctx ns name gp)))
                (if hasCtr then perform (Ctr (RemoveContainers ns name gp)) else Ret None)) Q s.
Proof.
  intros Hs HQ. unfold deletions in HQ. unfold both. apply twp_bind.
  eapply (twp_ask0 env Order); [done | done | exact Hs |]. intros o s1 Hs1.
  destruct o as [|n o]; destruct hasCtr.
  - apply twp_bind. eapply twp_ask; [done | exact Hs1 |]. intros v s2 Hs2. apply twp_bind.
    eapply twp_ask; [done | exact Hs2 |]. intros c s3 Hs3. ret. rewrite <- app_assoc in Hs3.
    eapply HQ; [by left | exact Hs3].
  - apply twp_bind. eapply twp_ask; [done | exact Hs1 |]. intros v s2 Hs2. apply twp_bind. ret. ret.
    eapply HQ; [done | exact Hs2].
  - apply twp_bind. eapply twp_ask; [done | exact Hs1 |]. intros c s2 Hs2. apply twp_bind.
    eapply twp_ask; [done | exact Hs2 |]. intros v s3 Hs3. ret. rewrite <- app_assoc in Hs3.
    eapply HQ; [by right | exact Hs3].
  - apply twp_bind. ret. apply twp_bind. eapply twp_ask; [done | exact Hs1 |]. intros v s2 Hs2. ret. eapply HQ; [done | exact Hs2].
Qed.

(** A registered group that nobody deletes yet. *)
Definition idle (u : VzClientAPIs) (ex : ExtrasRef) : Prop :=
  extras u !! key = Some ex /\ deleteOnce (get_ex u ex) = OnceFresh /\
  deleteDone (get_ex u ex) = None /\ deleteDoneClosed (get_ex u ex) = false.

Lemma get_set ex x u : get_ex (set_ex ex x u) ex = x.
Proof. unfold get_ex, set_ex. simpl. by rewrite lookup_insert_eq. Qed.

Lemma get_set_extras m u ex : get_ex (set_extras m u) ex = get_ex u ex.
Proof. done. Qed.

(** What follows the two deletions: the context, then the directory. *)
Definition cleanups (x : virtualizationGroupExtras) : list Obs :=
  option_list (OCancel <$> cancelFunc x) ++ (if String.eqb (rootDir x) "" then [] else [ORemoveAll (rootDir x)]).

Lemma twp_deleteBody ctx gp ex x os u s (Q : unit -> traced cliE VzClientAPIs -> Prop) :
  at_ os u s -> get_ex u ex = x -> deleteDone x = None ->
  (forall v c ds s' u', deletions v c ds -> at_ (os ++ ds ++ cleanups x) u' s' ->
     extras u' = delete key (extras u) ->
     get_ex u' ex = withClosed (withDone (Some (deleteResult v c)) x) -> Q tt s') ->
  twp hdl (deleteBody hasCtr ctx ns name gp ex) Q s.
Proof.
  intros Hs Hx Hd HQ. unfold deleteBody. apply twp_bind. eapply twp_both; [exact Hs|].
  intros v c ds s1 Hds Hs1. cbn [fst snd]. apply twp_bind.
  eapply (twp_own env (SendDone ex (deleteResult v c)) tt (set_ex ex (withDone (Some (deleteResult v c)) x) u));
    [exact Hs1 | intros a; simpl; by rewrite Hx, Hd | done |]. intros s2 Hs2. apply twp_bind.
  eapply (twp_own env (ExtrasDelete key) tt); [exact Hs2 | done | done |]. intros s3 Hs3. apply twp_bind.
  eapply (twp_own env (CloseDone ex) tt); [exact Hs3 | done | done |]. intros s4 Hs4. apply twp_bind.
  eapply (twp_own env (ReadExtras ex)); [exact Hs4 | done | done |]. intros s5 Hs5.
  rewrite get_set_extras, get_set in Hs5. rewrite get_set, get_set_extras, get_set. cbn [cancelFunc rootDir withClosed withDone].
  match type of Hs5 with at_ _ ?u5 _ => set (u' := u5) in * end.
  assert (forall s', at_ (os ++ ds ++ cleanups x) u' s' -> Q tt s') as HQ'.
  { intros s' Hs'. apply (HQ v c ds s' u'); [done | done | done |]. subst u'. by rewrite get_set. }
  clear HQ. unfold cleanups in HQ'. apply twp_bind.
  eapply (twp_mono _ _ (fun _ s' => at_ (os ++ ds ++ option_list (OCancel <$> cancelFunc x)) u' s')).
  - intros [] s6 Hs6. destruct (String.eqb (rootDir x) "").
    + ret. apply HQ'. by rewrite app_nil_r.
    + apply twp_bind. eapply twp_ask; [done | exact Hs6 |]. intros a s7 Hs7. ret. apply HQ'. by rewrite !app_assoc in *.
  - destruct (cancelFunc x) as [cf|].
    + eapply twp_ask; [done | exact Hs5 |]. intros [] s6 Hs6. by rewrite <- app_assoc in Hs6.
    + ret. simpl. by rewrite app_nil_r.
Qed.

(** The table, spelled out: success means that no side failed with anything but
    not-found, and that some side knew the group. *)
Lemma deleteResult_None v c :
  deleteResult v c = None <->
  (v = None /\ c = None) \/ (v = None /\ IsNotFound c = true) \/ (IsNotFound v = true /\ c = None).
Proof.
  unfold deleteResult. destruct v as [v|], c as [c|]; simpl.
  - destruct (isNotFoundErr v && isNotFoundErr c); (split; [|intros [[? ?]|[[? ?]|[? ?]]]; done]);
      [done | by rewrite errors_Join_None; intros Hn; specialize (Hn (Some v) ltac:(left))].
  - destruct (isNotFoundErr v); split; try done; [by right; right | intros [[? ?]|[[? ?]|[? ?]]]; done].
  - destruct (isNotFoundErr c); split; try done; [by right; left | intros [[? ?]|[[? ?]|[? ?]]]; done].
  - split; [by left | done].
Qed.

(** Errors are kept: not-found when both sides say so, and any other error. *)
Lemma deleteResult_Some v c :
  (IsNotFound v = true /\ IsNotFound c = true -> deleteResult v c = Some errVirtualizationGroupNotFound) /\
  (forall e, v = Some e -> IsNotFound v = false -> isErr (deleteResult v c) e = true) /\
  (forall e, c = Some e -> IsNotFound c = false -> isErr (deleteResult v c) e = true).
Proof.
  unfold deleteResult. split_and!.
  - destruct v as [v|], c as [c|]; simpl; intros [H1 H2]; try done. by rewrite H1, H2.
  - intros e -> Hn. destruct c as [c|]; simpl in *; rewrite Hn; simpl.
    + apply (errors_Join_Is [Some e; Some c] e e); [left | apply errors_Is_refl].
    + apply isErr_refl.
  - intros e -> Hn. destruct v as [v|]; simpl in *; rewrite Hn, ?andb_false_r; simpl.
    + apply (errors_Join_Is [Some v; Some e] e e); [right; left | apply errors_Is_refl].
    + apply isErr_refl.
Qed.

Lemma twp_DeleteGroup ctx gp u ex :
  idle u ex ->
  twp hdl (DeleteVirtualizationGroup hasCtr ctx ns name gp) (fun r s' => exists v c ds,
    deletions v c ds /\ seen s' = (ds ++ cleanups (get_ex u ex))%list /\ extras (own s') = delete key (extras u) /\
    (r = deleteResult v c \/ exists n e, env _ n (RecvDone ctx ex) = inl e /\ r = Some e)) (start u).
Proof.
  intros (Hk & Ho & Hd & Hcl). set (x := get_ex u ex) in *.
  unfold DeleteVirtualizationGroup. apply twp_bind.
  eapply (twp_own env (ExtrasLoad key) (Some ex) u []); [done | intros; simpl; by rewrite Hk | done |].
  intros s1 Hs1. apply twp_bind.
  eapply (twp_own env (OnceBegin ex) true (set_ex ex (withOnce OnceRunning x) u));
    [exact Hs1 | intros; simpl; fold x; by rewrite Ho | done |]. intros s2 Hs2. apply twp_bind. cbv iota. apply twp_bind.
  eapply twp_deleteBody; [exact Hs2 | apply get_set | done |].
  intros v c ds s3 u3 Hds Hs3 He3 Hx3.
  eapply (twp_own env (OnceEnd ex) tt); [exact Hs3 | done | done |]. intros s4 Hs4. apply twp_bind.
  destruct Hs4 as [Hs4 Hu4]. destruct s4 as [n tr u4]. simpl in Hu4. subst u4.
  cbn [twp perform]. unfold traced_handler at 1. cbn [clock own].
  destruct (env _ n (RecvDone ctx ex)) as [e|r0] eqn:Er; cbn [local].
  - exists v, c, ds. split_and!; [done | | done |].
    + rewrite seen_cons. cbn [obs_of option_list option_rect]. rewrite app_nil_r. exact Hs4.
    + right. by exists n, e.
  - rewrite get_set, Hx3. simpl. exists v, c, ds. split_and!; [done | | done | by left].
    rewrite seen_cons. cbn [obs_of option_list option_rect]. rewrite app_nil_r. exact Hs4.
Qed.

(** C7: deleting a registered group, alone: the virtual machine and the containers
    are each deleted once, in either order, and both before the group's context is
    cancelled and its directory removed; the group is not registered any more even
    when a deletion failed.  Unless the caller's own context ended, the result is that of
    the table: nil exactly when some side knew the group and neither failed with
    anything but not-found; not found when neither knew it; real errors are kept. *)
Theorem client_delete_outcome ctx gp u ex :
  idle u ex ->
  exists r s' v c ds, run hdl (DeleteVirtualizationGroup hasCtr ctx ns name gp) (start u) = Some (r, s') /\
    deletions v c ds /\ seen s' = (ds ++ cleanups (get_ex u ex))%list /\
    extras (own s') = delete key (extras u) /\
    ((exists n e, env _ n (RecvDone ctx ex) = inl e /\ r = Some e) \/
     r = deleteResult v c /\
     (r = None <-> (v = None /\ c = None) \/ (v = None /\ IsNotFound c = true) \/ (IsNotFound v = true /\ c = None)) /\
     (IsNotFound v = true /\ IsNotFound c = true -> r = Some errVirtualizationGroupNotFound) /\
     (forall e, v = Some e -> IsNotFound v = false -> isErr r e = true) /\
     (forall e, c = Some e -> IsNotFound c = false -> isErr r e = true)).
Proof.
  intros Hi. destruct (twp_run _ _ _ _ (twp_DeleteGroup ctx gp u ex Hi)) as (r & s' & Hrun & v & c & ds & H1 & H2 & H3 & H4).
  exists r, s', v, c, ds. split_and!; try done. destruct H4 as [-> |]; [right | by left].
  destruct (deleteResult_Some v c) as (H5 & H6 & H7).
  split; [done | split; [apply deleteResult_None | split; [exact H5 | split; [exact H6 | exact H7]]]].
Qed.

(** A group that is not registered is not found, and nothing is called. *)
Lemma delete_unregistered ctx gp u :
  extras u !! key = None ->
  exists s', run hdl (DeleteVirtualizationGroup hasCtr ctx ns name gp) (start u)
             = Some (Some errVirtualizationGroupNotFound, s') /\ seen s' = [] /\ own s' = u.
Proof.
  intros Hk. unfold DeleteVirtualizationGroup. cbn [run bind perform]. unfold traced_handler at 1. cbn [local].
  simpl. rewrite Hk. by eexists.
Qed.

End Deletion.

(** ** Several deletions of one group at once *)

(** Operations that no deletion performs. *)
Definition foreign X (e : cliE X) : bool :=
  match e with NewExtras _ | ExtrasStore _ _ => true | _ => false end.

(** The answers of the [sync.Once] of [ex]. *)
Definition wins (ex : ExtrasRef) X (e : cliE X) : X -> option bool :=
  match e in cliE X return X -> option bool with
  | OnceBegin r => fun x => if decide (r = ex) then Some x else None
  | _ => fun _ => None
  end.

(** The map knows no extras but [ex], so the loads answer nothing else. *)
Definition onlyEx (ex : ExtrasRef) (u : VzClientAPIs) : Prop := forall k r, extras u !! k = Some r -> r = ex.
Definition loadsEx (ex : ExtrasRef) X (e : cliE X) : X -> Prop :=
  match e in cliE X return X -> Prop with
  | ExtrasLoad _ => fun x => forall r, x = Some r -> r = ex
  | _ => fun _ => True
  end.

Definition freshOnce (ex : ExtrasRef) (u : VzClientAPIs) : Prop := deleteOnce (get_ex u ex) = OnceFresh.

Lemma onlyEx_step ex X (e : cliE X) x0 u x u' :
  onlyEx ex u -> foreign X e = false -> local X e x0 u = Some (x, u') -> onlyEx ex u' /\ loadsEx ex X e x.
Proof.
  unfold onlyEx. intros Hex He Hl.
  destruct e; simpl in *; simplify_eq/=; try done; repeat (case_match; simplify_eq/=; try done);
    (split; [|by eauto]); try done.
  intros k' r. rewrite lookup_delete_Some. intros [_ ?]. eauto.
Qed.

Lemma client_wins_step ex X (e : cliE X) x0 u x u' :
  wins ex X e x = Some true -> local X e x0 u = Some (x, u') -> freshOnce ex u /\ ~ freshOnce ex u'.
Proof.
  unfold freshOnce. destruct e; simpl; try done. destruct (decide (r = ex)) as [->|]; [|done]. intros [= ->].
  destruct (deleteOnce (get_ex u ex)) eqn:Eo; intros Hl; simplify_eq.
  split; [done|]. unfold get_ex, set_ex. simpl. by rewrite lookup_insert_eq.
Qed.

(** Nothing makes a used [sync.Once] fresh again. *)
Lemma client_fresh_step ex X (e : cliE X) x0 u x u' :
  foreign X e = false -> local X e x0 u = Some (x, u') -> freshOnce ex u' -> freshOnce ex u.
Proof.
  unfold freshOnce.
  assert (forall r v, deleteOnce v = deleteOnce (get_ex u r) \/ deleteOnce v <> OnceFresh ->
    deleteOnce (get_ex (set_ex r v u) ex) = OnceFresh -> deleteOnce (get_ex u ex) = OnceFresh) as Hset.
  { intros r v Hv. unfold get_ex, set_ex. simpl. destruct (decide (r = ex)) as [->|Hne].
    - rewrite lookup_insert_eq. simpl. destruct Hv as [Hv|Hv]; [by rewrite Hv | done].
    - by rewrite lookup_insert_ne. }
  destruct e; simpl; intros He Hl; simplify_eq/=; try done;
    repeat (case_match; simplify_eq/=; try done); apply Hset; simpl; by auto.
Qed.

(** The two kinds of calls. *)
Definition isDeleteVM X (e : cliE X) : bool :=
  match e with Vm e => match e with DeleteVirtualMachine _ _ _ _ => true | _ => false end | _ => false end.
Definition isRemoveCtrs X (e : cliE X) : bool :=
  match e with Ctr e => match e with RemoveContainers _ _ _ => true | _ => false end | _ => false end.

Definition noCost X (e : cliE X) : nat := 0.
Abbreviation calls isD := (count (S := VzClientAPIs) isD).

Ltac once_step :=
  match goal with
  | |- True => exact I
  | |- _ = _ => reflexivity
  | |- _ /\ _ => split
  | |- forall _, _ => intros
  | |- (_ <= _)%nat => unfold noCost; lia
  | |- context [match ?x with _ => _ end] => destruct x
  end; cbn.

Section DeleteOnce.
Context `{PrintTable} `{ED : Errdefs}.

Lemma crit_delete hasCtr ctx ns name gp ex isD n :
  isD = isDeleteVM \/ isD = isRemoveCtrs -> (n = 1)%nat ->
  crit isD (wins ex) foreign noCost n (deleteBody hasCtr ctx ns name gp ex ;; perform (OnceEnd ex)).
Proof. intros [-> | ->] ->; destruct hasCtr; cbn; repeat once_step. Qed.

Lemma guarded_delete hasCtr ctx ns name gp ex isD :
  isD = isDeleteVM \/ isD = isRemoveCtrs ->
  guarded isD (wins ex) foreign noCost (loadsEx ex) (DeleteVirtualizationGroup hasCtr ctx ns name gp).
Proof.
  intros HD. unfold DeleteVirtualizationGroup. cbn [bind perform guarded].
  split_and!; [done | by destruct HD as [-> | ->] |]. intros [r|]; [|done]. intros Hr. cbn [wins].
  rewrite (Hr r eq_refl). clear Hr r. cbn [bind perform guarded].
  split_and!; [done | by destruct HD as [-> | ->] |]. intros mine _. cbn [wins]. rewrite decide_True by done.
  destruct mine.
  - apply (crit_bind _ _ _ _ _ _ 1 0); [by apply crit_delete|]. intros _. destruct HD as [-> | ->]; cbn; repeat once_step.
  - destruct HD as [-> | ->]; cbn; repeat once_step.
Qed.

(** However many deletions of one registered group run at once, with whatever
    contexts and grace periods, and however they interleave: the virtual machine is
    deleted at most once and the containers are removed at most once. *)
Lemma group_deleted_once env hasCtr ns name u ex reqs c :
  extras u = {[VmData.key ns name := ex]} -> deleteOnce (get_ex u ex) = OnceFresh ->
  rtc (pool_step (traced_handler local env) (option error) (fun _ _ => []))
    (map (fun '(ctx, gp) => DeleteVirtualizationGroup hasCtr ctx ns name gp) reqs, start u) c ->
  (calls isDeleteVM (snd c) <= 1)%nat /\ (calls isRemoveCtrs (snd c) <= 1)%nat.
Proof.
  intros Hx Ho Hr.
  assert (forall isD, isD = isDeleteVM \/ isD = isRemoveCtrs -> (calls isD (snd c) <= 1)%nat) as Hall; [|auto].
  intros isD HD.
  eapply (at_most_once local env (fun _ _ => []) isD (wins ex) foreign noCost (onlyEx ex) (loadsEx ex) (freshOnce ex));
    [apply onlyEx_step | apply client_wins_step | apply client_fresh_step | by exists [] | | | exact Hr].
  - intros k r. rewrite Hx. rewrite lookup_singleton_Some. by intros [_ ->].
  - apply Forall_map, Forall_forall. intros [ctx gp] _. by apply guarded_delete.
Qed.

End DeleteOnce.

(** ** Queries *)

Lemma combine_lookup vms ctrs k :
  combine vms ctrs !! k =
  match vms !! k, ctrs !! k with
  | None, None => None
  | v, c => Some {| vg_VM := v; vg_Containers := default [] c |}
  end.
Proof.
  unfold combine. revert k. set (l := fmap (M := gmap NamespacedName) _ vms).
  assert (forall k, l !! k = (fun v => {| vg_VM := Some v; vg_Containers := [] |}) <$> vms !! k) as Hl
    by (intros k; subst l; apply lookup_fmap).
  apply (map_fold_weak_ind (fun acc m => forall k, acc !! k =
    match vms !! k, m !! k with
    | None, None => None
    | v, c => Some {| vg_VM := v; vg_Containers := default [] c |}
    end)).
  - intros k. rewrite Hl, lookup_empty. by destruct (vms !! k).
  - intros k c m acc Hk Hacc k'. destruct (decide (k = k')) as [<-|Hne].
    + rewrite !lookup_insert_eq, Hacc, Hk. by destruct (vms !! k).
    + rewrite !lookup_insert_ne by done. apply Hacc.
Qed.

(** The list of the groups has one for every pod that the machine side or the
    container side knows, with the machine (or none) and the containers (or none) that
    they report, and the errors of both sides. *)
Lemma client_list_spec env hasCtr u :
  exists l e s' n1 n2, run (traced_handler local env) (GetVirtualizationGroupListResult hasCtr) (start u) = Some ((l, e), s') /\
    let v := env _ n1 (Vm GetVirtualMachineListResult) in
    let c := if hasCtr then env _ n2 (Ctr GetContainersListResult) else (∅, None) in
    own s' = u /\ e = listErr (snd v) (snd c) /\
    forall k, l !! k =
      match fst v !! k, fst c !! k with
      | None, None => None
      | v, c => Some {| vg_VM := v; vg_Containers := default [] c |}
      end.
Proof.
  unfold GetVirtualizationGroupListResult, both. cbn [bind run perform]. unfold traced_handler at 1. cbn [local].
  destruct (env _ _ Order) as [|o os]; destruct hasCtr; cbn.
  - eexists _, _, _, 1%nat, 2%nat. split_and!; [reflexivity | done | done | apply combine_lookup].
  - eexists _, _, _, 1%nat, 2%nat. split_and!; [reflexivity | done | done | apply combine_lookup].
  - eexists _, _, _, 2%nat, 1%nat. split_and!; [reflexivity | done | done | apply combine_lookup].
  - eexists _, _, _, 1%nat, 2%nat. split_and!; [reflexivity | done | done | apply combine_lookup].
Qed.

(** A command goes to the sidecar of that name when there is one, and to the virtual
    machine otherwise, with the same arguments. *)
Lemma exec_routing env hasCtr ctx ns pod c cmd a u :
  exists s' x, run (traced_handler local env) (ExecuteContainerCommand hasCtr ctx ns pod c cmd a) (start u) = Some (x, s') /\
    own s' = u /\
    exists n r, trace s' = (if hasCtr && env _ 0%nat (Ctr (IsContainerPresent ns pod c))
                            then Call (Ctr (ExecInContainer ctx ns pod c cmd a)) x
                            else Call (Vm (ExecInVirtualMachine ctx ns pod cmd a)) x) :: r /\ (length r <= n <= 1)%nat.
Proof.
  unfold ExecuteContainerCommand, isSidecar. destruct hasCtr; cbn.
  - destruct (env _ _ (Ctr (IsContainerPresent ns pod c))) eqn:E; cbn; eexists _, _; (split_and!; [done | done |]);
      exists 1%nat; eexists; rewrite ?E; split; try reflexivity; simpl; lia.
  - eexists _, _. split_and!; [done | done |]. exists 0%nat. eexists. split; [reflexivity | simpl; lia].
Qed.

(** ** Inputs *)

(** Everything below works; [n] counts the operations. *)
Definition works : oracle cliE := fun X n e =>
  match e in cliE X return X with
  | Vm e => match e in vmE X return X with
            | CreateVirtualMachine _ _ => None
            | DeleteVirtualMachine _ _ _ _ => None
            | GetVirtualMachine _ _ => (Res.NewMacOSVirtualMachine [], None)
            | GetVirtualMachineListResult => (∅, None)
            | ExecInVirtualMachine _ _ _ _ _ => None
            | GetVirtualMachineStats _ _ => inr (errMsg "no stats")
            end
  | Ctr e => match e in ctrE X return X with
             | CreateContainer _ _ => None
             | RemoveContainers _ _ _ => None
             | GetContainers _ _ => ([], None)
             | GetContainersListResult => (∅, None)
             | Api.GetContainerLogs _ _ _ _ => inl 0%nat
             | ExecInContainer _ _ _ _ _ _ => None
             | Api.AttachToContainer _ _ _ _ _ => None
             | IsContainerPresent _ _ _ => true
             | GetContainerStats _ _ _ => inr (errMsg "no stats")
             end
  | Fs e => match e in Volumes.fsE X return X with Volumes.MkdirAll _ _ => None | Volumes.WriteFile _ _ _ => None end
  | RemoveAll _ => None
  | WithCancel ctx => S ctx
  | Cancel _ => tt
  | Order => [1%nat]
  | NewExtras _ => 0%nat
  | SetCancel _ _ => tt
  | ReadExtras _ => zeroExtras ""
  | ExtrasStore _ _ => tt
  | ExtrasLoad _ => None
  | ExtrasDelete _ => tt
  | OnceBegin _ => true
  | OnceEnd _ => tt
  | SendDone _ _ => tt
  | CloseDone _ => tt
  | RecvDone _ _ => inr None
  end.

Definition sample_c (cpu : option Z) : K8s.Container :=
  {| K8s.ct_Name := "macos"; K8s.ct_Image := "reg.io/mac:14"; K8s.ct_ImagePullPolicy := K8s.PullAlways;
     K8s.ct_Command := []; K8s.ct_Args := []; K8s.ct_WorkingDir := ""; K8s.ct_Env := []; K8s.ct_VolumeMounts := [];
     K8s.ct_Requests := {["cpu" := cpu; "memory" := Some 8589934592%Z]}; K8s.ct_Lifecycle := None;
     K8s.ct_TTY := false; K8s.ct_Stdin := false; K8s.ct_StdinOnce := false |}.

Definition sample_pod (cpu : option Z) : K8s.Pod :=
  {| K8s.pod_Namespace := "ci"; K8s.pod_Name := "p"; K8s.pod_UID := "u1"; K8s.pod_CreationTimestamp := 50%Z;
     K8s.pod_DeletionTimestamp := None; K8s.pod_DeletionGracePeriodSeconds := None;
     K8s.pod_Containers := [sample_c cpu; PodStatus.sample_container "redis"]; K8s.pod_Volumes := [];
     K8s.pod_ImagePullSecrets := []; K8s.pod_ServiceAccountName := ""; K8s.pod_AutomountServiceAccountToken := None;
     K8s.pod_Status := K8s.pod_Status PodStatus.sample_pod |}.

Lemma sample_items cpu : Volumes.itemsHaveFields (sample_pod cpu).
Proof. intros v srcs s items it Hv. simpl in Hv. by apply not_elem_of_nil in Hv. Qed.

Definition noTable : PrintTable := fun _ => true.

Abbreviation sample_create cpu := (@CreateVirtualizationGroup noTable (fun _ => "") "/cache" true 8%Z 1%Z
  17179869184%Z 1073741824%Z (fun _ => None) (fun _ => None) (sample_pod cpu) "tok" ∅
  (Creds.NewRegistryCredentialStore None []) 0%nat).

Abbreviation sample_outcome cpu := (@client_create_outcome noTable errdefs_model works (fun _ => "") "/cache" true 8%Z 1%Z
  17179869184%Z 1073741824%Z (fun _ => None) (fun _ => None) (sample_pod (Some cpu)) "tok" ∅
  (Creds.NewRegistryCredentialStore None []) errdefs_model_laws 0%nat noExtras
  (sample_c (Some cpu)) [PodStatus.sample_container "redis"] (sample_items _) eq_refl).

(** Four processors are accepted, sixty-four are not. *)
Lemma client_create_outcome_witness :
  (exists r s', run (traced_handler local works) (sample_create (Some 4%Z)) (start noExtras) = Some (Returned r, s') /\
     exists g p e, OCreateVM g p e ∈ seen s' /\ MacOS.p_CPU p = 4%Z) /\
  exists e s', run (traced_handler local works) (sample_create (Some 64%Z)) (start noExtras) = Some (Returned (Some e), s') /\
    seen s' = [ORemoveAll "/cache/mounts/u1"].
Proof.
  split.
  - destruct (proj2 (sample_outcome 4%Z) 4%Z 8589934592%Z)
      as (r & s' & Hr & g & os & v & outs & [(o & Hv & p & -> & Hp & _)|(_ & _ & Hm)] & _ & Hos & _ & _ & Hs).
    + split; [by right|]. split; [by eexists|]. split; [lia|]. split; [by eexists|]. split; [lia | done].
    + exists r, s'. split; [exact Hr|]. exists g, p, (snd v). split; [|exact Hp].
      assert (OCreateVM g p (snd v) ∈ os) as Hin by (rewrite Hos, Hv; by left).
      destruct r; destruct Hs as [-> _]; [apply elem_of_app; by left | exact Hin].
    + by destruct Hm.
  - destruct (proj1 (sample_outcome 64%Z)) as (e & s' & Hr & _ & Hs & _).
    + intros cpu mem [_ [(q & Hq & ->) [Hb _]]]. vm_compute in Hq. injection Hq as <-. vm_compute in Hb. by destruct Hb.
    + exists e, s'. by split.
Defined.

(** A registered group: what a successful creation leaves. *)
Definition sample_state : VzClientAPIs :=
  {| extras := {[VmData.key "ci" "p" := 0%nat]};
     eheap := {[0%nat := withCancel (Some 1%nat) (zeroExtras "/cache/mounts/u1")]}; enext := 1%nat |}.

Lemma client_delete_outcome_witness :
  exists r s' v c ds, run (traced_handler local works) (@DeleteVirtualizationGroup errdefs_model true 0%nat "ci" "p" 30%Z)
      (start sample_state) = Some (r, s') /\ deletions true v c ds /\
    seen s' = (ds ++ [OCancel 1%nat; ORemoveAll "/cache/mounts/u1"])%list.
Proof.
  assert (idle "ci" "p" sample_state 0%nat) as Hi by (split; [|split; [|split]]; vm_compute; reflexivity).
  destruct (@client_delete_outcome errdefs_model works true "ci" "p" 0%nat 30%Z sample_state 0%nat Hi)
    as (r & s' & v & c & ds & H1 & H2 & H3 & _).
  exists r, s', v, c, ds. split; [exact H1 | split; [exact H2 | exact H3]].
Defined.

Lemma group_deleted_once_witness :
  (calls isDeleteVM (start sample_state) <= 1)%nat.
Proof.
  refine (proj1 (@group_deleted_once errdefs_model works true "ci" "p" sample_state 0%nat [(0%nat, 30%Z); (1%nat, 0%Z)]
    (_, start sample_state) eq_refl _ (rtc_refl _ _))).
  vm_compute. reflexivity.
Defined.

(** A creation of a group that already exists, with a pod that is rejected, makes
    the client forget the existing group: its machine and its containers were not
    touched, and a deletion of the group answers not found without calling anything. *)
Lemma rejected_create_forgets_group `{PrintTable} `{ED : Errdefs} env Getenv cache hasCtr mc nc mm nm dom repo
    pod token cms creds ctx ctx' gp u ex e :
  extras u !! podKey pod = Some ex -> rejected hasCtr mc nc mm nm repo pod e ->
  exists s1 s2,
    run (traced_handler local env) (CreateVirtualizationGroup Getenv cache hasCtr mc nc mm nm dom repo pod token cms creds ctx)
      (start u) = Some (Returned (Some e), s1) /\
    run (traced_handler local env) (DeleteVirtualizationGroup hasCtr ctx' (K8s.pod_Namespace pod) (K8s.pod_Name pod) gp)
      (start (own s1)) = Some (Some errVirtualizationGroupNotFound, s2) /\
    calls isDeleteVM s1 = 0%nat /\ seen s2 = [].
Proof.
  intros Hex Hr. destruct (create_rejected env Getenv cache hasCtr mc nc mm nm dom repo pod token cms creds e ctx u Hr)
    as (s1 & H1 & H2 & H3).
  destruct (delete_unregistered env hasCtr (K8s.pod_Namespace pod) (K8s.pod_Name pod) ctx' gp (own s1)) as (s2 & H4 & H5 & _).
  { rewrite H3. apply lookup_delete_eq. }
  exists s1, s2. split_and!; [done | done | | done].
  unfold seen in H2. unfold count. revert H2. generalize (trace s1). intros tr H2.
  assert (omap obs_of tr = [ORemoveAll (getPodVolumeRoot cache pod)]) as H6
    by (apply (f_equal (@rev Obs)) in H2; by rewrite rev_involutive in H2).
  destruct (List.filter (isDc isDeleteVM) tr) as [|x l] eqn:E; [done|].
  assert (List.In x tr /\ isDc isDeleteVM x = true) as [Hin Hx].
  { apply filter_In. rewrite E. by left. }
  destruct x as [X op x]. destruct op as [X op| | | | | | | | | | | | | | | | |]; try done. destruct op; try done.
  assert (ODeleteVM x ∈ omap obs_of tr) as Hom.
  { apply list_elem_of_omap. eexists. split; [by apply list_elem_of_In | done]. }
  rewrite H6 in Hom. by apply list_elem_of_singleton in Hom.
Qed.

Lemma rejected_create_forgets_group_witness :
  exists s1 s2,
    run (traced_handler local works) (sample_create (Some 64%Z)) (start sample_state) =
      Some (Returned (Some (AsInvalidInput (errMsg "cpu count 64 is greater than the maximum allowed cpu count 8"))), s1) /\
    run (traced_handler local works) (@DeleteVirtualizationGroup errdefs_model true 0%nat "ci" "p" 30%Z) (start (own s1)) =
      Some (Some errVirtualizationGroupNotFound, s2).
Proof.
  destruct (@rejected_create_forgets_group noTable errdefs_model works (fun _ => "") "/cache" true 8%Z 1%Z
    17179869184%Z 1073741824%Z (fun _ => None) (fun _ => None) (sample_pod (Some 64%Z)) "tok" ∅
    (Creds.NewRegistryCredentialStore None []) 0%nat 0%nat 30%Z sample_state 0%nat
    (AsInvalidInput (errMsg "cpu count 64 is greater than the maximum allowed cpu count 8")))
    as (s1 & s2 & H1 & H2 & _).
  - vm_compute. reflexivity.
  - right. split; [right; reflexivity|]. eexists _, _. split; [reflexivity | vm_compute; reflexivity].
  - exists s1, s2. split; [exact H1 | exact H2].
Defined.

End ClientProofs.
