(* ===== verification/Manager.v ===== *)
(** * pkg/downloader/manager.go: one download per image, shared by its subscribers

    A [state] is shared by pointer between the subscribers of one image reference and
    the goroutine that downloads it; the map of the manager leads from a reference to
    the current state.  [Download] and [startDownload] are programs over the atomic
    operations on both ([mgrE]), and the theorems are on pools of any number of them.
    What [downloader.Download] itself answers is the oracle's. *)
From Stdlib Require Import ZArith Lia.
From Stdlib Require Import Ascii String.
From stdpp Require Import base list gmap strings relations.
From S2P Require Import Prelude GoStrings GoErrors GoTime Prog Once Resource Stores MacOS.
Local Open Scope string_scope.
Local Open Scope go_scope.

Module Manager.

Definition StateRef := nat.

(** What a download ends with, and how long it took. *)
Definition Result : Type := (MacOS.MacPlatformConfigurationOptions + error) * Z.

Inductive OnceState := OnceFresh | OnceRunning | OnceDone.

(* src/pkg/downloader/manager.go : state *)
Record state := {
  subscribers : Z;
  once : OnceState;
  done : bool;                    (* the channel is closed *)
  cancelFunc : option Ctx;
  result : option Result          (* config and err, duration *)
}.

Definition newState : state :=
  {| subscribers := 0; once := OnceFresh; done := false; cancelFunc := None; result := None |}.

(* src/pkg/downloader/manager.go : Manager *)
Record Manager := {
  downloads : gmap string StateRef;
  states : gmap StateRef state;
  cancelled : gset Ctx;           (* download contexts that were cancelled *)
  nextCtx : Ctx
}.

(* src/pkg/downloader/manager.go : NewManager *)
Definition NewManager : Manager :=
  {| downloads := ∅; states := ∅; cancelled := ∅; nextCtx := 0 |}.

(** How a subscriber's wait ends. *)
Inductive Waited := CtxFirst | DoneFirst (r : Result).

Inductive mgrE : Type -> Type :=
| NewState : mgrE StateRef
| LoadOrStore (ref : string) (st : StateRef) : mgrE StateRef
| DownloadsDelete (ref : string) : mgrE unit
| SubsAdd (st : StateRef) (n : Z) : mgrE Z
| OnceBegin (st : StateRef) : mgrE bool
| OnceEnd (st : StateRef) : mgrE unit
| NewDownloadCtx (st : StateRef) : mgrE Ctx             (* st.cancelFunc is set *)
| CallCancel (st : StateRef) : mgrE unit                (* st.cancelFunc() *)
| GoStart (ctx : Ctx) (st : StateRef) (ref : string) (ignoreExisting : bool) (creds : Creds.RegistryCredentials)
  : mgrE unit
| SelectDone (ctx : Ctx) (st : StateRef) : mgrE Waited  (* select: ctx.Done, or st.done *)
| DownloadOCI (ctx : Ctx) (ref : string) (ignoreExisting : bool) (creds : Creds.RegistryCredentials)
  : mgrE (MacOS.MacPlatformConfigurationOptions + error)
| DownloadCtxErr (ctx : Ctx) : mgrE (option error)
| SetResult (st : StateRef) (r : Result) : mgrE unit
| CloseDone (st : StateRef) : mgrE unit
| Now : mgrE Time.t.

Definition get (s : Manager) (st : StateRef) : state := default newState (states s !! st).
Definition put (st : StateRef) (x : state) (s : Manager) : Manager :=
  {| downloads := downloads s; states := <[st := x]> (states s); cancelled := cancelled s;
     nextCtx := nextCtx s |}.
Definition setDownloads (d : gmap string StateRef) (s : Manager) : Manager :=
  {| downloads := d; states := states s; cancelled := cancelled s; nextCtx := nextCtx s |}.

Definition withSubs (n : Z) (x : state) : state :=
  {| subscribers := n; once := once x; done := done x; cancelFunc := cancelFunc x; result := result x |}.
Definition withOnce (o : OnceState) (x : state) : state :=
  {| subscribers := subscribers x; once := o; done := done x; cancelFunc := cancelFunc x; result := result x |}.
Definition withCancel (c : Ctx) (x : state) : state :=
  {| subscribers := subscribers x; once := once x; done := done x; cancelFunc := Some c; result := result x |}.
Definition withDone (x : state) : state :=
  {| subscribers := subscribers x; once := once x; done := true; cancelFunc := cancelFunc x; result := result x |}.
Definition withResult (r : Result) (x : state) : state :=
  {| subscribers := subscribers x; once := once x; done := done x; cancelFunc := cancelFunc x; result := Some r |}.

(** The result that a subscriber reads: the zero values before there is one. *)
Definition noConfig : MacOS.MacPlatformConfigurationOptions :=
  {| MacOS.BlockStoragePath := ""; MacOS.AuxiliaryStoragePath := ""; MacOS.HardwareModelData := "";
     MacOS.MachineIdentifierData := "" |}.
Definition readResult (x : state) : Result := default (inl noConfig, 0%Z) (result x).

(** [Once.Do] makes later callers wait while the function runs; a wait ends when the
    channel is closed, unless the subscriber's context ends first (the oracle's
    [CtxFirst]); a call of a nil [cancelFunc] would panic, here it blocks. *)
Definition local : local_handler mgrE Manager := fun X e =>
  match e in mgrE X return X -> Manager -> option (X * Manager) with
  | NewState => fun _ s =>
      let st := fresh (dom (states s)) in Some (st, put st newState s)
  | LoadOrStore ref st => fun _ s =>
      match downloads s !! ref with
      | Some old => Some (old, s)
      | None => Some (st, setDownloads (<[ref := st]> (downloads s)) s)
      end
  | DownloadsDelete ref => fun _ s => Some (tt, setDownloads (delete ref (downloads s)) s)
  | SubsAdd st n => fun _ s =>
      let v := wrap_i32 (subscribers (get s st) + n) in Some (v, put st (withSubs v (get s st)) s)
  | OnceBegin st => fun _ s =>
      match once (get s st) with
      | OnceFresh => Some (true, put st (withOnce OnceRunning (get s st)) s)
      | OnceRunning => None
      | OnceDone => Some (false, s)
      end
  | OnceEnd st => fun _ s => Some (tt, put st (withOnce OnceDone (get s st)) s)
  | NewDownloadCtx st => fun _ s =>
      let s' := put st (withCancel (nextCtx s) (get s st)) s in
      Some (nextCtx s, {| downloads := downloads s'; states := states s'; cancelled := cancelled s';
                          nextCtx := S (nextCtx s) |})
  | CallCancel st => fun _ s =>
      match cancelFunc (get s st) with
      | None => None
      | Some c => Some (tt, {| downloads := downloads s; states := states s; cancelled := {[c]} ∪ cancelled s; nextCtx := nextCtx s |})
      end
  | SelectDone _ st => fun x s =>
      match x with
      | CtxFirst => Some (CtxFirst, s)
      | DoneFirst _ => if done (get s st) then Some (DoneFirst (readResult (get s st)), s) else None
      end
  | DownloadCtxErr c => fun _ s => Some (if bool_decide (c ∈ cancelled s) then Some errCanceled else None, s)
  | SetResult st r => fun _ s => Some (tt, put st (withResult r (get s st)) s)
  | CloseDone st => fun _ s => Some (tt, put st (withDone (get s st)) s)
  | GoStart _ _ _ _ _ => fun _ s => Some (tt, s)
  | DownloadOCI _ _ _ _ => fun x s => Some (x, s)
  | Now => fun x s => Some (x, s)
  end.

(** How a program of the pool ends: a subscriber with its result, a download with
    nothing. *)
Inductive Ended := Subscriber (r : MacOS.MacPlatformConfigurationOptions + error) (d : Z) | Started.

(* src/pkg/downloader/manager.go : Manager.startDownload *)
Definition startDownload (ctx : Ctx) (st : StateRef) (ref : string) (ignoreExisting : bool)
    (creds : Creds.RegistryCredentials) : prog mgrE Ended :=
  t0 <- perform Now ;;
  r <- perform (DownloadOCI ctx ref ignoreExisting creds) ;;
  t1 <- perform Now ;;
  ce <- perform (DownloadCtxErr ctx) ;;
  perform (SetResult st (match ce with Some e => inr e | None => r end, t1 - t0)%Z) ;;
  perform (CloseDone st) ;;                                         (* deferred *)
  perform (CallCancel st) ;;                                        (* deferred *)
  Ret Started.

(** The deferred function of a subscriber. *)
Definition unsubscribe (ref : string) (st : StateRef) : prog mgrE unit :=
  n <- perform (SubsAdd st (-1)) ;;
  if (n =? 0)%Z then perform (DownloadsDelete ref) ;; perform (CallCancel st) else Ret tt.

(* src/pkg/downloader/manager.go : Manager.Download *)
Definition Download (ctx : Ctx) (ref : string) (ignoreExisting : bool) (creds : Creds.RegistryCredentials)
  : prog mgrE Ended :=
  st0 <- perform NewState ;;
  st <- perform (LoadOrStore ref st0) ;;
  perform (SubsAdd st 1) ;;
  mine <- perform (OnceBegin st) ;;
  (if mine : bool then
     dctx <- perform (NewDownloadCtx st) ;;
     perform (GoStart dctx st ref ignoreExisting creds) ;;
     perform (OnceEnd st)
   else Ret tt) ;;
  w <- perform (SelectDone ctx st) ;;
  unsubscribe ref st ;;                                             (* deferred *)
  Ret (match w with
       | CtxFirst => Subscriber (inr errCanceled) 0
       | DoneFirst (r, d) => Subscriber r d
       end).

(** The goroutine that an operation starts. *)
Definition spawns (X : Type) (e : mgrE X) : list (prog mgrE Ended) :=
  match e with GoStart ctx st ref ig creds => [startDownload ctx st ref ig creds] | _ => [] end.

(** ** One download per state *)

Definition starts (st : StateRef) X (e : mgrE X) : bool :=
  match e with GoStart _ st' _ _ _ => bool_decide (st' = st) | _ => false end.

Definition wins (st : StateRef) X (e : mgrE X) : X -> option bool :=
  match e in mgrE X return X -> option bool with
  | OnceBegin st' => fun x => if decide (st' = st) then Some x else None
  | _ => fun _ => None
  end.

Definition unused (st : StateRef) (s : Manager) : Prop := once (get s st) = OnceFresh.
Definition nothing X (e : mgrE X) : bool := false.

Lemma state_wins_step st X (e : mgrE X) x0 u x u' :
  wins st X e x = Some true -> local X e x0 u = Some (x, u') -> unused st u /\ ~ unused st u'.
Proof.
  unfold unused. destruct e; simpl; try done. destruct (decide (st0 = st)) as [->|]; [|done]. intros [= ->].
  destruct (once (get u st)) eqn:Eo; intros Hl; simplify_eq.
  split; [done|]. unfold get, put. simpl. by rewrite lookup_insert_eq.
Qed.

(** Nothing makes a used [sync.Once] fresh again: a state is allocated once. *)
Lemma state_fresh_step st X (e : mgrE X) x0 u x u' :
  nothing X e = false -> local X e x0 u = Some (x, u') -> unused st u' -> unused st u.
Proof.
  unfold unused. intros _.
  assert (forall r v, once v = once (get u r) \/ once v <> OnceFresh ->
    once (get (put r v u) st) = OnceFresh -> once (get u st) = OnceFresh) as Hset.
  { intros r v Hv. unfold get, put. simpl. destruct (decide (r = st)) as [->|Hne].
    - rewrite lookup_insert_eq. simpl. destruct Hv as [Hv|Hv]; [by rewrite Hv | done].
    - by rewrite lookup_insert_ne. }
  destruct e; simpl; intros Hl; simplify_eq/=; try done.
  - set (r := fresh (dom (states u))). assert (states u !! r = None) as Hr by (apply not_elem_of_dom, is_fresh).
    apply Hset. left. unfold get. by rewrite Hr.
  - repeat case_match; simplify_eq/=; done.
  - apply Hset. by left.
  - repeat case_match; simplify_eq/=; [apply Hset; by right | done].
  - apply Hset. by right.
  - change (once (get (put st0 (withCancel (nextCtx u) (get u st0)) u) st) = OnceFresh -> once (get u st) = OnceFresh).
    apply Hset. by left.
  - repeat case_match; simplify_eq/=; done.
  - repeat case_match; simplify_eq/=; done.
  - apply Hset. by left.
  - apply Hset. by left.
Qed.

(** What must happen once for the state [st]. *)
Definition sets (st : StateRef) X (e : mgrE X) : bool :=
  match e with SetResult st' _ => bool_decide (st' = st) | _ => false end.
Definition closes (st : StateRef) X (e : mgrE X) : bool :=
  match e with CloseDone st' => bool_decide (st' = st) | _ => false end.

(** The goroutine that is started does one of each. *)
Definition startCost (st : StateRef) X (e : mgrE X) : nat :=
  match e with GoStart _ st' _ _ _ => if decide (st' = st) then 1 else 0 | _ => 0 end.
Definition freeCost X (e : mgrE X) : nat := 0.

Abbreviation calls isD := (count (S := Manager) isD).

Ltac once_step :=
  match goal with
  | |- True => exact I
  | |- _ = _ => reflexivity
  | |- _ /\ _ => split
  | |- forall _, _ => intros
  | |- (_ <= _)%nat => unfold freeCost, startCost; simpl; lia
  | |- context [decide (?a = ?a)] => rewrite (decide_True _ _ (eq_refl a))
  | |- context [bool_decide (?a = ?a)] => rewrite (bool_decide_eq_true_2 (a = a) eq_refl)
  | H : ?a <> ?b |- context [decide (?a = ?b)] => rewrite (decide_False _ _ H)
  | H : ?a <> ?b |- context [bool_decide (?a = ?b)] => rewrite (bool_decide_eq_false_2 _ H)
  | |- context [match ?x with _ => _ end] => destruct x
  end; cbn.

Section Single.
Variable st : StateRef.

(** The three operations, with what a start costs of each. *)
Definition once_only (isD : forall X, mgrE X -> bool) (cost : forall X, mgrE X -> nat) : Prop :=
  (isD = starts st /\ cost = freeCost) \/ (isD = sets st /\ cost = startCost st) \/
  (isD = closes st /\ cost = startCost st).

Lemma guarded_Download isD cost ctx ref ig creds :
  once_only isD cost -> guarded isD (wins st) nothing cost (fun _ _ _ => True) (Download ctx ref ig creds).
Proof.
  intros HD. unfold Download, unsubscribe. cbn [bind perform guarded wins].
  destruct HD as [[-> ->]|[[-> ->]|[-> ->]]]; (split_and!; [done | done |]); intros s0 _; cbn [wins guarded];
    (split_and!; [done | done |]); intros s _; cbn [wins guarded]; (split_and!; [done | done |]); intros n0 _;
    cbn [wins guarded]; (split_and!; [done | done |]); intros mine _; cbn [wins];
    (destruct (decide (s = st)) as [Heq|Hne]; [subst s|]; destruct mine; cbn; unfold price; cbn; repeat once_step).
Qed.

Lemma crit_start isD cost X (e : mgrE X) :
  once_only isD cost ->
  exists ws, Forall2 (fun w p => crit isD (wins st) nothing cost w p) ws (spawns X e) /\ (sum_list ws <= cost X e)%nat.
Proof.
  intros HD. destruct e as [| | | | | | | |ctx st' ref ig creds| | | | | |]; try (by exists []; split; [constructor | simpl; lia]).
  exists [cost _ (GoStart ctx st' ref ig creds)].
  split; [|simpl; lia]. constructor; [|constructor]. unfold startDownload.
  destruct HD as [[-> ->]|[[-> ->]|[-> ->]]]; cbn;
    (destruct (decide (st' = st)) as [Heq|Hne]; [subst st'|]; cbn; unfold price; cbn; repeat once_step).
Qed.

End Single.

(** One request: the subscriber's context, whether to ignore what is there, and the
    credentials. *)
Definition Request : Type := Ctx * string * bool * Creds.RegistryCredentials.
Definition subscribe (r : Request) : prog mgrE Ended :=
  let '(ctx, ref, ig, creds) := r in Download ctx ref ig creds.

Definition pool_steps (env : oracle mgrE) := rtc (pool_step (traced_handler local env) Ended spawns).

(** C21: however many subscribers ask for however many images, and however they and
    the downloads interleave: every state has at most one download, whose result is
    stored at most once and whose channel is closed at most once (a second close would
    panic). *)
Theorem download_once env (reqs : list Request) c st :
  pool_steps env (map subscribe reqs, start NewManager) c ->
  (calls (starts st) (snd c) <= 1)%nat /\ (calls (sets st) (snd c) <= 1)%nat /\ (calls (closes st) (snd c) <= 1)%nat.
Proof.
  intros Hr.
  assert (forall isD cost, once_only st isD cost -> (calls isD (snd c) <= 1)%nat) as Hall.
  2: { unfold once_only in Hall. split_and!; eapply Hall; eauto. }
  intros isD cost HD.
  eapply (at_most_once local env spawns isD (wins st) nothing cost (fun _ => True) (fun _ _ _ => True) (unused st));
    [done | apply state_wins_step | apply state_fresh_step | intros; by apply crit_start | done | | exact Hr].
  apply Forall_map, Forall_forall. intros [[[ctx ref] ig] creds] _. by apply guarded_Download.
Qed.

(** ** A subscriber that arrives while the last one leaves *)

(** Every download succeeds; the context of subscriber 1 ends, the others' do not. *)
Definition leaving : oracle mgrE := fun X n e =>
  match e in mgrE X return X with
  | SelectDone ctx _ => if bool_decide (ctx = 1%nat) then CtxFirst else DoneFirst (inl noConfig, 0%Z)
  | DownloadOCI _ _ _ _ => inl noConfig
  | Now => 0%Z
  | NewState => 0%nat | LoadOrStore _ st => st | DownloadsDelete _ => tt | SubsAdd _ _ => 0%Z
  | OnceBegin _ => true | OnceEnd _ => tt | NewDownloadCtx _ => 0%nat | CallCancel _ => tt
  | GoStart _ _ _ _ _ => tt | DownloadCtxErr _ => None | SetResult _ _ => tt | CloseDone _ => tt
  end.

Definition req (ctx : Ctx) : Request := (ctx, "reg.io/mac:14", false, Creds.noCredentials).
Abbreviation runs js reqs := (sched (traced_handler local leaving) Ended spawns js (map subscribe reqs, start NewManager)).

(** Subscriber 1 starts the download (goroutine 2) and its context ends; subscriber 2
    finds the state; subscriber 1 leaves as the last one; subscriber 2 goes on. *)
Definition race : list nat :=
  (replicate 8 1 ++ [0; 0] ++ [1; 1; 1] ++ [0; 0] ++ replicate 7 2 ++ replicate 4 0)%list%nat.

Definition ended_canceled (p : prog mgrE Ended) : bool :=
  match p with Ret (Subscriber (inr e) _) => bool_decide (e = errCanceled) | _ => false end.

(** A subscriber can be told "context canceled" although its own context is alive
    and the download of the image succeeded: it found the state before the last other
    subscriber left, and was counted only after. *)
Theorem live_subscriber_canceled :
  exists c, pool_steps leaving (map subscribe [req 2; req 1], start NewManager) c /\
    option_map ended_canceled (fst c !! 0%nat) = Some true.
Proof.
  destruct (runs race [req 2; req 1]) as [c|] eqn:E.
  - exists c. split; [exact (sched_rtc _ _ _ _ _ _ E)|].
    assert (match runs race [req 2; req 1] with
            | Some c => option_map ended_canceled (fst c !! 0%nat) | None => None end = Some true) as H1
      by (vm_compute; reflexivity).
    by rewrite E in H1.
  - assert (is_some (runs race [req 2; req 1]) = true) as H1 by (vm_compute; reflexivity). by rewrite E in H1.
Qed.

Lemma download_once_witness :
  match runs race [req 2; req 1] with Some c => (calls (starts 0%nat) (snd c) <= 1)%nat | None => False end.
Proof.
  destruct (runs race [req 2; req 1]) as [c|] eqn:E.
  - exact (proj1 (download_once leaving [req 2; req 1] c 0%nat (sched_rtc _ _ _ _ _ _ E))).
  - assert (is_some (runs race [req 2; req 1]) = true) as H1 by (vm_compute; reflexivity). rewrite E in H1. discriminate.
Defined.

(** A third subscriber (goroutine 2 of the pool) starts a new download of the image,
    the late one unlinks its state, and a fourth starts another. *)
Definition race2 : list nat :=
  (replicate 8 1 ++ [0; 0] ++ [1; 1; 1] ++ replicate 7 2 ++ [0; 0] ++ replicate 7 4 ++ replicate 4 0
   ++ replicate 7 3)%list%nat.

(** The download of [st] was started with the context [d] and goes on. *)
Definition inFlight (c : list (prog mgrE Ended) * traced mgrE Manager) (st : StateRef) (d : Ctx) : bool :=
  let x := get (own (snd c)) st in
  match once x with OnceDone => true | _ => false end && negb (done x) &&
  (bool_decide (cancelFunc x = Some d) && bool_decide (d ∉ cancelled (own (snd c)))).

(** Two downloads of one image can run at the same time, neither of them
    cancelled: the unsubscription of a stale state removes the current one from the
    map. *)
Theorem two_downloads_of_one_image :
  exists c, pool_steps leaving (map subscribe [req 2; req 1; req 3; req 4], start NewManager) c /\
    exists st1 st2 d1 d2, st1 <> st2 /\
      once (get (own (snd c)) st1) = OnceDone /\ once (get (own (snd c)) st2) = OnceDone /\
      done (get (own (snd c)) st1) = false /\ done (get (own (snd c)) st2) = false /\
      cancelFunc (get (own (snd c)) st1) = Some d1 /\ cancelFunc (get (own (snd c)) st2) = Some d2 /\
      d1 ∉ cancelled (own (snd c)) /\ d2 ∉ cancelled (own (snd c)).
Proof.
  assert (forall c st d, inFlight c st d = true ->
    once (get (own (snd c)) st) = OnceDone /\ done (get (own (snd c)) st) = false /\
    cancelFunc (get (own (snd c)) st) = Some d /\ d ∉ cancelled (own (snd c))) as Hin.
  { unfold inFlight. intros c st d. destruct (once _), (done _); simpl; try done.
    intros [H1%bool_decide_eq_true_1 H2%bool_decide_eq_true_1]%andb_true_iff. done. }
  set (reqs := [req 2; req 1; req 3; req 4]).
  destruct (runs race2 reqs) as [c|] eqn:E.
  2: { assert (is_some (runs race2 reqs) = true) as H1 by (vm_compute; reflexivity). by rewrite E in H1. }
  exists c. split; [exact (sched_rtc _ _ _ _ _ _ E)|].
  assert (match runs race2 reqs with Some c => inFlight c 2%nat 1%nat && inFlight c 3%nat 2%nat | None => false end = true)
    as H1 by (vm_compute; reflexivity).
  rewrite E in H1. apply andb_true_iff in H1 as [(? & ? & ? & ?)%Hin (? & ? & ? & ?)%Hin].
  exists 2%nat, 3%nat, 1%nat, 2%nat. by split_and!.
Qed.

End Manager.
