(* ===== verification/ManagerProofs.v ===== *)
(** * pkg/downloader/manager.go: what a subscriber is given

    A state is found by the reference of one image only, its result is set by a
    download of that image only, and a subscriber reads it only once it is set.  The
    argument is made thread by thread ([mwp]): a thread has at most one state that it
    has made and not yet offered ([priv]), and facts that stay true once they are
    ([know]).  For any number of subscribers in any interleaving it follows that a
    success is what the downloader answered for the subscriber's own reference. *)
From Stdlib Require Import ZArith Lia.
From Stdlib Require Import Ascii String.
From stdpp Require Import base list gmap strings relations.
From S2P Require Import Prelude GoStrings GoErrors GoTime Prog Once Resource Stores MacOS Manager.
Local Open Scope string_scope.
Local Open Scope go_scope.

Module ManagerProofs.

Import Manager.

Section Subscribers.
Variable reqs : list Request.

(** Somebody asked for the image with these arguments. *)
Definition asked (ref : string) (ig : bool) (creds : Creds.RegistryCredentials) : Prop :=
  exists ctx, (ctx, ref, ig, creds) ∈ reqs.

Inductive fact :=
| Loaded (st : StateRef) (ref : string)
| Served (ref : string) (cfg : MacOS.MacPlatformConfigurationOptions)
| Resolved (st : StateRef).

(** The downloader has answered a request for [ref] with [cfg]. *)
Definition served (tr : list (call mgrE)) (ref : string) (cfg : MacOS.MacPlatformConfigurationOptions) : Prop :=
  exists dctx ig creds, asked ref ig creds /\ Call (DownloadOCI dctx ref ig creds) (inl cfg) ∈ tr.

(** [owner] leads from a state to the reference it was stored under. *)
Definition true_fact (owner : gmap StateRef string) (w : traced mgrE Manager) (f : fact) : Prop :=
  match f with
  | Loaded st ref => owner !! st = Some ref
  | Served ref cfg => served (trace w) ref cfg
  | Resolved st => is_Some (result (get (own w) st))
  end.

(** ** One thread *)

Record tst := { priv : option StateRef; know : list fact }.

Definition fresh_thread : tst := {| priv := None; know := [] |}.
Definition learn (f : fact) (t : tst) : tst := {| priv := priv t; know := f :: know t |}.

Definition learn_served (ref : string) (r : MacOS.MacPlatformConfigurationOptions + error) (t : tst) : tst :=
  match r with inl cfg => learn (Served ref cfg) t | inr _ => t end.

(** What an operation needs, and what the thread knows afterwards. *)
Definition mstep {X} (e : mgrE X) : (X -> tst -> Prop) -> tst -> Prop :=
  match e in mgrE X return (X -> tst -> Prop) -> tst -> Prop with
  | NewState => fun K t => priv t = None /\ forall st, K st {| priv := Some st; know := know t |}
  | LoadOrStore ref st0 => fun K t =>
      priv t = Some st0 /\ forall st, K st {| priv := None; know := Loaded st ref :: know t |}
  | GoStart _ st ref ig creds => fun K t => Loaded st ref ∈ know t /\ asked ref ig creds /\ K tt t
  | SelectDone _ st => fun K t => exists ref, Loaded st ref ∈ know t /\ K CtxFirst t /\
      forall r d, K (DoneFirst (r, d)) (learn_served ref r t)
  | DownloadOCI _ ref ig creds => fun K t => asked ref ig creds /\ forall r, K r (learn_served ref r t)
  | SetResult st r => fun K t => exists ref, Loaded st ref ∈ know t /\
      (forall cfg, fst r = inl cfg -> Served ref cfg ∈ know t) /\ K tt (learn (Resolved st) t)
  | CloseDone st => fun K t => Resolved st ∈ know t /\ K tt t
  | _ => fun K t => forall x, K x t
  end.

Fixpoint mwp {A} (p : prog mgrE A) (Q : A -> tst -> Prop) (t : tst) : Prop :=
  match p with
  | Ret a => Q a t
  | Do e k => mstep e (fun x => mwp (k x) Q) t
  end.

(** A success that is given to a subscriber of [ref]. *)
Definition given (ref : string) (r : Ended) (t : tst) : Prop :=
  match r with Subscriber (inl cfg) _ => Served ref cfg ∈ know t | _ => True end.

Lemma mwp_Download ctx ref ig creds :
  (ctx, ref, ig, creds) ∈ reqs -> mwp (Download ctx ref ig creds) (given ref) fresh_thread.
Proof.
  intros Hin. assert (asked ref ig creds) as Ha by by exists ctx. unfold Download, unsubscribe. cbn.
  split; [done|]. intros st0. split; [done|]. intros st n [|]; cbn.
  - intros dctx. split; [by left|]. split; [done|]. intros _. exists ref. split; [by left|].
    split; [intros m; destruct (m =? 0)%Z; cbn; by repeat intros []|].
    intros [cfg|e] d m; destruct (m =? 0)%Z; cbn; repeat intros []; try done; by left.
  - exists ref. split; [by left|].
    split; [intros m; destruct (m =? 0)%Z; cbn; by repeat intros []|].
    intros [cfg|e] d m; destruct (m =? 0)%Z; cbn; repeat intros []; try done; by left.
Qed.

Lemma mwp_start dctx st ref ig creds :
  asked ref ig creds ->
  mwp (startDownload dctx st ref ig creds) (fun _ _ => True) {| priv := None; know := [Loaded st ref] |}.
Proof.
  intros Ha. unfold startDownload. cbn. intros t0. split; [done|]. intros r t1 ce. exists ref.
  split; [destruct r; [by right; left | by left]|].
  split; [destruct ce; [done|]; simpl; intros cfg ->; by left|]. by split; [left|].
Qed.

(** ** All threads *)

Record good (owner : gmap StateRef string) (ts : list tst) (w : traced mgrE Manager) : Prop := {
  g_downloads ref st : downloads (own w) !! ref = Some st -> owner !! st = Some ref;
  g_alloc st ref : owner !! st = Some ref -> is_Some (states (own w) !! st);
  g_priv i t st : ts !! i = Some t -> priv t = Some st -> is_Some (states (own w) !! st) /\ owner !! st = None;
  g_excl i j ti tj st : ts !! i = Some ti -> ts !! j = Some tj -> priv ti = Some st -> priv tj = Some st -> i = j;
  g_result st cfg d : result (get (own w) st) = Some (inl cfg, d) ->
    exists ref, owner !! st = Some ref /\ served (trace w) ref cfg;
  g_done st : done (get (own w) st) = true -> is_Some (result (get (own w) st));
  g_know i t f : ts !! i = Some t -> f ∈ know t -> true_fact owner w f
}.

Lemma served_cons c tr ref cfg : served tr ref cfg -> served (c :: tr) ref cfg.
Proof. intros (dctx & ig & creds & Ha & Hin). exists dctx, ig, creds. split; [done | by right]. Qed.

(** The states do not lose anything: none goes away, and a result stays. *)
Record grows (u u' : Manager) : Prop := {
  gr_states st : is_Some (states u !! st) -> is_Some (states u' !! st);
  gr_result st : is_Some (result (get u st)) -> is_Some (result (get u' st))
}.

Lemma true_fact_grows owner owner' w w' f :
  owner ⊆ owner' -> (exists c, trace w' = c :: trace w) -> grows (own w) (own w') ->
  true_fact owner w f -> true_fact owner' w' f.
Proof.
  intros Ho [c Ht] Hg. destruct f; simpl.
  - intros Hl. by eapply lookup_weaken.
  - rewrite Ht. apply served_cons.
  - apply Hg.
Qed.

Lemma get_put st st' x u : get (put st x u) st' = if decide (st' = st) then x else get u st'.
Proof.
  unfold get, put. simpl. destruct (decide (st' = st)) as [->|]; [by rewrite lookup_insert_eq | by rewrite lookup_insert_ne].
Qed.

Lemma put_states st st' x u : is_Some (states (put st x u) !! st') <-> st' = st \/ is_Some (states u !! st').
Proof.
  unfold put. simpl. destruct (decide (st' = st)) as [->|]; [rewrite lookup_insert_eq; split; [by left | by eexists]|].
  rewrite lookup_insert_ne by done. split; [by right | by intros [|]].
Qed.

(** A step without a new owner: results that appear were served, results stay, a channel
    is closed once there is a result, and the thread learns what is true. *)
Lemma good_step owner ts w i t t' w' :
  good owner ts w -> ts !! i = Some t -> priv t' = priv t ->
  (forall f, f ∈ know t' -> f ∈ know t \/ true_fact owner w' f) ->
  (exists c, trace w' = c :: trace w) ->
  (forall ref st, downloads (own w') !! ref = Some st -> downloads (own w) !! ref = Some st) ->
  grows (own w) (own w') ->
  (forall st cfg d, result (get (own w') st) = Some (inl cfg, d) ->
     result (get (own w) st) = Some (inl cfg, d) \/ exists ref, owner !! st = Some ref /\ served (trace w') ref cfg) ->
  (forall st, done (get (own w') st) = true -> done (get (own w) st) = true \/ is_Some (result (get (own w') st))) ->
  good owner (<[i := t']> ts) w'.
Proof.
  intros G Hi Hp Hk Ht Hd Hg Hr Hdn. split.
  - intros ref st Hl. by eapply (g_downloads _ _ _ G), Hd.
  - intros st ref Hl. by eapply (gr_states _ _ Hg), (g_alloc _ _ _ G).
  - intros j tj st Hj Hpj. pose proof (gr_states _ _ Hg st).
    apply lookup_upd in Hj as [[-> ->] | [_ Hj]];
      [rewrite Hp in Hpj; destruct (g_priv _ _ _ G _ _ _ Hi Hpj) | destruct (g_priv _ _ _ G _ _ _ Hj Hpj)]; split; auto.
  - intros j k tj tk st Hj Hk' Hpj Hpk.
    apply lookup_upd in Hj as [[-> ->] | [? Hj]]; apply lookup_upd in Hk' as [[-> ->] | [? Hk']]; try done;
      rewrite ?Hp in Hpj; rewrite ?Hp in Hpk; eapply (g_excl _ _ _ G); eauto.
  - intros st cfg d Hl. destruct (Hr _ _ _ Hl) as [Hl'|]; [|done].
    destruct (g_result _ _ _ G _ _ _ Hl') as (ref & Ho & Hs).
    exists ref. split; [done|]. destruct Ht as [c ->]. by apply served_cons.
  - intros st Hl. destruct (Hdn _ Hl) as [Hl'|]; [|done]. by apply (gr_result _ _ Hg), (g_done _ _ _ G).
  - assert (forall j tj f, ts !! j = Some tj -> f ∈ know tj -> true_fact owner w' f) as Hold
      by (intros j tj f Hj Hf; eapply true_fact_grows; [done | done | done | by eapply (g_know _ _ _ G)]).
    intros j tj f Hj Hf. apply lookup_upd in Hj as [[-> ->] | [_ Hj]]; [|by eapply Hold].
    destruct (Hk f Hf) as [Hf'|]; [by eapply Hold | done].
Qed.

(** Most operations: results and closed channels are the same. *)
Lemma good_same owner ts w i t t' w' :
  good owner ts w -> ts !! i = Some t -> priv t' = priv t ->
  (forall f, f ∈ know t' -> f ∈ know t \/ true_fact owner w' f) ->
  (exists c, trace w' = c :: trace w) ->
  (forall ref st, downloads (own w') !! ref = Some st -> downloads (own w) !! ref = Some st) ->
  (forall st, is_Some (states (own w) !! st) -> is_Some (states (own w') !! st)) ->
  (forall st, result (get (own w') st) = result (get (own w) st) /\ done (get (own w') st) = done (get (own w) st)) ->
  good owner (<[i := t']> ts) w'.
Proof.
  intros G Hi Hp Hk Ht Hd Hst Hsame. eapply good_step; try done.
  - split; [done|]. intros st. by rewrite (proj1 (Hsame st)).
  - intros st cfg d. rewrite (proj1 (Hsame st)). by left.
  - intros st. rewrite (proj2 (Hsame st)). by left.
Qed.

(** Making a state. *)
Lemma good_new owner ts w i t w' st :
  good owner ts w -> ts !! i = Some t -> priv t = None -> states (own w) !! st = None ->
  own w' = put st newState (own w) -> (exists c, trace w' = c :: trace w) ->
  good owner (<[i := {| priv := Some st; know := know t |}]> ts) w'.
Proof.
  intros G Hi Hp Hst How Ht.
  assert (forall st', result (get (own w') st') = result (get (own w) st') /\ done (get (own w') st') = done (get (own w) st')) as Hsame.
  { intros st'. rewrite How, get_put. destruct (decide (st' = st)) as [->|]; [|done]. unfold get. by rewrite Hst. }
  assert (forall st', is_Some (states (own w) !! st') -> is_Some (states (own w') !! st')) as Hgr
    by (intros st' Hs; rewrite How; apply put_states; by right).
  assert (good owner (<[i := t]> ts) w') as G'.
  { eapply good_same; [exact G | exact Hi | done | by left | done | | done | done]. intros ref st'. by rewrite How. }
  rewrite list_insert_id in G' by done. destruct G' as [D1 D2 D3 D4 D5 D6 D7].
  assert (forall ref, owner !! st = Some ref -> False) as Hno.
  { intros ref Hr. destruct (g_alloc _ _ _ G _ _ Hr) as [x Hx]. by rewrite Hst in Hx. }
  assert (forall j tj, ts !! j = Some tj -> priv tj <> Some st) as Hnp.
  { intros j tj Hj Hpj. destruct (g_priv _ _ _ G _ _ _ Hj Hpj) as [[x Hx] _]. by rewrite Hst in Hx. }
  split; [exact D1 | exact D2 | | | exact D5 | exact D6 |].
  - intros j tj st' Hj Hpj. apply lookup_upd in Hj as [[-> ->] | [_ Hj]]; [|by eapply D3].
    injection Hpj as <-. split; [rewrite How; apply put_states; by left|].
    destruct (owner !! st) eqn:Ho; [by destruct (Hno s) | done].
  - intros j k tj tk st' Hj Hk Hpj Hpk.
    apply lookup_upd in Hj as [[-> ->] | [? Hj]]; apply lookup_upd in Hk as [[-> ->] | [? Hk]]; try done;
      simpl in *; simplify_eq; try (by edestruct Hnp). by eapply D4.
  - intros j tj f Hj Hf. apply lookup_upd in Hj as [[-> ->] | [_ Hj]]; [by eapply (D7 i t) | by eapply D7].
Qed.

(** Offering it. *)
Lemma good_offer owner ts w i t w' ref st0 :
  good owner ts w -> ts !! i = Some t -> priv t = Some st0 -> (exists c, trace w' = c :: trace w) ->
  let st := default st0 (downloads (own w) !! ref) in
  own w' = match downloads (own w) !! ref with
           | Some _ => own w | None => setDownloads (<[ref := st0]> (downloads (own w))) (own w) end ->
  exists owner', good owner' (<[i := {| priv := None; know := Loaded st ref :: know t |}]> ts) w'.
Proof.
  intros G Hi Hp Ht st How. destruct (g_priv _ _ _ G _ _ _ Hi Hp) as [Hst0 Hno].
  set (owner' := match downloads (own w) !! ref with Some _ => owner | None => <[st0 := ref]> owner end).
  assert (owner ⊆ owner') as Hsub.
  { unfold owner'. destruct (downloads (own w) !! ref); [done | by apply insert_subseteq]. }
  assert (owner' !! st = Some ref) as Hown.
  { unfold st, owner'. destruct (downloads (own w) !! ref) as [old|] eqn:Hd; simpl;
      [by apply (g_downloads _ _ _ G) | by rewrite lookup_insert_eq]. }
  assert (states (own w') = states (own w)) as Hstates by (rewrite How; by destruct (downloads (own w) !! ref)).
  assert (forall st', get (own w') st' = get (own w) st') as Hget by (intros st'; unfold get; by rewrite Hstates).
  assert (grows (own w) (own w')) as Hg by (split; intros st'; [by rewrite Hstates | by rewrite Hget]).
  exists owner'. split.
  - intros ref' st'. rewrite How. destruct (downloads (own w) !! ref) as [old|] eqn:Hd.
    + unfold owner'. apply G.
    + simpl. intros Hl. apply lookup_insert_Some in Hl as [[<- <-] | [_ Hl]]; [by unfold owner'; rewrite lookup_insert_eq|].
      eapply lookup_weaken; [by apply (g_downloads _ _ _ G) | done].
  - intros st' ref'. rewrite Hstates. unfold owner'. destruct (downloads (own w) !! ref); [by apply G|].
    intros Hl. apply lookup_insert_Some in Hl as [[<- _] | [_ Hl]]; [done | by eapply (g_alloc _ _ _ G)].
  - intros j tj st' Hj Hpj. apply lookup_upd in Hj as [[-> ->] | [Hne Hj]]; [done|].
    rewrite Hstates. destruct (g_priv _ _ _ G _ _ _ Hj Hpj) as [H1 H2]. split; [done|].
    unfold owner'. destruct (downloads (own w) !! ref); [done|]. rewrite lookup_insert_ne; [done|].
    intros <-. apply Hne. by eapply (g_excl _ _ _ G).
  - intros j k tj tk st' Hj Hk Hpj Hpk.
    apply lookup_upd in Hj as [[-> ->] | [? Hj]]; apply lookup_upd in Hk as [[-> ->] | [? Hk]]; try done. by eapply (g_excl _ _ _ G).
  - intros st' cfg d. rewrite Hget. intros Hr. destruct (g_result _ _ _ G _ _ _ Hr) as (ref' & Ho & Hs).
    exists ref'. split; [by eapply lookup_weaken|]. destruct Ht as [c ->]. by apply served_cons.
  - intros st'. rewrite Hget. apply G.
  - intros j tj f Hj Hf. apply lookup_upd in Hj as [[-> ->] | [_ Hj]].
    + apply elem_of_cons in Hf as [->|Hf]; [done|]. eapply true_fact_grows; [done | done | done | by eapply (g_know _ _ _ G)].
    + eapply true_fact_grows; [done | done | done | by eapply (g_know _ _ _ G)].
Qed.

(** A field of a state other than the result and the channel. *)
Lemma good_put owner ts w i t w' st x :
  good owner ts w -> ts !! i = Some t -> (exists c, trace w' = c :: trace w) ->
  downloads (own w') = downloads (own w) -> states (own w') = states (put st x (own w)) ->
  result x = result (get (own w) st) -> done x = done (get (own w) st) -> good owner ts w'.
Proof.
  intros G Hi Ht Hd Hs Hr Hdn. rewrite <- (list_insert_id ts i t Hi).
  assert (forall st', get (own w') st' = if decide (st' = st) then x else get (own w) st') as Hget
    by (intros st'; rewrite <- get_put; unfold get; by rewrite Hs).
  eapply good_same; [exact G | exact Hi | done | by left | done | | |].
  - intros ref st'. by rewrite Hd.
  - intros st' Hst. rewrite Hs. apply put_states. by right.
  - intros st'. rewrite Hget. by destruct (decide (st' = st)) as [->|].
Qed.

(** An operation that changes nothing; the thread may learn from the answer. *)
Lemma good_quiet owner ts w i t t' w' :
  good owner ts w -> ts !! i = Some t -> priv t' = priv t ->
  (forall f, f ∈ know t' -> f ∈ know t \/ true_fact owner w' f) ->
  (exists c, trace w' = c :: trace w) -> own w' = own w -> good owner (<[i := t']> ts) w'.
Proof. intros G Hi Hp Hk Ht Ho. eapply good_same; try done; by rewrite Ho. Qed.

(** A goroutine starts with facts of its parent. *)
Lemma good_spawn owner ts w l :
  good owner ts w -> (forall t, t ∈ l -> priv t = None /\ forall f, f ∈ know t -> true_fact owner w f) ->
  good owner (ts ++ l)%list w.
Proof.
  intros G Hl.
  assert (forall i t, (ts ++ l)%list !! i = Some t -> ts !! i = Some t \/ (priv t = None /\ forall f, f ∈ know t -> true_fact owner w f)) as Hin.
  { intros i t [Hi | [_ Hi]]%lookup_app_Some; [by left | right; apply Hl; by eapply list_elem_of_lookup_2]. }
  destruct G as [D1 D2 D3 D4 D5 D6 D7]. split; [done | done | | | done | done |].
  - intros i t st [Hi | [Hp _]]%Hin Hpr; [by eapply D3 | congruence].
  - intros i j ti tj st [Hi | [Hp _]]%Hin [Hj | [Hp' _]]%Hin Hpi Hpj; try congruence. by eapply D4.
  - intros i t f [Hi | [_ Hk]]%Hin Hf; [by eapply D7 | by apply Hk].
Qed.

(** What a thread may do keeps the knowledge of all of them true. *)
Lemma mstep_good {X} (e : mgrE X) K owner ts w i t x y u :
  good owner ts w -> ts !! i = Some t -> mstep e K t -> local X e x (own w) = Some (y, u) ->
  exists owner' t' l, K y t' /\ good owner' (<[i := t']> ts ++ l)%list (Traced (S (clock w)) (Call e y :: trace w) u) /\
    Forall2 (fun p t => mwp p (fun _ _ => True) t) (spawns X e) l.
Proof.
  intros G Hi Hm Hl. set (w' := Traced _ _ u). assert (exists c, trace w' = c :: trace w) as Ht by by eexists.
  assert (forall owner' t', K y t' -> good owner' (<[i := t']> ts) w' -> spawns X e = [] ->
    exists owner' t' l, K y t' /\ good owner' (<[i := t']> ts ++ l)%list w' /\
      Forall2 (fun p t => mwp p (fun _ _ => True) t) (spawns X e) l) as Hone.
  { intros owner' t' HK HG ->. exists owner', t', []. by rewrite app_nil_r. }
  assert (forall t', t' = t -> good owner ts w' -> good owner (<[i := t']> ts) w') as Hid
    by (intros t' -> Hg; by rewrite list_insert_id).
  destruct e; simpl in Hm, Hl.
  - destruct Hm as [Hp HK]. injection Hl as <- <-. eapply Hone; [apply HK | | done].
    eapply good_new; [exact G | exact Hi | exact Hp | | reflexivity | exact Ht]. apply not_elem_of_dom, is_fresh.
  - destruct Hm as [Hp HK].
    assert (y = default st (downloads (own w) !! ref)) as Hy by (by destruct (downloads (own w) !! ref); injection Hl as <- <-).
    destruct (good_offer owner ts w i t w' ref st G Hi Hp Ht) as [owner' HG].
    { simpl. by destruct (downloads (own w) !! ref); injection Hl as <- <-. }
    eapply (Hone owner'); [apply HK | | done]. by rewrite Hy.
  - injection Hl as <- <-. eapply Hone; [apply Hm | | done]. apply Hid; [done|]. rewrite <- (list_insert_id ts i t Hi).
    eapply good_same; [exact G | exact Hi | done | by left | exact Ht | | done | done].
    simpl. intros r st Hd. by apply lookup_delete_Some in Hd as [_ Hd].
  - injection Hl as <- <-. eapply Hone; [apply Hm | | done]. apply Hid; [done|]. by eapply good_put.
  - destruct (once (get (own w) st)); [|done|]; injection Hl as <- <-; (eapply Hone; [apply Hm | | done]); apply Hid; try done;
      [by eapply good_put|]. rewrite <- (list_insert_id ts i t Hi). by eapply good_quiet; [| | | left | |].
  - injection Hl as <- <-. eapply Hone; [apply Hm | | done]. apply Hid; [done|]. by eapply good_put.
  - injection Hl as <- <-. eapply Hone; [apply Hm | | done]. apply Hid; [done|]. by eapply good_put.
  - destruct (cancelFunc _); [|done]. injection Hl as <- <-. eapply Hone; [apply Hm | | done]. apply Hid; [done|].
    rewrite <- (list_insert_id ts i t Hi). eapply good_same; [exact G | exact Hi | done | by left | exact Ht | done..].
  - destruct Hm as (Hld & Ha & HK). injection Hl as <- <-.
    exists owner, t, [{| priv := None; know := [Loaded st ref] |}]. split; [done|]. split.
    + apply good_spawn.
      * rewrite list_insert_id by done. rewrite <- (list_insert_id ts i t Hi). by eapply good_quiet; [| | | left | |].
      * intros t' ->%list_elem_of_singleton. split; [done|]. intros f ->%list_elem_of_singleton.
        exact (g_know _ _ _ G _ _ _ Hi Hld).
    + simpl. constructor; [by apply mwp_start | constructor].
  - destruct Hm as (ref & Hld & Hc & Hd). destruct x as [|r]; [injection Hl as <- <- |].
    + eapply Hone; [exact Hc | | done]. by eapply good_quiet; [| | | left | |].
    + destruct (done (get (own w) st)) eqn:Edone; [|done]. destruct (g_done _ _ _ G _ Edone) as [[r' d] Hr].
      unfold readResult in Hl. rewrite Hr in Hl. injection Hl as <- <-.
      eapply Hone; [apply Hd | | done]. eapply good_quiet; [exact G | exact Hi | by destruct r' | | exact Ht | done].
      destruct r' as [cfg|e]; [|by left]. intros f [->|Hf]%elem_of_cons; [right | by left].
      destruct (g_result _ _ _ G _ _ _ Hr) as (ref' & Ho & Hs). pose proof (g_know _ _ _ G _ _ _ Hi Hld) as Ho'. simpl in Ho'.
      simplify_eq. by apply served_cons.
  - destruct Hm as [Ha HK]. injection Hl as <- <-. eapply Hone; [apply HK | | done].
    eapply good_quiet; [exact G | exact Hi | by destruct x | | exact Ht | done].
    destruct x as [cfg|e]; [|by left]. intros f [->|Hf]%elem_of_cons; [right | by left].
    exists ctx, ignoreExisting, creds. split; [done | by left].
  - injection Hl as <- <-. eapply Hone; [apply Hm | | done]. by eapply good_quiet; [| | | left | |].
  - destruct Hm as (ref & Hld & Hs & HK). injection Hl as <- <-. eapply Hone; [exact HK | | done].
    pose proof (g_know _ _ _ G _ _ _ Hi Hld) as Ho. simpl in Ho.
    assert (forall st', get (own w') st' = if decide (st' = st) then withResult r (get (own w) st) else get (own w) st') as Hget
      by (intros st'; apply get_put).
    eapply good_step; [exact G | exact Hi | done | | exact Ht | done | | |].
    + intros f [->|Hf]%elem_of_cons; [right | by left]. simpl. rewrite get_put, decide_True by done. by eexists.
    + split; [intros st' Hst; apply put_states; by right|]. intros st'. rewrite Hget.
      destruct (decide (st' = st)); [by eexists | done].
    + intros st' cfg d. rewrite Hget. destruct (decide (st' = st)) as [->|]; [|by left]. intros [= ->]. right.
      exists ref. split; [done|]. apply served_cons. exact (g_know _ _ _ G _ _ _ Hi (Hs cfg eq_refl)).
    + intros st'. rewrite Hget. destruct (decide (st' = st)) as [->|]; [right; by eexists | by left].
  - destruct Hm as (Hres & HK). injection Hl as <- <-. eapply Hone; [exact HK | | done]. rewrite list_insert_id by done.
    pose proof (g_know _ _ _ G _ _ _ Hi Hres) as Hr. simpl in Hr. rewrite <- (list_insert_id ts i t Hi).
    assert (forall st', get (own w') st' = if decide (st' = st) then withDone (get (own w) st) else get (own w) st') as Hget
      by (intros st'; apply get_put).
    eapply good_step; [exact G | exact Hi | done | by left | exact Ht | done | | |].
    + split; [intros st' Hst; apply put_states; by right|]. intros st'. rewrite Hget. by destruct (decide (st' = st)) as [->|].
    + intros st' cfg d. rewrite Hget. destruct (decide (st' = st)) as [->|]; by left.
    + intros st'. rewrite Hget. destruct (decide (st' = st)) as [->|]; [by right | by left].
  - injection Hl as <- <-. eapply Hone; [apply Hm | | done]. by eapply good_quiet; [| | | left | |].
Qed.

(** What the thread at a place of the pool owes: the subscribers come first. *)
Definition owes (i : nat) : Ended -> tst -> Prop :=
  match reqs !! i with Some (_, ref, _, _) => given ref | None => fun _ _ => True end.

Lemma owes_given i ctx ref ig creds : reqs !! i = Some (ctx, ref, ig, creds) -> owes i = given ref.
Proof. intros Hr. unfold owes. unfold Request in *. by rewrite Hr. Qed.

Lemma owes_other i : (length reqs <= i)%nat -> owes i = fun _ _ => True.
Proof. intros Hi. unfold owes. apply lookup_ge_None_2 in Hi. unfold Request in *. by rewrite Hi. Qed.

Definition running (c : list (prog mgrE Ended) * traced mgrE Manager) : Prop :=
  exists owner ts, good owner ts (snd c) /\ length ts = length (fst c) /\ (length reqs <= length ts)%nat /\
    forall i p t, fst c !! i = Some p -> ts !! i = Some t -> mwp p (owes i) t.

Lemma subscribers_start : running (map subscribe reqs, start NewManager).
Proof.
  exists ∅, (map (fun _ => fresh_thread) reqs). simpl. rewrite !length_map.
  assert (forall i t, map (fun _ => fresh_thread) reqs !! i = Some t -> t = fresh_thread) as Hall
    by (intros i t (r & -> & _)%list_lookup_fmap_Some; done).
  split_and!; [|done | done |].
  - split; simpl.
    + intros ref st. by rewrite lookup_empty.
    + intros st ref. by rewrite lookup_empty.
    + by intros i t st ->%Hall.
    + by intros i j ti tj st ->%Hall.
    + intros st cfg d. unfold get. simpl. by rewrite lookup_empty.
    + intros st. unfold get. simpl. by rewrite lookup_empty.
    + intros i t f ->%Hall. by intros ?%elem_of_nil.
  - intros i p t Hp ->%Hall. apply list_lookup_fmap_Some in Hp as ([[[ctx ref] ig] creds] & -> & Hr).
    rewrite (owes_given _ _ _ _ _ Hr). simpl. apply mwp_Download. by eapply list_elem_of_lookup_2.
Qed.

Lemma subscribers_step env c c' : running c -> pool_step (traced_handler local env) Ended spawns c c' -> running c'.
Proof.
  intros (owner & ts & G & Hlen & Hreq & Hw) [i Hs]. destruct c as [ps w]. simpl in *.
  destruct (ps !! i) as [[a|X e k]|] eqn:Hp; [done| |done].
  destruct (lookup_lt_is_Some_2 ts i) as [t Ht]; [rewrite Hlen; by eapply lookup_lt_Some|].
  unfold traced_handler in Hs. destruct (local X e _ (own w)) as [[y u]|] eqn:El; [|done]. injection Hs as <-.
  destruct (mstep_good e _ owner ts w i t _ y u G Ht (Hw i _ t Hp Ht) El) as (owner' & t' & l & HK & G' & Hl).
  exists owner', (<[i := t']> ts ++ l)%list. simpl. split; [exact G'|].
  rewrite !length_app, !length_insert, (Forall2_length _ _ _ Hl), Hlen. split; [done|]. split; [lia|].
  intros j p tj Hj Htj. apply lookup_app_Some in Hj as [Hj | [Hlj Hj]].
  - pose proof (lookup_lt_Some _ _ _ Hj) as Hlt. rewrite length_insert in Hlt.
    rewrite lookup_app_l in Htj by (rewrite length_insert; lia).
    apply lookup_upd in Htj as [[-> ->] | [Hne Htj]].
    + rewrite list_lookup_insert_eq in Hj by done. by injection Hj as <-.
    + rewrite list_lookup_insert_ne in Hj by done. by eapply Hw.
  - rewrite length_insert in Hlj, Hj. rewrite lookup_app_r in Htj by (rewrite length_insert; lia).
    rewrite length_insert, Hlen in Htj. rewrite owes_other by lia.
    by eapply (Forall2_lookup_lr _ _ _ _ _ _ Hl).
Qed.

(** C22: however many subscribers ask for however many images, with whatever contexts and
    credentials, and however they and the downloads interleave: when a subscriber is
    told of a success, the configuration it is given is what the downloader answered
    for a download of the reference that the subscriber asked for, started with the
    arguments of one of the subscribers of that reference. *)
Theorem subscriber_given_its_image env c i ctx ref ig creds cfg d :
  pool_steps env (map subscribe reqs, start NewManager) c ->
  reqs !! i = Some (ctx, ref, ig, creds) -> fst c !! i = Some (Ret (Subscriber (inl cfg) d)) ->
  exists dctx ctx' ig' creds', (ctx', ref, ig', creds') ∈ reqs /\
    Call (DownloadOCI dctx ref ig' creds') (inl cfg) ∈ trace (snd c).
Proof.
  intros Hrtc Hr Hi. assert (running c) as (owner & ts & G & Hlen & _ & Hw).
  { eapply (pool_invariant (traced_handler local env) Ended spawns running); [|apply subscribers_start | exact Hrtc].
    intros c1 c2 H1 H2. by eapply subscribers_step. }
  destruct (lookup_lt_is_Some_2 ts i) as [t Ht]; [rewrite Hlen; by eapply lookup_lt_Some|].
  pose proof (Hw i _ t Hi Ht) as Hg. rewrite (owes_given _ _ _ _ _ Hr) in Hg.
  destruct (g_know _ _ _ G _ _ _ Ht Hg) as (dctx & ig' & creds' & [ctx' Ha] & Hc). by exists dctx, ctx', ig', creds'.
Qed.

End Subscribers.

(** *** Two subscribers of one image

    The second finds the download of the first: its own credentials are not used, and
    its wish to download again is ignored. *)
Definition other_credentials : Creds.RegistryCredentials :=
  {| Creds.Server := ""; Creds.Username := "someone"; Creds.Password := "else"; Creds.IdentityToken := "" |}.
Definition pair : list Request := [(2%nat, "reg.io/mac:14", false, Creds.noCredentials); (3%nat, "reg.io/mac:14", true, other_credentials)].

(** All of the first up to its wait, of the second up to its wait, the download, and both. *)
Definition joined : list nat := (replicate 7 0 ++ replicate 4 1 ++ replicate 7 2 ++ replicate 2 0 ++ replicate 4 1)%list%nat.

Definition asked_with (c : call mgrE) : option (bool * Creds.RegistryCredentials) :=
  match c with Call (DownloadOCI _ _ ig creds) _ => Some (ig, creds) | _ => None end.

Abbreviation together := (sched (traced_handler local leaving) Ended spawns joined (map subscribe pair, start NewManager)).

Definition success (p : prog mgrE Ended) : option MacOS.MacPlatformConfigurationOptions :=
  match p with Ret (Subscriber (inl cfg) _) => Some cfg | _ => None end.

Lemma joined_uses_first_credentials :
  exists c, pool_steps leaving (map subscribe pair, start NewManager) c /\
    option_map success (fst c !! 1%nat) = Some (Some noConfig) /\
    omap asked_with (trace (snd c)) = [(false, Creds.noCredentials)].
Proof.
  destruct together as [c|] eqn:E.
  - exists c. split; [exact (sched_rtc _ _ _ _ _ _ E)|].
    assert (match together with
            | Some c => option_map success (fst c !! 1%nat) = Some (Some noConfig) /\
                omap asked_with (trace (snd c)) = [(false, Creds.noCredentials)]
            | None => False end) as Hc by (vm_compute; split; reflexivity).
    by rewrite E in Hc.
  - assert (is_some together = true) as Hs by (vm_compute; reflexivity). by rewrite E in Hs.
Qed.

Lemma subscriber_given_its_image_witness :
  match together with
  | Some c => exists dctx ctx' ig' creds', (ctx', "reg.io/mac:14", ig', creds') ∈ pair /\
      Call (DownloadOCI dctx "reg.io/mac:14" ig' creds') (inl noConfig) ∈ trace (snd c)
  | None => False
  end.
Proof.
  destruct together as [c|] eqn:E.
  - assert (exists d, fst c !! 1%nat = Some (Ret (Subscriber (inl noConfig) d))) as [d Hd].
    { assert (match together with Some c => option_map success (fst c !! 1%nat) | None => None end = Some (Some noConfig)) as Hc
        by (vm_compute; reflexivity).
      rewrite E in Hc. destruct (fst c !! 1%nat) as [[[[cfg|e] d|]|]|]; simpl in Hc; try discriminate Hc.
      injection Hc as ->. by exists d. }
    exact (subscriber_given_its_image pair leaving c 1%nat 3%nat "reg.io/mac:14" true other_credentials noConfig d
      (sched_rtc _ _ _ _ _ _ E) eq_refl Hd).
  - assert (is_some together = true) as Hs by (vm_compute; reflexivity). rewrite E in Hs. discriminate.
Defined.

End ManagerProofs.
