(* ===== verification/Disk.v ===== *)
(** * internal/disk: disk images on the host's file system

    Files are byte lists with a modification time.  [diskE] lists the operations: those
    on files act on the state ([FS]) unless the oracle makes them fail, and time passes
    between them by as much as the oracle says; the decompressor (pgzip) is the
    oracle's altogether.  A digest is a string; [canonical] is the digest of some bytes
    and [verifier] what [Digest.Verifier] compares, both of the go-digest library. *)
From Stdlib Require Import ZArith Lia.
From Stdlib Require Import Ascii String.
From stdpp Require Import base list gmap strings.
From S2P Require Import Prelude GoStrings GoErrors Sha256 Prog.
Local Open Scope string_scope.
Local Open Scope go_scope.

Module Disk.

Abbreviation bytes := (list ascii).
Definition nul : ascii := Ascii.zero.
Definition zeros (n : nat) : bytes := replicate n nul.

Record File := { content : bytes; mtime : Z }.
Record FS := { files : gmap string File; now : Z }.

(** What the file system says of a file that is not there ([os.IsNotExist]). *)
Definition errNotExist : error := errNew "file does not exist".

Inductive diskE : Type -> Type :=
| Open (p : string) : diskE (option error)
| Create (p : string) : diskE (N + error)                         (* the time that passed *)
| Truncate (p : string) (size : Z) : diskE (N + error)
| Seek (p : string) (off : nat) : diskE (option error)
| WriteAt (p : string) (off : nat) (data : bytes) : diskE (N + error)
| Sync (p : string) : diskE (option error)
| Close (p : string) : diskE (option error)
| Stat (p : string) : diskE (Z + error)                           (* the modification time *)
| Size (p : string) : diskE (Z + error)
| Read (p : string) : diskE (bytes + error)                       (* all of a file *)
| CtxErr : diskE (option error)                                   (* select: ctx.Done, or go on *)
| GzOpen (p : string) : diskE (option error)                      (* pgzip.NewReader *)
| GzReads : diskE nat                                             (* reads that deliver data *)
| GzRead : diskE (bytes + error)
| GzEnd : diskE (option error)                                    (* the last read: io.EOF is None *)
| Deflate (data : bytes) : diskE (bytes + error).                 (* the pgzip writer *)

Definition fileAt (s : FS) (p : string) : bytes := match files s !! p with Some f => content f | None => [] end.

(** A change of a file, after some time. *)
Definition put (p : string) (b : bytes) (dt : N) (s : FS) : FS :=
  let t := (now s + Z.of_N dt)%Z in {| files := <[p := {| content := b; mtime := t |}]> (files s); now := t |}.

(** [Truncate] cuts a file or extends it with zeros. *)
Definition resize (n : nat) (b : bytes) : bytes := take n b ++ zeros (n - length b).

(** A write at an offset, past the end included. *)
Definition overwrite (off : nat) (data b : bytes) : bytes :=
  take off b ++ zeros (off - length b) ++ data ++ drop (off + length data) b.

Definition changes (p : string) (f : bytes -> bytes) (x : N + error) (s : FS) : option ((N + error) * FS) :=
  Some (x, match x with inl dt => put p (f (fileAt s p)) dt s | inr _ => s end).

Definition local : local_handler diskE FS := fun X e =>
  match e in diskE X return X -> FS -> option (X * FS) with
  | Open p => fun x s => Some (match x, files s !! p with None, None => Some errNotExist | _, _ => x end, s)
  | Create p => changes p (fun _ => [])
  | Truncate p size => fun x s =>
      if (size <? 0)%Z then Some (inr (errNew "invalid argument"), s) else changes p (resize (Z.to_nat size)) x s
  | WriteAt p off data => changes p (overwrite off data)
  | Stat p => fun x s =>
      Some (match x, files s !! p with inl _, Some f => inl (mtime f) | inl _, None => inr errNotExist | _, _ => x end, s)
  | Size p => fun x s => Some (match x with inl _ => inl (Z.of_nat (length (fileAt s p))) | inr _ => x end, s)
  | Read p => fun x s =>
      Some (match x, files s !! p with inl _, Some f => inl (content f) | inl _, None => inr errNotExist | _, _ => x end, s)
  | _ => fun x s => Some (x, s)
  end.

Definition exec (env : oracle diskE) {A} (p : prog diskE A) s := run (traced_handler local env) p s.

(** A call ends with an error or none, or panics. *)
Inductive ended := Returned (e : option error) | Panicked.

Definition failed {A} (r : A + error) : option error := match r with inl _ => None | inr e => Some e end.

(* src/internal/disk/digest.go : 10-13 DigestFileSuffix *)
Definition DigestFileSuffix : string := ".digest".

(* src/internal/disk/digest.go : digestFilePath *)
Definition digestFilePath (filePath : string) : string := filePath ++ DigestFileSuffix.

(* src/internal/disk/digest.go : writeDigestFile *)
Definition writeDigestFile (filePath d : string) : prog diskE (option error) :=
  c <- perform (Create (digestFilePath filePath)) ;;
  match c with
  | inr e => Ret (Some e)
  | inl _ =>
      w <- perform (WriteAt (digestFilePath filePath) 0 (list_ascii_of_string d)) ;;
      c <- perform (Close (digestFilePath filePath)) ;;
      Ret (match w with inr e => errors_Join [Some e; c] | inl _ => c end)
  end.

(* src/internal/disk/compression.go : CompressionResult *)
Record CompressionResult := {
  OutputFilePath : string;
  CompressedSize : Z;
  UncompressedSize : Z;
  GzDigest : string;
  UncompressedDigest : string
}.

Definition noResult : CompressionResult :=
  {| OutputFilePath := ""; CompressedSize := 0; UncompressedSize := 0; GzDigest := ""; UncompressedDigest := "" |}.

(** The blocks of at most [n] bytes that a read is cut into. *)
Fixpoint blocks (fuel n : nat) (l : bytes) : list bytes :=
  match fuel, l with
  | O, _ | _, [] => []
  | S fuel, _ => take n l :: blocks fuel n (drop n l)
  end.

Abbreviation handle env := (traced_handler local env).

Section Disk.
Variable canonical : bytes -> string.
Variable verifier : string -> option (bytes -> bool).     (* None: the digest is malformed, a panic *)

(** ** validator.go *)

(* src/internal/disk/validator.go : ComputeAndVerifyFileDigest *)
Definition ComputeAndVerifyFileDigest (filePath expectedDigest : string) : prog diskE ended :=
  o <- perform (Open filePath) ;;
  match o with
  | Some e => Ret (Returned (Some e))
  | None =>
      match verifier expectedDigest with
      | None => Ret Panicked
      | Some verified =>
          r <- perform (Read filePath) ;;
          match r with
          | inr e => Ret (Returned (Some e))
          | inl b =>
              if verified b then e <- writeDigestFile filePath expectedDigest ;; Ret (Returned e)
              else Ret (Returned (Some (errNew "digest verification failed")))
          end
      end
  end.

(* src/internal/disk/validator.go : ValidateFileWithDigest *)
Definition ValidateFileWithDigest (filePath expectedDigest : string) : prog diskE ended :=
  f <- perform (Stat filePath) ;;
  match f with
  | inr e => Ret (Returned (Some (Errorf "error checking file" e)))
  | inl fileTime =>
      g <- perform (Stat (digestFilePath filePath)) ;;
      match g with
      | inr e =>
          if bool_decide (e = errNotExist) then ComputeAndVerifyFileDigest filePath expectedDigest
          else Ret (Returned (Some (Errorf "error checking digest file" e)))
      | inl digestTime =>
          if negb (fileTime <? digestTime)%Z then ComputeAndVerifyFileDigest filePath expectedDigest
          else
            r <- perform (Read (digestFilePath filePath)) ;;
            Ret (Returned (match r with
                 | inr e => Some (Errorf "error reading digest file" e)
                 | inl stored =>
                     if String.eqb expectedDigest (string_of_list_ascii stored) then None
                     else Some (errMsg ("digest does not match: got " ++ string_of_list_ascii stored
                                        ++ ", expected " ++ expectedDigest))
                 end))
      end
  end.

(** ** compression.go *)

(* src/internal/disk/compression.go : CompressFileWithPath *)
Definition CompressFileWithPath (inputFilePath outputFile : string) : prog diskE (CompressionResult * option error) :=
  o <- perform (Open inputFilePath) ;;
  match o with
  | Some e => Ret (noResult, Some e)
  | None =>
      r <- (b <- perform (Read inputFilePath) ;;
            match b with
            | inr e => Ret (noResult, Some e)
            | inl data =>
                z <- perform (Deflate data) ;;
                match z with
                | inr e => Ret (noResult, Some e)
                | inl gz =>
                    w <- perform (WriteAt outputFile 0 gz) ;;
                    match w with
                    | inr e => Ret (noResult, Some e)
                    | inl _ =>
                        e <- perform (Sync outputFile) ;;
                        match e with
                        | Some e => Ret (noResult, Some e)
                        | None =>
                            s <- perform (Size outputFile) ;;        (* outputFile.Stat().Size() *)
                            Ret (match s with
                                 | inr e => (noResult, Some e)
                                 | inl size =>
                                     ({| OutputFilePath := outputFile; CompressedSize := size;
                                         UncompressedSize := Z.of_nat (length data);
                                         GzDigest := canonical gz; UncompressedDigest := canonical data |}, None)
                                 end)
                        end
                    end
                end
            end) ;;
      c <- perform (Close inputFilePath) ;;                          (* deferred *)
      Ret (fst r, errors_Join [snd r; c])
  end.

Definition sparseBlockSize : nat := Z.to_nat (64 * 1024).

(** [bytes.Equal(chunk, zeroChunk)] *)
Definition blank (chunk : bytes) : bool :=
  (Z.of_nat (length chunk) =? 64 * 1024)%Z && forallb (fun c => Ascii.eqb c nul) chunk.

(** The loop over the blocks of one read, from [offset]. *)
Fixpoint writeBlocks (out : string) (offset : nat) (cs : list bytes) : prog diskE (option error) :=
  match cs with
  | [] => Ret None
  | c :: cs =>
      if blank c then writeBlocks out (offset + length c) cs
      else
        e <- perform (Seek out offset) ;;
        match e with
        | Some e => Ret (Some (Errorf "failed to seek in output file" e))
        | None =>
            w <- perform (WriteAt out offset c) ;;
            match w with
            | inr e => Ret (Some (Errorf "failed to write to output file" e))
            | inl _ => writeBlocks out (offset + length c) cs
            end
        end
  end.

(** The read loop: [n] more reads deliver data, [hashed] is what was read so far. *)
Fixpoint readLoop (n : nat) (out : string) (hashed : bytes) : prog diskE (bytes + error) :=
  c <- perform CtxErr ;;
  match c with
  | Some e => Ret (inr e)
  | None =>
      match n with
      | O =>
          e <- perform GzEnd ;;
          Ret (match e with Some e => inr e | None => inl hashed end)
      | S n =>
          r <- perform GzRead ;;
          match r with
          | inr e => Ret (inr e)
          | inl chunk =>
              w <- writeBlocks out (length hashed) (blocks (length chunk) sparseBlockSize chunk) ;;
              match w with
              | Some e => Ret (inr e)
              | None => readLoop n out (hashed ++ chunk)%list
              end
          end
      end
  end.

Definition decompressBody (inputFilePath outputFilePath : string) (uncompressedSize : Z)
  : prog diskE (string * option error) :=
  t <- perform (Truncate outputFilePath uncompressedSize) ;;
  match t with
  | inr e => Ret ("", Some e)
  | inl _ =>
      g <- perform (GzOpen inputFilePath) ;;
      match g with
      | Some e => Ret ("", Some e)
      | None =>
          n <- perform GzReads ;;
          r <- readLoop n outputFilePath [] ;;
          match r with
          | inr e => Ret ("", Some e)
          | inl data =>
              e <- writeDigestFile outputFilePath (canonical data) ;;
              Ret (match e with Some e => ("", Some e) | None => (canonical data, None) end)
          end
      end
  end.

(* src/internal/disk/compression.go : DecompressFileWithPath *)
Definition DecompressFileWithPath (inputFilePath outputFilePath : string) (uncompressedSize : Z)
  : prog diskE (string * option error) :=
  o <- perform (Open inputFilePath) ;;
  match o with
  | Some e => Ret ("", Some e)
  | None =>
      r <- (c <- perform (Create outputFilePath) ;;
            match c with
            | inr e => Ret ("", Some e)
            | inl _ =>
                r <- decompressBody inputFilePath outputFilePath uncompressedSize ;;
                e <- perform (Close outputFilePath) ;;               (* deferred *)
                Ret (fst r, errors_Join [snd r; e])
            end) ;;
      e <- perform (Close inputFilePath) ;;                          (* deferred *)
      Ret (fst r, errors_Join [snd r; e])
  end.

(** ** The content of a decompressed file *)

(** The bytes that the decompressor delivered, from a trace. *)
Fixpoint delivered (tr : list (call diskE)) : bytes :=
  match tr with
  | [] => []
  | Call e x :: tr =>
      (delivered tr ++
       match e in diskE X return X -> bytes with
       | GzRead => fun r => match r with inl b => b | inr _ => [] end
       | _ => fun _ => []
       end x)%list
  end.

Lemma blocks_concat fuel n l : (0 < n)%nat -> (length l <= fuel)%nat -> concat (blocks fuel n l) = l.
Proof.
  intros Hn. revert l. induction fuel as [|fuel IH]; intros l Hl; [by destruct l; simpl in *; [|lia]|].
  destruct l as [|c l]; [done|]. cbn [blocks concat]. rewrite IH, take_drop; [done|].
  rewrite length_drop. simpl in *. lia.
Qed.

(** One is the other followed by zeros. *)
Definition padded (h b : bytes) : Prop := exists k, b = (h ++ zeros k)%list \/ h = (b ++ zeros k)%list.

(** The file holds what was read, and zeros up to [size]; of what goes past [size],
    zeros at the end may be missing. *)
Definition holds (size : nat) (h b : bytes) : Prop :=
  padded h b /\ ((length h <= size)%nat -> b = (h ++ zeros (size - length h))%list).

Lemma zeros_add n m : zeros (n + m) = (zeros n ++ zeros m)%list.
Proof. apply replicate_add. Qed.

Lemma padded_refl b : padded b b.
Proof. exists 0%nat. left. by rewrite app_nil_r. Qed.

Lemma overwrite_end h c b : padded h b -> exists k, overwrite (length h) c b = (h ++ c ++ zeros k)%list.
Proof.
  intros [k [-> | ->]]; unfold overwrite.
  - rewrite take_app_length, drop_app_add, length_app. replace (length h - (length h + _))%nat with 0%nat by lia.
    unfold zeros at 2. rewrite drop_replicate. by exists (k - length c)%nat.
  - rewrite length_app. assert (length (zeros k) = k) as -> by apply length_replicate.
    rewrite take_ge, drop_ge by lia. exists 0%nat. replace (length b + k - length b)%nat with k by lia.
    change (zeros 0) with (@nil ascii). by rewrite !app_nil_r, <- app_assoc.
Qed.

Lemma holds_write size h c b : holds size h b -> holds size (h ++ c) (overwrite (length h) c b).
Proof.
  intros [Hp Hb]. split.
  - destruct (overwrite_end h c b Hp) as [k ->]. exists k. left. by rewrite app_assoc.
  - intros Hl. rewrite length_app in *. rewrite Hb by lia. unfold overwrite, zeros.
    rewrite take_app_length, length_app, length_replicate.
    replace (length h - (length h + (size - length h)))%nat with 0%nat by lia.
    rewrite drop_app_add. unfold zeros. rewrite drop_replicate, <- !app_assoc. simpl. do 3 f_equal. lia.
Qed.

Lemma padded_zeros h b n : padded h b -> padded (h ++ zeros n) b.
Proof.
  intros [k [-> | ->]].
  - destruct (decide (n <= k)%nat).
    + exists (k - n)%nat. left. rewrite <- app_assoc, <- zeros_add. do 2 f_equal. lia.
    + exists (n - k)%nat. right. rewrite <- app_assoc, <- zeros_add. do 2 f_equal. lia.
  - exists (k + n)%nat. right. by rewrite zeros_add, app_assoc.
Qed.

Lemma holds_blank size h c b : blank c = true -> holds size h b -> holds size (h ++ c) b.
Proof.
  intros [_ Hc]%andb_true_iff [Hp Hb].
  assert (c = zeros (length c)) as Hz.
  { clear -Hc. induction c as [|x c IH]; [done|]. simpl in *. apply andb_true_iff in Hc as [->%Ascii.eqb_eq Hc].
    unfold zeros in *. simpl. f_equal. by apply IH. }
  split; [rewrite Hz; by apply padded_zeros|]. intros Hl. rewrite length_app in *. rewrite Hb by lia.
  rewrite <- app_assoc. f_equal. rewrite Hz at 1. rewrite <- zeros_add. f_equal. lia.
Qed.

Lemma fileAt_put p b dt s : fileAt (put p b dt s) p = b.
Proof. unfold fileAt, put. simpl. by rewrite lookup_insert_eq. Qed.

Lemma put_other p q b dt s : q <> p -> files (put p b dt s) !! q = files s !! q.
Proof. intros Hq. simpl. by rewrite lookup_insert_ne. Qed.

Lemma writeBlocks_wp env out size cs h n tr u :
  holds size h (fileAt u out) ->
  wp (handle env) (writeBlocks out (length h) cs)
    (fun r s' => delivered (trace s') = delivered tr /\ (r = None -> holds size (h ++ concat cs) (fileAt (own s') out)))
    (Traced n tr u).
Proof.
  revert h n tr u. induction cs as [|c cs IH]; intros h n tr u Hh; cbn [writeBlocks concat].
  { simpl. rewrite app_nil_r. done. }
  rewrite app_assoc, <- length_app. destruct (blank c) eqn:Eb.
  { apply IH. by apply holds_blank. }
  cbn. destruct (env _ _ (Seek _ _)) as [e|]; cbn; [by rewrite app_nil_r|].
  destruct (env _ _ (WriteAt _ _ _)) as [dt|e]; cbn; [|by rewrite !app_nil_r].
  eapply wp_mono; [|apply IH; rewrite fileAt_put; by apply holds_write].
  intros r s' [Hd Hr]. cbn [delivered] in Hd. rewrite !app_nil_r in Hd. done.
Qed.

Lemma readLoop_wp env out size m h n tr u :
  holds size h (fileAt u out) -> h = delivered tr ->
  wp (handle env) (readLoop m out h)
    (fun r s' => forall data, r = inl data -> data = delivered (trace s') /\ holds size data (fileAt (own s') out))
    (Traced n tr u).
Proof.
  revert h n tr u. induction m as [|m IH]; intros h n tr u Hh Hd; cbn [readLoop]; cbn;
    (destruct (env _ _ CtxErr) as [e|]; cbn; [done|]).
  - destruct (env _ _ GzEnd) as [e|]; cbn; [done|]. intros data [= <-]. by rewrite !app_nil_r.
  - destruct (env _ _ GzRead) as [c|e]; cbn; [|done]. apply wp_bind.
    eapply wp_mono; [|by apply (writeBlocks_wp env out size)].
    intros r s' [Hd' Hr]. destruct r as [e|]; [done|]. specialize (Hr eq_refl).
    rewrite blocks_concat in Hr by (unfold sparseBlockSize; lia). destruct s' as [n' tr' u'].
    apply IH; [done|]. cbn in Hd'. by rewrite Hd', app_nil_r, Hd.
Qed.

Lemma digestFilePath_ne p : digestFilePath p <> p.
Proof.
  intros E. apply (f_equal String.length) in E. unfold digestFilePath in E. rewrite Str.length_app in E. simpl in E. lia.
Qed.

(** The digest file is written, newer than nothing else is touched. *)
Lemma writeDigestFile_wp env p d n tr u :
  wp (handle env) (writeDigestFile p d)
    (fun r s' => delivered (trace s') = delivered tr /\
       (forall q, q <> digestFilePath p -> files (own s') !! q = files u !! q) /\
       (r = None -> fileAt (own s') (digestFilePath p) = list_ascii_of_string d))
    (Traced n tr u).
Proof.
  unfold writeDigestFile. cbn. destruct (env _ _ (Create _)) as [dt|e]; cbn; [|by rewrite app_nil_r].
  destruct (env _ _ (WriteAt _ _ _)) as [dt'|e]; cbn; rewrite !app_nil_r.
  - split_and!; [done | |].
    + intros q Hq. by rewrite !lookup_insert_ne.
    + intros _. rewrite !fileAt_put. unfold overwrite. simpl. by rewrite drop_nil, app_nil_r.
  - split_and!; [done | |].
    + intros q Hq. by rewrite lookup_insert_ne.
    + by destruct (env _ _ (Close _)).
Qed.

Lemma disk_total X (e : diskE X) x u : is_Some (local X e x u).
Proof. destruct e; cbn; unfold changes; try case_match; eauto. Qed.

Lemma disk_exec_total env {A} (p : prog diskE A) s : is_Some (exec env p s).
Proof. apply traced_run_total, disk_total. Qed.

Lemma disk_exec_wp env {A} (p : prog diskE A) (Q : A -> traced diskE FS -> Prop) s :
  wp (handle env) p Q s -> exists r s', exec env p s = Some (r, s') /\ Q r s'.
Proof.
  intros Hw. destruct (disk_exec_total env p s) as [[r s'] Hr]. exists r, s'. split; [done | by eapply wp_run].
Qed.

Lemma errors_Join_two a b : errors_Join [a; b] = None -> a = None /\ b = None.
Proof. by destruct a, b. Qed.

(** What a success leaves behind. *)
Definition decompressed (out : string) (size : nat) (d : string) (s : traced diskE FS) : Prop :=
  d = canonical (delivered (trace s)) /\
  fileAt (own s) (digestFilePath out) = list_ascii_of_string d /\
  holds size (delivered (trace s)) (fileAt (own s) out).

Lemma delivered_quiet {X} (e : diskE X) (x : X) tr :
  match e with GzRead => False | _ => True end -> delivered (Call e x :: tr) = delivered tr.
Proof. intros He. destruct e; try done; cbn [delivered]; by rewrite app_nil_r. Qed.

Lemma decompressBody_wp env inp out size n tr u :
  delivered tr = [] ->
  (fileAt u out = [] ) ->
  wp (handle env) (decompressBody inp out size)
    (fun r s' => snd r = None -> decompressed out (Z.to_nat size) (fst r) s') (Traced n tr u).
Proof.
  intros Htr Hu. unfold decompressBody. cbn. unfold traced_handler at 1. cbn. destruct (size <? 0)%Z eqn:Es; cbn; [done|].
  destruct (env _ _ (Truncate _ _)) as [dt|e]; cbn; [|done].
  destruct (env _ _ (GzOpen _)) as [e|]; cbn; [done|]. apply wp_bind.
  eapply wp_mono; [|apply (readLoop_wp env out (Z.to_nat size))].
  - intros [data|e] [n' tr' u'] Hr; [|done]. destruct (Hr data eq_refl) as [Hd Hh]. cbn in Hd, Hh.
    apply wp_bind. eapply wp_mono; [|apply writeDigestFile_wp].
    intros [e|] s' (Hdel & Hoth & Hdig); [done|]. intros _. cbn [fst]. unfold decompressed.
    rewrite Hdel, <- Hd. split_and!; [done | by apply Hdig|].
    unfold fileAt at 1. rewrite Hoth by (intros E; by apply (digestFilePath_ne out)). exact Hh.
  - unfold fileAt. cbn. rewrite lookup_insert_eq. cbn. unfold resize. fold (fileAt u out). rewrite Hu, take_nil. simpl.
    split; [exists (Z.to_nat size); left; simpl; by rewrite Nat.sub_0_r | intros _; reflexivity].
  - cbn. by rewrite Htr.
Qed.

(** A digest file that is newer than its file tells the truth about it. *)
Definition truthful (u : FS) (p : string) : Prop :=
  forall f g, files u !! p = Some f -> files u !! digestFilePath p = Some g -> (mtime f < mtime g)%Z ->
    exists verified, verifier (string_of_list_ascii (content g)) = Some verified /\ verified (content f) = true.

End Disk.

(** The laws of go-digest that matter: the digest of some bytes is well formed, and its
    verifier accepts them. *)
Class DigestLaws (canonical : bytes -> string) (verifier : string -> option (bytes -> bool)) : Prop := {
  canonical_verifies b : exists verified, verifier (canonical b) = Some verified /\ verified b = true
}.

#[local] Arguments decompressBody : simpl never.
#[local] Arguments writeDigestFile : simpl never.
#[local] Arguments ComputeAndVerifyFileDigest : simpl never.

Section Outcomes.
Variable canonical : bytes -> string.
Variable verifier : string -> option (bytes -> bool).
Context {DL : DigestLaws canonical verifier}.
Variable env : oracle diskE.

Lemma decompress_wp inp out size n u :
  wp (handle env) (DecompressFileWithPath canonical inp out size)
    (fun r s' => snd r = None -> decompressed canonical out (Z.to_nat size) (fst r) s') (Traced n [] u).
Proof.
  unfold DecompressFileWithPath. cbn.
  destruct (match env _ _ (Open inp) with Some _ => _ | None => _ end) as [e|]; cbn; [done|].
  apply wp_bind. cbn. destruct (env _ _ (Create out)) as [dt|e]; cbn; [|done]. apply wp_bind.
  eapply wp_mono; [|apply decompressBody_wp; [done | apply fileAt_put]].
  intros [d e] [m tr v] Hd. cbn in *. intros [He _]%errors_Join_two. apply errors_Join_two in He as [-> _].
  specialize (Hd eq_refl). unfold decompressed in *. cbn [trace own] in *. by rewrite !delivered_quiet by done.
Qed.

Lemma decompressed_exact out size d s :
  decompressed canonical out size d s -> length (delivered (trace s)) = size ->
  fileAt (own s) out = delivered (trace s).
Proof. intros (_ & _ & _ & Hh) Hl. rewrite Hh by lia. by rewrite Hl, Nat.sub_diag, app_nil_r. Qed.

(** The bytes of a file have the expected digest. *)
Definition matches (expected : string) (b : bytes) : Prop :=
  exists verified, verifier expected = Some verified /\ verified b = true.

Definition checked (p expected : string) (u : FS) (r : ended) (s' : traced diskE FS) : Prop :=
  (r = Panicked -> verifier expected = None) /\ files (own s') !! p = files u !! p /\
  (r = Returned None -> truthful verifier (own s') p /\ matches expected (fileAt u p)).

Lemma compute_wp p expected n tr u :
  wp (handle env) (ComputeAndVerifyFileDigest verifier p expected) (checked p expected u) (Traced n tr u).
Proof.
  unfold ComputeAndVerifyFileDigest, checked, matches. cbn.
  destruct (match env _ _ (Open p) with Some _ => _ | None => _ end) as [e|] eqn:Eo; cbn; [by split_and!|].
  destruct (files u !! p) as [f|] eqn:Hf; [|by destruct (env _ _ (Open p))].
  destruct (verifier expected) as [verified|] eqn:Ev; cbn; [|by rewrite Hf; split_and!]. rewrite Hf.
  destruct (env _ _ (Read p)) as [b|e]; cbn; [|by rewrite Hf; split_and!].
  destruct (verified (content f)) eqn:Eok; [|by cbn; rewrite Hf; split_and!]. apply wp_bind.
  eapply wp_mono; [|apply writeDigestFile_wp].
  intros e s' (_ & Hoth & Hdig). cbn.
  rewrite (Hoth p), Hf by (intros E; by apply (digestFilePath_ne p)). split_and!; [done | done|].
  intros [= ->]. split; [|exists verified; unfold fileAt; by rewrite Hf].
  intros f' g Hf' Hg _. rewrite (Hoth p), Hf in Hf' by (intros E; by apply (digestFilePath_ne p)).
  injection Hf' as <-. unfold fileAt in Hdig. rewrite Hg in Hdig.
  rewrite Hdig, string_of_list_ascii_of_string by done. by exists verified.
Qed.

Lemma validate_wp p expected n u :
  truthful verifier u p ->
  wp (handle env) (ValidateFileWithDigest verifier p expected) (checked p expected u) (Traced n [] u).
Proof.
  intros Htrue. unfold ValidateFileWithDigest. cbn.
  destruct (env _ _ (Stat p)) as [t|e]; cbn; [|by split_and!].
  destruct (files u !! p) as [f|] eqn:Hf; cbn; [|by split_and!; cbn].
  destruct (env _ _ (Stat (digestFilePath p))) as [t'|e]; cbn.
  - destruct (files u !! digestFilePath p) as [g|] eqn:Hg; cbn; [|apply compute_wp].
    destruct (negb _) eqn:Et; [apply compute_wp|]. cbn.
    destruct (env _ _ (Read _)) as [b|e]; cbn; [rewrite Hg; cbn | by split_and!].
    destruct (String.eqb_spec expected (string_of_list_ascii (content g))) as [->|]; [|by split_and!].
    split_and!; [done | done|]. intros _. split; [exact Htrue|]. unfold fileAt. rewrite Hf.
    apply (Htrue f g Hf Hg). by apply negb_false_iff, Z.ltb_lt in Et.
  - case_bool_decide; [apply compute_wp | by cbn; split_and!].
Qed.

End Outcomes.

(** C19: decompression returns whatever the file system and the decompressor do, and on
    success the digest it answers with, which is also what it caches beside the file,
    is that of the bytes that were decompressed.  The file holds these bytes up to zeros
    at the end, though blocks of zeros were never written: when they are as many as
    announced it holds exactly these bytes, so that the cached digest is truthful; when
    they are fewer, it is padded up to the announced size with zeros that no digest
    covers. *)
Theorem decompress_faithful canonical verifier (DL : DigestLaws canonical verifier) env inp out size u :
  exists d e s', exec env (DecompressFileWithPath canonical inp out size) (start u) = Some ((d, e), s') /\
  (e = None ->
     let data := delivered (trace s') in
     d = canonical data /\ fileAt (own s') (digestFilePath out) = list_ascii_of_string d /\
     padded data (fileAt (own s') out) /\
     ((length data <= Z.to_nat size)%nat -> fileAt (own s') out = data ++ zeros (Z.to_nat size - length data))%list /\
     (length data = Z.to_nat size -> truthful verifier (own s') out)).
Proof.
  destruct (disk_exec_wp env _ _ _ (decompress_wp canonical env inp out size 0 u)) as ([d e] & s' & Hr & Hq).
  exists d, e, s'. split; [exact Hr|]. intros ->. specialize (Hq eq_refl). cbn [fst] in Hq.
  pose proof Hq as (Hd & Hg & Hp & Hh). split_and!; [done | done | exact Hp | exact Hh|].
  intros Hlen f g Hf Hdf _. pose proof (decompressed_exact _ _ _ _ _ Hq Hlen) as Hx.
  unfold fileAt in Hg, Hx. rewrite Hdf in Hg. rewrite Hf in Hx.
  rewrite Hg, Hx, string_of_list_ascii_of_string, Hd. apply DL.
Qed.

(** Validating a file returns; it panics only on a malformed digest, and as long
    as the digest beside the file is truthful, its success means that the file's bytes
    have the expected digest, whether they were read again or the cache was used; the
    file is not touched and the cache stays truthful. *)
Lemma validation_sound verifier env p expected u :
  truthful verifier u p ->
  exists r s', exec env (ValidateFileWithDigest verifier p expected) (start u) = Some (r, s') /\
  (r = Panicked -> verifier expected = None) /\ files (own s') !! p = files u !! p /\
  (r = Returned None -> truthful verifier (own s') p /\
     exists verified, verifier expected = Some verified /\ verified (fileAt u p) = true).
Proof. intros Htrue. apply disk_exec_wp, validate_wp, Htrue. Qed.

(** *** Inputs *)

(** go-digest with its canonical algorithm only. *)
Definition sha256Digest (b : bytes) : string := "sha256:" ++ Sha256.hexdigest (string_of_list_ascii b).

Definition sha256Verifier (d : string) : option (bytes -> bool) :=
  if Str.has_prefix "sha256:" d then Some (fun b => String.eqb (sha256Digest b) d) else None.

#[global] Instance sha256_laws : DigestLaws sha256Digest sha256Verifier.
Proof. split. intros b. eexists. split; [reflexivity|]. simpl. apply String.eqb_refl. Qed.

Definition abc : bytes := list_ascii_of_string "abc".

(** Nothing fails, a second passes at every change, and one read delivers "abc". *)
Definition sample_env : oracle diskE := fun X n e =>
  match e in diskE X return X with
  | Open _ => None | Create _ => inl 1%N | Truncate _ _ => inl 1%N | Seek _ _ => None | WriteAt _ _ _ => inl 1%N
  | Sync _ => None | Close _ => None | Stat _ => inl 0%Z | Size _ => inl 0%Z | Read _ => inl [] | CtxErr => None
  | GzOpen _ => None | GzReads => 1%nat | GzRead => inl abc | GzEnd => None | Deflate b => inl b
  end.

Definition sample_fs : FS := {| files := {["layer" := {| content := []; mtime := 5%Z |}]}; now := 10%Z |}.

Lemma decompress_faithful_witness :
  exists s', exec sample_env (DecompressFileWithPath sha256Digest "layer" "disk.img" 3) (start sample_fs)
      = Some ((sha256Digest abc, None), s') /\
    fileAt (own s') "disk.img" = abc /\ truthful sha256Verifier (own s') "disk.img".
Proof.
  destruct (decompress_faithful sha256Digest sha256Verifier sha256_laws sample_env "layer" "disk.img" 3 sample_fs)
    as (d & e & s' & Hr & Hq).
  assert (match exec sample_env (DecompressFileWithPath sha256Digest "layer" "disk.img" 3) (start sample_fs) with
          | Some ((_, e), s') => e = None /\ delivered (trace s') = abc
          | None => False end) as Hc by (vm_compute; split; reflexivity).
  rewrite Hr in Hc. destruct Hc as [-> Hdel]. destruct (Hq eq_refl) as (Hd & _ & _ & Hf & Ht).
  rewrite Hdel in *. exists s'. split; [by rewrite Hr, Hd|]. split; [apply Hf; cbv; lia | apply Ht; reflexivity].
Defined.

(** A file whose cached digest is not older is checked against its bytes. *)
Definition cached_fs (d : string) : FS :=
  {| files := {["disk.img" := {| content := abc; mtime := 5%Z |};
                "disk.img.digest" := {| content := list_ascii_of_string d; mtime := 4%Z |}]}; now := 10%Z |}.

Lemma validation_sound_witness :
  exists r s', exec sample_env (ValidateFileWithDigest sha256Verifier "disk.img" (sha256Digest abc))
      (start (cached_fs "old")) = Some (r, s') /\
    r = Returned None /\ exists v, sha256Verifier (sha256Digest abc) = Some v /\ v abc = true.
Proof.
  destruct (validation_sound sha256Verifier sample_env "disk.img" (sha256Digest abc) (cached_fs "old"))
    as (r & s' & Hr & _ & _ & Hok).
  - intros f g Hf Hg Hlt. exfalso. vm_compute in Hf, Hg. injection Hf as <-. injection Hg as <-. vm_compute in Hlt. discriminate.
  - assert (r = Returned None) as Er.
    { assert (match exec sample_env (ValidateFileWithDigest sha256Verifier "disk.img" (sha256Digest abc))
                    (start (cached_fs "old")) with
              | Some (r, _) => r = Returned None | None => False end) as Hc by (vm_compute; reflexivity).
      by rewrite Hr in Hc. }
    exists r, s'. split; [exact Hr|]. split; [exact Er|]. exact (proj2 (Hok Er)).
Defined.

End Disk.
