(* ===== verification/DiskFrame.v ===== *)
(** * internal/disk: what the operations on images leave alone

    Decompressing an image, checking it and caching its digest change only the image,
    the digest file beside it and whatever else they were given ([same_but]), and keep
    the cache [sound]: a digest file that is newer than its image names the digest of
    the image's bytes, up to zeros at the end. *)
From Stdlib Require Import ZArith Lia.
From Stdlib Require Import Ascii String.
From stdpp Require Import base list gmap strings.
From S2P Require Import Prelude GoStrings GoErrors Prog Disk.
Local Open Scope string_scope.
Local Open Scope go_scope.

Module DiskFrame.

Import Disk.

#[local] Arguments decompressBody : simpl never.
#[local] Arguments writeDigestFile : simpl never.
#[local] Arguments ComputeAndVerifyFileDigest : simpl never.

(** No file is from the future. *)
Definition timely (u : FS) : Prop := forall q f, files u !! q = Some f -> (mtime f <= now u)%Z.

Definition same_but (W : list string) (u u' : FS) : Prop := forall q, q ∉ W -> files u' !! q = files u !! q.

Lemma same_but_trans W u u1 u2 : same_but W u u1 -> same_but W u1 u2 -> same_but W u u2.
Proof. intros H1 H2 q Hq. by rewrite H2, H1. Qed.

Lemma same_but_put W p b dt u u' : p ∈ W -> same_but W u u' -> same_but W u (put p b dt u').
Proof. intros Hp Hs q Hq. rewrite put_other; [by apply Hs | by intros ->]. Qed.

Lemma timely_put p b dt u : timely u -> timely (put p b dt u).
Proof.
  intros Ht q f. simpl. destruct (decide (q = p)) as [->|Hq].
  - rewrite lookup_insert_eq. intros [= <-]. simpl. lia.
  - rewrite lookup_insert_ne by done. intros Hf. specialize (Ht q f Hf). lia.
Qed.

Section Sound.
Variable verifier : string -> option (bytes -> bool).

(** Bytes with the digest [d], up to zeros at the end. *)
Definition carries (d : string) (b : bytes) : Prop := exists data, matches verifier d data /\ padded data b.

(** An empty digest file is one whose writing failed. *)
Definition sound (u : FS) (p : string) : Prop :=
  forall f g, files u !! p = Some f -> files u !! digestFilePath p = Some g -> (mtime f < mtime g)%Z ->
    content g = [] \/ carries (string_of_list_ascii (content g)) (content f).

Lemma truthful_sound u p : truthful verifier u p -> sound u p.
Proof. intros Ht f g Hf Hg Hlt. right. exists (content f). split; [by eapply Ht | apply padded_refl]. Qed.

Lemma sound_same u u' p :
  files u' !! p = files u !! p -> files u' !! digestFilePath p = files u !! digestFilePath p ->
  sound u p -> sound u' p.
Proof. intros Hp Hd Hs f g. rewrite Hp, Hd. apply Hs. Qed.

(** Writing to a file outdates its cached digest, however little time passes. *)
Lemma sound_put p q b dt u : timely u -> q <> digestFilePath p -> sound u p -> sound (put q b dt u) p.
Proof.
  intros Ht Hq Hs. destruct (decide (q = p)) as [->|Hp].
  - intros f g. rewrite (put_other p (digestFilePath p)) by apply digestFilePath_ne. simpl.
    rewrite lookup_insert_eq. intros [= <-] Hg. simpl. specialize (Ht _ _ Hg). lia.
  - by apply (sound_same u); [apply put_other..|].
Qed.

(** The state of the file system while the image [out] is worked on. *)
Definition safe (W : list string) (out : string) (u0 u : FS) : Prop :=
  timely u /\ same_but W u0 u /\ sound u out.

(** The operations that may write write to [W], and not to the digest file of [out]. *)
Definition writes (W : list string) (out : string) X (e : diskE X) : Prop :=
  match e with
  | Create q | Truncate q _ | WriteAt q _ _ => q ∈ W /\ q <> digestFilePath out
  | _ => True
  end.

Lemma safe_put W out q b dt u0 u :
  q ∈ W -> q <> digestFilePath out -> safe W out u0 u -> safe W out u0 (put q b dt u).
Proof.
  intros Hq Hd (Ht & Hs & Hc). split_and!; [by apply timely_put | by apply same_but_put | by apply sound_put].
Qed.

Lemma safe_step W out u0 X (e : diskE X) x u y u' :
  writes W out X e -> safe W out u0 u -> local X e x u = Some (y, u') -> safe W out u0 u'.
Proof.
  destruct e; cbn; unfold changes; intros Hw Hs Hl; repeat case_match; simplify_eq; try done;
    destruct Hw; by apply safe_put.
Qed.

Lemma safe_ops env {A} (p : prog diskE A) W out u0 s :
  all_ops (writes W out) p -> safe W out u0 (own s) -> wp (handle env) p (fun _ s' => safe W out u0 (own s')) s.
Proof. intros Hp Hs. eapply wp_stable; [|exact Hp | exact Hs]. intros. by eapply safe_step. Qed.

Lemma writeBlocks_ops W out off cs :
  out ∈ W -> all_ops (writes W out) (writeBlocks out off cs).
Proof.
  intros Ho. revert off. induction cs as [|c cs IH]; intros off; simpl; [done|].
  destruct (blank c); [apply IH|]. simpl. split; [done|]. intros [e|]; simpl; [done|].
  split; [split; [done | by apply not_eq_sym, digestFilePath_ne]|]. intros [dt|e]; [apply IH | done].
Qed.

Lemma readLoop_ops W out n h : out ∈ W -> all_ops (writes W out) (readLoop n out h).
Proof.
  intros Ho. revert h. induction n as [|n IH]; intros h; simpl; (split; [done|]); intros [e|]; simpl; try done.
  split; [done|]. intros [c|e]; simpl; [|done]. apply all_ops_bind; [by apply writeBlocks_ops|]. by intros [e|]; simpl.
Qed.

(** Caching a digest that the file has. *)
Lemma writeDigest_safe env W out u0 d s :
  digestFilePath out ∈ W -> carries d (fileAt (own s) out) -> safe W out u0 (own s) ->
  wp (handle env) (writeDigestFile out d) (fun _ s' => safe W out u0 (own s')) s.
Proof.
  intros HW Hc (Ht & Hs & Hso). unfold writeDigestFile. cbn.
  assert (forall b dt u, (b = [] \/ carries (string_of_list_ascii b) (fileAt u out)) ->
    timely u -> same_but W u0 u -> safe W out u0 (put (digestFilePath out) b dt u)) as Hput.
  { intros b dt u Hb Htu Hsu. split_and!; [by apply timely_put | by apply same_but_put|].
    intros f g. rewrite put_other by apply not_eq_sym, digestFilePath_ne. intros Hf. simpl. rewrite lookup_insert_eq.
    intros [= <-] _. simpl. unfold fileAt in Hb. by rewrite Hf in Hb. }
  destruct (env _ _ (Create _)) as [dt|e]; cbn; [|by split_and!].
  destruct (Hput [] dt (own s)) as (Ht1 & Hs1 & Hso1); [by left | done | done|].
  destruct (env _ _ (WriteAt _ _ _)) as [dt'|e]; cbn; [|by split_and!].
  apply Hput; [|done | done]. right. rewrite fileAt_put. unfold overwrite, zeros. simpl.
  rewrite drop_nil, app_nil_r, string_of_list_ascii_of_string. unfold fileAt in *.
  by rewrite put_other by apply not_eq_sym, digestFilePath_ne.
Qed.

Lemma compute_safe env W p expected u0 s :
  digestFilePath p ∈ W -> safe W p u0 (own s) ->
  wp (handle env) (ComputeAndVerifyFileDigest verifier p expected) (fun _ s' => safe W p u0 (own s')) s.
Proof.
  intros HW Hs. unfold ComputeAndVerifyFileDigest. cbn.
  destruct (match env _ _ (Open p) with Some _ => _ | None => _ end) as [e|] eqn:Eo; cbn; [done|].
  destruct (files (own s) !! p) as [f|] eqn:Hf; [|by destruct (env _ _ (Open p))].
  destruct (verifier expected) as [verified|] eqn:Ev; cbn; [|done]. rewrite Hf.
  destruct (env _ _ (Read p)) as [b|e]; cbn; [|done].
  destruct (verified (content f)) eqn:Eok; [|done]. apply wp_bind.
  eapply wp_mono; [|apply writeDigest_safe; [done | | exact Hs]]; [done|].
  exists (content f). unfold fileAt. cbn. rewrite Hf. split; [by exists verified | apply padded_refl].
Qed.

Lemma validate_safe env W p expected u0 s :
  digestFilePath p ∈ W -> safe W p u0 (own s) ->
  wp (handle env) (ValidateFileWithDigest verifier p expected) (fun _ s' => safe W p u0 (own s')) s.
Proof.
  intros HW Hs. unfold ValidateFileWithDigest. cbn. repeat (case_match; cbn); first [done | by apply compute_safe].
Qed.

(** A validation that succeeds on a sound cache: the file carries the digest. *)
Lemma validate_carries env p expected n u :
  sound u p -> expected <> "" ->
  wp (handle env) (ValidateFileWithDigest verifier p expected)
    (fun r s' => files (own s') !! p = files u !! p /\ (r = Returned None -> carries expected (fileAt u p)))
    (Traced n [] u).
Proof.
  intros Hs Hne.
  assert (forall n tr, wp (handle env) (ComputeAndVerifyFileDigest verifier p expected)
    (fun r s' => files (own s') !! p = files u !! p /\ (r = Returned None -> carries expected (fileAt u p)))
    (Traced n tr u)) as Hcomp.
  { intros m tr. eapply wp_mono; [|apply compute_wp]. intros r s' (_ & Hf & Hok). split; [done|].
    intros Hr. destruct (Hok Hr) as [_ Hm]. exists (fileAt u p). split; [done | apply padded_refl]. }
  unfold ValidateFileWithDigest. cbn. destruct (env _ _ (Stat p)) as [t|e]; cbn; [|done].
  destruct (files u !! p) as [f|] eqn:Hf; cbn; [|by split].
  destruct (env _ _ (Stat (digestFilePath p))) as [t'|e]; cbn; [|by case_bool_decide; [apply Hcomp|]].
  destruct (files u !! digestFilePath p) as [g|] eqn:Hg; cbn; [|apply Hcomp].
  destruct (negb _) eqn:Et; [apply Hcomp|]. cbn. split; [done|].
  destruct (env _ _ (Read _)) as [b|e]; [rewrite Hg | done].
  destruct (String.eqb_spec expected (string_of_list_ascii (content g))) as [->|]; [|done]. intros _.
  unfold fileAt. rewrite Hf. apply negb_false_iff, Z.ltb_lt in Et.
  destruct (Hs f g Hf Hg Et) as [Hc|Hc]; [by rewrite Hc in Hne | exact Hc].
Qed.

End Sound.

Section Decompress.
Variable canonical : bytes -> string.
Variable verifier : string -> option (bytes -> bool).
Context {DL : DigestLaws canonical verifier}.

Lemma canonical_carries data b : padded data b -> carries verifier (canonical data) b.
Proof. intros Hp. exists data. split; [apply DL | done]. Qed.

Lemma decompress_safe env W inp out size u0 n u :
  out ∈ W -> digestFilePath out ∈ W -> safe verifier W out u0 u ->
  wp (handle env) (DecompressFileWithPath canonical inp out size)
    (fun _ s' => safe verifier W out u0 (own s')) (Traced n [] u).
Proof.
  intros Ho Hd Hs. pose proof (not_eq_sym (digestFilePath_ne out)) as Hne.
  unfold DecompressFileWithPath. cbn.
  destruct (match env _ _ (Open inp) with Some _ => _ | None => _ end) as [e|]; cbn; [done|].
  apply wp_bind. cbn. destruct (env _ _ (Create out)) as [dt|e]; cbn; [|done]. apply wp_bind.
  eapply wp_mono; [intros r s' Hr; exact Hr|]. unfold decompressBody. cbn.
  unfold traced_handler at 1. cbn. pose proof (safe_put verifier W out out [] dt u0 u Ho Hne Hs) as Hs1.
  destruct (size <? 0)%Z; cbn; [done|]. destruct (env _ _ (Truncate _ _)) as [dt'|e]; cbn; [|done].
  pose proof (safe_put verifier W out out (resize (Z.to_nat size) (fileAt (put out [] dt u) out)) dt' u0 _ Ho Hne Hs1) as Hs2.
  destruct (env _ _ (GzOpen _)) as [e|]; cbn; [done|]. apply wp_bind.
  eapply wp_mono; [|apply wp_and; [apply (readLoop_wp env out (Z.to_nat size)) |
                                   by apply (safe_ops verifier env _ W out u0), Hs2; apply readLoop_ops]].
  - intros [data|e] s' [Hr Hs']; [|done]. destruct (Hr data eq_refl) as [_ [Hp _]]. apply wp_bind.
    eapply wp_mono; [|apply writeDigest_safe; [done | by apply canonical_carries, Hp | done]]. by intros [e|] s2.
  - rewrite !fileAt_put. unfold resize. rewrite take_nil. split.
    + exists (Z.to_nat size). left. simpl. by rewrite Nat.sub_0_r.
    + done.
  - done.
Qed.

End Decompress.

End DiskFrame.
