(* ===== verification/Oci.v ===== *)
(** * pkg/oci: the store that an image is pulled into

    The store is the target of a copy made by the oras library: it receives contents
    ([Push]), answers whether it has them ([Exists]) and says where they are.  Its maps
    are the state [Store], next to the file system of [Disk]; the memory store, the
    reader of a pushed content and its verification are oras' and answered by the
    oracle.  A title is worked on under its lock, which blocks while another call has it
    ([OciLocks]); what the calls do to the maps and the files is in [OciProofs]. *)
From Stdlib Require Import ZArith Lia.
From Stdlib Require Import Ascii String.
From stdpp Require Import base list gmap strings.
From S2P Require Import Prelude GoStrings GoFormat GoErrors GoPath Prog Event Sha256 Disk Json OciConfig.
Local Open Scope string_scope.
Local Open Scope go_scope.

Module Oci.

Import OciConfig.

(** [ocispec.Descriptor]: the fields the code reads. *)
Record Descriptor := { d_MediaType : string; d_Digest : string; d_Size : Z; d_Annotations : gmap string string }.

Definition noDescriptor : Descriptor := {| d_MediaType := ""; d_Digest := ""; d_Size := 0; d_Annotations := ∅ |}.

(** [ocispec.AnnotationTitle] and [ocispec.DescriptorEmptyJSON]. *)
Definition AnnotationTitle : string := "org.opencontainers.image.title".
Definition DescriptorEmptyJSON : Descriptor :=
  {| d_MediaType := "application/vnd.oci.empty.v1+json";
     d_Digest := "sha256:44136fa355b3678a1146ad16f7e8649e94fb4fc21fe77e8310c060f61caaff8a"; d_Size := 2;
     d_Annotations := ∅ |}.

(* src/pkg/oci/oci.go : 30-39 AnnotationUncompressedSize *)
Definition AnnotationUncompressedSize : string := "com.agoda.macosvz.content.uncompressed-size".
Definition AnnotationUncompressedDigest : string := "com.agoda.macosvz.content.uncompressed-digest".

(* src/pkg/oci/oci.go : 41-47 ErrStoreClosed *)
Definition ErrStoreClosed : error := errNew "store already closed".
Definition ErrDuplicateName : error := errNew "duplicate name".

(** [errdef.ErrNotFound] and [errdef.ErrMissingReference] of oras. *)
Definition errdefNotFound : error := errExternal 1 "not found".
Definition errdefMissingReference : error := errExternal 2 "missing reference".

(** ** State *)

(** [nameToStatus] keeps the flag of each title; the titles whose lock is held are in
    [lockedTitles]. *)
(* src/pkg/oci/oci.go : 49-62 Store *)
Record Store := {
  workingDir : string;
  ignoreExisting : bool;
  closed : bool;
  digestToPath : gmap string string;
  mediaTypeToPath : gmap string string;
  nameToStatus : gmap string bool;
  lockedTitles : gset string;
  tmpFiles : gset string
}.

Definition flag (s : Store) (name : string) : bool := default false (nameToStatus s !! name).

(* src/pkg/oci/oci.go : 496-499 Store.setClosed *)
Definition set_closed (s : Store) : Store :=
  {| workingDir := workingDir s; ignoreExisting := ignoreExisting s; closed := true; digestToPath := digestToPath s;
     mediaTypeToPath := mediaTypeToPath s; nameToStatus := nameToStatus s; lockedTitles := lockedTitles s;
     tmpFiles := tmpFiles s |}.
Definition add_digest (d p : string) (s : Store) : Store :=
  {| workingDir := workingDir s; ignoreExisting := ignoreExisting s; closed := closed s;
     digestToPath := <[d := p]> (digestToPath s); mediaTypeToPath := mediaTypeToPath s; nameToStatus := nameToStatus s;
     lockedTitles := lockedTitles s; tmpFiles := tmpFiles s |}.
Definition add_media (mt p : string) (s : Store) : Store :=
  {| workingDir := workingDir s; ignoreExisting := ignoreExisting s; closed := closed s; digestToPath := digestToPath s;
     mediaTypeToPath := <[mt := p]> (mediaTypeToPath s); nameToStatus := nameToStatus s;
     lockedTitles := lockedTitles s; tmpFiles := tmpFiles s |}.
Definition set_status (n : string) (b : bool) (s : Store) : Store :=
  {| workingDir := workingDir s; ignoreExisting := ignoreExisting s; closed := closed s; digestToPath := digestToPath s;
     mediaTypeToPath := mediaTypeToPath s; nameToStatus := <[n := b]> (nameToStatus s);
     lockedTitles := lockedTitles s; tmpFiles := tmpFiles s |}.
Definition set_locked (l : gset string) (s : Store) : Store :=
  {| workingDir := workingDir s; ignoreExisting := ignoreExisting s; closed := closed s; digestToPath := digestToPath s;
     mediaTypeToPath := mediaTypeToPath s; nameToStatus := nameToStatus s; lockedTitles := l; tmpFiles := tmpFiles s |}.
Definition add_tmp (p : string) (s : Store) : Store :=
  {| workingDir := workingDir s; ignoreExisting := ignoreExisting s; closed := closed s; digestToPath := digestToPath s;
     mediaTypeToPath := mediaTypeToPath s; nameToStatus := nameToStatus s; lockedTitles := lockedTitles s;
     tmpFiles := {[p]} ∪ tmpFiles s |}.

(** [nameToStatus.LoadOrStore(name, &nameStatus{})] *)
Definition add_status (n : string) (s : Store) : Store :=
  match nameToStatus s !! n with Some _ => s | None => set_status n false s end.

Inductive ociE : Type -> Type :=
| Get : ociE Store
| Modify (f : Store -> Store) : ociE unit
| LockTitle (name : string) : ociE bool                   (* status.Lock(), and status.exists under it *)
| UnlockTitle (name : string) : ociE unit
| SetExists (name : string) : ociE unit                   (* status.exists = true *)
| Dk {X : Type} (e : Disk.diskE X) : ociE X
| MkdirAll (path : string) : ociE (option error)
| CreateTemp : ociE (string + error)                      (* its path; the file is empty *)
| RemoveFile (path : string) : ociE (option error)
| ReadContent : ociE (Disk.bytes + error)                 (* all of the pushed reader *)
| VerifyContent (d : Descriptor) : ociE (option error)    (* VerifyReader.Verify *)
| MemFetch (d : Descriptor) : ociE (Disk.bytes + error)
| MemPush (d : Descriptor) : ociE (option error)
| MemExists (d : Descriptor) : ociE (bool * option error)
| MemResolve (reference : string) : ociE (Descriptor + error)
| MemTag (d : Descriptor) (reference : string) : ociE (option error)
| Record_ (ev : Event) : ociE unit.

Definition local : local_handler ociE (Store * Disk.FS) := fun X e =>
  match e in ociE X return X -> Store * Disk.FS -> option (X * (Store * Disk.FS)) with
  | Get => fun _ s => Some (fst s, s)
  | Modify f => fun _ s => Some (tt, (f (fst s), snd s))
  | LockTitle n => fun _ s =>
      if bool_decide (n ∈ lockedTitles (fst s)) then None
      else Some (flag (fst s) n, (set_locked ({[n]} ∪ lockedTitles (fst s)) (fst s), snd s))
  | UnlockTitle n => fun _ s => Some (tt, (set_locked (lockedTitles (fst s) ∖ {[n]}) (fst s), snd s))
  | SetExists n => fun _ s => Some (tt, (set_status n true (fst s), snd s))
  | Dk e => fun x s => match Disk.local _ e x (snd s) with Some (x, u) => Some (x, (fst s, u)) | None => None end
  | CreateTemp => fun x s => Some (x, match x with inl p => (fst s, Disk.put p [] 0 (snd s)) | inr _ => s end)
  | RemoveFile p => fun x s =>
      Some (x, match x with
               | None => (fst s, {| Disk.files := delete p (Disk.files (snd s)); Disk.now := Disk.now (snd s) |})
               | Some _ => s
               end)
  | _ => fun x s => Some (x, s)
  end.

Definition exec (env : oracle ociE) {A} (p : prog ociE A) s := run (traced_handler local env) p s.

Definition dk {A} (p : prog Disk.diskE A) : prog ociE A := lift (fun X e => Dk e) p.
Definition modify (f : Store -> Store) : prog ociE unit := perform (Modify f).

Section Store.
Context `{PrintTable}.
Variable canonical : Disk.bytes -> string.
Variable verifier : string -> option (Disk.bytes -> bool).
Context `{JsonText}.

(** ** oci.go: helpers *)

(** [filepath.Abs] of a relative directory needs the current one. *)
(* src/pkg/oci/oci.go : New *)
Definition New (abs : string -> string + error) (dir : string) (ignore : bool) : Store + error :=
  match abs dir with
  | inr e => inr (Errorf ("failed to resolve absolute path for " ++ dir) e)
  | inl d => inl {| workingDir := d; ignoreExisting := ignore; closed := false; digestToPath := ∅;
                    mediaTypeToPath := ∅; nameToStatus := ∅; lockedTitles := ∅; tmpFiles := ∅ |}
  end.

(* src/pkg/oci/oci.go : Store.isClosedSet *)
Definition isClosedSet : prog ociE bool := s <- perform Get ;; Ret (closed s).

(* src/pkg/oci/oci.go : Store.absPath *)
Definition absPath (s : Store) (path : string) : string :=
  if Path.rooted path then path else Path.Join [workingDir s; path].

(* src/pkg/oci/oci.go : Store.tempFile *)
Definition tempFile : prog ociE (string + error) :=
  t <- perform CreateTemp ;;
  match t with
  | inr e => Ret (inr e)
  | inl p => modify (add_tmp p) ;; Ret (inl p)
  end.

(* src/pkg/oci/oci.go : Store.status *)
Definition status (name : string) : prog ociE unit := modify (add_status name).

(** The body runs under the title's lock and is told whether the title is taken; a panic
    goes through the deferred unlock. *)
(* src/pkg/oci/oci.go : 177-183 Store.Push *)
Definition withTitle {A} (name : string) (body : bool -> prog ociE A) : prog ociE A :=
  status name ;;
  exists_ <- perform (LockTitle name) ;;
  r <- body exists_ ;;
  perform (UnlockTitle name) ;;                                     (* deferred *)
  Ret r.

(** ** oci_processor.go *)

Definition copyFailed (path : string) (e : error) : option error :=
  Some (Errorf ("failed to copy content to " ++ path) e).

(* src/pkg/oci/oci_processor.go : Store.saveFile *)
Definition saveFile (path : string) (expected : Descriptor) : prog ociE (option error) :=
  c <- perform ReadContent ;;
  match c with
  | inr e => Ret (copyFailed path e)
  | inl data =>
      w <- perform (Dk (Disk.WriteAt path 0 data)) ;;
      match w with
      | inr e => Ret (copyFailed path e)
      | inl _ =>
          v <- perform (VerifyContent expected) ;;
          match v with
          | Some e => Ret (Some (Errorf ("failed to verify content in " ++ path) e))
          | None =>
              e <- perform (Dk (Disk.Sync path)) ;;
              Ret (match e with Some e => Some (Errorf ("failed to sync " ++ path) e) | None => None end)
          end
      end
  end.

(** A deferred close joins its error to the result; a panic goes through it. *)
Definition closing (path : string) (body : prog ociE Disk.ended) : prog ociE Disk.ended :=
  r <- body ;;
  c <- perform (Dk (Disk.Close path)) ;;
  Ret (match r with Disk.Panicked => Disk.Panicked | Disk.Returned e => Disk.Returned (errors_Join [e; c]) end).

Definition fails (e : error) : prog ociE Disk.ended := Ret (Disk.Returned (Some e)).

Definition decompressSaved (expected : Descriptor) (path outputFilePath : string) (size : Z) (uncompressedDigest : string)
  : prog ociE Disk.ended :=
  e <- saveFile path expected ;;
  match e with
  | Some e => fails (Errorf "failed to save content to temp file" e)
  | None =>
      modify (add_digest (d_Digest expected) path) ;;
      r <- dk (Disk.DecompressFileWithPath canonical path outputFilePath size) ;;
      match snd r with
      | Some e => fails (Errorf "failed to decompress file" e)
      | None =>
          if String.eqb (fst r) uncompressedDigest
          then modify (add_media (d_MediaType expected) outputFilePath) ;; Ret (Disk.Returned None)
          else fails (errMsg ("digest mismatch: expected " ++ uncompressedDigest ++ ", got " ++ fst r))
      end
  end.

(* src/pkg/oci/oci_processor.go : Store.processCompressedContent *)
Definition processCompressedContent (expected : Descriptor) (outputFilePath uncompressedSize uncompressedDigest : string)
  : prog ociE Disk.ended :=
  match Strconv.ParseInt uncompressedSize with
  | inr e => fails (Errorf "invalid uncompressed size" e)
  | inl size =>
      t <- tempFile ;;
      match t with
      | inr e => fails e
      | inl path => closing path (decompressSaved expected path outputFilePath size uncompressedDigest)
      end
  end.

Definition verifySaved (expected : Descriptor) (outputFilePath : string) : prog ociE Disk.ended :=
  e <- saveFile outputFilePath expected ;;
  match e with
  | Some e => fails (Errorf "failed to save content" e)
  | None =>
      modify (add_digest (d_Digest expected) outputFilePath) ;;
      r <- dk (Disk.ComputeAndVerifyFileDigest verifier outputFilePath (d_Digest expected)) ;;
      match r with
      | Disk.Panicked => Ret Disk.Panicked
      | Disk.Returned (Some e) => fails (Errorf "failed to verify file digest" e)
      | Disk.Returned None => modify (add_media (d_MediaType expected) outputFilePath) ;; Ret (Disk.Returned None)
      end
  end.

(* src/pkg/oci/oci_processor.go : Store.processRegularContent *)
Definition processRegularContent (expected : Descriptor) (outputFilePath : string) : prog ociE Disk.ended :=
  c <- perform (Dk (Disk.Create outputFilePath)) ;;
  match c with
  | inr e => fails (Errorf "failed to create file" e)
  | inl _ => closing outputFilePath (verifySaved expected outputFilePath)
  end.

(* src/pkg/oci/oci_processor.go : Store.processContentByType *)
Definition processContentByType (expected : Descriptor) (outputFilePath : string) : prog ociE Disk.ended :=
  s <- perform Get ;;
  m <- perform (MkdirAll (workingDir s)) ;;
  match m with
  | Some e => fails (Errorf "failed to ensure the working directory exists" e)
  | None =>
      match d_Annotations expected !! AnnotationUncompressedSize, d_Annotations expected !! AnnotationUncompressedDigest with
      | Some size, Some dg => processCompressedContent expected outputFilePath size dg
      | _, _ => processRegularContent expected outputFilePath
      end
  end.

Definition titleOf (d : Descriptor) : string := default "" (d_Annotations d !! AnnotationTitle).

(** ** oci.go: the content store *)

(* src/pkg/oci/oci.go : Store.Push *)
Definition Push (expected : Descriptor) : prog ociE Disk.ended :=
  c <- isClosedSet ;;
  if c : bool then fails ErrStoreClosed
  else if String.eqb (titleOf expected) "" then e <- perform (MemPush expected) ;; Ret (Disk.Returned e)
  else
    withTitle (titleOf expected) (fun exists_ =>
      if exists_ : bool then fails (Errorf (titleOf expected) ErrDuplicateName)
      else if negb (IsMediaTypeSupported (d_MediaType expected))
      then fails (errMsg ("unsupported media type: " ++ d_MediaType expected))
      else
        s <- perform Get ;;
        r <- processContentByType expected (Path.Join [workingDir s; titleOf expected]) ;;
        match r with
        | Disk.Returned None => perform (SetExists (titleOf expected)) ;; Ret r
        | _ => Ret r
        end).

(** The removal of the temporary files, in some order. *)
Definition removeTmp (errs : list error) (p : string) : prog ociE (list error) :=
  e <- perform (RemoveFile p) ;;
  Ret (match e with Some e => errs ++ [e] | None => errs end)%list.

(* src/pkg/oci/oci.go : Store.Close *)
Definition CloseStore : prog ociE (option error) :=
  c <- isClosedSet ;;
  if c : bool then Ret (Some ErrStoreClosed)
  else
    modify set_closed ;;
    s <- perform Get ;;
    errs <- foldM removeTmp (elements (tmpFiles s)) [] ;;
    Ret (errors_Join (map Some errs)).

(** An open file is its content: what a reader will find. *)
(* src/pkg/oci/oci.go : Store.Fetch *)
Definition Fetch (target : Descriptor) : prog ociE (Disk.bytes + error) :=
  c <- isClosedSet ;;
  if c : bool then Ret (inr ErrStoreClosed)
  else
    s <- perform Get ;;
    match digestToPath s !! d_Digest target with
    | Some path =>
        o <- perform (Dk (Disk.Open path)) ;;
        match o with
        | Some e =>
            if bool_decide (e = Disk.errNotExist)
            then Ret (inr (Errorf (d_Digest target ++ ": " ++ d_MediaType target) errdefNotFound))
            else Ret (inr e)
        | None => perform (Dk (Disk.Read path))
        end
    | None => perform (MemFetch target)
    end.

(** The digest that the file of a content must have. *)
Definition diskDigest (target : Descriptor) : string :=
  let u := default "" (d_Annotations target !! AnnotationUncompressedDigest) in
  if String.eqb u "" then d_Digest target else u.

(** [None] is the panic of a malformed digest. *)
(* src/pkg/oci/oci.go : Store.Exists *)
Definition Exists (target : Descriptor) : prog ociE (option (bool * option error)) :=
  c <- isClosedSet ;;
  if c : bool then Ret (Some (false, Some ErrStoreClosed))
  else
    s <- perform Get ;;
    match mediaTypeToPath s !! d_MediaType target with
    | Some _ => Ret (Some (true, None))
    | None =>
        let name := titleOf target in
        let filePath := Path.Join [workingDir s; name] in
        let fallback := r <- perform (MemExists target) ;; Ret (Some r) in
        st <- perform (Dk (Disk.Stat filePath)) ;;
        match st with
        | inr _ => fallback
        | inl _ =>
            if negb (ignoreExisting s) && negb (String.eqb name "") then
              r <- dk (Disk.ValidateFileWithDigest verifier filePath (diskDigest target)) ;;
              match r with
              | Disk.Panicked => Ret None
              | Disk.Returned None => modify (add_media (d_MediaType target) filePath) ;; Ret (Some (true, None))
              | Disk.Returned (Some _) => perform (Record_ (FailedToValidateOCI name)) ;; fallback
              end
            else fallback
        end
    end.

(* src/pkg/oci/oci.go : Store.Resolve *)
Definition Resolve (reference : string) : prog ociE (Descriptor + error) :=
  c <- isClosedSet ;;
  if c : bool then Ret (inr ErrStoreClosed)
  else if String.eqb reference "" then Ret (inr errdefMissingReference)
  else perform (MemResolve reference).

(* src/pkg/oci/oci.go : Store.Tag *)
Definition Tag (desc : Descriptor) (reference : string) : prog ociE Disk.ended :=
  c <- isClosedSet ;;
  if c : bool then fails ErrStoreClosed
  else if String.eqb reference "" then fails errdefMissingReference
  else
    r <- Exists desc ;;
    match r with
    | None => Ret Disk.Panicked
    | Some (_, Some e) => fails e
    | Some (false, None) => fails (Errorf (d_Digest desc ++ ": " ++ d_MediaType desc) errdefNotFound)
    | Some (true, None) => e <- perform (MemTag desc reference) ;; Ret (Disk.Returned e)
    end.

(* src/pkg/oci/oci.go : Store.Predecessors *)
Definition Predecessors (node : Descriptor) : list Descriptor * option error := ([], None).

(** ** oci_descriptor.go *)

(* src/pkg/oci/oci_descriptor.go : Store.descriptorFromStorageFile *)
Definition descriptorFromStorageFile (mediaType : MediaType) (path : string) : prog ociE (Descriptor * option error) :=
  t <- tempFile ;;
  match t with
  | inr e => Ret (noDescriptor, Some e)
  | inl tmp =>
      r <- dk (Disk.CompressFileWithPath canonical path tmp) ;;
      d <- match snd r with
           | Some e => Ret (noDescriptor, Some e)
           | None =>
               let res := fst r in
               modify (add_digest (Disk.GzDigest res) (Disk.OutputFilePath res)) ;;
               Ret ({| d_MediaType := mediaType; d_Digest := Disk.GzDigest res; d_Size := Disk.CompressedSize res;
                       d_Annotations :=
                         <[AnnotationTitle := Title mediaType]>
                         (<[AnnotationUncompressedSize := Str.itoa (Disk.UncompressedSize res)]>
                         {[AnnotationUncompressedDigest := Disk.UncompressedDigest res]}) |}, None)
           end ;;
      c <- perform (Dk (Disk.Close tmp)) ;;
      Ret (fst d, errors_Join [snd d; c])
  end.

Definition writeConfig (file data : string) (cfg : Config) : prog ociE (Descriptor * option error) :=
  w <- perform (Dk (Disk.WriteAt file 0 (list_ascii_of_string data))) ;;
  match w with
  | inr e => Ret (noDescriptor, Some e)
  | inl _ =>
      y <- perform (Dk (Disk.Sync file)) ;;
      match y with
      | Some e => Ret (noDescriptor, Some e)
      | None =>
          n <- perform (Dk (Disk.Size file)) ;;
          match n with
          | inr e => Ret (noDescriptor, Some e)
          | inl size =>
              let dg := canonical (list_ascii_of_string data) in
              modify (add_digest dg file) ;;
              Ret ({| d_MediaType := cfg_MediaType cfg; d_Digest := dg; d_Size := size;
                      d_Annotations := {[AnnotationTitle := Title (cfg_MediaType cfg)]} |}, None)
          end
      end
  end.

(** Encoding strings cannot fail.  The error of the deferred close is assigned to a
    variable that is not a named result, so it is lost. *)
(* src/pkg/oci/oci_descriptor.go : Store.descriptorFromConfig *)
Definition descriptorFromConfig (cfg : Config) : prog ociE (Descriptor * option error) :=
  let data := marshalConfig cfg in
  t <- tempFile ;;
  match t with
  | inr e => Ret (noDescriptor, Some e)
  | inl file =>
      r <- writeConfig file data cfg ;;
      perform (Dk (Disk.Close file)) ;;
      Ret r
  end.

(** ** oci.go: the rest *)

(* src/pkg/oci/oci.go : Store.Add *)
Definition Add (mediaType path : string) : prog ociE (Descriptor * option error) :=
  c <- isClosedSet ;;
  if c : bool then Ret (noDescriptor, Some ErrStoreClosed)
  else if negb (IsMediaTypeSupported mediaType)
  then Ret (noDescriptor, Some (errMsg ("unsupported media type: " ++ mediaType)))
  else
    let name := Title mediaType in
    withTitle name (fun exists_ =>
      if exists_ : bool then Ret (noDescriptor, Some (Errorf name ErrDuplicateName))
      else
        s <- perform Get ;;
        let p := absPath s (if String.eqb path "" then name else path) in
        st <- perform (Dk (Disk.Stat p)) ;;
        match st with
        | inr e => Ret (noDescriptor, Some (Errorf ("failed to stat " ++ p) e))
        | inl _ =>
            r <- descriptorFromStorageFile mediaType p ;;
            match snd r with
            | Some e => Ret (noDescriptor, Some (Errorf ("failed to create descriptor for " ++ name) e))
            | None =>
                modify (add_media mediaType p) ;;
                perform (SetExists name) ;;
                Ret (fst r, None)
            end
        end).

(* src/pkg/oci/oci.go : Store.Set *)
Definition SetConfig (cfg : Config) : prog ociE (Descriptor * option error) :=
  c <- isClosedSet ;;
  if c : bool then Ret (noDescriptor, Some ErrStoreClosed)
  else
    let name := Title MediaTypeConfigV1 in
    withTitle name (fun exists_ =>
      if exists_ : bool then Ret (noDescriptor, Some (Errorf name ErrDuplicateName))
      else
        r <- descriptorFromConfig cfg ;;
        match snd r with
        | Some e => Ret (noDescriptor, Some (Errorf ("failed to create descriptor for " ++ name) e))
        | None => perform (SetExists name) ;; Ret (fst r, None)
        end).

(** The platform that is set on the descriptor has no field in this model. *)
(* src/pkg/oci/oci.go : Store.GetManifestConfigDescriptor *)
Definition GetManifestConfigDescriptor : prog ociE (Descriptor * option error) :=
  c <- isClosedSet ;;
  if c : bool then Ret (noDescriptor, Some ErrStoreClosed)
  else
    r <- perform (MemExists DescriptorEmptyJSON) ;;
    (if negb (fst r) || is_some (snd r) then perform (MemPush DescriptorEmptyJSON) ;; Ret tt else Ret tt) ;;
    Ret (DescriptorEmptyJSON, None).

(* src/pkg/oci/oci.go : Store.GetFilePathForMediaType *)
Definition GetFilePathForMediaType (mediaType : MediaType) : prog ociE (string + error) :=
  c <- isClosedSet ;;
  if c : bool then Ret (inr ErrStoreClosed)
  else
    s <- perform Get ;;
    Ret (match mediaTypeToPath s !! mediaType with
         | Some p => inl p
         | None => inr (errMsg ("media type " ++ mediaType ++ " not found"))
         end).

(* src/pkg/oci/oci.go : Store.GetConfig *)
Definition GetConfig : prog ociE (Config * option error) :=
  c <- isClosedSet ;;
  if c : bool then Ret (noConfig, Some ErrStoreClosed)
  else
    p <- GetFilePathForMediaType MediaTypeConfigV1 ;;
    match p with
    | inr e => Ret (noConfig, Some (Errorf ("failed to get file path for media type " ++ MediaTypeConfigV1) e))
    | inl path =>
        o <- perform (Dk (Disk.Open path)) ;;
        match o with
        | Some e => Ret (noConfig, Some (Errorf ("failed to open file " ++ path) e))
        | None =>
            b <- perform (Dk (Disk.Read path)) ;;
            let r := match b with
                     | inr e => (noConfig, Some (Errorf "failed to decode bundle" e))
                     | inl data =>
                         match decodeConfig (string_of_list_ascii data) with
                         | inr e => (noConfig, Some (Errorf "failed to decode bundle" e))
                         | inl cfg => (cfg, None)
                         end
                     end in
            x <- perform (Dk (Disk.Close path)) ;;
            Ret (fst r, errors_Join [snd r; x])
        end
    end.

End Store.

(** *** Inputs *)

Definition sample_descriptor (size : string) : Descriptor :=
  {| d_MediaType := MediaTypeDiskImage; d_Digest := "sha256:00"; d_Size := 3;
     d_Annotations :=
       <[AnnotationTitle := "disk.img"]> (<[AnnotationUncompressedSize := size]>
         {[AnnotationUncompressedDigest := Disk.sha256Digest Disk.abc]}) |}.

Definition sample_store : Store :=
  {| workingDir := "/cache"; ignoreExisting := false; closed := false; digestToPath := ∅; mediaTypeToPath := ∅;
     nameToStatus := ∅; lockedTitles := ∅; tmpFiles := ∅ |}.

Definition empty_fs : Disk.FS := {| Disk.files := ∅; Disk.now := 0 |}.

(** Nothing fails, and one read of the decompressor delivers "abc". *)
Definition sample_env : oracle ociE := fun X n e =>
  match e in ociE X return X with
  | Get => sample_store
  | Modify _ => tt
  | LockTitle _ => false
  | UnlockTitle _ => tt
  | SetExists _ => tt
  | Dk e => Disk.sample_env _ n e
  | MkdirAll _ => None
  | CreateTemp => inl "/tmp/macosvz_file_1"
  | RemoveFile _ => None
  | ReadContent => inl (list_ascii_of_string "gz")
  | VerifyContent _ => None
  | MemFetch _ => inl []
  | MemPush _ => None
  | MemExists _ => (false, None)
  | MemResolve _ => inl noDescriptor
  | MemTag _ _ => None
  | Record_ _ => tt
  end.

(** The configuration of an image, in a store that knows its path. *)
Definition sample_config : Config := NewMacOSConfig "YnBsaXN0MDA=" "YnBsaXN0MDE=".
Definition config_store : Store := add_media MediaTypeConfigV1 "/cache/config.json" sample_store.
Definition config_file : Disk.File :=
  {| Disk.content := list_ascii_of_string (marshalConfig sample_config ++ Str.newline); Disk.mtime := 0 |}.
Definition config_fs : Disk.FS := {| Disk.files := {["/cache/config.json" := config_file]}; Disk.now := 0 |}.

End Oci.
