(* ===== verification/OciLocks.v ===== *)
(** * pkg/oci: the locks of titles

    The calls of a store may overlap: oras copies the contents of an image
    concurrently.  A call works on a title under the lock of that title.  Thread by
    thread ([lwp]): a call has at most one lock, takes the title only while it has the
    lock and has found the title free, and gives the lock back.  For any number of calls
    in any interleaving it follows that a title is taken once and that no call waits
    forever for a lock; a call that runs alone returns. *)
From Stdlib Require Import ZArith Lia.
From Stdlib Require Import Ascii String.
From stdpp Require Import base list gmap strings relations.
From S2P Require Import Prelude GoStrings GoFormat GoErrors GoPath Prog Event Disk Json OciConfig Oci.
Local Open Scope string_scope.
Local Open Scope go_scope.

Module OciLocks.

Import OciConfig Oci.

(** ** One thread *)

(** The lock it has, with the flag of that title, and the titles it has taken. *)
Record tst := { held : option (string * bool); took : list string }.

Definition free : tst := {| held := None; took := [] |}.
Definition with_held (h : option (string * bool)) (t : tst) : tst := {| held := h; took := took t |}.

(** A change of the store that is none of the titles' business. *)
Definition neutral (f : Store -> Store) : Prop :=
  forall s, lockedTitles (f s) = lockedTitles s /\ forall n, flag (f s) n = flag s n.

(** What an operation may do, and what the thread knows afterwards. *)
Definition lstep {X} (e : ociE X) : (X -> tst -> Prop) -> tst -> Prop :=
  match e in ociE X return (X -> tst -> Prop) -> tst -> Prop with
  | LockTitle n => fun K t => held t = None /\ forall b, K b (with_held (Some (n, b)) t)
  | UnlockTitle n => fun K t => (exists b, held t = Some (n, b)) /\ K tt (with_held None t)
  | SetExists n => fun K t => held t = Some (n, false) /\ K tt {| held := Some (n, true); took := n :: took t |}
  | Modify f => fun K t => neutral f /\ K tt t
  | _ => fun K t => forall x, K x t
  end.

Fixpoint lwp {A} (p : prog ociE A) (Q : A -> tst -> Prop) (t : tst) : Prop :=
  match p with
  | Ret a => Q a t
  | Do e k => lstep e (fun x => lwp (k x) Q) t
  end.

Lemma lstep_mono {X} (e : ociE X) (K K' : X -> tst -> Prop) t :
  (forall x t', K x t' -> K' x t') -> lstep e K t -> lstep e K' t.
Proof. intros HK. destruct e; simpl; intros; destruct_and?; eauto. Qed.

Lemma lwp_mono {A} (p : prog ociE A) (Q Q' : A -> tst -> Prop) t :
  (forall a t', Q a t' -> Q' a t') -> lwp p Q t -> lwp p Q' t.
Proof.
  intros HQ. revert t. induction p as [a|X e k IH]; intros t; simpl; [apply HQ|].
  apply lstep_mono. intros x t'. apply IH.
Qed.

Lemma lwp_bind {A B} (p : prog ociE A) (f : A -> prog ociE B) Q t :
  lwp p (fun a t' => lwp (f a) Q t') t -> lwp (bind p f) Q t.
Proof.
  revert t. induction p as [a|X e k IH]; intros t; simpl; [done|]. apply lstep_mono. intros x t'. apply IH.
Qed.

(** Operations that have nothing to do with titles. *)
Definition quiet X (e : ociE X) : Prop :=
  match e with
  | LockTitle _ | UnlockTitle _ | SetExists _ => False
  | Modify f => neutral f
  | _ => True
  end.

Lemma lwp_quiet {A} (p : prog ociE A) (Q : A -> tst -> Prop) t :
  all_ops quiet p -> (forall a, Q a t) -> lwp p Q t.
Proof.
  intros Hp HQ. induction p as [a|X e k IH]; simpl; [apply HQ|]. destruct Hp as [He Hk].
  destruct e; simpl in *; try done; try (intros x; by apply IH). split; [done | by apply IH].
Qed.

Lemma neutral_status n : neutral (add_status n).
Proof.
  intros s. unfold add_status. destruct (nameToStatus s !! n) as [b|] eqn:E; [done|]. split; [done|]. intros m.
  unfold flag. simpl. destruct (decide (m = n)) as [->|Hne]; [by rewrite lookup_insert_eq, E | by rewrite lookup_insert_ne].
Qed.

Lemma quiet_dk {A} (p : prog Disk.diskE A) : all_ops quiet (dk p).
Proof. by apply all_ops_lift. Qed.

#[local] Arguments dk : simpl never.

Ltac quiet_step :=
  lazymatch goal with
  | |- all_ops _ (bind _ _) => apply all_ops_bind
  | |- all_ops _ (perform _) => apply all_ops_perform; first [exact I | done]
  | |- all_ops _ (modify _) => apply all_ops_perform; done
  | |- all_ops _ (dk _) => apply quiet_dk
  | |- all_ops _ (Ret _) => exact I
  | |- forall _, _ => intros
  | |- all_ops _ (match ?x with _ => _ end) => destruct x
  | |- all_ops _ (let _ := _ in _) => cbv zeta
  | _ => first [assumption | solve [auto]]
  end.
Ltac quiet_tac := repeat quiet_step.

(** A program that has nothing to do with titles returns. *)
Lemma quiet_returns env {A} (p : prog ociE A) s : all_ops quiet p -> is_Some (run (traced_handler local env) p s).
Proof.
  revert s. induction p as [a|X e k IH]; intros s Hp; [by eexists|]. destruct Hp as [He Hk]. cbn [run].
  unfold traced_handler at 1. assert (is_Some (local X e (env X (clock s) e) (own s))) as [[x s1] ->]; [|by apply IH].
  destruct s as [n tr [st u]]. destruct e; cbn; try done; eauto.
  destruct (Disk.disk_total _ e (env X n (Dk e)) u) as [[x' u'] ->]. eauto.
Qed.

(** ** All threads *)

(** What the threads know is right: locks are exclusive and held by a thread each, and no
    title is taken by two threads. *)
Record ok (ts : list tst) (s : Store) : Prop := {
  ok_locked n : n ∈ lockedTitles s -> exists i t b, ts !! i = Some t /\ held t = Some (n, b);
  ok_held i t n b : ts !! i = Some t -> held t = Some (n, b) -> n ∈ lockedTitles s /\ flag s n = b;
  ok_exclusive i j ti tj n b b' :
    ts !! i = Some ti -> ts !! j = Some tj -> held ti = Some (n, b) -> held tj = Some (n, b') -> i = j;
  ok_taken i t n : ts !! i = Some t -> n ∈ took t -> flag s n = true;
  ok_once i j ti tj n : ts !! i = Some ti -> ts !! j = Some tj -> n ∈ took ti -> n ∈ took tj -> i = j
}.

Lemma ok_same ts s s' :
  ok ts s -> lockedTitles s' = lockedTitles s -> (forall n, flag s' n = flag s n) -> ok ts s'.
Proof.
  intros [] Hl Hf. split; try done.
  - by rewrite Hl.
  - intros i t n b. rewrite Hl, Hf. eauto.
  - intros i t n. rewrite Hf. eauto.
Qed.

Lemma ok_start ts s : lockedTitles s = ∅ -> (forall t, t ∈ ts -> t = free) -> ok ts s.
Proof.
  intros Hl Ht. assert (forall i t, ts !! i = Some t -> t = free) as Hi by (intros i t Hi; apply Ht; by eapply list_elem_of_lookup_2).
  split.
  - rewrite Hl. set_solver.
  - intros i t n b ->%Hi. done.
  - intros i j ti tj n b b' ->%Hi. done.
  - intros i t n ->%Hi. simpl. by intros ?%elem_of_nil.
  - intros i j ti tj n ->%Hi _. simpl. by intros ?%elem_of_nil.
Qed.

Lemma flag_set s n m b : flag (set_status n b s) m = if decide (m = n) then b else flag s m.
Proof.
  unfold flag. simpl. destruct (decide (m = n)) as [->|]; [by rewrite lookup_insert_eq | by rewrite lookup_insert_ne].
Qed.

Lemma lookup_upd_eq (ts : list tst) i t t' : ts !! i = Some t -> <[i := t']> ts !! i = Some t'.
Proof. intros Hi. apply list_lookup_insert_eq. by eapply lookup_lt_Some. Qed.

Ltac upd Hi :=
  repeat match goal with
  | H : <[_ := _]> _ !! _ = Some _ |- _ => apply lookup_upd in H as [[-> ->] | [? H]]
  end; simpl in *.

Lemma ok_lock ts s i t n :
  ok ts s -> ts !! i = Some t -> held t = None -> n ∉ lockedTitles s ->
  ok (<[i := with_held (Some (n, flag s n)) t]> ts) (set_locked ({[n]} ∪ lockedTitles s) s).
Proof.
  intros K Hi Hn Hl. assert (forall j tj b, ts !! j = Some tj -> held tj <> Some (n, b)) as Hno
    by (intros j tj b Hj Hh; by apply Hl, (ok_held _ _ K _ _ _ _ Hj Hh)).
  split.
  - simpl. intros m [->%elem_of_singleton | Hm]%elem_of_union.
    + exists i. eexists _, _. split; [by eapply lookup_upd_eq | done].
    + destruct (ok_locked _ _ K m Hm) as (j & tj & b & Hj & Hh). exists j, tj, b. split; [|done].
      rewrite list_lookup_insert_ne; [done|]. intros ->. congruence.
  - intros j tj m b Hj Hh. upd Hi; [injection Hh as <- <-; split; [set_solver | done]|].
    destruct (ok_held _ _ K _ _ _ _ Hj Hh). split; [set_solver | done].
  - intros j k tj tk m b b' Hj Hk Hhj Hhk. upd Hi; simplify_eq; try done; try (by exfalso; eapply Hno).
    by eapply (ok_exclusive _ _ K).
  - intros j tj m Hj Hm. upd Hi; by eapply (ok_taken _ _ K).
  - intros j k tj tk m Hj Hk Hmj Hmk. upd Hi; try done; by eapply (ok_once _ _ K).
Qed.

Lemma ok_unlock ts s i t n b :
  ok ts s -> ts !! i = Some t -> held t = Some (n, b) ->
  ok (<[i := with_held None t]> ts) (set_locked (lockedTitles s ∖ {[n]}) s).
Proof.
  intros K Hi Hn. split.
  - simpl. intros m [Hm Hne]%elem_of_difference. destruct (ok_locked _ _ K m Hm) as (j & tj & b' & Hj & Hh).
    exists j, tj, b'. split; [|done]. rewrite list_lookup_insert_ne; [done|]. intros ->. set_solver.
  - intros j tj m b' Hj Hh. upd Hi; [done|]. destruct (ok_held _ _ K _ _ _ _ Hj Hh). split; [|done].
    apply elem_of_difference. split; [done|]. intros ->%elem_of_singleton.
    assert (j = i) by (by eapply (ok_exclusive _ _ K)). done.
  - intros j k tj tk m b1 b2 Hj Hk Hhj Hhk. upd Hi; try done. by eapply (ok_exclusive _ _ K).
  - intros j tj m Hj Hm. upd Hi; by eapply (ok_taken _ _ K).
  - intros j k tj tk m Hj Hk Hmj Hmk. upd Hi; try done; by eapply (ok_once _ _ K).
Qed.

Lemma ok_take ts s i t n :
  ok ts s -> ts !! i = Some t -> held t = Some (n, false) ->
  ok (<[i := {| held := Some (n, true); took := n :: took t |}]> ts) (set_status n true s).
Proof.
  intros K Hi Hn. pose proof (ok_held _ _ K _ _ _ _ Hi Hn) as [Hl Hf].
  assert (forall j tj, ts !! j = Some tj -> n ∉ took tj) as Hno
    by (intros j tj Hj Ht; by rewrite (ok_taken _ _ K _ _ _ Hj Ht) in Hf).
  split.
  - intros m Hm. destruct (ok_locked _ _ K m Hm) as (j & tj & b & Hj & Hh). destruct (decide (j = i)) as [->|Hne].
    + simplify_eq. exists i. eexists _, _. split; [by eapply lookup_upd_eq | done].
    + exists j, tj, b. by rewrite list_lookup_insert_ne.
  - intros j tj m b Hj Hh. rewrite flag_set. upd Hi; [simplify_eq; by rewrite decide_True|].
    destruct (ok_held _ _ K _ _ _ _ Hj Hh) as [Hlm Hfm]. split; [done|]. rewrite decide_False; [done|]. intros ->.
    assert (j = i) by (by eapply (ok_exclusive _ _ K)). done.
  - intros j k tj tk m b b' Hj Hk Hhj Hhk. upd Hi; simplify_eq; try done; by eapply (ok_exclusive _ _ K).
  - intros j tj m Hj Hm. rewrite flag_set. destruct (decide (m = n)) as [|Hne]; [done|].
    upd Hi; [apply elem_of_cons in Hm as [|Hm]; [done|]|]; by eapply (ok_taken _ _ K).
  - intros j k tj tk m Hj Hk Hmj Hmk. upd Hi; try done; try (by eapply (ok_once _ _ K)).
    + apply elem_of_cons in Hmk as [->|Hmk]; [by destruct (Hno _ _ Hj) | by eapply (ok_once _ _ K)].
    + apply elem_of_cons in Hmj as [->|Hmj]; [by destruct (Hno _ _ Hk) | by eapply (ok_once _ _ K)].
Qed.

(** A step of thread [i] keeps the knowledge right. *)
Lemma lstep_ok {X} (e : ociE X) K x s y s' ts i t :
  ok ts (fst s) -> ts !! i = Some t -> lstep e K t -> local X e x s = Some (y, s') ->
  exists t', K y t' /\ ok (<[i := t']> ts) (fst s').
Proof.
  intros Hok Hi Hs Hl.
  assert (forall t', t' = t -> ok ts (fst s') -> ok (<[i := t']> ts) (fst s')) as Hid
    by (intros t' -> Ho; by rewrite list_insert_id).
  destruct e; simpl in *.
  all: try (injection Hl as <- <-; exists t; split; [apply Hs | by apply Hid]).
  - destruct Hs as [Hn Hk]. injection Hl as <- <-. exists t. split; [done|]. apply Hid; [done|].
    eapply ok_same; [done | apply Hn | apply Hn].
  - destruct Hs as [Hn Hk]. case_bool_decide as Hin; [done|]. injection Hl as <- <-.
    eexists. split; [apply Hk | by apply ok_lock].
  - destruct Hs as [[b Hn] Hk]. injection Hl as <- <-. eexists. split; [exact Hk | by eapply ok_unlock].
  - destruct Hs as [Hn Hk]. injection Hl as <- <-. eexists. split; [exact Hk | by apply ok_take].
  - destruct (Disk.local _ _ _ _) as [[x' u]|]; [|done]. injection Hl as <- <-. exists t. split; [apply Hs | by apply Hid].
  - destruct x as [p|e]; injection Hl as <- <-; (exists t; split; [apply Hs | by apply Hid]).
  - destruct x as [e|]; injection Hl as <- <-; (exists t; split; [apply Hs | by apply Hid]).
Qed.

(** The only operation that waits is a lock, of a title that another thread holds. *)
Lemma lstep_waits {X} (e : ociE X) K x s ts i t :
  ok ts (fst s) -> ts !! i = Some t -> lstep e K t -> local X e x s = None ->
  held t = None /\ exists j tj h, ts !! j = Some tj /\ held tj = Some h.
Proof.
  intros Hok Hi Hs Hl. destruct e; simpl in *; try done.
  - destruct Hs as [Hn _]. split; [done|]. case_bool_decide as Hin; [|done].
    destruct (ok_locked _ _ Hok _ Hin) as (j & tj & b & Hj & Hh). by eexists _, _, _.
  - destruct (Disk.disk_total _ e x (snd s)) as [[x' u'] Hd]. by rewrite Hd in Hl.
Qed.

(** A call alone returns. *)
Lemma lwp_run env {A} (p : prog ociE A) Q t s :
  lwp p Q t -> ok [t] (fst (own s)) ->
  exists a s' t', run (traced_handler local env) p s = Some (a, s') /\ Q a t' /\ ok [t'] (fst (own s')).
Proof.
  revert t s. induction p as [a|X e k IH]; intros t s Hp Hok; [by exists a, s, t|]. cbn [run lwp] in *.
  unfold traced_handler at 1. destruct (local X e _ (own s)) as [[x s1]|] eqn:El.
  - destruct (lstep_ok e _ _ _ _ _ [t] 0%nat t Hok eq_refl Hp El) as (t' & Ht' & Hok'). by apply (IH x t').
  - destruct (lstep_waits e _ _ _ [t] 0%nat t Hok eq_refl Hp El) as (Hn & j & tj & h & Hj & Hh).
    destruct j; simplify_eq/=; congruence.
Qed.

Lemma alone env {A} (p : prog ociE A) s :
  lwp p (fun _ t => held t = None) free -> lockedTitles (fst (own s)) = ∅ ->
  exists a s', run (traced_handler local env) p s = Some (a, s') /\ lockedTitles (fst (own s')) = ∅.
Proof.
  intros Hp Hl. destruct (lwp_run env p _ free s Hp) as (a & s' & t & Hr & Ht & Hok).
  { apply ok_start; [done|]. intros t Ht. by apply list_elem_of_singleton in Ht. }
  exists a, s'. split; [done|]. apply set_eq. intros n. split; [|set_solver].
  intros (i & t' & b & Hi & Hh)%(ok_locked _ _ Hok). destruct i; simplify_eq/=; congruence.
Qed.

Section Store.
Context `{PrintTable}.
Variable canonical : Disk.bytes -> string.
Variable verifier : string -> option (Disk.bytes -> bool).
Context `{JsonText}.

Lemma quiet_fails e : all_ops quiet (fails e).
Proof. exact I. Qed.

Lemma quiet_saveFile path d : all_ops quiet (saveFile path d).
Proof. unfold saveFile. quiet_tac. Qed.

Lemma quiet_tempFile : all_ops quiet tempFile.
Proof. unfold tempFile. quiet_tac. Qed.

#[local] Hint Resolve quiet_fails quiet_saveFile quiet_tempFile : core.

Lemma quiet_process d out : all_ops quiet (processContentByType canonical verifier d out).
Proof.
  unfold processContentByType, processCompressedContent, processRegularContent, closing, decompressSaved, verifySaved.
  quiet_tac.
Qed.

Lemma quiet_descriptor mt path : all_ops quiet (descriptorFromStorageFile canonical mt path).
Proof. unfold descriptorFromStorageFile. quiet_tac. Qed.

Lemma quiet_config cfg : all_ops quiet (descriptorFromConfig canonical cfg).
Proof. unfold descriptorFromConfig, writeConfig. quiet_tac. Qed.

#[local] Hint Resolve quiet_process quiet_descriptor quiet_config : core.

Lemma quiet_closed : all_ops quiet isClosedSet.
Proof. unfold isClosedSet. quiet_tac. Qed.
#[local] Hint Resolve quiet_closed : core.

Lemma quiet_Exists d : all_ops quiet (Exists verifier d).
Proof. unfold Exists. quiet_tac. Qed.
#[local] Hint Resolve quiet_Exists : core.

Lemma quiet_Tag d ref : all_ops quiet (Tag verifier d ref).
Proof. unfold Tag. quiet_tac. Qed.

Lemma quiet_Fetch d : all_ops quiet (Fetch d).
Proof. unfold Fetch. quiet_tac. Qed.

Lemma quiet_Resolve ref : all_ops quiet (Resolve ref).
Proof. unfold Resolve. quiet_tac. Qed.

Lemma quiet_Manifest : all_ops quiet GetManifestConfigDescriptor.
Proof. unfold GetManifestConfigDescriptor. quiet_tac. Qed.

Lemma quiet_GetPath mt : all_ops quiet (GetFilePathForMediaType mt).
Proof. unfold GetFilePathForMediaType. quiet_tac. Qed.
#[local] Hint Resolve quiet_GetPath : core.

Lemma quiet_GetConfig : all_ops quiet GetConfig.
Proof. unfold GetConfig. quiet_tac. Qed.

Lemma quiet_foldM {A B} (f : B -> A -> prog ociE B) l b : (forall b a, all_ops quiet (f b a)) -> all_ops quiet (foldM f l b).
Proof. intros Hf. revert b. induction l as [|a l IH]; intros b; simpl; [done|]. by apply all_ops_bind. Qed.

Lemma quiet_Close : all_ops quiet CloseStore.
Proof. unfold CloseStore. quiet_tac. apply quiet_foldM. unfold removeTmp. quiet_tac. Qed.

(** ** The calls *)

(** A body that takes the title at most when it is free, and says so. *)
Lemma lwp_withTitle {A} name (body : bool -> prog ociE A) (took_it : A -> Prop) :
  (forall b, lwp (body b) (fun a t => (exists b', held t = Some (name, b')) /\ (took_it a -> name ∈ took t))
                (with_held (Some (name, b)) free)) ->
  lwp (withTitle name body) (fun a t => held t = None /\ (took_it a -> name ∈ took t)) free.
Proof.
  intros Hb. unfold withTitle. apply lwp_bind. simpl. split; [apply neutral_status|]. split; [done|]. intros b.
  apply lwp_bind. eapply lwp_mono; [|apply Hb]. intros a t [[b' Hh] Ht]. simpl. split; [by exists b' | done].
Qed.

(** Taking the title that is held and free. *)
Lemma lwp_set {A} name (a : A) (took_it : A -> Prop) :
  lwp (perform (SetExists name) ;; Ret a)
    (fun a t => (exists b', held t = Some (name, b')) /\ (took_it a -> name ∈ took t)) (with_held (Some (name, false)) free).
Proof. simpl. split; [done|]. split; [by eexists | left]. Qed.

Lemma lwp_kept {A} name b (p : prog ociE A) (Q : A -> tst -> Prop) :
  all_ops quiet p -> (forall a, Q a (with_held (Some (name, b)) free)) -> lwp p Q (with_held (Some (name, b)) free).
Proof. intros Hp HQ. by apply lwp_quiet. Qed.

Lemma lwp_Push d :
  lwp (Push canonical verifier d)
    (fun r t => held t = None /\ (titleOf d <> "" -> r = Disk.Returned None -> titleOf d ∈ took t)) free.
Proof.
  unfold Push. apply lwp_bind, lwp_quiet; [apply quiet_closed|]. intros [|]; [done|].
  destruct (String.eqb_spec (titleOf d) "") as [->|Hne]; [by intros e; simpl|].
  eapply lwp_mono; [|apply (lwp_withTitle _ _ (fun r => r = Disk.Returned None))].
  { intros r t [Hh Ht]. by split. }
  intros [|]; [by simpl; split; [eexists|]|]. destruct (negb _); [by simpl; split; [eexists|]|].
  apply lwp_bind. intros s. apply lwp_bind, lwp_quiet; [apply quiet_process|].
  intros [[e|]|]; [by simpl; split; [eexists|] | apply lwp_set | by simpl; split; [eexists|]].
Qed.

Lemma lwp_Add mt path :
  lwp (Add canonical mt path) (fun r t => held t = None /\ (snd r = None -> Title mt ∈ took t)) free.
Proof.
  unfold Add. apply lwp_bind, lwp_quiet; [apply quiet_closed|]. intros [|]; [done|].
  destruct (negb _); [done|]. apply lwp_withTitle.
  intros [|]; [by simpl; split; [eexists|]|]. apply lwp_bind. intros s. apply lwp_bind. intros [t|e]; [|by simpl; split; [eexists|]].
  apply lwp_bind, lwp_quiet; [apply quiet_descriptor|]. intros [d [e|]]; [by simpl; split; [eexists|]|].
  simpl. split; [done|]. split; [done|]. split; [by eexists | left].
Qed.

Lemma lwp_SetConfig cfg :
  lwp (SetConfig canonical cfg) (fun r t => held t = None /\ (snd r = None -> Title MediaTypeConfigV1 ∈ took t)) free.
Proof.
  unfold SetConfig. apply lwp_bind, lwp_quiet; [apply quiet_closed|]. intros [|]; [done|]. apply lwp_withTitle.
  intros [|]; [by simpl; split; [eexists|]|]. apply lwp_bind, lwp_quiet; [apply quiet_config|].
  intros [d [e|]]; [by simpl; split; [eexists|]|]. apply (lwp_set _ _ (fun r => snd r = None)).
Qed.

(** ** Overlapping calls *)

Inductive Request :=
| RPush (d : Descriptor) | RAdd (mt path : string) | RSet (cfg : Config)
| RExists (d : Descriptor) | RFetch (d : Descriptor) | RResolve (ref : string) | RTag (d : Descriptor) (ref : string)
| RManifest | RGetPath (mt : string) | RGetConfig | RClose.

(** A call, and whether it succeeded. *)
Definition calling (r : Request) : prog ociE bool :=
  match r with
  | RPush d => e <- Push canonical verifier d ;; Ret (match e with Disk.Returned None => true | _ => false end)
  | RAdd mt path => e <- Add canonical mt path ;; Ret (negb (is_some (snd e)))
  | RSet cfg => e <- SetConfig canonical cfg ;; Ret (negb (is_some (snd e)))
  | RExists d => e <- Exists verifier d ;; Ret (is_some e)
  | RFetch d => Fetch d ;; Ret true
  | RResolve ref => Resolve ref ;; Ret true
  | RTag d ref => Tag verifier d ref ;; Ret true
  | RManifest => GetManifestConfigDescriptor ;; Ret true
  | RGetPath mt => GetFilePathForMediaType mt ;; Ret true
  | RGetConfig => GetConfig ;; Ret true
  | RClose => CloseStore ;; Ret true
  end.

(** The title that a call takes when it succeeds. *)
Definition takes (r : Request) : option string :=
  match r with
  | RPush d => if String.eqb (titleOf d) "" then None else Some (titleOf d)
  | RAdd mt _ => Some (Title mt)
  | RSet _ => Some (Title MediaTypeConfigV1)
  | _ => None
  end.

Definition accounted (r : Request) (b : bool) (t : tst) : Prop :=
  held t = None /\ forall n, takes r = Some n -> b = true -> n ∈ took t.

Lemma lwp_calling r : lwp (calling r) (accounted r) free.
Proof.
  unfold accounted. destruct r; cbn [calling takes]; apply lwp_bind.
  4-11: apply lwp_quiet; [|done].
  - eapply lwp_mono; [|apply lwp_Push]. intros e t [Hh Ht]. simpl. split; [done|]. intros n.
    destruct (String.eqb_spec (titleOf d) ""); [done|]. intros [= <-]. destruct e as [[e|]|]; [done| |done].
    intros _. by apply Ht.
  - eapply lwp_mono; [|apply lwp_Add]. intros [e [x|]] t [Hh Ht]; simpl; (split; [done|]); [done|].
    intros n [= <-] _. by apply Ht.
  - eapply lwp_mono; [|apply lwp_SetConfig]. intros [e [x|]] t [Hh Ht]; simpl; (split; [done|]); [done|].
    intros n [= <-] _. by apply Ht.
  - apply quiet_Exists.
  - apply quiet_Fetch.
  - apply quiet_Resolve.
  - apply quiet_Tag.
  - apply quiet_Manifest.
  - apply quiet_GetPath.
  - apply quiet_GetConfig.
  - apply quiet_Close.
Qed.

Abbreviation steps env := (pool_step (traced_handler local env) bool (fun _ _ => [])).

(** The calls that are still running, each with what its thread knows. *)
Definition running (rs : list Request) (c : list (prog ociE bool) * traced ociE (Store * Disk.FS)) : Prop :=
  exists ts, Forall3 (fun r p t => lwp p (accounted r) t) rs (fst c) ts /\ ok ts (fst (own (snd c))).

Lemma running_start rs s : lockedTitles (fst (own s)) = ∅ -> running rs (map calling rs, s).
Proof.
  intros Hl. exists (map (fun _ => free) rs). split.
  - simpl. clear Hl. induction rs as [|r rs IH]; constructor; [apply lwp_calling | done].
  - apply ok_start; [done|]. by intros t (r & -> & _)%list_elem_of_fmap.
Qed.

Lemma Forall3_insert {A B C} (P : A -> B -> C -> Prop) l k m i x y z :
  Forall3 P l k m -> P x y z -> Forall3 P (<[i := x]> l) (<[i := y]> k) (<[i := z]> m).
Proof. intros Hf Hp. revert i. induction Hf; intros [|i]; simpl; constructor; auto. Qed.

Lemma running_step env rs c c' : running rs c -> steps env c c' -> running rs c'.
Proof.
  intros (ts & Hf & Hok) [i Hs]. destruct c as [ps s]. simpl in *.
  destruct (ps !! i) as [[b|X e k]|] eqn:Hp; [done| |done]. unfold traced_handler in Hs.
  destruct (local X e _ (own s)) as [[x s1]|] eqn:El; [|done]. injection Hs as <-. simpl.
  destruct (Forall3_lookup_m _ _ _ _ _ _ Hf Hp) as (r & t & Hr & Ht & Hw).
  destruct (lstep_ok e _ _ _ _ _ ts i t Hok Ht Hw El) as (t' & Hw' & Hok').
  exists (<[i := t']> ts). simpl. rewrite app_nil_r. split; [|done].
  rewrite <- (list_insert_id rs i r Hr). by apply Forall3_insert.
Qed.

Lemma all_ended (ps : list (prog ociE bool)) :
  (forall p, p ∈ ps -> exists b, p = Ret b) \/ exists i X (e : ociE X) k, ps !! i = Some (Do e k).
Proof.
  induction ps as [|p ps [IH|(i & X & e & k & Hi)]].
  - left. by intros p ?%elem_of_nil.
  - destruct p as [b|X e k]; [|right; by exists 0%nat, X, e, k]. left. intros q [->|Hq]%elem_of_cons; [by exists b | by apply IH].
  - right. by exists (S i), X, e, k.
Qed.

(** C17: however the calls of a store overlap, each operation of each of them being a step
    of its own: of two calls that want one title (pushes of a content, [Add], [Set]), at
    most one succeeds, and the calls are never stuck: as long as one has not ended,
    one of them can go on. *)
Theorem titles_taken_once env rs s c :
  lockedTitles (fst (own s)) = ∅ -> rtc (steps env) (map calling rs, s) c ->
  (forall i j ri rj n, i <> j -> rs !! i = Some ri -> rs !! j = Some rj -> takes ri = Some n -> takes rj = Some n ->
     fst c !! i = Some (Ret true) -> fst c !! j = Some (Ret true) -> False) /\
  ((forall p, p ∈ fst c -> exists b, p = Ret b) \/ exists c', steps env c c').
Proof.
  intros Hl Hrtc. assert (running rs c) as (ts & Hf & Hok).
  { eapply (pool_invariant (traced_handler local env) bool (fun _ _ => []) (running rs)); [|by apply running_start | exact Hrtc].
    intros c1 c2 H1 H2. by eapply running_step. }
  split.
  - intros i j ri rj n Hij Hri Hrj Hni Hnj Hpi Hpj.
    destruct (Forall3_lookup_m _ _ _ _ _ _ Hf Hpi) as (ri' & ti & Hri' & Hti & _ & Ai).
    destruct (Forall3_lookup_m _ _ _ _ _ _ Hf Hpj) as (rj' & tj & Hrj' & Htj & _ & Aj). simplify_eq.
    apply Hij. eapply (ok_once _ _ Hok); eauto.
  - destruct c as [ps u]. simpl in *.
    assert (forall i t X (e : ociE X) k, ps !! i = Some (Do e k) -> ts !! i = Some t ->
      held t <> None \/ (forall j tj, ts !! j = Some tj -> held tj = None) -> exists c', steps env (ps, u) c') as Hgo.
    { intros i t X e k Hp Ht Hor. destruct (Forall3_lookup_m _ _ _ _ _ _ Hf Hp) as (r & t' & _ & Ht' & Hw). simplify_eq.
      destruct (local X e (env X (clock u) e) (own u)) as [[x s1]|] eqn:El.
      - eexists. exists i. by apply (step_thread_do _ _ _ i ps u _ e k x (Traced (S (clock u)) (Call e x :: trace u) s1) Hp); unfold traced_handler; rewrite El.
      - destruct (lstep_waits e _ _ _ ts i t Hok Ht Hw El) as (Hn & j & tj & h & Hj & Hh).
        destruct Hor as [?|Hor]; [done|]. by rewrite (Hor j tj Hj) in Hh. }
    destruct (decide (List.Exists (fun t => held t <> None) ts)) as [(t & [i Hi]%list_elem_of_lookup & Hh)%Exists_exists | Hno].
    + destruct (Forall3_lookup_r _ _ _ _ _ _ Hf Hi) as (r & p & _ & Hp & Hw).
      destruct p as [b|X e k]; [by destruct Hw|]. right. eapply Hgo; eauto.
    + destruct (all_ended ps) as [?|(i & X & e & k & Hp)]; [by left|]. right.
      destruct (Forall3_lookup_m _ _ _ _ _ _ Hf Hp) as (r & t & _ & Ht & _). eapply Hgo; [done..|]. right.
      intros j tj Hj. destruct (held tj) eqn:Hh; [|done]. exfalso. apply Hno, Exists_exists.
      exists tj. split; [by eapply list_elem_of_lookup_2 | by rewrite Hh].
Qed.

End Store.

(** Two pushes of one content overlap: the first has the lock when the second asks for
    it. *)
Definition two_pushes : list Request := [RPush (sample_descriptor "3"); RPush (sample_descriptor "3")].
Abbreviation pushing := (map (@calling (fun _ => true) Disk.sha256Digest Disk.sha256Verifier Json.sample_text) two_pushes).
Abbreviation overlapping js :=
  (sched (traced_handler local sample_env) bool (fun _ _ => []) js (pushing, start (sample_store, empty_fs))).

Lemma second_push_waits : overlapping (replicate 3 0 ++ replicate 3 1)%list%nat = None.
Proof. vm_compute. reflexivity. Qed.

Definition ended_with (p : prog ociE bool) : option bool := match p with Ret b => Some b | _ => None end.

Lemma titles_taken_once_witness :
  match overlapping (replicate 3 0 ++ replicate 2 1 ++ replicate 30 0 ++ replicate 2 1)%list%nat with
  | Some c => fst c !! 0%nat = Some (Ret true) /\ fst c !! 1%nat <> Some (Ret true)
  | None => False
  end.
Proof.
  destruct (overlapping (replicate 3 0 ++ replicate 2 1 ++ replicate 30 0 ++ replicate 2 1)%list%nat) as [c|] eqn:E.
  - assert (fst c !! 0%nat = Some (Ret true)) as H0.
    { assert (match overlapping (replicate 3 0 ++ replicate 2 1 ++ replicate 30 0 ++ replicate 2 1)%list%nat with
              | Some c => fst c !! 0%nat ≫= ended_with | None => None end = Some true) as Hc by (vm_compute; reflexivity).
      rewrite E in Hc. destruct (fst c !! 0%nat) as [[b|]|]; simpl in Hc; congruence. }
    split; [exact H0|]. intros H1.
    exact (proj1 (@titles_taken_once (fun _ => true) Disk.sha256Digest Disk.sha256Verifier Json.sample_text sample_env
      two_pushes (start (sample_store, empty_fs)) c eq_refl (sched_rtc _ _ _ _ _ _ E))
      0%nat 1%nat _ _ "disk.img" (Nat.neq_0_succ 0) eq_refl eq_refl eq_refl eq_refl H0 H1).
  - assert (is_some (overlapping (replicate 3 0 ++ replicate 2 1 ++ replicate 30 0 ++ replicate 2 1)%list%nat) = true) as Hs
      by (vm_compute; reflexivity).
    rewrite E in Hs. discriminate.
Defined.

End OciLocks.
