(* ===== verification/OciProofs.v ===== *)
(** * pkg/oci: what the store vouches for

    The store's calls as they run alone: a path is recorded only for bytes that carry
    the announced digest, and a configuration is read back as it was written. *)
From Stdlib Require Import ZArith Lia.
From Stdlib Require Import Ascii String.
From stdpp Require Import base list gmap strings.
From S2P Require Import Prelude GoStrings GoFormat GoErrors GoPath Prog Event Disk Json OciConfig Oci OciLocks.
Local Open Scope string_scope.
Local Open Scope go_scope.

Module OciProofs.

Import OciConfig Oci.

Section Store.
Context `{PrintTable}.
Variable canonical : Disk.bytes -> string.
Variable verifier : string -> option (Disk.bytes -> bool).
Context `{JsonText}.

(** ** What the store vouches for *)

#[local] Arguments dk : simpl never.
#[local] Arguments saveFile : simpl never.
#[local] Arguments processContentByType : simpl never.
#[local] Arguments decompressSaved : simpl never.
#[local] Arguments verifySaved : simpl never.
#[local] Arguments closing : simpl never.

Abbreviation handle env := (traced_handler local env).

(** A call that runs alone returns; the locks matter only to those that work on titles. *)
Lemma oci_exec_wp env {A} (p : prog ociE A) (Q : A -> traced ociE (Store * Disk.FS) -> Prop) s :
  OciLocks.lwp p (fun _ t => OciLocks.held t = None) OciLocks.free -> lockedTitles (fst (own s)) = ∅ ->
  wp (handle env) p Q s -> exists r s', exec env p s = Some (r, s') /\ Q r s'.
Proof.
  intros Hp Hl Hw. destruct (OciLocks.alone env p s Hp Hl) as (r & s' & Hr & _).
  exists r, s'. split; [done | by eapply wp_run].
Qed.

Lemma oci_quiet_wp env {A} (p : prog ociE A) (Q : A -> traced ociE (Store * Disk.FS) -> Prop) s :
  all_ops OciLocks.quiet p -> wp (handle env) p Q s -> exists r s', exec env p s = Some (r, s') /\ Q r s'.
Proof.
  intros Hp Hw. destruct (OciLocks.quiet_returns env p s Hp) as [[r s'] Hr].
  exists r, s'. split; [done | by eapply wp_run].
Qed.

(** A body under a title's lock. *)
Lemma wp_withTitle env {A} name (body : bool -> prog ociE A) Q n tr st u :
  (forall n tr, wp (handle env) (body (flag st name))
     (fun a s' => forall n tr, Q a (Traced n tr
        (set_locked (lockedTitles (fst (own s')) ∖ {[name]}) (fst (own s')), snd (own s'))))
     (Traced n tr (set_locked ({[name]} ∪ lockedTitles st) (add_status name st), u))) ->
  wp (handle env) (withTitle name body) Q (Traced n tr (st, u)).
Proof.
  intros Hb. destruct (OciLocks.neutral_status name st) as [Hl Hf].
  unfold withTitle, status. cbn. unfold traced_handler at 1. cbn. rewrite Hl.
  case_bool_decide; [done|]. cbn. rewrite Hf. apply wp_bind. eapply wp_mono; [|apply Hb].
  intros a [n' tr' [st' u']] Ha. apply Ha.
Qed.

Lemma add_status_same name st :
  mediaTypeToPath (add_status name st) = mediaTypeToPath st /\ workingDir (add_status name st) = workingDir st /\
  tmpFiles (add_status name st) = tmpFiles st.
Proof. unfold add_status. by destruct (nameToStatus st !! name). Qed.

Definition dkCall (c : call Disk.diskE) : call ociE := match c with Call e x => Call (Dk e) x end.

(** A program on the disk, run by the store: what holds of it alone holds here. *)
Lemma wp_dk env {A} (p : prog Disk.diskE A) Q n m tr tr0 st u :
  wp (Disk.handle (fun X k e => env X (n + k)%nat (Dk e))) p
    (fun a s' => Q a (Traced (n + clock s') (map dkCall (trace s') ++ tr0) (st, own s'))) (Traced m tr u) ->
  wp (handle env) (dk p) Q (Traced (n + m) (map dkCall tr ++ tr0) (st, u)).
Proof.
  revert m tr u. induction p as [a|X e k IH]; intros m tr u Hw; [exact Hw|].
  cbn [wp] in Hw. unfold traced_handler at 1 in Hw. cbn [own clock] in Hw.
  unfold dk. cbn [lift wp]. unfold traced_handler at 1. cbn [local own clock fst snd].
  destruct (Disk.local X e (env X (n + m)%nat (Dk e)) u) as [[x u']|]; [|done].
  rewrite <- Nat.add_succ_r. exact (IH x (S m) (Call e x :: tr)%list u' Hw).
Qed.

(** From the start of the disk's own clock, for a property of the result and the state. *)
Lemma wp_disk env {A} (p : prog Disk.diskE A) (Q : A -> traced Disk.diskE Disk.FS -> Prop)
    (R : A -> traced ociE (Store * Disk.FS) -> Prop) n tr st u :
  (forall env', wp (Disk.handle env') p Q (Traced 0 [] u)) ->
  (forall a s' n' tr', Q a s' -> R a (Traced n' tr' (st, own s'))) ->
  wp (handle env) (dk p) R (Traced n tr (st, u)).
Proof.
  intros Hp HR. pose proof (wp_dk env p R n 0 [] tr st u) as Hw. rewrite Nat.add_0_r in Hw. apply Hw.
  eapply wp_mono; [|apply Hp]. intros a s' Ha. by apply HR.
Qed.

Lemma saveFile_wp env path expected n tr st u :
  wp (handle env) (saveFile path expected) (fun _ s' => fst (own s') = st) (Traced n tr (st, u)).
Proof.
  unfold saveFile. cbn. destruct (env _ _ ReadContent) as [b|e]; cbn; [|done].
  destruct (env _ _ (Dk (Disk.WriteAt _ _ _))) as [dt|e]; cbn; [|done].
  destruct (env _ _ (VerifyContent _)) as [e|]; done.
Qed.

(** The content behind a descriptor: the bytes of the file have its digest or, when it
    is compressed, they are some bytes with the announced digest, up to zeros at the
    end: bytes that fit are followed by zeros up to the announced size. *)
Definition vouched (d : Descriptor) (b : Disk.bytes) : Prop :=
  match d_Annotations d !! AnnotationUncompressedSize, d_Annotations d !! AnnotationUncompressedDigest with
  | Some size, Some dg =>
      exists data n, Strconv.ParseInt size = inl n /\ dg = canonical data /\ Disk.holds (Z.to_nat n) data b
  | _, _ => Disk.matches verifier (d_Digest d) b
  end.

(** How a content is taken in: the maps that name it change only for vouched bytes. *)
Definition taken (d : Descriptor) (out : string) (st : Store) (r : Disk.ended) (s' : traced ociE (Store * Disk.FS)) : Prop :=
  (r = Disk.Panicked -> verifier (d_Digest d) = None) /\
  nameToStatus (fst (own s')) = nameToStatus st /\ workingDir (fst (own s')) = workingDir st /\
  ((mediaTypeToPath (fst (own s')) = mediaTypeToPath st /\ r <> Disk.Returned None) \/
   (mediaTypeToPath (fst (own s')) = <[d_MediaType d := out]> (mediaTypeToPath st) /\
    vouched d (Disk.fileAt (snd (own s')) out))).

Lemma closing_wp env path body d out st s :
  wp (handle env) body (taken d out st) s -> wp (handle env) (closing path body) (taken d out st) s.
Proof.
  intros Hb. apply wp_bind. eapply wp_mono; [|exact Hb]. intros r [n tr [st' u]] (Hp & Hn & Hw & Hm). cbn in *.
  destruct r as [e|]; cbn.
  - split; [done|]. split; [done|]. split; [done|]. destruct Hm as [[Hm Hr]|Hm]; [|by right].
    left. split; [done|]. cbn. destruct e as [e|]; [|done].
    by destruct (env (option error) n (Dk (Disk.Close path))).
  - split; [done|]. split; [done|]. split; [done|]. destruct Hm as [[Hm Hr]|Hm]; [left | right]; done.
Qed.

Lemma decompressSaved_wp env d path out usize n dg k tr st u :
  d_Annotations d !! AnnotationUncompressedSize = Some usize ->
  d_Annotations d !! AnnotationUncompressedDigest = Some dg -> Strconv.ParseInt usize = inl n ->
  wp (handle env) (decompressSaved canonical d path out n dg) (taken d out st) (Traced k tr (st, u)).
Proof.
  intros Hs Hd Hn. unfold decompressSaved. apply wp_bind. eapply wp_mono; [|apply saveFile_wp].
  intros [e|] [k' tr' [st' u']] Hst; cbn in Hst; subst st'; [by split_and!; try done; left|].
  cbn. apply wp_bind. eapply wp_disk; [intros env'; apply Disk.decompress_wp|].
  intros [x [e|]] s' k2 tr2 Hq; cbn; [by split_and!; try done; left|].
  destruct (String.eqb_spec x dg) as [->|]; cbn; [|by split_and!; try done; left].
  split_and!; try done. right. split; [done|]. cbn. destruct (Hq eq_refl) as (Hc & _ & Hh). cbn in Hc.
  unfold vouched. rewrite Hs, Hd. by eexists _, n.
Qed.

Lemma verifySaved_wp env d out k tr st u :
  match d_Annotations d !! AnnotationUncompressedSize, d_Annotations d !! AnnotationUncompressedDigest with
  | Some _, Some _ => False | _, _ => True end ->
  wp (handle env) (verifySaved verifier d out) (taken d out st) (Traced k tr (st, u)).
Proof.
  intros Hno. unfold verifySaved. apply wp_bind. eapply wp_mono; [|apply saveFile_wp].
  intros [e|] [k' tr' [st' u']] Hst; cbn in Hst; subst st'; [by split_and!; try done; left|].
  cbn. apply wp_bind. eapply wp_disk; [intros env'; apply (Disk.compute_wp verifier)|].
  intros r s' k2 tr2 (Hp & Hf & Hok). destruct r as [[e|]|]; cbn.
  - by split_and!; try done; left.
  - split_and!; try done. right. split; [done|]. cbn. destruct (Hok eq_refl) as [_ Hm].
    unfold vouched, Disk.fileAt in *. rewrite Hf.
    destruct (d_Annotations d !! AnnotationUncompressedSize), (d_Annotations d !! AnnotationUncompressedDigest); done.
  - split_and!; try done. by left.
Qed.

Lemma process_wp env d out k tr st u :
  wp (handle env) (processContentByType canonical verifier d out) (taken d out st) (Traced k tr (st, u)).
Proof.
  unfold processContentByType. cbn. destruct (env _ _ (MkdirAll _)) as [e|]; cbn; [by split_and!; try done; left|].
  assert (forall k tr,
    match d_Annotations d !! AnnotationUncompressedSize, d_Annotations d !! AnnotationUncompressedDigest with
    | Some _, Some _ => False | _, _ => True end ->
    wp (handle env) (processRegularContent verifier d out) (taken d out st) (Traced k tr (st, u))) as Hreg.
  { intros k' tr' Hno. unfold processRegularContent. cbn.
    destruct (env _ _ (Dk (Disk.Create out))) as [dt|e]; cbn; [|by split_and!; try done; left].
    apply closing_wp. by apply verifySaved_wp. }
  destruct (d_Annotations d !! AnnotationUncompressedSize) as [usize|] eqn:Es; [|by apply Hreg].
  destruct (d_Annotations d !! AnnotationUncompressedDigest) as [dg|] eqn:Ed; [|by apply Hreg].
  unfold processCompressedContent. destruct (Strconv.ParseInt usize) as [n|e] eqn:En; [|by cbn; split_and!; try done; left].
  cbn. destruct (env _ _ CreateTemp) as [path|e]; cbn; [|by split_and!; try done; left].
  apply closing_wp. eapply wp_mono; [|by eapply decompressSaved_wp].
  intros r s' (H1 & H2 & H3 & H4). split_and!; done.
Qed.

#[local] Arguments Disk.ValidateFileWithDigest : simpl never.

(** What a push does to the maps. *)
Definition pushed_ok (d : Descriptor) (st : Store) (r : Disk.ended) (s' : traced ociE (Store * Disk.FS)) : Prop :=
  let st' := fst (own s') in
  let out := Path.Join [workingDir st; titleOf d] in
  (r = Disk.Panicked -> verifier (d_Digest d) = None) /\
  (mediaTypeToPath st' = mediaTypeToPath st \/
   mediaTypeToPath st' = <[d_MediaType d := out]> (mediaTypeToPath st) /\ vouched d (Disk.fileAt (snd (own s')) out)) /\
  (r = Disk.Returned None -> titleOf d <> "" ->
     closed st = false /\ flag st (titleOf d) = false /\ IsMediaTypeSupported (d_MediaType d) = true /\
     mediaTypeToPath st' !! d_MediaType d = Some out /\ flag st' (titleOf d) = true) /\
  (r <> Disk.Returned None -> flag st' (titleOf d) = flag st (titleOf d)).

Lemma push_wp env d n tr st u : wp (handle env) (Push canonical verifier d) (pushed_ok d st) (Traced n tr (st, u)).
Proof.
  unfold Push, pushed_ok. cbn. destruct (closed st) eqn:Ec; [by split_and!; try done; left|].
  destruct (String.eqb_spec (titleOf d) "") as [Et|Et]; [by cbn; split_and!; try done; left|].
  destruct (OciLocks.neutral_status (titleOf d) st) as [_ Hf]. destruct (add_status_same (titleOf d) st) as (Hm & Hw & _).
  apply wp_withTitle. intros n1 tr1.
  destruct (flag st (titleOf d)) eqn:Efl; [cbn; intros _ _; rewrite Hm; split_and!; try done; [by left | intros _; exact (eq_trans (Hf _) Efl)]|].
  destruct (IsMediaTypeSupported (d_MediaType d)) eqn:Es;
    [|cbn; intros _ _; rewrite Hm; split_and!; try done; [by left | intros _; exact (eq_trans (Hf _) Efl)]].
  cbn. apply wp_bind. eapply wp_mono; [|apply process_wp]. rewrite Hw.
  intros r [n2 tr2 [st2 u2]] (Hp & Hn & _ & Hv). cbn in *. rewrite Hm in Hv.
  assert (forall l, flag (set_locked l st2) (titleOf d) = false) as Hf2 by (intros l; unfold flag; simpl; rewrite Hn; exact (eq_trans (Hf _) Efl)).
  destruct r as [[e|]|]; cbn; intros _ _.
  - split_and!; try done. destruct Hv as [[-> _]|Hv]; [by left | by right].
  - destruct Hv as [[_ Hv]|[Hv1 Hv2]]; [done|]. split_and!; try done; [by right|]. intros _ _.
    rewrite Hv1, lookup_insert_eq. split_and!; try done. unfold flag. simpl. by rewrite lookup_insert_eq.
  - split_and!; try done. destruct Hv as [[-> _]|Hv]; [by left | by right].
Qed.

(** C18: pushing a content into the store, when no other call
    holds a lock, ends whatever the registry, the file system and
    the decompressor do, and panics only on a malformed digest.  The path of a media
    type changes only when the bytes of the file behind it carry the expected digest (a
    compressed content: the bytes that were decompressed, padded to the announced
    size).  A success, of a supported type under a fresh title, records that path and
    closes the title; a failure leaves the title open to a retry. *)
Theorem push_vouches env d st u :
  lockedTitles st = ∅ ->
  exists r s', exec env (Push canonical verifier d) (start (st, u)) = Some (r, s') /\
  let st' := fst (own s') in
  let out := Path.Join [workingDir st; titleOf d] in
  (r = Disk.Panicked -> verifier (d_Digest d) = None) /\
  (mediaTypeToPath st' = mediaTypeToPath st \/
   mediaTypeToPath st' = <[d_MediaType d := out]> (mediaTypeToPath st) /\ vouched d (Disk.fileAt (snd (own s')) out)) /\
  (r = Disk.Returned None -> titleOf d <> "" ->
     closed st = false /\ flag st (titleOf d) = false /\ IsMediaTypeSupported (d_MediaType d) = true /\
     mediaTypeToPath st' !! d_MediaType d = Some out /\ flag st' (titleOf d) = true) /\
  (r <> Disk.Returned None -> flag st' (titleOf d) = flag st (titleOf d)).
Proof.
  intros Hl. apply oci_exec_wp; [|exact Hl | apply push_wp].
  eapply OciLocks.lwp_mono; [|apply OciLocks.lwp_Push]. by intros r t [Hh _].
Qed.

(** Asking the store for a content returns, and panics only on a malformed digest.
    As long as the digest beside the file is truthful, an answer that records a path
    for the media type is given only for a file whose bytes have the digest that the
    descriptor announces for it, and never when existing files are to be ignored. *)
Lemma exists_vouches env d st u :
  Disk.truthful verifier u (Path.Join [workingDir st; titleOf d]) ->
  exists r s', exec env (Exists verifier d) (start (st, u)) = Some (r, s') /\
  let out := Path.Join [workingDir st; titleOf d] in
  (r = None -> verifier (diskDigest d) = None) /\
  (fst (own s') = st \/
   fst (own s') = add_media (d_MediaType d) out st /\ r = Some (true, None) /\
     closed st = false /\ ignoreExisting st = false /\ titleOf d <> "" /\
     Disk.files (snd (own s')) !! out = Disk.files u !! out /\
     Disk.matches verifier (diskDigest d) (Disk.fileAt u out)).
Proof.
  intros Htrue. apply oci_quiet_wp; [apply OciLocks.quiet_Exists|]. unfold Exists. cbn. destruct (closed st) eqn:Ec; cbn; [by split; [done | left]|].
  destruct (mediaTypeToPath st !! d_MediaType d) as [p|]; [by split; [done | left]|]. cbn.
  match goal with |- wp _ (match ?x with inl _ => _ | inr _ => _ end) _ _ => destruct x as [t|e] end;
    cbn; [|by split; [done | left]].
  destruct (ignoreExisting st) eqn:Ei; cbn; [by split; [done | left]|].
  destruct (String.eqb_spec (titleOf d) "") as [Et|Et]; cbn; [by split; [done | left]|].
  apply wp_bind. eapply wp_disk; [intros env'; by apply Disk.validate_wp|].
  intros r s' n tr (Hp & Hf & Hok). destruct r as [[e|]|]; cbn.
  - split; [done | by left].
  - split; [done|]. right. split_and!; try done. by destruct (Hok eq_refl).
  - split; [by intros _; apply Hp | by left].
Qed.

End Store.

(** C27: what the store's encoder writes, its reader gives back: when the configuration's
    path holds the JSON form of a configuration of valid UTF-8 strings, followed by
    anything that a JSON document ends before, GetConfig ends without an error only with
    that configuration, and does so when no call on the file fails.  Decoding over
    another configuration replaces its strings and appends to its storage list. *)
Theorem config_read_back `{JsonText} env c t st u path f :
  valid_config c = true -> Json.stops t = true ->
  closed st = false -> mediaTypeToPath st !! MediaTypeConfigV1 = Some path ->
  Disk.files u !! path = Some f -> Disk.content f = list_ascii_of_string (marshalConfig c ++ t) ->
  (exists r err s',
     exec env GetConfig (start (st, u)) = Some ((r, err), s') /\ (err = None -> r = c) /\
     ((forall n p, env _ n (Dk (Disk.Open p)) = None) ->
      (forall n p, is_Some (Disk.failed (env _ n (Dk (Disk.Read p)))) -> False) ->
      (forall n p, env _ n (Dk (Disk.Close p)) = None) -> err = None)) /\
  (forall c0 v, Json.parse (marshalConfig c) = Some v -> UnmarshalJSON c0 v = Some (reread c0 c)).
Proof.
  intros Hc Ht Hcl Hp Hf Hct. split.
  - pose proof (decode_written c t Ht) as Hd. rewrite (reread_valid _ Hc) in Hd.
    unfold exec, GetConfig, GetFilePathForMediaType, isClosedSet.
    cbn. rewrite Hcl. cbn. rewrite Hcl. cbn. rewrite Hp. cbn.
    unfold traced_handler at 1. cbn. rewrite Hf.
    destruct (env _ 3 (Dk (Disk.Open path))) as [e|] eqn:Eo; cbn.
    { eexists _, _, _. split_and!; [done | done | intros Ho; by rewrite Ho in Eo]. }
    rewrite Hf. destruct (env _ 4 (Dk (Disk.Read path))) as [b|e] eqn:Er; cbn.
    2: { eexists _, _, _. split_and!; [done | done |].
         intros _ Hr _. exfalso. apply (Hr 4 path). rewrite Er. by eexists. }
    rewrite Hct, string_of_list_ascii_of_string, Hd. cbn.
    destruct (env _ 5 (Dk (Disk.Close path))) as [e|] eqn:Ec;
      (eexists _, _, _; split_and!; [done | done |]); intros _ _ Hx; [by rewrite Hx in Ec | done].
  - intros c0 v Hv. destruct (MarshalJSON_ok c) as [Hn Hdp].
    unfold marshalConfig in Hv. rewrite Json.parse_print in Hv; [|done..|unfold Json.maxDepth; lia].
    injection Hv as <-. apply UnmarshalJSON_written.
Qed.

(** The path of a content is not confined to the working directory. *)
Lemma title_escapes : Path.Join ["/cache/blobs/reg.io/mac/14"; "../../../../../x"] = "/x".
Proof. vm_compute. reflexivity. Qed.

Abbreviation pushed size :=
  (exec sample_env (@Push (fun _ => true) Disk.sha256Digest Disk.sha256Verifier (sample_descriptor size))
     (start (sample_store, empty_fs))).

(** The announced size is never compared with the bytes: a disk image that
    decompresses to "abc" under its own digest, announced as five bytes, is accepted; the
    file that the machine will boot from is five bytes long, its digest is not the
    announced one, and a later validation of it against that digest succeeds, from the
    cache that the decompression left. *)
Lemma padded_image_accepted :
  exists s', pushed "5" = Some (Disk.Returned None, s') /\
    let u := snd (own s') in
    Disk.fileAt u "/cache/disk.img" = (Disk.abc ++ Disk.zeros 2)%list /\
    Disk.sha256Digest (Disk.fileAt u "/cache/disk.img") <> Disk.sha256Digest Disk.abc /\
    exists s2, Disk.exec Disk.sample_env
      (Disk.ValidateFileWithDigest Disk.sha256Verifier "/cache/disk.img" (Disk.sha256Digest Disk.abc)) (start u)
      = Some (Disk.Returned None, s2).
Proof.
  assert (match pushed "5" with
          | Some (Disk.Returned None, s') =>
              let u := snd (own s') in
              Disk.fileAt u "/cache/disk.img" = (Disk.abc ++ Disk.zeros 2)%list /\
              String.eqb (Disk.sha256Digest (Disk.fileAt u "/cache/disk.img")) (Disk.sha256Digest Disk.abc) = false /\
              match Disk.exec Disk.sample_env
                (Disk.ValidateFileWithDigest Disk.sha256Verifier "/cache/disk.img" (Disk.sha256Digest Disk.abc)) (start u) with
              | Some (Disk.Returned None, _) => true | _ => false end = true
          | _ => False end) as Hc by (vm_compute; split_and!; reflexivity).
  destruct (pushed "5") as [[[[e|]|] s']|]; try done. exists s'. destruct Hc as (Hf & Hne & Hv).
  split; [done|]. split; [done|]. split; [by apply String.eqb_neq|].
  cbv zeta in *. destruct (Disk.exec _ _ _) as [[[[e|]|] s2]|]; try done. by exists s2.
Qed.

Lemma push_vouches_witness :
  lockedTitles sample_store = ∅ /\
  exists r s', pushed "3" = Some (r, s') /\ (r = Disk.Returned None -> flag (fst (own s')) "disk.img" = true).
Proof.
  split; [reflexivity|].
  destruct (@push_vouches (fun _ => true) Disk.sha256Digest Disk.sha256Verifier sample_env (sample_descriptor "3")
    sample_store empty_fs eq_refl) as (r & s' & Hr & _ & _ & Hok & _).
  exists r, s'. split; [exact Hr|]. intros He. destruct (Hok He) as (_ & _ & _ & _ & Hf); [discriminate | exact Hf].
Defined.

Lemma exists_vouches_witness :
  exists r s', exec sample_env (Exists Disk.sha256Verifier (sample_descriptor "3")) (start (sample_store, empty_fs))
      = Some (r, s') /\ r <> None.
Proof.
  destruct (@exists_vouches Disk.sha256Verifier sample_env (sample_descriptor "3") sample_store empty_fs)
    as (r & s' & Hr & Hp & _).
  - intros f g Hf. vm_compute in Hf. discriminate.
  - exists r, s'. split; [exact Hr|]. intros ->. specialize (Hp eq_refl).
    assert (is_some (Disk.sha256Verifier (diskDigest (sample_descriptor "3"))) = true) as H1 by (vm_compute; reflexivity).
    rewrite Hp in H1. discriminate.
Defined.

Lemma config_read_back_witness :
  exists r err s', exec sample_env (@GetConfig Json.sample_text) (start (config_store, config_fs)) = Some ((r, err), s')
    /\ (err = None -> r = sample_config).
Proof.
  destruct (@config_read_back Json.sample_text sample_env sample_config Str.newline config_store config_fs
              "/cache/config.json" config_file) as [(r & err & s' & Hr & Hc & _) _].
  - vm_compute. reflexivity.
  - reflexivity.
  - reflexivity.
  - vm_compute. reflexivity.
  - vm_compute. reflexivity.
  - reflexivity.
  - exists r, err, s'. split; [exact Hr | exact Hc].
Defined.

End OciProofs.
