(* ===== verification/ImageStore.v ===== *)
(** * pkg/oci: the images that a store has recorded

    The store hands out the path that it has recorded for a media type.  Here: whatever
    is asked of it about the contents of one image, with titles of their own, the file
    at a recorded path keeps carrying the digest of the content it was recorded for
    ([kept]); temporary files are of no interest to the image ([foreign]), and the
    copy does not push what the store has ([polite]). *)
From Stdlib Require Import ZArith Lia.
From Stdlib Require Import Ascii String.
From stdpp Require Import base list gmap strings.
From S2P Require Import Prelude GoStrings GoFormat GoErrors GoPath Prog Event Disk DiskFrame Json OciConfig Oci OciLocks OciProofs.
Local Open Scope string_scope.
Local Open Scope go_scope.

Module ImageStore.

Import Oci OciProofs.

#[local] Arguments dk : simpl never.
#[local] Arguments saveFile : simpl never.
#[local] Arguments processContentByType : simpl never.
#[local] Arguments decompressSaved : simpl never.
#[local] Arguments verifySaved : simpl never.
#[local] Arguments closing : simpl never.
#[local] Arguments Disk.ValidateFileWithDigest : simpl never.

Abbreviation handle env := (traced_handler local env).

Section Image.
Context `{PrintTable}.
Variable canonical : Disk.bytes -> string.
Variable verifier : string -> option (Disk.bytes -> bool).
Context {DL : Disk.DigestLaws canonical verifier}.
Variable image : list Descriptor.
Variable dir : string.

(** A content that is kept in a file, and the file. *)
Definition titled (d : Descriptor) : Prop := d ∈ image /\ titleOf d <> "".
Definition out (d : Descriptor) : string := Path.Join [dir; titleOf d].

(** Every content has a file of its own, which is not the digest file of another. *)
Record named : Prop := {
  same_file d1 d2 : titled d1 -> titled d2 -> out d1 = out d2 -> d1 = d2;
  no_digest_file d1 d2 : titled d1 -> titled d2 -> Disk.digestFilePath (out d1) <> out d2;
  has_digest d : titled d -> d_Digest d <> ""
}.

(** A file of somebody else. *)
Definition foreign (p : string) : Prop := forall d, titled d -> p <> out d /\ p <> Disk.digestFilePath (out d).

(** The bytes carry a digest that the descriptor announces. *)
Definition genuine (d : Descriptor) (b : Disk.bytes) : Prop :=
  exists dg, (dg = d_Digest d \/ d_Annotations d !! AnnotationUncompressedDigest = Some dg) /\
    DiskFrame.carries verifier dg b.

Lemma vouched_genuine d b : vouched canonical verifier d b -> genuine d b.
Proof.
  unfold vouched, genuine. intros Hv.
  destruct (d_Annotations d !! AnnotationUncompressedSize), (d_Annotations d !! AnnotationUncompressedDigest) as [dg|] eqn:Ed;
    try (exists (d_Digest d); split; [by left | exists b; split; [done | apply Disk.padded_refl]]).
  destruct Hv as (data & n & _ & -> & Hp & _). exists (canonical data). split; [by right|].
  by apply (DiskFrame.canonical_carries canonical verifier).
Qed.

(** The store and the file system while the image is copied. *)
Record kept (s : Store) (u : Disk.FS) : Prop := {
  k_dir : workingDir s = dir;
  k_timely : DiskFrame.timely u;
  k_sound d : titled d -> DiskFrame.sound verifier u (out d);
  k_tmp t : t ∈ tmpFiles s -> foreign t;
  k_recorded mt p : mediaTypeToPath s !! mt = Some p ->
    exists d, titled d /\ d_MediaType d = mt /\ p = out d /\ genuine d (Disk.fileAt u p)
}.

(** The copy pushes a content whose file is recorded only if its title is taken. *)
Definition polite (d : Descriptor) (s : Store) : Prop :=
  mediaTypeToPath s !! d_MediaType d = Some (out d) -> flag s (titleOf d) = true.

Hypothesis Hnamed : named.

Lemma kept_same s s' u :
  kept s u -> workingDir s' = workingDir s -> tmpFiles s' = tmpFiles s -> mediaTypeToPath s' = mediaTypeToPath s ->
  kept s' u.
Proof. intros [] H1 H2 H3. split; [by rewrite H1 | done | done | by rewrite H2 | by rewrite H3]. Qed.

(** What working on the file of [d] may change. *)
Definition workplace (d : Descriptor) (ts : list string) : list string := out d :: Disk.digestFilePath (out d) :: ts.

Lemma other_file d d' ts :
  titled d -> titled d' -> out d' <> out d -> Forall foreign ts ->
  (out d' ∉ workplace d ts) /\ (Disk.digestFilePath (out d') ∉ workplace d ts).
Proof.
  intros Hd Hd' Hne Hts. unfold workplace. rewrite Forall_forall in Hts.
  rewrite !not_elem_of_cons. split_and!.
  - done.
  - apply not_eq_sym. by apply (no_digest_file Hnamed).
  - intros Hin. by destruct (Hts _ Hin d' Hd').
  - by apply (no_digest_file Hnamed).
  - unfold Disk.digestFilePath. intros Heq. by apply Str.app_inj_l in Heq.
  - intros Hin. by destruct (Hts _ Hin d' Hd').
Qed.

(** After working on the file of [d], which nothing pointed to. *)
Lemma kept_frame d ts s u s' u' :
  titled d -> Forall foreign ts -> kept s u -> (forall mt, mediaTypeToPath s !! mt <> Some (out d)) ->
  DiskFrame.safe verifier (workplace d ts) (out d) u u' ->
  workingDir s' = workingDir s -> (forall t, t ∈ tmpFiles s' -> foreign t) -> mediaTypeToPath s' = mediaTypeToPath s ->
  kept s' u'.
Proof.
  intros Hd Hts [Kd Kt Ks Ktmp Kr] Hno (Ht & Hsb & Hso) Hw Htmp Hm. split; [by rewrite Hw | done | | done|].
  - intros d' Hd'. destruct (decide (out d' = out d)) as [->|Hne]; [done|].
    destruct (other_file d d' ts) as [H1 H2]; try done. eapply DiskFrame.sound_same; [| |by apply Ks]; by apply Hsb.
  - intros mt p. rewrite Hm. intros Hp. destruct (Kr mt p Hp) as (d' & Hd' & Hmt & -> & Hg). exists d'.
    split_and!; [done | done | done|].
    assert (out d' <> out d) as Hne by (intros E; apply (Hno mt); by rewrite Hp, E).
    destruct (other_file d d' ts) as [H1 _]; try done. unfold Disk.fileAt. by rewrite Hsb.
Qed.

Definition with_media (m : gmap string string) (s : Store) : Store :=
  {| workingDir := workingDir s; ignoreExisting := ignoreExisting s; closed := closed s; digestToPath := digestToPath s;
     mediaTypeToPath := m; nameToStatus := nameToStatus s; lockedTitles := lockedTitles s; tmpFiles := tmpFiles s |}.

(** Recording the file of [d]. *)
Lemma kept_add d s s' u :
  titled d -> kept s u -> genuine d (Disk.fileAt u (out d)) ->
  workingDir s' = workingDir s -> tmpFiles s' = tmpFiles s ->
  mediaTypeToPath s' = <[d_MediaType d := out d]> (mediaTypeToPath s) -> kept s' u.
Proof.
  intros Hd [Kd Kt Ks Ktmp Kr] Hg Hw Htmp Hm. split; [by rewrite Hw | done | done | by rewrite Htmp|].
  intros mt p. rewrite Hm. destruct (decide (mt = d_MediaType d)) as [->|Hne].
  - rewrite lookup_insert_eq. intros [= <-]. by exists d.
  - rewrite lookup_insert_ne by done. apply Kr.
Qed.

(** ** Push *)

Section Push.
Variable env : oracle ociE.
Hypothesis tmp_foreign : forall n t, env _ n CreateTemp = inl t -> foreign t.
Variables (d : Descriptor) (u0 : Disk.FS).
Hypothesis Hd : titled d.

Definition working (ts : list string) (su : Store * Disk.FS) : Prop :=
  DiskFrame.safe verifier (workplace d ts) (out d) u0 (snd su) /\ (forall t, t ∈ tmpFiles (fst su) -> foreign t).

Lemma working_store ts st st' u : tmpFiles st' = tmpFiles st -> working ts (st, u) -> working ts (st', u).
Proof. intros Ht [Hs Hf]. split; [done|]. simpl. by rewrite Ht. Qed.

Lemma saveFile_working ts path expected s :
  path ∈ workplace d ts -> path <> Disk.digestFilePath (out d) -> working ts (own s) ->
  wp (handle env) (saveFile path expected) (fun _ s' => working ts (own s')) s.
Proof.
  intros Hp Hne. destruct s as [n tr [st u]]. intros [Hs Hf]. cbn in *.
  unfold saveFile. cbn. destruct (env _ _ ReadContent) as [b|e]; cbn; [|done].
  destruct (env _ _ (Dk (Disk.WriteAt _ _ _))) as [dt|e]; cbn; [|done].
  assert (working ts (st, Disk.put path (Disk.overwrite 0 b (Disk.fileAt u path)) dt u)) as Hw
    by (split; [by apply DiskFrame.safe_put | done]).
  by destruct (env _ _ (VerifyContent _)) as [e|].
Qed.

Lemma closing_working ts path body s :
  wp (handle env) body (fun _ s' => working ts (own s')) s ->
  wp (handle env) (closing path body) (fun _ s' => working ts (own s')) s.
Proof. intros Hb. apply wp_bind. eapply wp_mono; [|exact Hb]. by intros r [n tr [st u]]. Qed.

Lemma decompressSaved_working ts path size dg s :
  path ∈ ts -> foreign path -> working ts (own s) ->
  wp (handle env) (decompressSaved canonical d path (out d) size dg) (fun _ s' => working ts (own s')) s.
Proof.
  intros Hp Hf Hw. unfold decompressSaved. apply wp_bind.
  eapply wp_mono; [|apply (saveFile_working ts); [by do 2 right | by apply (Hf d Hd) | exact Hw]].
  intros [e|] [n tr [st u]] [Hs Ht]; [done|]. cbn in *. apply wp_bind.
  eapply wp_disk; [intros env'; apply (DiskFrame.decompress_safe canonical verifier env' (workplace d ts)); [by left | by right; left | exact Hs]|].
  intros [x [e|]] s' k tr' Hs'; cbn; [by split|]. case_match; by split.
Qed.

Lemma verifySaved_working ts s :
  working ts (own s) ->
  wp (handle env) (verifySaved verifier d (out d)) (fun _ s' => working ts (own s')) s.
Proof.
  intros Hw. unfold verifySaved. apply wp_bind.
  eapply wp_mono; [|apply (saveFile_working ts); [by left | by apply not_eq_sym, Disk.digestFilePath_ne | exact Hw]].
  intros [e|] [n tr [st u]] [Hs Ht]; [done|]. cbn in *. apply wp_bind.
  eapply wp_disk; [intros env'; apply (DiskFrame.compute_safe verifier env' (workplace d ts)); [by right; left | exact Hs]|].
  intros [[e|]|] s' k tr' Hs'; by split.
Qed.

Lemma process_working n tr st :
  (forall ts, working ts (st, u0)) ->
  wp (handle env) (processContentByType canonical verifier d (out d))
    (fun _ s' => exists ts, Forall foreign ts /\ working ts (own s')) (Traced n tr (st, u0)).
Proof.
  intros Hw. unfold processContentByType. cbn.
  destruct (env _ _ (MkdirAll _)) as [e|]; cbn; [by exists []; split|].
  assert (forall n tr, wp (handle env) (processRegularContent verifier d (out d))
    (fun _ s' => exists ts, Forall foreign ts /\ working ts (own s')) (Traced n tr (st, u0))) as Hreg.
  { intros m tr'. unfold processRegularContent. cbn.
    destruct (env _ _ (Dk (Disk.Create _))) as [dt|e]; cbn; [|by exists []; split].
    eapply wp_mono; [intros r s' Hr; exists []; split; [done | exact Hr]|]. apply closing_working, verifySaved_working.
    destruct (Hw []) as [Hs Ht]. split; [|done]. cbn. apply DiskFrame.safe_put; [by left | | exact Hs].
    by apply not_eq_sym, Disk.digestFilePath_ne. }
  destruct (d_Annotations d !! AnnotationUncompressedSize) as [usize|]; [|by apply Hreg].
  destruct (d_Annotations d !! AnnotationUncompressedDigest) as [dg|]; [|by apply Hreg].
  unfold processCompressedContent. destruct (Strconv.ParseInt usize) as [size|e]; cbn; [|by exists []; split].
  destruct (env _ _ CreateTemp) as [t|e] eqn:Et; cbn; [|by exists []; split].
  pose proof (tmp_foreign _ _ Et) as Hf. destruct (Hw [t]) as [Hs Ht].
  eapply wp_mono; [intros r s' Hr; exists [t]; split; [by constructor | exact Hr]|].
  apply closing_working, decompressSaved_working; [by left | done|]. split; cbn.
  - apply DiskFrame.safe_put; [by do 2 right; left | by apply (Hf d Hd) | exact Hs].
  - intros t' [->%elem_of_singleton|Ht']%elem_of_union; [done | by apply Ht].
Qed.

End Push.

Lemma kept_working st u d ts : titled d -> kept st u -> working d u ts (st, u).
Proof. intros Hd K. split; [|apply K]. split_and!; [apply K | by intros q | by apply K]. Qed.

Lemma untaken d st u :
  titled d -> kept st u -> mediaTypeToPath st !! d_MediaType d <> Some (out d) ->
  forall mt, mediaTypeToPath st !! mt <> Some (out d).
Proof.
  intros Hd K Hn mt Hm. destruct (k_recorded _ _ K mt _ Hm) as (d' & Hd' & Hmt & Ho & _).
  apply (same_file Hnamed) in Ho; [subst d' | done | done]. apply Hn. by rewrite Hmt.
Qed.

Lemma push_keeps (env : oracle ociE) d n tr st u :
  (forall n t, env _ n CreateTemp = inl t -> foreign t) -> d ∈ image -> kept st u -> polite d st ->
  wp (handle env) (Push canonical verifier d) (fun _ s' => kept (fst (own s')) (snd (own s'))) (Traced n tr (st, u)).
Proof.
  intros Htmp Hin K Hpol. unfold Push. cbn. destruct (closed st); [done|].
  destruct (String.eqb_spec (titleOf d) "") as [Et|Et]; [done|]. assert (titled d) as Hd by done.
  apply wp_withTitle. intros n1 tr1. destruct (add_status_same (titleOf d) st) as (Hm & Hw & Ht).
  assert (kept (set_locked ({[titleOf d]} ∪ lockedTitles st) (add_status (titleOf d) st)) u) as K1 by by eapply kept_same.
  assert (forall s' u', kept s' u' -> forall l, kept (set_locked l s') u') as Hlock by (intros; by eapply kept_same).
  destruct (flag st (titleOf d)) eqn:Efl; [cbn; intros _ _; by apply Hlock|].
  destruct (negb _); [cbn; intros _ _; by apply Hlock|]. cbn. apply wp_bind. rewrite Hw, (k_dir _ _ K). fold (out d).
  eapply wp_mono; [|apply wp_and; [apply process_wp | apply process_working; [exact Htmp | exact Hd | intros ts; by apply kept_working]]].
  intros r [k tr2 [s2 u2]] [(_ & _ & Hw2 & Hv) (ts & Hts & Hs2 & Ht2)]. cbn in *.
  assert (forall s3, workingDir s3 = workingDir s2 -> tmpFiles s3 = tmpFiles s2 ->
    mediaTypeToPath s3 = mediaTypeToPath (add_status (titleOf d) st) -> kept s3 u2) as Hframe.
  { intros s3 H1 H2 H3. eapply (kept_frame d ts _ u); [done | done | exact K1 | | done | by rewrite H1 | by rewrite H2 | done].
    intros mt. cbn. rewrite Hm. eapply untaken; [done | exact K | intros Hr; apply Hpol in Hr; by rewrite Hr in Efl]. }
  assert (kept s2 u2) as K2.
  { destruct Hv as [[Hv _]|[Hv Hg]]; [by apply Hframe|].
    apply (kept_add d (with_media (mediaTypeToPath (add_status (titleOf d) st)) s2)); try done;
      [by apply Hframe | by apply vouched_genuine]. }
  destruct r as [[e|]|]; cbn; intros _ _; apply Hlock; [done | by eapply kept_same | done].
Qed.

(** ** The other calls *)

Lemma diskDigest_genuine d b : DiskFrame.carries verifier (diskDigest d) b -> genuine d b.
Proof.
  unfold diskDigest. intros Hc. exists (diskDigest d). split; [|exact Hc]. unfold diskDigest.
  destruct (d_Annotations d !! AnnotationUncompressedDigest) as [x|]; simpl; [|by left].
  destruct (String.eqb x ""); [by left | by right].
Qed.

Lemma diskDigest_ne d : titled d -> diskDigest d <> "".
Proof.
  intros Hd. unfold diskDigest. destruct (String.eqb_spec (default "" (d_Annotations d !! AnnotationUncompressedDigest)) "");
    [by apply (has_digest Hnamed) | done].
Qed.

Lemma exists_keeps env d n tr st u :
  d ∈ image -> kept st u ->
  wp (handle env) (Exists verifier d) (fun _ s' => kept (fst (own s')) (snd (own s'))) (Traced n tr (st, u)).
Proof.
  intros Hin K. unfold Exists. cbn. destruct (closed st); cbn; [done|].
  destruct (mediaTypeToPath st !! d_MediaType d) as [p|] eqn:Em; [done|]. cbn.
  match goal with |- wp _ (match ?x with inl _ => _ | inr _ => _ end) _ _ => destruct x as [t|e] end; cbn; [|done].
  destruct (ignoreExisting st); cbn; [done|].
  destruct (String.eqb_spec (titleOf d) "") as [Et|Et]; cbn; [done|]. assert (titled d) as Hd by done.
  rewrite (k_dir _ _ K). fold (out d). apply wp_bind.
  eapply wp_disk; [intros env'; apply wp_and;
    [apply (DiskFrame.validate_safe verifier env' (workplace d [])); [by right; left | by apply (kept_working st u d [] Hd K)] |
     apply DiskFrame.validate_carries; [by apply K | by apply diskDigest_ne]]|].
  intros r s' k tr' (Hs & Hf & Hok).
  assert (kept st (own s')) as K'.
  { eapply (kept_frame d [] st u); try done; [|apply K]. eapply untaken; [done | exact K | by rewrite Em]. }
  destruct r as [[e|]|]; cbn; [done| |done]. eapply (kept_add d st); try done.
  apply diskDigest_genuine. unfold Disk.fileAt in *. rewrite Hf. by apply Hok.
Qed.

Lemma tag_keeps env d ref n tr st u :
  d ∈ image -> kept st u ->
  wp (handle env) (Tag verifier d ref) (fun _ s' => kept (fst (own s')) (snd (own s'))) (Traced n tr (st, u)).
Proof.
  intros Hin K. unfold Tag. cbn. destruct (closed st); [done|]. destruct (String.eqb ref ""); [done|].
  apply wp_bind. eapply wp_mono; [|by apply exists_keeps]. by intros [[[|] [e|]]|] [k tr' [st' u']].
Qed.

Lemma fetch_keeps env d n tr st u :
  kept st u -> wp (handle env) (Fetch d) (fun _ s' => kept (fst (own s')) (snd (own s'))) (Traced n tr (st, u)).
Proof.
  intros K. unfold Fetch. cbn. destruct (closed st); cbn; [done|]. destruct (digestToPath st !! d_Digest d); cbn; [|done].
  repeat (case_match; cbn); done.
Qed.

Lemma resolve_keeps env ref n tr st u :
  kept st u -> wp (handle env) (Resolve ref) (fun _ s' => kept (fst (own s')) (snd (own s'))) (Traced n tr (st, u)).
Proof. intros K. unfold Resolve. cbn. destruct (closed st); cbn; [done|]. by destruct (String.eqb ref ""); cbn. Qed.

(** Closing removes temporary files only. *)
Lemma kept_remove st u p :
  foreign p -> kept st u -> kept st {| Disk.files := delete p (Disk.files u); Disk.now := Disk.now u |}.
Proof.
  intros Hp [Kd Kt Ks Ktmp Kr]. split; [done | | | done|].
  - intros q f. simpl. rewrite lookup_delete_Some. intros [_ Hf]. by eapply Kt.
  - intros d Hd. destruct (Hp d Hd). eapply DiskFrame.sound_same; [| |by apply Ks]; simpl; by rewrite lookup_delete_ne.
  - intros mt q Hq. destruct (Kr mt q Hq) as (d & Hd & Hmt & -> & Hg). exists d. split_and!; [done..|].
    destruct (Hp d Hd). unfold Disk.fileAt. simpl. by rewrite lookup_delete_ne.
Qed.

(** The contents are where they were. *)
Definition untouched (st : Store) (u : Disk.FS) (s' : traced ociE (Store * Disk.FS)) : Prop :=
  kept (fst (own s')) (snd (own s')) /\ mediaTypeToPath (fst (own s')) = mediaTypeToPath st /\
  forall d, titled d -> Disk.fileAt (snd (own s')) (out d) = Disk.fileAt u (out d).

Lemma remove_keeps env l errs n tr st u :
  (forall t, t ∈ l -> foreign t) -> kept st u ->
  wp (handle env) (foldM removeTmp l errs) (fun _ => untouched st u) (Traced n tr (st, u)).
Proof.
  revert errs n tr u. induction l as [|t l IH]; intros errs n tr u Hl K; cbn [foldM]; [by split_and!|].
  unfold removeTmp at 1. cbn. destruct (env _ _ (RemoveFile t)) as [e|]; cbn.
  - apply IH; [intros; apply Hl; by right | done].
  - assert (foreign t) as Ht by (apply Hl; by left).
    eapply wp_mono; [|apply IH; [intros; apply Hl; by right | by apply kept_remove]].
    intros _ s' (K' & Hm & Hf). split_and!; [done | done|]. intros d Hd. rewrite Hf by done.
    unfold Disk.fileAt. simpl. rewrite lookup_delete_ne; [done | by apply (Ht d Hd)].
Qed.

Lemma close_keeps env n tr st u :
  kept st u -> wp (handle env) CloseStore (fun _ => untouched st u) (Traced n tr (st, u)).
Proof.
  intros K. unfold CloseStore. cbn. destruct (closed st); cbn; [by split_and!|]. apply wp_bind.
  assert (kept (set_closed st) u) as K' by by eapply kept_same.
  eapply wp_mono; [|apply remove_keeps, K'; intros t Ht%elem_of_elements; by apply K]. done.
Qed.

(** What the store hands out. *)
Lemma path_kept env mt n tr st u :
  kept st u ->
  wp (handle env) (GetFilePathForMediaType mt)
    (fun r s' => own s' = (st, u) /\ forall p, r = inl p ->
       exists d, titled d /\ d_MediaType d = mt /\ p = out d /\ genuine d (Disk.fileAt u p)) (Traced n tr (st, u)).
Proof.
  intros K. unfold GetFilePathForMediaType. cbn. destruct (closed st); cbn; [done|]. split; [done|].
  intros p. destruct (mediaTypeToPath st !! mt) as [q|] eqn:Em; [|done]. intros [= <-]. by apply K.
Qed.

Lemma config_kept `{JsonText} env n tr st u :
  kept st u ->
  wp (handle env) GetConfig
    (fun r s' => own s' = (st, u) /\ (snd r = None ->
       exists d, titled d /\ d_MediaType d = OciConfig.MediaTypeConfigV1 /\ genuine d (Disk.fileAt u (out d)) /\
         OciConfig.decodeConfig (string_of_list_ascii (Disk.fileAt u (out d))) = inl (fst r))) (Traced n tr (st, u)).
Proof.
  intros K. unfold GetConfig. cbn. destruct (closed st) eqn:Ec; cbn; [done|]. rewrite Ec. cbn.
  destruct (mediaTypeToPath st !! _) as [q|] eqn:Em; cbn; [|done].
  destruct (k_recorded _ _ K _ _ Em) as (d & Hd & Hmt & -> & Hg).
  destruct (match env _ _ (Dk (Disk.Open _)) with Some _ => _ | None => _ end) as [e|] eqn:Eo; cbn; [done|].
  destruct (env _ _ (Dk (Disk.Read _))) as [b|e]; cbn; [|done].
  destruct (Disk.files u !! out d) as [f|] eqn:Hf; cbn; [|done].
  destruct (OciConfig.decodeConfig _) as [c|e] eqn:Ed; cbn; [|done]. split; [done|]. intros _. exists d.
  unfold Disk.fileAt in *. rewrite Hf in *. by split_and!.
Qed.

End Image.
End ImageStore.
