(* ===== verification/Downloader.v ===== *)
(** * pkg/downloader/download.go: one image download

    [Download] opens a store, lets the oras library copy the image into it until that
    works or the attempts are used up, and reads the paths of the parts back.  The copy
    calls the methods of the store in an order that oras chooses: the oracle answers
    with one call after the other, and they run. *)
From Stdlib Require Import ZArith Lia.
From Stdlib Require Import Ascii String.
From stdpp Require Import base list gmap strings.
From S2P Require Import Prelude GoStrings GoFormat GoErrors GoTime GoPath Prog Resource Event Disk Json OciConfig Oci MacOS.
Local Open Scope string_scope.
Local Open Scope go_scope.

Module Downloader.

(* src/pkg/downloader/download.go : 24-30 DefaultMaxAttempts *)
Definition DefaultMinRetryDelay : Z := 2 * Time.Second.
Definition DefaultMaxDelay : Z := 60 * Time.Second.
Definition DefaultMaxAttempts : Z := 5.

(* src/pkg/downloader/download.go : Params *)
Record Params := {
  Ref : string;
  StorePath : string;
  IgnoreExisiting : bool;
  Credentials : Creds.RegistryCredentials;
  MinRetryDelay : Z;
  MaxDelay : Z;
  MaxAttempts : Z
}.

(** [auth.Credential] of oras. *)
Record Credential := { or_Username : string; or_Password : string; RefreshToken : string }.

(* src/pkg/downloader/download.go : toORASCredential *)
Definition toORASCredential (c : Creds.RegistryCredentials) : Credential :=
  {| or_Username := Creds.Username c; or_Password := Creds.Password c; RefreshToken := Creds.IdentityToken c |}.

(* src/pkg/downloader/download.go : convertToPath *)
Definition convertToPath (s : string) : string :=
  let parts := Str.split ":" s in
  if (length parts <? 2)%nat then s else Str.join "/" parts.

(** [net.ParseIP] on a string without a colon: a dotted quad, or nothing. *)
Definition octet (s : string) : option Z :=
  if String.eqb s "" || (3 <? String.length s)%nat
     || ((1 <? String.length s)%nat && Str.has_prefix "0" s) || negb (Str.all_chars Str.is_digit s) then None
  else
    let v := fold_left (fun acc c => (acc * 10 + (Z.of_nat (nat_of_ascii c) - 48))%Z) (list_ascii_of_string s) 0%Z in
    if (255 <? v)%Z then None else Some v.

Definition ParseIPv4 (s : string) : option (Z * Z * Z * Z) :=
  match map octet (Str.split "." s) with
  | [Some a; Some b; Some c; Some d] => Some (a, b, c, d)
  | _ => None
  end.

Definition IsLoopback (ip : Z * Z * Z * Z) : bool := let '(a, _, _, _) := ip in (a =? 127)%Z.
Definition IsPrivate (ip : Z * Z * Z * Z) : bool :=
  let '(a, b, _, _) := ip in
  (a =? 10)%Z || ((a =? 172) && (16 <=? b) && (b <=? 31))%Z || ((a =? 192) && (b =? 168))%Z.

(** The host loses its port, and with it everything after the first colon: what is
    left is never an IPv6 address. *)
(* src/pkg/downloader/download.go : isLocalhostOrLocalIP *)
Definition isLocalhostOrLocalIP (host : string) : bool :=
  let h := match Str.split ":" host with h :: _ => h | [] => "" end in
  if String.eqb h "localhost" then true
  else match ParseIPv4 h with Some ip => IsLoopback ip || IsPrivate ip | None => false end.

(** A call of the store that the copy makes. *)
Inductive Request :=
| RPush (d : Oci.Descriptor)
| RExists (d : Oci.Descriptor)
| RFetch (d : Oci.Descriptor)
| RResolve (reference : string)
| RTag (d : Oci.Descriptor) (reference : string).

Inductive dlE : Type -> Type :=
| St {X : Type} (e : Oci.ociE X) : dlE X
| NewRepository (ref : string) : dlE (string + error)     (* the registry of the reference *)
| Copy (ref : string) (plainHTTP : bool) (cred : option Credential) : dlE nat   (* how many calls it makes *)
| NextCall : dlE Request
| CopyEnd : dlE (option error)
| BackoffRounds (steps : Z) (minDelay maxDelay : Z) : dlE nat
| BackoffEnd : dlE error                                  (* used up, or the context is done *)
| Record_ (ev : Event) : dlE unit.

(** The store and the file system are the state; the rest is the oracle's. *)
Definition local : local_handler dlE (Oci.Store * Disk.FS) := fun X e =>
  match e with
  | St e => Oci.local _ e
  | _ => fun x s => Some (x, s)
  end.

Definition exec (env : oracle dlE) {A} (p : prog dlE A) s := run (traced_handler local env) p s.

Section Download.
Context `{PrintTable}.
Variable canonical : Disk.bytes -> string.
Variable verifier : string -> option (Disk.bytes -> bool).
Context `{JsonText}.
Variable abs : string -> string + error.

Definition st {A} (p : prog Oci.ociE A) : prog dlE A := lift (fun X e => St e) p.

(** One call; the result says whether it panicked. *)
Definition serve (r : Request) : prog dlE bool :=
  match r with
  | RPush d => e <- st (Oci.Push canonical verifier d) ;; Ret (match e with Disk.Panicked => true | _ => false end)
  | RExists d => e <- st (Oci.Exists verifier d) ;; Ret (negb (is_some e))
  | RFetch d => st (Oci.Fetch d) ;; Ret false
  | RResolve ref => st (Oci.Resolve ref) ;; Ret false
  | RTag d ref => e <- st (Oci.Tag verifier d ref) ;; Ret (match e with Disk.Panicked => true | _ => false end)
  end.

(** The copy with [n] calls left; a panic goes through it. *)
Fixpoint copying (n : nat) : prog dlE Disk.ended :=
  match n with
  | O => e <- perform CopyEnd ;; Ret (Disk.Returned e)
  | S n => r <- perform NextCall ;; b <- serve r ;; if b : bool then Ret Disk.Panicked else copying n
  end.

(* src/pkg/downloader/download.go : pull *)
Definition pull (ref : string) (creds : Creds.RegistryCredentials) : prog dlE Disk.ended :=
  r <- perform (NewRepository ref) ;;
  match r with
  | inr e => Ret (Disk.Returned (Some (Errorf ("failed to create repository from reference " ++ ref) e)))
  | inl registry =>
      n <- perform (Copy ref (isLocalhostOrLocalIP registry)
                      (if Creds.IsEmpty creds then None else Some (toORASCredential creds))) ;;
      copying n
  end.

(** The rounds of [wait.ExponentialBackoffWithContext]; a failed pull is reported. *)
Fixpoint pullLoop (n : nat) (ref : string) (creds : Creds.RegistryCredentials) : prog dlE Disk.ended :=
  match n with
  | O => e <- perform BackoffEnd ;; Ret (Disk.Returned (Some e))
  | S n =>
      r <- pull ref creds ;;
      match r with
      | Disk.Returned (Some e) => perform (Record_ (FailedToPullImage ref "" e)) ;; pullLoop n ref creds
      | _ => Ret r
      end
  end.

Definition noConfig : MacOS.MacPlatformConfigurationOptions :=
  {| MacOS.BlockStoragePath := ""; MacOS.AuxiliaryStoragePath := ""; MacOS.HardwareModelData := "";
     MacOS.MachineIdentifierData := "" |}.

Definition pathError (mt : OciConfig.MediaType) (e : error) : error :=
  Errorf ("failed to get file path for media type " ++ mt) e.

Definition readBack : prog dlE (MacOS.MacPlatformConfigurationOptions * option error) :=
  b <- st (Oci.GetFilePathForMediaType OciConfig.MediaTypeDiskImage) ;;
  match b with
  | inr e => Ret (noConfig, Some (pathError OciConfig.MediaTypeDiskImage e))
  | inl blk =>
      a <- st (Oci.GetFilePathForMediaType OciConfig.MediaTypeAuxImage) ;;
      match a with
      | inr e => Ret (noConfig, Some (pathError OciConfig.MediaTypeAuxImage e))
      | inl aux =>
          c <- st Oci.GetConfig ;;
          Ret (match snd c with
               | Some e => (noConfig, Some (Errorf "failed to get config" e))
               | None =>
                   ({| MacOS.BlockStoragePath := blk; MacOS.AuxiliaryStoragePath := aux;
                       MacOS.HardwareModelData := OciConfig.HardwareModelData (fst c);
                       MacOS.MachineIdentifierData := OciConfig.MachineIdData (fst c) |}, None)
               end)
      end
  end.

Definition orDefault (v d : Z) : Z := if (v =? 0)%Z then d else v.

Definition blobDir (p : Params) : string := Path.Join [StorePath p; "blobs"; convertToPath (Ref p)].

(** The pulls and what is read back from the store, before the deferred close. *)
Definition attempts (p : Params) : prog dlE (option (MacOS.MacPlatformConfigurationOptions * option error)) :=
  n <- perform (BackoffRounds (orDefault (MaxAttempts p) DefaultMaxAttempts)
                  (orDefault (MinRetryDelay p) DefaultMinRetryDelay) (orDefault (MaxDelay p) DefaultMaxDelay)) ;;
  r <- pullLoop (Nat.min n (Z.to_nat (orDefault (MaxAttempts p) DefaultMaxAttempts))) (Ref p) (Credentials p) ;;
  match r with
  | Disk.Panicked => Ret None
  | Disk.Returned (Some e) => Ret (Some (noConfig, Some e))
  | Disk.Returned None => r <- readBack ;; Ret (Some r)
  end.

(** [None] is a panic. *)
(* src/pkg/downloader/download.go : Download *)
Definition Download (p : Params) : prog dlE (option (MacOS.MacPlatformConfigurationOptions * option error)) :=
  match Oci.New abs (blobDir p) (IgnoreExisiting p) with
  | inr e => Ret (Some (noConfig, Some (Errorf "failed to initialize store" e)))
  | inl s0 =>
      perform (St (Oci.Modify (fun _ => s0))) ;;
      r <- attempts p ;;
      c <- st Oci.CloseStore ;;                                     (* deferred *)
      Ret (match r with None => None | Some (cfg, e) => Some (cfg, errors_Join [e; c]) end)
  end.

End Download.

(** The directory of an image: the tag is a directory below the repository's. *)
Example convert_tag : convertToPath "reg.io/mac:14" = "reg.io/mac/14".
Proof. reflexivity. Qed.

Example plain_local : map isLocalhostOrLocalIP ["localhost:5000"; "127.0.0.1:5000"; "172.20.1.1"; "172.32.0.1"; "[::1]:5000"; "reg.io"]
  = [true; true; true; false; false; false].
Proof. reflexivity. Qed.

End Downloader.
