(* ===== verification/DownloaderProofs.v ===== *)
(** * pkg/downloader with pkg/oci: what a download hands out

    [Download] runs on the store of [Oci] and the file system of [Disk]; whatever oras
    does, it returns.  When the contents of the image have files of their own and oras
    pushes nothing that the store told it to have, the paths that a successful download
    answers with are files with the announced digests. *)
From Stdlib Require Import ZArith Lia.
From Stdlib Require Import Ascii String.
From stdpp Require Import base list gmap strings.
From S2P Require Import Prelude GoStrings GoFormat GoErrors GoTime GoPath Prog Link Resource Event Disk DiskFrame Json OciConfig Oci OciLocks MacOS ImageStore Downloader.
Local Open Scope string_scope.
Local Open Scope go_scope.

Module DownloaderProofs.

Import Downloader.

#[local] Arguments st : simpl never.
#[local] Arguments Oci.GetFilePathForMediaType : simpl never.
#[local] Arguments Oci.GetConfig : simpl never.
#[local] Arguments Oci.CloseStore : simpl never.
#[local] Arguments Disk.fileAt : simpl never.
#[local] Arguments attempts : simpl never.
#[local] Arguments readBack : simpl never.

(** The content that a call is about. *)
Definition about (image : list Oci.Descriptor) (r : Request) : Prop :=
  match r with
  | RPush d | RExists d | RFetch d | RTag d _ => d ∈ image
  | RResolve _ => True
  end.

(** The copy keeps to its contract: it pushes what the store does not have. *)
Definition contract (r : Request) (s : Oci.Store) : Prop :=
  match r with RPush d => ImageStore.polite (Oci.workingDir s) d s | _ => True end.

#[global] Instance contract_dec r s : Decision (contract r s).
Proof. destruct r; simpl; unfold ImageStore.polite; apply _. Defined.

(** The handler that ends no run in which the contract is broken. *)
Definition contracted : local_handler dlE (Oci.Store * Disk.FS) := fun X e =>
  match e in dlE X return X -> Oci.Store * Disk.FS -> option (X * (Oci.Store * Disk.FS)) with
  | NextCall => fun r s => if bool_decide (contract r (fst s)) then Some (r, s) else None
  | e => local _ e
  end.

Lemma contracted_local X (e : dlE X) x s y : contracted X e x s = Some y -> local X e x s = Some y.
Proof. destruct e; simpl; try done. by case_bool_decide. Qed.

Program Definition store_inside : embedding Oci.local local :=
  {| inj := fun X e => St e; get := fun u => u; put := fun t _ => t |}.
Solve Obligations with (intros; simpl; try done; by repeat case_match).

Program Definition store_embedding : embedding Oci.local contracted :=
  {| inj := fun X e => St e; get := fun u => u; put := fun t _ => t |}.
Solve Obligations with (intros; simpl; try done; by repeat case_match).

Section Download.
Context `{PrintTable}.
Variable canonical : Disk.bytes -> string.
Variable verifier : string -> option (Disk.bytes -> bool).
Context {DL : Disk.DigestLaws canonical verifier}.
Context `{JsonText}.
Variable abs : string -> string + error.

(** ** It returns *)

Section Returns.
Variable env : oracle dlE.

Definition unlocked (s : traced dlE (Oci.Store * Disk.FS)) : Prop := Oci.lockedTitles (fst (own s)) = ∅.

Abbreviation returns p s := (twp (traced_handler local env) p (fun _ => unlocked) s).

Lemma st_returns {A} (q : prog Oci.ociE A) s :
  OciLocks.lwp q (fun _ t => OciLocks.held t = None) OciLocks.free -> unlocked s -> returns (st q) s.
Proof.
  intros Hq Hs. pose proof (run_inj store_inside env q s) as Hr.
  destruct (OciLocks.alone (env_inj store_inside env (clock s)) q (start (own s)) Hq Hs) as (a & s1 & Ha & Hl).
  cbn [get store_inside] in Hr. rewrite Ha in Hr. eapply run_twp; [exact Hr | exact Hl].
Qed.

Lemma st_quiet_returns {A} (q : prog Oci.ociE A) s : all_ops OciLocks.quiet q -> unlocked s -> returns (st q) s.
Proof. intros Hq. apply st_returns. by apply OciLocks.lwp_quiet. Qed.

Lemma serve_returns r s : unlocked s -> returns (serve canonical verifier r) s.
Proof.
  intros Hs. destruct r; apply twp_bind; (eapply twp_mono; [intros a s1 H1; exact H1|]).
  - apply st_returns; [|exact Hs]. eapply OciLocks.lwp_mono; [|apply OciLocks.lwp_Push]. by intros r t [Hh _].
  - by apply st_quiet_returns; [apply OciLocks.quiet_Exists|].
  - by apply st_quiet_returns; [apply OciLocks.quiet_Fetch|].
  - by apply st_quiet_returns; [apply OciLocks.quiet_Resolve|].
  - by apply st_quiet_returns; [apply OciLocks.quiet_Tag|].
Qed.

Lemma copying_returns n s : unlocked s -> returns (copying canonical verifier n) s.
Proof.
  revert s. induction n as [|n IH]; intros s Hs; cbn; [exact Hs|]. apply twp_bind.
  eapply twp_mono; [|by apply serve_returns]. intros [|] s1 H1; [done | by apply IH].
Qed.

Lemma pullLoop_returns n ref creds s : unlocked s -> returns (pullLoop canonical verifier n ref creds) s.
Proof.
  revert s. induction n as [|n IH]; intros s Hs; cbn [pullLoop]; [exact Hs|]. apply twp_bind.
  unfold pull. cbn. destruct (env _ _ (NewRepository ref)) as [registry|e]; cbn; [|by apply IH].
  eapply twp_mono; [|by apply copying_returns]. intros [[e|]|] s1 H1; [by cbn; apply IH | done | done].
Qed.

Lemma readBack_returns s : unlocked s -> returns readBack s.
Proof.
  intros Hs. unfold readBack. apply twp_bind.
  eapply twp_mono; [|by apply st_quiet_returns; [apply OciLocks.quiet_GetPath|]]. intros [blk|e] s1 H1; [|done].
  apply twp_bind. eapply twp_mono; [|by apply st_quiet_returns; [apply OciLocks.quiet_GetPath|]]. intros [aux|e] s2 H2; [|done].
  apply twp_bind. eapply twp_mono; [|by apply st_quiet_returns; [apply OciLocks.quiet_GetConfig|]]. done.
Qed.

(** No lock is held between the calls, and the attempts are bounded. *)
Lemma download_returns p s : is_Some (exec env (Download canonical verifier abs p) s).
Proof.
  assert (twp (traced_handler local env) (Download canonical verifier abs p) (fun _ _ => True) s) as (a & s' & Hr & _)%twp_run.
  2: { by exists (a, s'). }
  unfold Download, Oci.New. destruct (abs (blobDir p)) as [d|e]; [|done]. cbn. apply twp_bind.
  unfold attempts. cbn. apply twp_bind. eapply twp_mono; [|apply pullLoop_returns; reflexivity].
  assert (forall (r : option (MacOS.MacPlatformConfigurationOptions * option error)) s1, unlocked s1 -> twp (traced_handler local env)
    (c <- st Oci.CloseStore ;; Ret (match r with None => None | Some (cfg, e) => Some (cfg, errors_Join [e; c]) end))
    (fun _ _ => True) s1) as Hclose.
  { intros r s1 H1. apply twp_bind. eapply twp_mono; [|apply st_quiet_returns; [apply OciLocks.quiet_Close | exact H1]]. done. }
  intros [[e|]|] s1 H1; [by apply Hclose| |by apply Hclose]. apply twp_bind.
  eapply twp_mono; [|by apply readBack_returns]. intros r s2 H2. by apply Hclose.
Qed.

End Returns.

Section Kept.
Variable env : oracle dlE.
Variable image : list Oci.Descriptor.
Variable dir : string.
Hypothesis Hnamed : ImageStore.named image dir.
Hypothesis Habout : forall n, about image (env _ n NextCall).
Hypothesis Htmp : forall n t, env _ n (St Oci.CreateTemp) = inl t -> ImageStore.foreign image dir t.

Abbreviation handle := (traced_handler contracted env).
Abbreviation kept := (ImageStore.kept verifier image dir).

Definition keeping (s : traced dlE (Oci.Store * Disk.FS)) : Prop := kept (fst (own s)) (snd (own s)).

Lemma wp_st {A} (q : prog Oci.ociE A) (Q : A -> traced dlE (Oci.Store * Disk.FS) -> Prop) s :
  wp (traced_handler Oci.local (env_inj store_embedding env (clock s))) q
    (fun a s1 => forall n tr, Q a (Traced n tr (own s1))) (start (own s)) ->
  wp handle (st q) Q s.
Proof. intros Hq. apply (wp_inj store_embedding). eapply wp_mono; [|exact Hq]. intros a s1 H1. apply H1. Qed.

Lemma serve_keeps r s :
  about image r -> contract r (fst (own s)) -> keeping s -> wp handle (serve canonical verifier r) (fun _ => keeping) s.
Proof.
  unfold keeping. destruct s as [n tr [st u]]. intros Ha Hc K. cbn in K.
  pose proof (ImageStore.k_dir _ _ _ _ _ K) as Hdir.
  destruct r; apply wp_bind, wp_st; cbn in *.
  - eapply wp_mono; [|apply (ImageStore.push_keeps canonical verifier image dir Hnamed); [| done | exact K | by rewrite Hdir in Hc]].
    + intros a s1 K1 m tr1. exact K1.
    + intros m t. apply Htmp.
  - eapply wp_mono; [|by apply (ImageStore.exists_keeps verifier image dir Hnamed)]. intros a s1 K1 m tr1. exact K1.
  - eapply wp_mono; [|by apply (ImageStore.fetch_keeps verifier image dir)]. intros a s1 K1 m tr1. exact K1.
  - eapply wp_mono; [|by apply (ImageStore.resolve_keeps verifier image dir)]. intros a s1 K1 m tr1. exact K1.
  - eapply wp_mono; [|by apply (ImageStore.tag_keeps verifier image dir Hnamed)]. intros a s1 K1 m tr1. exact K1.
Qed.

Lemma copying_keeps n s : keeping s -> wp handle (copying canonical verifier n) (fun _ => keeping) s.
Proof.
  revert s. induction n as [|n IH]; intros s K; cbn [copying]; [exact K|].
  cbn. unfold traced_handler at 1. cbn. case_bool_decide as Hc; [|done]. apply wp_bind.
  eapply wp_mono; [|by apply serve_keeps]. intros [|] s1 K1; [done | by apply IH].
Qed.

Lemma pull_keeps ref creds s : keeping s -> wp handle (pull canonical verifier ref creds) (fun _ => keeping) s.
Proof.
  intros K. unfold pull. cbn. destruct (env _ _ (NewRepository ref)) as [registry|e]; cbn; [|done]. by apply copying_keeps.
Qed.

Lemma pullLoop_keeps n ref creds s : keeping s -> wp handle (pullLoop canonical verifier n ref creds) (fun _ => keeping) s.
Proof.
  revert s. induction n as [|n IH]; intros s K; cbn [pullLoop]; [done|]. apply wp_bind.
  eapply wp_mono; [|by apply pull_keeps]. intros [[e|]|] s1 K1; [|done | done]. cbn. by apply IH.
Qed.

(** What the configuration that is handed out points to. *)
Definition image_of (cfg : MacOS.MacPlatformConfigurationOptions) (u : Disk.FS) : Prop :=
  exists disk aux conf c,
    (ImageStore.titled image disk /\ ImageStore.titled image aux /\ ImageStore.titled image conf) /\
    (Oci.d_MediaType disk = OciConfig.MediaTypeDiskImage /\ Oci.d_MediaType aux = OciConfig.MediaTypeAuxImage /\
     Oci.d_MediaType conf = OciConfig.MediaTypeConfigV1) /\
    (MacOS.BlockStoragePath cfg = ImageStore.out dir disk /\ MacOS.AuxiliaryStoragePath cfg = ImageStore.out dir aux) /\
    (ImageStore.genuine verifier disk (Disk.fileAt u (ImageStore.out dir disk)) /\
     ImageStore.genuine verifier aux (Disk.fileAt u (ImageStore.out dir aux)) /\
     ImageStore.genuine verifier conf (Disk.fileAt u (ImageStore.out dir conf))) /\
    OciConfig.decodeConfig (string_of_list_ascii (Disk.fileAt u (ImageStore.out dir conf))) = inl c /\
    MacOS.HardwareModelData cfg = OciConfig.HardwareModelData c /\
    MacOS.MachineIdentifierData cfg = OciConfig.MachineIdData c.

Lemma readBack_kept s :
  keeping s ->
  wp handle readBack (fun r s' => keeping s' /\ (snd r = None -> image_of (fst r) (snd (own s')))) s.
Proof.
  destruct s as [n tr [st u]]. intros K. unfold keeping in *. cbn in K. unfold readBack. apply wp_bind, wp_st.
  eapply wp_mono; [|by apply (ImageStore.path_kept verifier image dir)].
  intros [blk|e] s1 [Ho Hb] m tr1; cbn; rewrite Ho; [|done].
  destruct (Hb blk eq_refl) as (disk & Hd & Hdm & -> & Hdg). apply wp_bind, wp_st.
  eapply wp_mono; [|by apply (ImageStore.path_kept verifier image dir)].
  intros [auxp|e] s2 [Ho2 Ha] m2 tr2; cbn; rewrite Ho2; [|done].
  destruct (Ha auxp eq_refl) as (aux & Hax & Ham & -> & Hag). apply wp_bind, wp_st.
  eapply wp_mono; [|by apply (ImageStore.config_kept verifier image dir)].
  intros [c [e|]] s3 [Ho3 Hc] m3 tr3; cbn; rewrite Ho3; [done|]. split; [done|]. intros _.
  destruct (Hc eq_refl) as (conf & Hcf & Hcm & Hcg & Hdec). exists disk, aux, conf, c. by split_and!.
Qed.

Lemma image_untouched cfg st u s' :
  ImageStore.untouched verifier image dir st u s' -> image_of cfg u -> image_of cfg (snd (own s')).
Proof.
  intros (_ & _ & Hf) (disk & aux & conf & c & Ht & Hrest). pose proof Ht as (Hd & Ha & Hc).
  exists disk, aux, conf, c. rewrite !Hf by done. exact (conj Ht Hrest).
Qed.

Lemma attempts_kept p s :
  keeping s ->
  wp handle (attempts canonical verifier p)
    (fun r s' => keeping s' /\ forall cfg, r = Some (cfg, None) -> image_of cfg (snd (own s'))) s.
Proof.
  intros K. unfold attempts. cbn. apply wp_bind. eapply wp_mono; [|by apply pullLoop_keeps].
  intros [[e|]|] s1 K1; cbn; [done| |done]. apply wp_bind. eapply wp_mono; [|by apply readBack_kept].
  intros [cfg e] s2 [K2 Hr]. cbn in *. split; [done|]. intros cfg' [= <- ->]. by apply Hr.
Qed.

End Kept.

(** C16: an image can only be handed out as it was announced.  A download always returns.
    Take an image whose contents have titles of their own, a file system without files
    from the future in which the cached digests beside these files are not wrong, and
    let the registry, the disk and the decompressor do what they like, as long as
    temporary files are new and oras pushes only what the store does not have (the
    [contracted] handler).  When the download succeeds, the disk image, the auxiliary
    image and the configuration it read are, at the end, files of the image that carry
    the digest of their content (up to zeros at the end), for the media type asked for. *)
Theorem downloaded_image env image dir p u s0 :
  is_Some (exec env (Download canonical verifier abs p) (start (s0, u))) /\
  (abs (blobDir p) = inl dir -> ImageStore.named image dir ->
   (forall n, about image (env _ n NextCall)) ->
   (forall n t, env _ n (St Oci.CreateTemp) = inl t -> ImageStore.foreign image dir t) ->
   DiskFrame.timely u ->
   (forall d, ImageStore.titled image d -> DiskFrame.sound verifier u (ImageStore.out dir d)) ->
   forall cfg s', run (traced_handler contracted env) (Download canonical verifier abs p) (start (s0, u))
       = Some (Some (cfg, None), s') ->
     exec env (Download canonical verifier abs p) (start (s0, u)) = Some (Some (cfg, None), s') /\
     image_of image dir cfg (snd (own s'))).
Proof.
  split; [apply download_returns|]. intros Habs Hnamed Habout Htmp Ht Hs cfg s' Hr.
  split; [by eapply traced_run_mono; [apply contracted_local|]|].
  apply (wp_run (traced_handler contracted env) _ (fun r s1 => forall c, r = Some (c, None) -> image_of image dir c (snd (own s1))) _ _ _)
    with (2 := Hr); [|done].
  unfold Download, Oci.New. rewrite Habs. cbn. apply wp_bind.
  eapply wp_mono; [|apply (attempts_kept env image dir Hnamed Habout Htmp)].
  - intros r s1 [K Hi]. apply wp_bind, wp_st. destruct s1 as [n tr [st1 u1]].
    eapply wp_mono; [|by apply (ImageStore.close_keeps verifier image dir)].
    intros c s2 Hu m tr2. cbn. intros cfg' Hcfg. destruct r as [[cfg1 e1]|]; [|done].
    injection Hcfg as -> [-> _]%Disk.errors_Join_two. eapply (image_untouched image dir _ st1 u1 s2 Hu), Hi. done.
  - split; [done | done | done | |]; simpl; [intros t Ht'; set_solver | intros mt q; by rewrite lookup_empty].
Qed.

End Download.

(** *** Inputs *)

Definition sample_params : Params :=
  {| Ref := "reg.io/mac:14"; StorePath := "/cache"; IgnoreExisiting := false; Credentials := Creds.noCredentials;
     MinRetryDelay := 0; MaxDelay := 0; MaxAttempts := 0 |}.

Definition sample_dir : string := "/cache/blobs/reg.io/mac/14".

Definition sample_json : Disk.bytes := list_ascii_of_string (OciConfig.marshalConfig Oci.sample_config).
Definition sample_aux : Disk.bytes := list_ascii_of_string "aux".

Definition plain (mt title : string) (b : Disk.bytes) : Oci.Descriptor :=
  {| Oci.d_MediaType := mt; Oci.d_Digest := Disk.sha256Digest b; Oci.d_Size := 3;
     Oci.d_Annotations := {[Oci.AnnotationTitle := title]} |}.

Definition disk_content : Oci.Descriptor := Oci.sample_descriptor "3".
Definition aux_content : Oci.Descriptor := plain OciConfig.MediaTypeAuxImage "aux.img" sample_aux.
Definition config_content : Oci.Descriptor := plain OciConfig.MediaTypeConfigV1 "config.json" sample_json.
Definition sample_image : list Oci.Descriptor := [disk_content; aux_content; config_content].

(** The auxiliary image and the configuration are there from an earlier download. *)
Definition sample_disk : Disk.FS :=
  {| Disk.files := {[ImageStore.out sample_dir aux_content := {| Disk.content := sample_aux; Disk.mtime := 5 |};
                     ImageStore.out sample_dir config_content := {| Disk.content := sample_json; Disk.mtime := 5 |}]};
     Disk.now := 10 |}.

(** The disk image is pushed, the others are asked for. *)
Definition sample_oracle : oracle dlE := fun X n e =>
  match e in dlE X return X with
  | St e => Oci.sample_env _ n e
  | NewRepository _ => inl "reg.io"
  | Copy _ _ _ => 3%nat
  | NextCall => if (n <? 5)%nat then RPush disk_content else if (n <? 40)%nat then RExists aux_content else RExists config_content
  | CopyEnd => None
  | BackoffRounds _ _ _ => 1%nat
  | BackoffEnd => errNew "timed out"
  | Record_ _ => tt
  end.

Abbreviation sample_run h :=
  (run h (@Download (fun _ => true) Disk.sha256Digest Disk.sha256Verifier Json.sample_text (fun d => inl d) sample_params)
     (start (Oci.sample_store, sample_disk))).

Lemma in_sample d : ImageStore.titled sample_image d -> d = disk_content \/ d = aux_content \/ d = config_content.
Proof.
  intros [Hd _]. unfold sample_image in Hd. rewrite !elem_of_cons, elem_of_nil in Hd. tauto.
Qed.

Lemma sample_image_named : ImageStore.named sample_image sample_dir.
Proof.
  split.
  - intros d1 d2 H1%in_sample H2%in_sample.
    destruct H1 as [-> | [-> | ->]], H2 as [-> | [-> | ->]]; intros Heq; try done; vm_compute in Heq; discriminate.
  - intros d1 d2 H1%in_sample H2%in_sample.
    destruct H1 as [-> | [-> | ->]], H2 as [-> | [-> | ->]]; intros Heq; vm_compute in Heq; discriminate.
  - intros d Hd%in_sample. by destruct Hd as [-> | [-> | ->]].
Qed.

Lemma sample_tmp_foreign : ImageStore.foreign sample_image sample_dir "/tmp/macosvz_file_1".
Proof. intros d Hd%in_sample. destruct Hd as [-> | [-> | ->]]; split; intros Heq; vm_compute in Heq; discriminate. Qed.

Lemma sample_disk_timely : DiskFrame.timely sample_disk.
Proof.
  intros q f. unfold sample_disk. cbn [Disk.files Disk.now].
  rewrite lookup_insert_Some, lookup_singleton_Some. intros [[_ <-] | (_ & _ & <-)]; cbn; lia.
Qed.

Lemma sample_cache_sound d : ImageStore.titled sample_image d -> DiskFrame.sound Disk.sha256Verifier sample_disk (ImageStore.out sample_dir d).
Proof.
  intros Hd%in_sample f g _ Hg. exfalso. revert Hg.
  assert (Disk.files sample_disk !! Disk.digestFilePath (ImageStore.out sample_dir d) = None) as ->; [|done].
  destruct Hd as [-> | [-> | ->]]; vm_compute; reflexivity.
Qed.

Lemma downloaded_image_witness :
  match sample_run (traced_handler contracted sample_oracle) with
  | Some (Some (cfg, None), s') => @image_of Disk.sha256Verifier Json.sample_text sample_image sample_dir cfg (snd (own s'))
  | _ => False
  end.
Proof.
  destruct (@downloaded_image (fun _ => true) Disk.sha256Digest Disk.sha256Verifier Disk.sha256_laws Json.sample_text
    (fun d => inl d) sample_oracle sample_image sample_dir sample_params sample_disk Oci.sample_store) as [_ Hok].
  assert (match sample_run (traced_handler contracted sample_oracle) with Some (Some (_, None), _) => true | _ => false end
    = true) as Hc by (vm_compute; reflexivity).
  destruct (sample_run (traced_handler contracted sample_oracle)) as [[[[cfg [e|]]|] s']|] eqn:Er; try discriminate Hc.
  refine (proj2 (Hok _ sample_image_named _ _ sample_disk_timely sample_cache_sound cfg s' eq_refl)).
  - vm_compute. reflexivity.
  - intros n. cbn [sample_oracle]. destruct (n <? 5)%nat; [by left|].
    destruct (n <? 40)%nat; [by right; left | by do 2 right; left].
  - intros n t. cbn. intros [= <-]. exact sample_tmp_foreign.
Defined.

(** *** Two contents with one title

    The store knows a file by its media type, and a title is taken only by a push.  An
    image on the disk that was found to be what one content announces is replaced by
    the content of another media type with the same title; the store goes on handing
    out the path for both. *)
Definition imposter : Oci.Descriptor := plain OciConfig.MediaTypeAuxImage "disk.img" (list_ascii_of_string "gz").
Definition genuine_disk : Oci.Descriptor := plain OciConfig.MediaTypeDiskImage "disk.img" Disk.abc.

Definition shared_title : prog Oci.ociE (option (bool * option error) * option (bool * option error) * Disk.ended * (string + error)) :=
  a <- Oci.Exists Disk.sha256Verifier genuine_disk ;;
  b <- Oci.Exists Disk.sha256Verifier imposter ;;
  r <- @Oci.Push (fun _ => true) Disk.sha256Digest Disk.sha256Verifier imposter ;;
  p <- Oci.GetFilePathForMediaType OciConfig.MediaTypeDiskImage ;;
  Ret (a, b, r, p).

Lemma shared_title_replaces :
  exists s', Oci.exec Oci.sample_env shared_title
      (start (Oci.sample_store, {| Disk.files := {["/cache/disk.img" := {| Disk.content := Disk.abc; Disk.mtime := 5 |}]}; Disk.now := 10 |}))
    = Some ((Some (true, None), Some (false, None), Disk.Returned None, inl "/cache/disk.img"), s') /\
    Disk.fileAt (snd (own s')) "/cache/disk.img" = list_ascii_of_string "gz".
Proof.
  set (u := {| Disk.files := _; Disk.now := _ |}).
  assert (match Oci.exec Oci.sample_env shared_title (start (Oci.sample_store, u)) with
    | Some (r, s') => r = (Some (true, None), Some (false, None), Disk.Returned None, inl "/cache/disk.img") /\
        Disk.fileAt (snd (own s')) "/cache/disk.img" = list_ascii_of_string "gz"
    | None => False end) as Hc by (vm_compute; split; reflexivity).
  destruct (Oci.exec _ _ _) as [[r s']|]; [|done]. destruct Hc as [-> Hf]. by exists s'.
Qed.

End DownloaderProofs.
