(* ===== verification/PullSecrets.v ===== *)
(** * pkg/provider/pod_credentials.go and image_pull_credentials.go

    What a pod needs from the API server before its group is created: the service
    account token and the config map of its projected volumes, and the registry
    credentials of its image pull secrets.  The calls to the API server are the
    operations [k8sE].  The keyrings are lists of additions; how a keyring answers a
    lookup, and how the JSON of a secret is decoded into kubernetes' own types, is
    other code: the parameters of the second section. *)
From Stdlib Require Import ZArith Lia.
From Stdlib Require Import Ascii String.
From stdpp Require Import base list gmap strings sorting.
From S2P Require Import Prelude GoStrings GoFormat GoErrors GoTime Prog Utils Resource K8s Event Volumes.
From S2P Require Import PodStatus.
Local Open Scope string_scope.
Local Open Scope go_scope.

Module PullSecrets.

Inductive SecretType := DockerConfigJson | Dockercfg | OtherSecret (name : string).

#[global] Instance SecretType_eq_dec : EqDecision SecretType.
Proof. solve_decision. Defined.

(** [corev1.Secret]: its type and its data. *)
Record Secret := { sec_Type : SecretType; sec_Data : gmap string string }.

Inductive k8sE : Type -> Type :=
| ServiceAccountGet (ns name : string) : k8sE (list string + error)    (* its ImagePullSecrets *)
| SecretGet (ns name : string) : k8sE (Secret + error)
| ConfigMapGet (ns name : string) : k8sE (K8s.ConfigMap + error)
| CreateToken (ns sa : string) (audiences : list string) (expirationSeconds : option Z) : k8sE (string + error)
| PodGet (ns name : string) : k8sE (K8s.Pod + error)                    (* the lister's *)
| PodDelete (ns name : string) : k8sE (option error)
| Record_ (ev : Event) : k8sE unit.

(** ** pod_credentials.go *)

Definition Projections : Type := option K8s.ServiceAccountTokenProjection * option K8s.ConfigMapProjection.

(** One volume: the loop over its sources stops once both are known. *)
Fixpoint scanSources (acc : Projections) (l : list K8s.VolumeProjection) : Projections :=
  match l with
  | [] => acc
  | s :: l =>
      let '(svc, cm) := acc in
      let svc := match K8s.vp_ServiceAccountToken s with Some t => Some t | None => svc end in
      let cm := match K8s.vp_ConfigMap s with Some c => Some c | None => cm end in
      if is_some svc && is_some cm then (svc, cm) else scanSources (svc, cm) l
  end.

(* src/pkg/provider/pod_credentials.go : findProjections *)
Definition findProjections (pod : K8s.Pod) : Projections :=
  foldl (fun acc v => match K8s.vs_Projected (K8s.vol_Source v) with
                      | Some sources => scanSources acc sources
                      | None => acc
                      end) (None, None) (K8s.pod_Volumes pod).

(* src/pkg/provider/pod_credentials.go : MacOSVZProvider.populateConfigMaps *)
Definition populateConfigMaps (ns : string) (cmProj : option K8s.ConfigMapProjection)
    (configMaps : gmap string K8s.ConfigMap) : prog k8sE (gmap string K8s.ConfigMap + error) :=
  match cmProj with
  | None => Ret (inl configMaps)
  | Some c =>
      r <- perform (ConfigMapGet ns (K8s.cmp_Name c)) ;;
      Ret (match r with
           | inl m => inl (<[K8s.cmp_Name c := m]> configMaps)
           | inr e => inr e
           end)
  end.

(* src/pkg/provider/pod_credentials.go : MacOSVZProvider.createServiceAccountToken *)
Definition createServiceAccountToken (ns saName : string) (p : K8s.ServiceAccountTokenProjection)
  : prog k8sE (string + error) :=
  perform (CreateToken ns saName (if String.eqb (K8s.sat_Audience p) "" then [] else [K8s.sat_Audience p])
             (K8s.sat_ExpirationSeconds p)).

(* src/pkg/provider/pod_credentials.go : MacOSVZProvider.extractPodCredentials *)
Definition extractPodCredentials (pod : K8s.Pod) : prog k8sE (gmap string K8s.ConfigMap * string + error) :=
  if default true (K8s.pod_AutomountServiceAccountToken pod) then
    let '(svcProj, cmProj) := findProjections pod in
    r <- populateConfigMaps (K8s.pod_Namespace pod) cmProj ∅ ;;
    match r with
    | inr e => Ret (inr e)
    | inl configMaps =>
        match svcProj with
        | None => Ret (inl (configMaps, ""))
        | Some p =>
            t <- createServiceAccountToken (K8s.pod_Namespace pod) (K8s.pod_ServiceAccountName pod) p ;;
            Ret (match t with inl t => inl (configMaps, t) | inr e => inr e end)
        end
    end
  else Ret (inl (∅, "")).

(** The config map that was fetched is the only one a mount will find. *)
Lemma extract_at_most_one env pod :
  match run (traced_handler (fun X e x s => Some (x, s)) env) (extractPodCredentials pod) (start tt) with
  | Some (inl (cms, _), _) => (size cms <= 1)%nat
  | _ => True
  end.
Proof.
  unfold extractPodCredentials. destruct (default true _); [|simpl; by rewrite map_size_empty; lia].
  destruct (findProjections pod) as [svc [cm|]]; cbn.
  - destruct (env _ _ (ConfigMapGet _ _)) as [m|e]; cbn; [|done].
    assert (size (<[K8s.cmp_Name cm := m]> (∅ : gmap string K8s.ConfigMap)) <= 1)%nat as Hs
      by (rewrite map_size_insert, lookup_empty, map_size_empty; lia).
    destruct svc as [p|]; cbn; [|done]. by destruct (env _ _ (CreateToken _ _ _ _)).
  - destruct svc as [p|]; cbn; [|rewrite map_size_empty; lia].
    destruct (env _ _ (CreateToken _ _ _ _)); [rewrite map_size_empty; lia | done].
Qed.

(** ** image_pull_credentials.go *)

Record DockerConfigEntry := { dc_Username : string; dc_Password : string; dc_Email : string }.
Abbreviation DockerConfig := (gmap string DockerConfigEntry).

(** What was added to a [BasicDockerKeyring], in order. *)
Definition Keyring := list (string * DockerConfigEntry).

Definition noEntry : DockerConfigEntry := {| dc_Username := ""; dc_Password := ""; dc_Email := "" |}.

(* src/pkg/provider/image_pull_credentials.go : 19-21 errEmptyDockerConfig *)
Definition errEmptyDockerConfig : error := errNew "docker config has no auth entries".

Definition secretTypeName (t : SecretType) : string :=
  match t with
  | DockerConfigJson => "kubernetes.io/dockerconfigjson"
  | Dockercfg => "kubernetes.io/dockercfg"
  | OtherSecret n => n
  end.

Section Secrets.
Context `{PrintTable}.
(** The decoding of the two docker formats, and of the identity tokens in the first. *)
Variables (decodeJSON decodeCfg : string -> DockerConfig + error).
Variable decodeTokens : string -> option (gmap string string).
(** [apierrors.IsNotFound]. *)
Variable apiNotFound : error -> bool.

(** Registries whose token is empty are left out. *)
(* src/pkg/provider/image_pull_credentials.go : identityTokensFromDockerConfigJSON *)
Definition identityTokensFromDockerConfigJSON (raw : string) : gmap string string :=
  match decodeTokens raw with
  | None => ∅
  | Some m => filter (fun kv => kv.2 <> "") m
  end.

(* src/pkg/provider/image_pull_credentials.go : parseDockerConfigJSON *)
Definition parseDockerConfigJSON (raw : string) : DockerConfig * gmap string string + error :=
  if String.eqb raw "" then inr errEmptyDockerConfig
  else
    match decodeJSON raw with
    | inr e => inr (Errorf "invalid docker config json" e)
    | inl cfg =>
        if bool_decide (cfg = ∅) then inr errEmptyDockerConfig
        else inl (cfg, identityTokensFromDockerConfigJSON raw)
    end.

(* src/pkg/provider/image_pull_credentials.go : parseDockerConfig *)
Definition parseDockerConfig (raw : string) : DockerConfig + error :=
  if String.eqb raw "" then inr errEmptyDockerConfig
  else
    match decodeCfg raw with
    | inr e => inr (Errorf "invalid dockercfg" e)
    | inl cfg => if bool_decide (cfg = ∅) then inr errEmptyDockerConfig else inl cfg
    end.

Definition dataOf (s : Secret) (k : string) : string := default "" (sec_Data s !! k).

(* src/pkg/provider/image_pull_credentials.go : parseImagePullSecret *)
Definition parseImagePullSecret (s : Secret) : DockerConfig * gmap string string + error :=
  match sec_Type s with
  | DockerConfigJson => parseDockerConfigJSON (dataOf s ".dockerconfigjson")
  | Dockercfg =>
      if negb (String.eqb (dataOf s ".dockerconfigjson") "") then parseDockerConfigJSON (dataOf s ".dockerconfigjson")
      else match parseDockerConfig (dataOf s ".dockercfg") with
           | inl cfg => inl (cfg, ∅)
           | inr e => inr e
           end
  | OtherSecret n => inr (errMsg ("unsupported secret type " ++ Quote.quote n))
  end.

(** The names not seen before, in order; and what has been seen then. *)
Fixpoint dedup (seen : gset string) (l : list string) : list string * gset string :=
  match l with
  | [] => ([], seen)
  | n :: l =>
      if bool_decide (n ∈ seen) then dedup seen l
      else let '(r, seen) := dedup ({[n]} ∪ seen) l in (n :: r, seen)
  end.

(** [sort.Strings] of the registries of a configuration. *)
Definition sortedRegistries (cfg : DockerConfig) : list string := merge_sort String.le (elements (dom cfg)).

Record Keyrings := { kr_main : Keyring; kr_tokens : Keyring; kr_has : bool }.

(** The loop over the registries of one secret: one addition to each keyring. *)
Definition addRegistry (cfg : DockerConfig) (tokens : gmap string string) (k : Keyrings) (registry : string) : Keyrings :=
  {| kr_main := (kr_main k ++ [(registry, default noEntry (cfg !! registry))])%list;
     kr_tokens := (kr_tokens k ++
       [(registry, {| dc_Username := ""; dc_Password := default "" (tokens !! registry); dc_Email := "" |})])%list;
     kr_has := kr_has k |}.

Definition addSecret (k : Keyrings) (cfg : DockerConfig) (tokens : gmap string string) : Keyrings :=
  let k := foldl (addRegistry cfg tokens) k (sortedRegistries cfg) in
  {| kr_main := kr_main k; kr_tokens := kr_tokens k; kr_has := true |}.

(** The body of the loop over the secrets. *)
Definition resolveSecret (ns : string) (k : Keyrings) (name : string) : prog k8sE (error + Keyrings) :=
  r <- perform (SecretGet ns name) ;;
  match r with
  | inr e =>
      if apiNotFound e then Ret (inl (Errorf ("imagePullSecret " ++ Quote.quote name ++ " not found") e))
      else Ret (inl (Errorf ("failed to fetch imagePullSecret " ++ Quote.quote name) e))
  | inl s =>
      match sec_Type s with
      | OtherSecret n =>
          perform (Record_ (FailedToResolveImagePullSecrets (errMsg ("ignoring imagePullSecret " ++ Quote.quote name
            ++ ": unsupported type " ++ Quote.quote n)))) ;;
          Ret (inr k)
      | _ =>
          match parseImagePullSecret s with
          | inr e => Ret (inl (Errorf ("failed to parse imagePullSecret " ++ Quote.quote name) e))
          | inl (cfg, tokens) => Ret (inr (addSecret k cfg tokens))
          end
      end
  end.

Definition noKeyrings : Keyrings := {| kr_main := []; kr_tokens := []; kr_has := false |}.

(** [NewRegistryCredentialStore(keyring, tokenKeyring)], or the empty store. *)
Definition storeOf (lookup : Keyring -> Creds.Keyring) (k : Keyrings) : Creds.RegistryCredentialStore :=
  if kr_has k then Creds.NewRegistryCredentialStore (Some (lookup (kr_main k))) [Some (lookup (kr_tokens k))]
  else Creds.NewRegistryCredentialStore None [].

Definition saNameOf (pod : K8s.Pod) : string :=
  if String.eqb (K8s.pod_ServiceAccountName pod) "" then "default" else K8s.pod_ServiceAccountName pod.

(* src/pkg/provider/image_pull_credentials.go : MacOSVZProvider.resolveImagePullCredentials *)
Definition resolveImagePullCredentials (pod : K8s.Pod) : prog k8sE (error + Keyrings) :=
  let '(podRefs, seen) := dedup ∅ (K8s.pod_ImagePullSecrets pod) in
  r <- perform (ServiceAccountGet (K8s.pod_Namespace pod) (saNameOf pod)) ;;
  match r with
  | inr e =>
      if apiNotFound e then Ret (inl (Errorf ("service account " ++ Quote.quote (saNameOf pod) ++ " not found") e))
      else Ret (inl (Errorf ("failed to fetch service account " ++ Quote.quote (saNameOf pod)) e))
  | inl saRefs =>
      foldR (resolveSecret (K8s.pod_Namespace pod)) (podRefs ++ fst (dedup seen saRefs))%list noKeyrings
  end.

(** ** The two keyrings stay aligned *)

(** Two additions at one index: the same registry, the entry and the token of one
    secret for it. *)
Definition paired (m t : string * DockerConfigEntry) : Prop :=
  fst m = fst t /\
  exists s cfg tokens, parseImagePullSecret s = inl (cfg, tokens) /\ cfg !! fst m = Some (snd m) /\
    dc_Password (snd t) = default "" (tokens !! fst m).

Definition wellPaired (k : Keyrings) : Prop := Forall2 paired (kr_main k) (kr_tokens k).

Lemma wellPaired_addSecret k s cfg tokens :
  parseImagePullSecret s = inl (cfg, tokens) -> wellPaired k -> wellPaired (addSecret k cfg tokens).
Proof.
  intros Hs. unfold addSecret, wellPaired.
  assert (forall r, r ∈ sortedRegistries cfg -> is_Some (cfg !! r)) as Hd.
  { intros r. unfold sortedRegistries. rewrite merge_sort_Permutation, elem_of_elements. apply elem_of_dom. }
  revert Hd. generalize (sortedRegistries cfg). intros l. revert k.
  induction l as [|r l IH]; intros k Hd Hk; [exact Hk|]. simpl. apply IH; [intros; apply Hd; by right|].
  destruct (Hd r) as [e He]; [by left|].
  simpl. apply Forall2_app; [exact Hk|]. constructor; [|constructor]. split; [done|].
  exists s, cfg, tokens. simpl. rewrite He. by split_and!.
Qed.

Abbreviation pairedResult := (fun r : error + Keyrings => match r with inr k' => wellPaired k' | inl _ => True end).

Lemma resolved_paired k ns name : wellPaired k -> all_results pairedResult (resolveSecret ns k name).
Proof.
  intros Hk. unfold resolveSecret. cbn. intros [s|e]; [|by case_match].
  destruct (sec_Type s) eqn:Et; cbn; try done;
    (destruct (parseImagePullSecret s) as [[cfg tokens]|e] eqn:Ep; cbn; [by eapply wellPaired_addSecret | done]).
Qed.

Lemma foldR_paired ns l k : wellPaired k -> all_results pairedResult (foldR (resolveSecret ns) l k).
Proof.
  revert k. induction l as [|n l IH]; intros k Hk; cbn [foldR]; [exact Hk|].
  eapply all_results_bind; [by apply resolved_paired|]. intros [e|k'] Hk'; [done | by apply IH].
Qed.

Lemma resolve_paired pod : all_results pairedResult (resolveImagePullCredentials pod).
Proof.
  unfold resolveImagePullCredentials. destruct (dedup ∅ _) as [podRefs seen].
  eapply (all_results_bind (fun _ => True)); [done|]. intros [saRefs|e] _; [|by case_match].
  apply foldR_paired. constructor.
Qed.

End Secrets.

(** What the program relies on of the keyring: the entries that match an image, and
    their order, are determined by the registries that were added, and an answer
    carries the user and the password of the entry it is for; the configuration type
    has no identity token. *)
Definition authOf (a : Creds.AuthConfig) : string * string * string :=
  (Creds.a_Username a, Creds.a_Password a, Creds.a_IdentityToken a).

Definition entryOf (re : string * DockerConfigEntry) : string * string * string :=
  (dc_Username (snd re), dc_Password (snd re), "").

Class KeyringLaws (selects : list string -> string -> list nat) (lookup : Keyring -> Creds.Keyring) : Prop := {
  selects_in keys image i : i ∈ selects keys image -> (i < length keys)%nat;
  lookup_selects k image :
    map authOf (fst (lookup k image)) = omap (fun i => entryOf <$> k !! i) (selects (map fst k) image)
}.

Lemma omap_aligned {A B} (f : A -> B) (l1 l2 : list A) ixs j b :
  Forall (fun i => is_Some (l1 !! i) /\ is_Some (l2 !! i)) ixs ->
  omap (fun i => f <$> l1 !! i) ixs !! j = Some b ->
  exists i a1 a2, l1 !! i = Some a1 /\ l2 !! i = Some a2 /\ b = f a1 /\ omap (fun i => f <$> l2 !! i) ixs !! j = Some (f a2).
Proof.
  intros Hf. revert j. induction Hf as [|i ixs [[a1 H1] [a2 H2]] Hf IH]; intros j; simpl; [done|].
  rewrite H1, H2. simpl. destruct j as [|j]; simpl; [|apply IH].
  intros [= <-]. by exists i, a1, a2.
Qed.

Section Alignment.
Context `{PrintTable}.
Variables (decodeJSON decodeCfg : string -> DockerConfig + error) (decodeTokens : string -> option (gmap string string)).
Variable apiNotFound : error -> bool.
Variable imageDomain : string -> option string.

Definition local : local_handler k8sE unit := fun X e x s => Some (x, s).
Definition exec (env : oracle k8sE) {A} (p : prog k8sE A) := run (traced_handler local env) p (start tt).

(** The entry at an index of one keyring's answer has its token at that index of the
    other's. *)
Lemma aligned_lookup selects lookup (KL : KeyringLaws selects lookup) k image j a :
  wellPaired decodeJSON decodeCfg decodeTokens k -> fst (lookup (kr_main k) image) !! j = Some a ->
  exists m t tok, paired decodeJSON decodeCfg decodeTokens m t /\ authOf a = entryOf m /\
    fst (lookup (kr_tokens k) image) !! j = Some tok /\ authOf tok = entryOf t.
Proof.
  intros Hp Ha. unfold wellPaired in Hp.
  assert (map fst (kr_main k) = map fst (kr_tokens k)) as Hk.
  { clear -Hp. induction Hp as [|m t l1 l2 [Hmt _] _ IH]; simpl; [done | by rewrite Hmt, IH]. }
  assert (map authOf (fst (lookup (kr_main k) image)) !! j = Some (authOf a)) as Ha'
    by (by rewrite list_lookup_fmap, Ha).
  rewrite lookup_selects, Hk in Ha'.
  apply (omap_aligned _ _ (kr_tokens k)) in Ha' as (i & m & t & Hm & Ht & He & Hj).
  - rewrite <- lookup_selects, list_lookup_fmap in Hj.
    destruct (fst (lookup (kr_tokens k) image) !! j) as [tok|]; [|done]. apply (inj Some) in Hj.
    exists m, t, tok. split_and!; [by eapply Forall2_lookup_lr | congruence | done | congruence].
  - apply Forall_forall. intros i Hi. pose proof (selects_in _ _ _ Hi) as Hlt. rewrite <- Hk, length_map in Hlt.
    split; [by apply lookup_lt_is_Some|]. apply lookup_lt_is_Some. by rewrite <- (Forall2_length _ _ _ Hp).
Qed.

(** C15: whatever the API server answers, resolving a pod's credentials ends, and the
    store it makes never mixes registries: the user, the password and the identity
    token that [ForImage] answers with are what one image pull secret holds for one
    registry, so no registry is sent the identity token of another. *)
Theorem tokens_belong_to_entries selects lookup (KL : KeyringLaws selects lookup) env pod :
  exists r s', exec env (resolveImagePullCredentials decodeJSON decodeCfg decodeTokens apiNotFound pod) = Some (r, s') /\
  forall k image c, r = inr k -> Creds.ForImage imageDomain (storeOf lookup k) image = (c, true) ->
    exists s cfg tokens registry e,
      parseImagePullSecret decodeJSON decodeCfg decodeTokens s = inl (cfg, tokens) /\ cfg !! registry = Some e /\
      Creds.Username c = dc_Username e /\ Creds.Password c = dc_Password e /\
      Creds.IdentityToken c = default "" (tokens !! registry).
Proof.
  destruct (traced_run_total local env (resolveImagePullCredentials decodeJSON decodeCfg decodeTokens apiNotFound pod)
    (start tt)) as [[r s'] Hrun]; [intros; unfold local; eauto|].
  exists r, s'. split; [exact Hrun|]. intros k image c ->.
  pose proof (all_results_run _ _ _ _ _ _ (resolve_paired decodeJSON decodeCfg decodeTokens apiNotFound pod) Hrun) as Hp.
  unfold storeOf. destruct (kr_has k); [|done]. unfold Creds.ForImage. simpl.
  pose proof (aligned_lookup selects lookup KL k image) as Hal.
  destruct (lookup (kr_main k) image) as [auths ok]. simpl in Hal. case_match; [done|]. intros Hf.
  destruct (Creds.forEntries_spec imageDomain image (fst (lookup (kr_tokens k) image)) 0 auths)
    as [[He _]|(j & a & Hj & _ & He & _)]; rewrite Hf in He; [done|]. injection He as ->.
  destruct (Hal j a Hp Hj) as (m & t & tok & (Hfst & s & cfg & tokens & Hs & Hc & Htok) & Hm & Htk & Ht).
  injection Hm as Hu Hpw Hid. injection Ht as _ Htp _.
  exists s, cfg, tokens, (fst m), (snd m). rewrite <- Htok, <- Htp.
  unfold Creds.withServer, Creds.entryCreds. simpl. rewrite Htk, Hid.
  split_and!; try done; by repeat case_match.
Qed.

End Alignment.

(** A map with two keys has two elements. *)
Lemma two_keys {A} (m : gmap string A) k1 k2 : is_Some (m !! k1) -> is_Some (m !! k2) -> k1 <> k2 -> (2 <= size m)%nat.
Proof.
  intros H1%elem_of_dom H2%elem_of_dom Hne. rewrite <- size_dom.
  assert (size ({[k1; k2]} : gset string) = 2%nat) as <- by (rewrite size_union, !size_singleton; [done | set_solver]).
  apply subseteq_size. set_solver.
Qed.

(** Only one config map is ever fetched for a pod, so a container that mounts a
    projected volume with two of them cannot be started: whatever the API server and
    the file system answer, making its mounts fails. *)
Theorem second_config_map_fails env env' pod root c ms vs srcs p1 p2 m1 m2 cms token s1 s :
  exec env (extractPodCredentials pod) = Some (inl (cms, token), s1) ->
  ms ∈ K8s.ct_VolumeMounts c -> Volumes.findPodVolumeSpec pod (K8s.vmt_Name ms) = Some vs ->
  K8s.vs_HostPath vs = None -> K8s.vs_EmptyDir vs = false -> K8s.vs_Projected vs = Some srcs ->
  p1 ∈ srcs -> p2 ∈ srcs -> K8s.vp_ConfigMap p1 = Some m1 -> K8s.vp_ConfigMap p2 = Some m2 ->
  K8s.cmp_Name m1 <> K8s.cmp_Name m2 ->
  exists f s', Volumes.exec env' (Volumes.CreateContainerMounts pod root token cms c) s = Some (inl f, s').
Proof.
  intros Hx Hms Hvs Hh He Hp H1 H2 Em1 Em2 Hne.
  pose proof (extract_at_most_one env pod) as Hsize. unfold exec, local in Hx. rewrite Hx in Hsize.
  destruct (Volumes.exec_total env' (Volumes.CreateContainerMounts pod root token cms c) s)
    as [[[f|mounts] s'] Hr]; [by exists f, s'|].
  exfalso. apply Volumes.mounts_need in Hr. rewrite Forall_forall in Hr.
  specialize (Hr _ Hms _ _ Hvs Hh He Hp). rewrite Forall_forall in Hr.
  pose proof (Hr _ H1) as L1. pose proof (Hr _ H2) as L2. unfold Volumes.fetched in L1, L2. rewrite Em1 in L1. rewrite Em2 in L2.
  pose proof (two_keys cms _ _ L1 L2 Hne). lia.
Qed.

(** *** Inputs *)

Definition sample_select (keys : list string) (image : string) : list nat := seq 0 (length keys).

Definition sample_lookup (k : Keyring) : Creds.Keyring := fun _ =>
  (map (fun re => {| Creds.a_Username := dc_Username (snd re); Creds.a_Password := dc_Password (snd re);
                     Creds.a_ServerAddress := fst re; Creds.a_IdentityToken := "" |}) k, true).

#[global] Instance sample_laws : KeyringLaws sample_select sample_lookup.
Proof.
  split.
  - intros keys image i Hi. unfold sample_select in Hi. apply elem_of_seq in Hi. lia.
  - intros k image. unfold sample_select, sample_lookup. simpl. rewrite length_map.
    induction k as [|re k IH] using rev_ind; [done|].
    rewrite !map_app, length_app, seq_app, omap_app, IH. simpl. f_equal.
    + apply list_omap_ext, Forall2_same_length_lookup_2; [done|]. intros i x y Hx Hy.
      assert (x = y) as -> by congruence. apply list_elem_of_lookup_2, elem_of_seq in Hx.
      simpl. f_equal. symmetry. apply lookup_app_l. lia.
    + simpl. rewrite (list_lookup_middle k [] re) by done. done.
Qed.

Definition sample_secret : Secret :=
  {| sec_Type := DockerConfigJson; sec_Data := {[".dockerconfigjson" := "raw"]} |}.

Definition sample_env : oracle k8sE := fun X n e =>
  match e in k8sE X return X with
  | ServiceAccountGet _ _ => inl ["pull"]
  | SecretGet _ _ => inl sample_secret
  | ConfigMapGet _ _ => inr (errMsg "no")
  | CreateToken _ _ _ _ => inr (errMsg "no")
  | PodGet _ _ => inr (errMsg "no")
  | PodDelete _ _ => None
  | Record_ _ => tt
  end.

Definition sample_decode (raw : string) : DockerConfig + error :=
  inl {["reg.io" := {| dc_Username := "u"; dc_Password := "pw"; dc_Email := "" |}]}.

Definition sample_tokens (raw : string) : option (gmap string string) := Some {["reg.io" := "tok"]}.

Definition sample_creds : Creds.RegistryCredentials :=
  {| Creds.Server := "reg.io"; Creds.Username := "u"; Creds.Password := "pw"; Creds.IdentityToken := "tok" |}.

(** The service account's secret is found, and the token goes with its registry. *)
Lemma tokens_belong_to_entries_witness :
  exists k s', @exec sample_env _ (@resolveImagePullCredentials (fun _ => true) sample_decode sample_decode
      sample_tokens (fun _ => false) PodStatus.sample_pod) = Some (inr k, s') /\
    Creds.ForImage (fun _ => Some "reg.io") (storeOf sample_lookup k) "reg.io/a" = (sample_creds, true) /\
    exists s cfg tokens registry e,
      @parseImagePullSecret (fun _ => true) sample_decode sample_decode sample_tokens s = inl (cfg, tokens) /\
      cfg !! registry = Some e /\ "u" = dc_Username e /\ "pw" = dc_Password e /\ "tok" = default "" (tokens !! registry).
Proof.
  destruct (@tokens_belong_to_entries (fun _ => true) sample_decode sample_decode
    sample_tokens (fun _ => false) (fun _ => Some "reg.io") sample_select sample_lookup sample_laws
    sample_env PodStatus.sample_pod) as (r & s' & Hr & Hk).
  pose proof Hr as Hr'. vm_compute in Hr'. injection Hr' as Er _. symmetry in Er. rewrite Er in Hr.
  eexists _, s'. split; [exact Hr|]. split; [vm_compute; reflexivity|].
  apply (Hk _ "reg.io/a" sample_creds Er). vm_compute. reflexivity.
Defined.

(** A container that mounts the volume of two config maps. *)
Definition sample_projection (n : string) : K8s.VolumeProjection :=
  {| K8s.vp_ServiceAccountToken := None;
     K8s.vp_ConfigMap := Some {| K8s.cmp_Name := n; K8s.cmp_Items := [] |};
     K8s.vp_DownwardAPI := None |}.

Definition sample_source : K8s.VolumeSource :=
  {| K8s.vs_HostPath := None; K8s.vs_EmptyDir := false;
     K8s.vs_Projected := Some [sample_projection "a"; sample_projection "b"] |}.

Definition two_maps_pod : K8s.Pod :=
  {| K8s.pod_Namespace := "default"; K8s.pod_Name := "p"; K8s.pod_UID := "u"; K8s.pod_CreationTimestamp := 50%Z;
     K8s.pod_DeletionTimestamp := None; K8s.pod_DeletionGracePeriodSeconds := None;
     K8s.pod_Containers := []; K8s.pod_Volumes := [{| K8s.vol_Name := "v"; K8s.vol_Source := sample_source |}];
     K8s.pod_ImagePullSecrets := []; K8s.pod_ServiceAccountName := "";
     K8s.pod_AutomountServiceAccountToken := None;
     K8s.pod_Status := K8s.pod_Status PodStatus.sample_pod |}.

Definition sample_mount : K8s.VolumeMount :=
  {| K8s.vmt_Name := "v"; K8s.vmt_MountPath := "/v"; K8s.vmt_SubPath := ""; K8s.vmt_ReadOnly := true |}.

Definition two_maps_container : K8s.Container :=
  {| K8s.ct_Name := "c"; K8s.ct_Image := "img"; K8s.ct_ImagePullPolicy := K8s.PullAlways; K8s.ct_Command := [];
     K8s.ct_Args := []; K8s.ct_WorkingDir := ""; K8s.ct_Env := []; K8s.ct_VolumeMounts := [sample_mount];
     K8s.ct_Requests := ∅; K8s.ct_Lifecycle := None; K8s.ct_TTY := false; K8s.ct_Stdin := false;
     K8s.ct_StdinOnce := false |}.

(** An API server that has every config map. *)
Definition maps_env : oracle k8sE := fun X n e =>
  match e in k8sE X return X with
  | ConfigMapGet _ _ => inl {| K8s.cm_Data := ∅ |}
  | e => sample_env _ n e
  end.

Definition fs_ok : oracle Volumes.fsE := fun X n e =>
  match e in Volumes.fsE X return X with Volumes.MkdirAll _ _ => None | Volumes.WriteFile _ _ _ => None end.

Lemma second_config_map_fails_witness :
  exists cms token s1 f s', exec maps_env (extractPodCredentials two_maps_pod) = Some (inl (cms, token), s1) /\
    Volumes.exec fs_ok (Volumes.CreateContainerMounts two_maps_pod "/root" token cms two_maps_container) (start tt)
      = Some (inl f, s').
Proof.
  eexists _, _, _.
  destruct (second_config_map_fails maps_env fs_ok two_maps_pod "/root" two_maps_container sample_mount sample_source
    [sample_projection "a"; sample_projection "b"] (sample_projection "a") (sample_projection "b")
    {| K8s.cmp_Name := "a"; K8s.cmp_Items := [] |} {| K8s.cmp_Name := "b"; K8s.cmp_Items := [] |}
    _ _ _ (start tt) eq_refl) as (f & s' & H);
    [left | reflexivity | reflexivity | reflexivity | reflexivity | left | right; left | reflexivity | reflexivity
    | discriminate |].
  exists f, s'. split; [reflexivity | exact H].
Defined.

End PullSecrets.
