(* ===== verification/Provider.v ===== *)
(** * pkg/provider/macosvz.go: the pod lifecycle handler

    What virtual-kubelet calls.  The provider keeps no state of its own: it talks to
    the API server ([PullSecrets.k8sE]) and to the client through its interface, whose
    methods are the operations [vzE]; [vzClient] gives them the programs of [Client].
    A theorem quantifies over every answer of both.  [Snapshots] is the sequence of
    states in which a status that is being built finds the instances. *)
From Stdlib Require Import ZArith Lia.
From Stdlib Require Import Ascii String.
From stdpp Require Import base list gmap strings.
From S2P Require Import Prelude GoStrings GoFormat GoErrors GoTime Prog EnvCfg Utils Resource K8s Event.
From S2P Require Import NodeIO Volumes Stores ClientApi PodStatus Client ClientProofs PullSecrets.
Local Open Scope string_scope.
Local Open Scope go_scope.

Module Provider.
Import Api.

(* src/pkg/client/client_apis.go : VzClientInterface *)
Inductive vzE : Type -> Type :=
| CreateVirtualizationGroup (ctx : Ctx) (pod : K8s.Pod) (serviceAccountToken : string)
    (configMaps : gmap string K8s.ConfigMap) (creds : Creds.RegistryCredentialStore) : vzE Client.ended
| DeleteVirtualizationGroup (ctx : Ctx) (ns name : string) (gracePeriod : Z) : vzE (option error)
| GetVirtualizationGroup (ns name : string) : vzE (option VirtualizationGroup * option error)
| GetVirtualizationGroupListResult : vzE (gmap NamespacedName VirtualizationGroup * option error)
| GetContainerLogs_ (ns podName containerName : string) (opts : ContainerLogOpts) : vzE (StreamRef + error)
| ExecuteContainerCommand (ctx : Ctx) (ns podName containerName : string) (cmd : list string)
    (attach : option Node.ExecIO) : vzE (option error)
| AttachToContainer_ (ctx : Ctx) (ns podName containerName : string) (attach : Node.ExecIO) : vzE (option error)
| GetVirtualizationGroupStats (ns name : string) (containers : list string)
    : vzE (option (error + list ContainerStats)).

(** The client of [Client] behind the interface. *)
Definition vzClient `{PrintTable} `{Errdefs} (Getenv : EnvCfg.environ) (cachePath : string) (hasCtr : bool)
    (maxCPU minCPU maxMemory minMemory : Z) (imageDomain : string -> option string)
    (NewRepository : string -> option error) : forall X, vzE X -> prog Client.cliE X :=
  fun X e =>
    match e in vzE X return prog Client.cliE X with
    | CreateVirtualizationGroup ctx pod token cms creds =>
        Client.CreateVirtualizationGroup Getenv cachePath hasCtr maxCPU minCPU maxMemory minMemory imageDomain
          NewRepository pod token cms creds ctx
    | DeleteVirtualizationGroup ctx ns name g => Client.DeleteVirtualizationGroup hasCtr ctx ns name g
    | GetVirtualizationGroup ns name => Client.GetVirtualizationGroup hasCtr ns name
    | GetVirtualizationGroupListResult => Client.GetVirtualizationGroupListResult hasCtr
    | GetContainerLogs_ ns p c opts => Client.GetContainerLogs hasCtr ns p c opts
    | ExecuteContainerCommand ctx ns p c cmd io => Client.ExecuteContainerCommand hasCtr ctx ns p c cmd io
    | AttachToContainer_ ctx ns p c io => Client.AttachToContainer hasCtr ctx ns p c io
    | GetVirtualizationGroupStats ns name cs => Client.GetVirtualizationGroupStats hasCtr ns name cs
    end.

Inductive pvE : Type -> Type :=
| K8s_ {X : Type} (e : PullSecrets.k8sE X) : pvE X
| Vz {X : Type} (e : vzE X) : pvE X
| WithTimeout (ctx : Ctx) (d : Z) : pvE Ctx
| Cancel (ctx : Ctx) : pvE unit
| Order : pvE (list nat)
| Snapshots : pvE (nat -> Res.heap)
| GoDelete (ctx : Ctx) (pod : K8s.Pod) : pvE unit.     (* go p.handleDeletePod(ctx, pod) *)

Definition local : local_handler pvE unit := fun X e x s => Some (x, s).
Definition exec (env : oracle pvE) {A} (p : prog pvE A) := run (traced_handler local env) p (start tt).

Definition record (ev : Event) : prog pvE unit := perform (K8s_ (PullSecrets.Record_ ev)).

(* src/pkg/provider/macosvz.go : 27-32 DefaultDeleteVZGroupGracePeriodSeconds *)
Definition DefaultDeleteVZGroupGracePeriodSeconds : Z := 10.

(** The configuration fields the model keeps: the interfaces are the operations. *)
(* src/pkg/provider/macosvz.go : 45-58 MacOSVZProvider *)
Record MacOSVZProvider := {
  nodeName : string;
  nodeIPAddress : string;
  platform : string;
  daemonEndpointPort : Z
}.

(* src/pkg/provider/macosvz.go : 84-86 errNotImplemented *)
Definition errNotImplemented : error := errMsg "not implemented by MacOS provider".

(** A call that returns a value and an error, or panics. *)
Inductive outcome (A : Type) : Type := Done (a : A) (e : option error) | Panic.
Arguments Done {A} a e.
Arguments Panic {A}.

(** The fields that are not interfaces. *)
(* src/pkg/provider/macosvz.go : MacOSVZProviderConfig *)
Record MacOSVZProviderConfig := {
  NodeName : string;
  Platform : string;
  InternalIP : string;
  DaemonEndpointPort : Z
}.

Section Provider.
Context `{PrintTable}.
Variables (decodeJSON decodeCfg : string -> PullSecrets.DockerConfig + error).
Variable decodeTokens : string -> option (gmap string string).
Variable apiNotFound : error -> bool.
Variable keyringLookup : PullSecrets.Keyring -> Creds.Keyring.
Variable p : MacOSVZProvider.

(* src/pkg/provider/macosvz.go : NewMacOSVZProvider *)
Definition NewMacOSVZProvider (config : MacOSVZProviderConfig) : MacOSVZProvider + error :=
  if String.eqb (Platform config) "darwin" then
    inl {| nodeName := NodeName config; nodeIPAddress := InternalIP config; platform := Platform config;
           daemonEndpointPort := DaemonEndpointPort config |}
  else inr (InvalidInput ("platform type " ++ Quote.quote (Platform config) ++ " is not supported")).

(* src/pkg/provider/macosvz.go : MacOSVZProvider.CreatePod *)
Definition CreatePod (ctx : Ctx) (pod : K8s.Pod) : prog pvE Client.ended :=
  r <- lift (fun X e => K8s_ e) (PullSecrets.extractPodCredentials pod) ;;
  match r with
  | inr e => Ret (Client.Returned (Some e))
  | inl (configMaps, serviceAccountToken) =>
      c <- lift (fun X e => K8s_ e)
             (PullSecrets.resolveImagePullCredentials decodeJSON decodeCfg decodeTokens apiNotFound pod) ;;
      match c with
      | inl e =>
          record (FailedToResolveImagePullSecrets e) ;;
          Ret (Client.Returned (Some (AsInvalidInput e)))
      | inr k =>
          perform (Vz (CreateVirtualizationGroup ctx pod serviceAccountToken configMaps
                         (PullSecrets.storeOf keyringLookup k)))
      end
  end.

(* src/pkg/provider/macosvz.go : MacOSVZProvider.UpdatePod *)
Definition UpdatePod (ctx : Ctx) (pod : K8s.Pod) : option error := Some errNotImplemented.

(* src/pkg/provider/macosvz.go : MacOSVZProvider.DeletePod *)
Definition DeletePod (ctx : Ctx) (pod : K8s.Pod) : prog pvE (option error) :=
  perform (GoDelete ctx pod) ;; Ret None.

(** The containers with an exec pre-stop hook, and its command. *)
Definition preStopCommands (pod : K8s.Pod) : list (string * list string) :=
  omap (fun c =>
    l ← K8s.ct_Lifecycle c; h ← K8s.lc_PreStop l; cmd ← K8s.lh_Exec h; Some (K8s.ct_Name c, cmd))
    (K8s.pod_Containers pod).

(** One goroutine of the group, and the first error it leaves behind. *)
Definition preStopHook (ctx : Ctx) (pod : K8s.Pod) (first : option error) (hook : string * list string)
  : prog pvE (option error) :=
  r <- perform (Vz (ExecuteContainerCommand ctx (K8s.pod_Namespace pod) (K8s.pod_Name pod) (fst hook) (snd hook)
                      (Some Node.DiscardingExecIO))) ;;
  match r with
  | None => Ret first
  | Some e =>
      record (FailedPreStopHook (fst hook) (snd hook) e) ;;
      Ret (match first with Some _ => first | None => Some e end)
  end.

(** [time.Duration(gracePeriod) * time.Second], which wraps. *)
Definition hookTimeout (gracePeriod : Z) : Z := wrap_i64 (gracePeriod * Time.Second).

(* src/pkg/provider/macosvz.go : MacOSVZProvider.handlePreStopHooks *)
Definition handlePreStopHooks (ctx : Ctx) (pod : K8s.Pod) (gracePeriod : Z) : prog pvE (option error) :=
  c <- perform (WithTimeout ctx (hookTimeout gracePeriod)) ;;
  o <- perform Order ;;
  r <- foldM (preStopHook c pod) (Client.arrange o (preStopCommands pod)) None ;;
  perform (Cancel c) ;;
  Ret r.

Definition graceOf (pod : K8s.Pod) : Z := default 0%Z (K8s.pod_DeletionGracePeriodSeconds pod).

Definition runsHooks (pod : K8s.Pod) : bool :=
  bool_decide (K8s.ps_Phase (K8s.pod_Status pod) = K8s.PodRunning) && (0 <? graceOf pod)%Z.

(* src/pkg/provider/macosvz.go : MacOSVZProvider.handleDeletePod *)
Definition handleDeletePod (ctx : Ctx) (pod : K8s.Pod) : prog pvE unit :=
  canDeleteFast <-
    (if runsHooks pod then e <- handlePreStopHooks ctx pod (graceOf pod) ;; Ret (negb (is_some e)) else Ret true) ;;
  e <- perform (Vz (DeleteVirtualizationGroup ctx (K8s.pod_Namespace pod) (K8s.pod_Name pod) (graceOf pod))) ;;
  match e with
  | Some _ => Ret tt
  | None =>
      if canDeleteFast then
        perform (K8s_ (PullSecrets.PodDelete (K8s.pod_Namespace pod) (K8s.pod_Name pod))) ;; Ret tt
      else Ret tt
  end.

(** The goroutine that a deletion starts. *)
Definition spawns : forall X, pvE X -> list (prog pvE unit) := fun X e =>
  match e with GoDelete ctx pod => [handleDeletePod ctx pod] | _ => [] end.

Definition withStatus (pod : K8s.Pod) (st : K8s.PodStatus) : K8s.Pod :=
  {| K8s.pod_Namespace := K8s.pod_Namespace pod; K8s.pod_Name := K8s.pod_Name pod; K8s.pod_UID := K8s.pod_UID pod;
     K8s.pod_CreationTimestamp := K8s.pod_CreationTimestamp pod;
     K8s.pod_DeletionTimestamp := K8s.pod_DeletionTimestamp pod;
     K8s.pod_DeletionGracePeriodSeconds := K8s.pod_DeletionGracePeriodSeconds pod;
     K8s.pod_Containers := K8s.pod_Containers pod; K8s.pod_Volumes := K8s.pod_Volumes pod;
     K8s.pod_ImagePullSecrets := K8s.pod_ImagePullSecrets pod;
     K8s.pod_ServiceAccountName := K8s.pod_ServiceAccountName pod;
     K8s.pod_AutomountServiceAccountToken := K8s.pod_AutomountServiceAccountToken pod;
     K8s.pod_Status := st |}.

(** [buildPodStatus] on what a client returned: a nil group panics too. *)
Definition statusOf (vg : option VirtualizationGroup) (pod : K8s.Pod) : prog pvE (option K8s.PodStatus) :=
  now <- perform Snapshots ;;
  Ret (g ← vg; PodStatus.buildPodStatus now (nodeIPAddress p) g pod).

Definition listerGet (ns name : string) : prog pvE (K8s.Pod + error) := perform (K8s_ (PullSecrets.PodGet ns name)).

(* src/pkg/provider/virtualizationgroup_to_pod.go : MacOSVZProvider.virtualizationGroupToPod *)
Definition virtualizationGroupToPod (vg : option VirtualizationGroup) (ns name : string)
  : prog pvE (outcome (option K8s.Pod)) :=
  r <- listerGet ns name ;;
  match r with
  | inr e => Ret (Done None (Some e))
  | inl pod =>
      st <- statusOf vg pod ;;
      Ret (match st with Some st => Done (Some (withStatus pod st)) None | None => Panic end)
  end.

(* src/pkg/provider/macosvz.go : MacOSVZProvider.GetPod *)
Definition GetPod (ctx : Ctx) (ns name : string) : prog pvE (outcome (option K8s.Pod)) :=
  r <- perform (Vz (GetVirtualizationGroup ns name)) ;;
  match r with
  | (_, Some e) => Ret (Done None (Some e))
  | (vg, None) =>
      o <- virtualizationGroupToPod vg ns name ;;
      match o with
      | Done _ (Some _) =>
          d <- perform (Vz (DeleteVirtualizationGroup ctx ns name DefaultDeleteVZGroupGracePeriodSeconds)) ;;
          Ret (Done None d)
      | _ => Ret o
      end
  end.

(** The pod has ended and its deletion has not been asked for. *)
Definition forgotten (pod : K8s.Pod) (st : K8s.PodStatus) : bool :=
  negb (is_some (K8s.pod_DeletionTimestamp pod)) &&
  (bool_decide (K8s.ps_Phase st = K8s.PodFailed) || bool_decide (K8s.ps_Phase st = K8s.PodSucceeded)).

(* src/pkg/provider/macosvz.go : MacOSVZProvider.GetPodStatus *)
Definition GetPodStatus (ctx : Ctx) (ns name : string) : prog pvE (outcome (option K8s.PodStatus)) :=
  r <- perform (Vz (GetVirtualizationGroup ns name)) ;;
  match r with
  | (_, Some e) => Ret (Done None (Some e))
  | (vg, None) =>
      g <- listerGet ns name ;;
      match g with
      | inr e => Ret (Done None (Some e))
      | inl pod =>
          s <- statusOf vg pod ;;
          match s with
          | None => Ret Panic
          | Some st =>
              (if forgotten pod st
               then perform (Vz (DeleteVirtualizationGroup ctx ns name DefaultDeleteVZGroupGracePeriodSeconds)) ;; Ret tt
               else Ret tt) ;;
              Ret (Done (Some st) None)
          end
      end
  end.

(** The body of the loop of [GetPods]: how it stops, or the pods so far. *)
Definition addPod (pods : list K8s.Pod) (kv : NamespacedName * VirtualizationGroup)
  : prog pvE (outcome (list K8s.Pod) + list K8s.Pod) :=
  o <- virtualizationGroupToPod (Some (snd kv)) (Namespace (fst kv)) (Name (fst kv)) ;;
  Ret (match o with
       | Done (Some pod) None => inr (pods ++ [pod])%list
       | Done _ e => inl (Done [] e)
       | Panic => inl Panic
       end).

(** The iteration order of a map is the operation [Order]. *)
(* src/pkg/provider/macosvz.go : MacOSVZProvider.GetPods *)
Definition GetPods : prog pvE (outcome (list K8s.Pod)) :=
  r <- perform (Vz GetVirtualizationGroupListResult) ;;
  match r with
  | (_, Some e) => Ret (Done [] (Some e))
  | (vgs, None) =>
      o <- perform Order ;;
      l <- foldR addPod (Client.arrange o (map_to_list vgs)) [] ;;
      Ret (match l with inl o => o | inr pods => Done pods None end)
  end.

(* src/pkg/provider/macosvz.go : MacOSVZProvider.GetContainerLogs *)
Definition GetContainerLogs (ns podName containerName : string) (opts : ContainerLogOpts) : prog pvE (StreamRef + error) :=
  perform (Vz (GetContainerLogs_ ns podName containerName opts)).

(* src/pkg/provider/macosvz.go : MacOSVZProvider.RunInContainer *)
Definition RunInContainer (ctx : Ctx) (ns podName containerName : string) (cmd : list string) (attach : Node.ExecIO)
  : prog pvE (option error) :=
  perform (Vz (ExecuteContainerCommand ctx ns podName containerName cmd (Some attach))).

(* src/pkg/provider/macosvz.go : MacOSVZProvider.AttachToContainer *)
Definition AttachToContainer (ctx : Ctx) (ns podName containerName : string) (attach : Node.ExecIO)
  : prog pvE (option error) :=
  perform (Vz (AttachToContainer_ ctx ns podName containerName attach)).

(* src/pkg/provider/macosvz.go : MacOSVZProvider.PortForward *)
Definition PortForward (ns pod : string) (port : Z) : option error := Some errNotImplemented.

(** ** Deletion *)

(** A hook that ran, and its result. *)
Definition hookCall (c : call pvE) : option (string * list string * option error) :=
  match c with
  | Call e x =>
      match e in pvE X return X -> option (string * list string * option error) with
      | Vz e =>
          match e in vzE X return X -> option (string * list string * option error) with
          | ExecuteContainerCommand _ _ _ n cmd _ => fun r => Some (n, cmd, r)
          | _ => fun _ => None
          end
      | _ => fun _ => None
      end x
  end.

(** The calls that take something away: the group, or the pod. *)
Definition removes (c : call pvE) : bool :=
  match c with
  | Call e _ =>
      match e with
      | Vz (DeleteVirtualizationGroup _ _ _ _) => true
      | K8s_ (PullSecrets.PodDelete _ _) => true
      | _ => false
      end
  end.

(** Calls that only run hooks and report the ones that fail. *)
Record hooksPart (cs : list (call pvE)) : Prop := {
  hp_keeps : Forall (fun c => removes c = false) cs;
  hp_reported n cmd e : (n, cmd, Some e) ∈ omap hookCall cs ->
    Call (K8s_ (PullSecrets.Record_ (FailedPreStopHook n cmd e))) tt ∈ cs
}.

Definition allOk (cs : list (call pvE)) : Prop := Forall (fun h => snd h = None) (omap hookCall cs).

Lemma hooksPart_app cs1 cs2 : hooksPart cs1 -> hooksPart cs2 -> hooksPart (cs1 ++ cs2).
Proof.
  intros [K1 R1] [K2 R2]. split; [by apply Forall_app|]. intros n cmd e. rewrite omap_app, !elem_of_app.
  intros [Hx|Hx]; [left; eauto | right; eauto].
Qed.

Lemma allOk_app cs1 cs2 : allOk (cs1 ++ cs2) <-> allOk cs1 /\ allOk cs2.
Proof. unfold allOk. by rewrite omap_app, Forall_app. Qed.

Lemma call_unit (c : unit) (e : pvE unit) : Call e c = Call e tt.
Proof. by destruct c. Qed.

(** The goroutine of one hook. *)
Lemma preStopHook_run env c pod first hook n tr :
  exists r n' cs, run (traced_handler local env) (preStopHook c pod first hook) (Traced n tr tt) =
      Some (r, Traced n' (rev cs ++ tr) tt) /\
    hooksPart cs /\ map fst (omap hookCall cs) = [hook] /\ (r = None <-> first = None /\ allOk cs).
Proof.
  destruct hook as [nm cmd]. unfold preStopHook. cbn.
  destruct (env (option error) n _) as [e|] eqn:E; cbn.
  - eexists _, _, [Call _ (Some e); Call _ tt]. split_and!.
    + rewrite call_unit. reflexivity.
    + split; [repeat constructor|]. cbn. intros n0 c0 e0 [= -> -> ->]%list_elem_of_singleton.
      apply elem_of_cons. right. by left.
    + done.
    + unfold allOk. cbn. split; [by destruct first|]. intros [_ Hx]. by inversion Hx.
  - eexists _, _, [Call _ None]. split_and!; [reflexivity | | done |].
    + split; [repeat constructor|]. cbn. by intros n0 c0 e0 Hx%list_elem_of_singleton.
    + unfold allOk. cbn. split; [intros ->; split; [done | by repeat constructor] | by intros []].
Qed.

Lemma hooks_run env c pod l first n tr :
  exists r n' cs, run (traced_handler local env) (foldM (preStopHook c pod) l first) (Traced n tr tt) =
      Some (r, Traced n' (rev cs ++ tr) tt) /\
    hooksPart cs /\ map fst (omap hookCall cs) = l /\ (r = None <-> first = None /\ allOk cs).
Proof.
  revert first n tr. induction l as [|h l IH]; intros first n tr.
  - exists first, n, []. split_and!; try done; [split; [constructor | by intros ? ? ? ?%elem_of_nil]|].
    split; [intros ->; split; [done | constructor] | by intros []].
  - cbn [foldM]. rewrite run_bind.
    destruct (preStopHook_run env c pod first h n tr) as (r1 & n1 & cs1 & -> & P1 & M1 & R1).
    destruct (IH r1 n1 (rev cs1 ++ tr)%list) as (r2 & n2 & cs2 & -> & P2 & M2 & R2).
    exists r2, n2, (cs1 ++ cs2)%list. split_and!.
    + by rewrite rev_app_distr, <- app_assoc.
    + by apply hooksPart_app.
    + by rewrite omap_app, map_app, M1, M2.
    + rewrite R2, R1, allOk_app. tauto.
Qed.

(** The hooks run once each, in some order, within their timeout. *)
Lemma handlePreStopHooks_run env ctx pod g n tr :
  exists r n' cs, run (traced_handler local env) (handlePreStopHooks ctx pod g) (Traced n tr tt) =
      Some (r, Traced n' (rev cs ++ tr) tt) /\
    hooksPart cs /\ map fst (omap hookCall cs) ≡ₚ preStopCommands pod /\ (r = None <-> allOk cs).
Proof.
  unfold handlePreStopHooks. cbn. rewrite run_bind.
  set (c := env Ctx n _). set (o := env (list nat) _ _).
  destruct (hooks_run env c pod (Client.arrange o (preStopCommands pod)) None (S (S n))
    (Call Order o :: Call (WithTimeout ctx (hookTimeout g)) c :: tr)) as (r & n' & cs & -> & P & M & R).
  cbn. eexists r, _, ([Call (WithTimeout ctx (hookTimeout g)) c; Call Order o] ++ cs ++ [Call (Cancel c) _])%list.
  split_and!.
  - rewrite !rev_app_distr. cbn. rewrite <- app_assoc. reflexivity.
  - apply hooksPart_app; [|apply hooksPart_app; [done|]]; (split; [repeat constructor | by intros ? ? ? ?%elem_of_nil]).
  - rewrite !omap_app, !map_app, M. cbn. rewrite app_nil_r. apply ClientProofs.arrange_perm.
  - rewrite R, !allOk_app. unfold allOk at 2 4. cbn. split; [by intros [] | by intros (_ & ? & _)].
Qed.

(** The calls of a deletion, in their order. *)
Definition deletionCalls (ctx : Ctx) (pod : K8s.Pod) (cs : list (call pvE)) : Prop :=
  exists hooks e tail,
    cs = (hooks ++ Call (Vz (DeleteVirtualizationGroup ctx (K8s.pod_Namespace pod) (K8s.pod_Name pod) (graceOf pod))) e
             :: tail)%list /\
    hooksPart hooks /\
    map fst (omap hookCall hooks) ≡ₚ (if runsHooks pod then preStopCommands pod else []) /\
    ((e = None /\ allOk hooks) /\
       (exists r, tail = [Call (K8s_ (PullSecrets.PodDelete (K8s.pod_Namespace pod) (K8s.pod_Name pod))) r]) \/
     ~ (e = None /\ allOk hooks) /\ tail = []).

Lemma handle_delete_run env ctx pod :
  exists s', exec env (handleDeletePod ctx pod) = Some (tt, s') /\ deletionCalls ctx pod (rev (trace s')).
Proof.
  unfold exec, handleDeletePod. rewrite run_bind.
  assert (exists b n' hooks,
    run (traced_handler local env)
      (if runsHooks pod then e <- handlePreStopHooks ctx pod (graceOf pod) ;; Ret (negb (is_some e)) else Ret true)
      (start tt) = Some (b, Traced n' (rev hooks) tt) /\ hooksPart hooks /\
    map fst (omap hookCall hooks) ≡ₚ (if runsHooks pod then preStopCommands pod else []) /\ (b = true <-> allOk hooks))
    as (b & n & hooks & -> & P & M & B).
  { destruct (runsHooks pod).
    - rewrite run_bind. destruct (handlePreStopHooks_run env ctx pod (graceOf pod) 0 []) as (r & n' & cs & E & P & M & R).
      unfold start. rewrite E. exists (negb (is_some r)), n', cs. rewrite app_nil_r. split_and!; try done.
      rewrite <- R. by destruct r.
    - exists true, 0%nat, []. split_and!; try done; [split; [constructor | by intros ? ? ? ?%elem_of_nil]|].
      split; [constructor | done]. }
  cbn. set (e := env (option error) n _).
  destruct e as [err|] eqn:Ee; [|destruct b]; cbn;
    (eexists; split; [reflexivity|]; cbn [trace rev]; rewrite !rev_involutive, <- ?app_assoc;
     eexists hooks, _, _; split; [reflexivity|]; split; [exact P|]; split; [exact M|]).
  - right. split; [by intros [? _] | done].
  - left. split; [split; [done | by apply B] | by eexists].
  - right. split; [|done]. intros [_ Ha]. by apply B in Ha.
Qed.

(** C8: deleting a pod, whatever the client, the hooks and the API server answer, ends
    after exactly one deletion of the group, with the pod's grace period.  Before it,
    every exec pre-stop hook runs once if the pod is running and has a grace period
    (and none otherwise), and each failure is reported.  The pod is removed from
    Kubernetes, last of all, if and only if the group is gone and every hook succeeded. *)
Theorem handle_delete_outcome env ctx pod :
  exists s' hooks e tail, exec env (handleDeletePod ctx pod) = Some (tt, s') /\
    rev (trace s') =
      (hooks ++ Call (Vz (DeleteVirtualizationGroup ctx (K8s.pod_Namespace pod) (K8s.pod_Name pod) (graceOf pod))) e
             :: tail)%list /\
    hooksPart hooks /\
    map fst (omap hookCall hooks) ≡ₚ (if runsHooks pod then preStopCommands pod else []) /\
    ((e = None /\ allOk hooks) /\
       (exists r, tail = [Call (K8s_ (PullSecrets.PodDelete (K8s.pod_Namespace pod) (K8s.pod_Name pod))) r]) \/
     ~ (e = None /\ allOk hooks) /\ tail = []).
Proof.
  destruct (handle_delete_run env ctx pod) as (s' & Hr & hooks & e & tail & H1). by exists s', hooks, e, tail.
Qed.

(** ** Reads *)

(** The operations that take nothing away. *)
Definition keeps (X : Type) (e : pvE X) : Prop := forall x, removes (Call e x) = false.

Lemma kept cs : Forall (on_call keeps) cs -> filter (fun c => removes c = true) cs = [].
Proof.
  induction 1 as [|[X e x] cs Hc _ IH]; [done|]. rewrite filter_cons_False; [done|]. simpl in Hc. by rewrite Hc.
Qed.

Lemma virtualizationGroupToPod_keeps vg ns name : all_ops keeps (virtualizationGroupToPod vg ns name).
Proof. split; [by intros|]. intros [pod|e]; [|done]. split; [by intros|]. done. Qed.

Lemma addPods_keep l pods : all_ops keeps (foldR addPod l pods).
Proof.
  revert pods. induction l as [|kv l IH]; intros pods; [done|]. cbn [foldR].
  apply all_ops_bind.
  - unfold addPod. apply all_ops_bind; [apply virtualizationGroupToPod_keeps | done].
  - intros [o|pods']; [done | apply IH].
Qed.

Lemma GetPods_keeps : all_ops keeps GetPods.
Proof.
  unfold GetPods. apply all_ops_bind; [by apply all_ops_perform|]. intros [vgs [e|]]; [done|].
  apply all_ops_bind; [by apply all_ops_perform|]. intros o. apply all_ops_bind; [apply addPods_keep | done].
Qed.

Lemma forgotten_ended pod st :
  forgotten pod st = true ->
  K8s.pod_DeletionTimestamp pod = None /\ (K8s.ps_Phase st = K8s.PodFailed \/ K8s.ps_Phase st = K8s.PodSucceeded).
Proof.
  unfold forgotten. rewrite andb_true_iff, orb_true_iff, !bool_decide_eq_true. intros [Hd Hp].
  by destruct (K8s.pod_DeletionTimestamp pod).
Qed.

Definition dropCall (ctx : Ctx) (ns name : string) (d : option error) : call pvE :=
  Call (Vz (DeleteVirtualizationGroup ctx ns name DefaultDeleteVZGroupGracePeriodSeconds)) d.

(** The lister's answer. *)
Definition listed (c : call pvE) : option (K8s.Pod + error) :=
  match c with
  | Call e x =>
      match e in pvE X return X -> option (K8s.Pod + error) with
      | K8s_ e =>
          match e in PullSecrets.k8sE X return X -> option (K8s.Pod + error) with
          | PullSecrets.PodGet _ _ => Some
          | _ => fun _ => None
          end
      | _ => fun _ => None
      end x
  end.

Definition listings (s : traced pvE unit) : list (K8s.Pod + error) := omap listed (trace s).

Definition removals (s : traced pvE unit) : list (call pvE) := filter (fun c => removes c = true) (trace s).


(** ** A pod without a machine *)

(** The lister knows every pod. *)
Definition listsAll (env : oracle pvE) : Prop :=
  forall n ns name, exists pod, env _ n (K8s_ (PullSecrets.PodGet ns name)) = inl pod.

Lemma addPods_panic env l pods s :
  listsAll env -> (exists kv, kv ∈ l /\ vg_VM (snd kv) = None) ->
  exists s', run (traced_handler local env) (foldR addPod l pods) s = Some (inl Panic, s').
Proof.
  intros Hall. revert pods s. induction l as [|[k vg] l IH]; intros pods s [kv [Hin Hvm]].
  { by apply elem_of_nil in Hin. }
  cbn [foldR]. rewrite run_bind. unfold addPod, virtualizationGroupToPod, listerGet, statusOf. cbn.
  destruct (Hall (clock s) (Namespace k) (Name k)) as [pod ->]. cbn.
  destruct (vg_VM vg) as [vm|] eqn:E.
  - unfold PodStatus.buildPodStatus at 1. rewrite E. cbn. apply IH.
    apply elem_of_cons in Hin as [->|Hin]; [by simpl in Hvm; rewrite E in Hvm | by exists kv].
  - unfold PodStatus.buildPodStatus. rewrite E. cbn. by eexists.
Qed.

(** C38: one pod that only the container side knows is enough: the client lists it as
    a group without a machine, and [GetPods] panics, in whatever order it meets the
    groups, as soon as the lister knows the pods. *)
Theorem sidecars_only_panic env vms ctrs k cs :
  vms !! k = None -> ctrs !! k = Some cs -> listsAll env ->
  env _ 0%nat (Vz GetVirtualizationGroupListResult) = (Client.combine vms ctrs, None) ->
  exists s', exec env GetPods = Some (Panic, s').
Proof.
  intros Hv Hc Hall Hl. unfold exec, GetPods. cbn. rewrite Hl. cbn. rewrite run_bind.
  set (o := env (list nat) 1%nat Order).
  edestruct (addPods_panic env (Client.arrange o (map_to_list (Client.combine vms ctrs))) []) as [s' Hr]; [done | |].
  - exists (k, {| vg_VM := None; vg_Containers := cs |}). split; [|done].
    rewrite (ClientProofs.arrange_perm o). apply elem_of_map_to_list. by rewrite ClientProofs.combine_lookup, Hv, Hc.
  - rewrite Hr. by eexists.
Qed.

End Provider.

(** *** Inputs *)

Definition sample_provider : MacOSVZProvider :=
  {| nodeName := "mac-1"; nodeIPAddress := "10.0.0.1"; platform := "darwin"; daemonEndpointPort := 10250 |}.

(** The container side knows a pod that the machine side does not. *)
Definition orphan_list : gmap NamespacedName VirtualizationGroup :=
  Client.combine ∅ {[VmData.key "ci" "p" := []]}.

Definition sample_k8s : forall X, PullSecrets.k8sE X -> X := fun X e =>
  match e in PullSecrets.k8sE X return X with
  | PullSecrets.PodGet _ _ => inl PodStatus.sample_pod
  | e => PullSecrets.sample_env _ 0%nat e
  end.

Definition sample_vz : forall X, vzE X -> X := fun X e =>
  match e in vzE X return X with
  | CreateVirtualizationGroup _ _ _ _ _ => Client.Returned None
  | DeleteVirtualizationGroup _ _ _ _ => None
  | GetVirtualizationGroup _ _ => (None, None)
  | GetVirtualizationGroupListResult => (orphan_list, None)
  | GetContainerLogs_ _ _ _ _ => inl 0%nat
  | ExecuteContainerCommand _ _ _ _ _ _ => None
  | AttachToContainer_ _ _ _ _ _ => None
  | GetVirtualizationGroupStats _ _ _ => None
  end.

Definition sample_env : oracle pvE := fun X n e =>
  match e in pvE X return X with
  | K8s_ e => sample_k8s _ e
  | Vz e => sample_vz _ e
  | WithTimeout _ _ => 0%nat
  | Cancel _ => tt
  | Order => []
  | Snapshots => fun _ => PodStatus.sample_heap Res.VzRunning
  | GoDelete _ _ => tt
  end.

Lemma sidecars_only_panic_witness : exists s', exec sample_env (GetPods sample_provider) = Some (Panic, s').
Proof.
  apply (sidecars_only_panic sample_provider sample_env ∅ {[VmData.key "ci" "p" := []]} (VmData.key "ci" "p") []);
    [apply lookup_empty | apply lookup_singleton_eq | intros n ns name; eexists; reflexivity | reflexivity].
Defined.

End Provider.
