(* ===== verification/System.v ===== *)
(** * The client over its two managers, and the provider over the client

    pkg/client/vz.go calls [MacOSClient] and [ContainersClient]; pkg/provider/macosvz.go
    calls the client.  [Client] and [Provider] leave these calls to an oracle.  Here
    they are the programs of [MacOS] and [Docker], and of [Client], put together with
    [Link.linked]: one program over the operations of all, on the state of all.

    What stays an oracle's: the statistics of a virtual machine and an exec without
    streams (a nil interface value in Go), which change no state, and everything that
    the components call outside this repository.  A goroutine that a manager starts is
    an operation ([GoCreation], [Docker.GoHandleCreation]) and does not run here: the
    theorems of [MacOSProofs], [Permits] and [DockerProofs] are about it. *)
From Stdlib Require Import ZArith Lia.
From Stdlib Require Import String.
From stdpp Require Import base list gmap strings.
From S2P Require Import Prelude GoStrings GoFormat GoErrors GoTime Prog Link EnvCfg Utils Resource Instance K8s NodeIO Volumes.
From S2P Require Import Stores MacOS MacOSProofs ClientApi DockerData Docker DockerProofs Client ClientProofs.
From S2P Require Import PullSecrets Provider.
Local Open Scope string_scope.
Local Open Scope go_scope.

Module System.
Import Api.

(** ** The managers *)

Inductive mgrE : Type -> Type :=
| Mac {X : Type} (e : MacOS.macE X) : mgrE X
| Dk {X : Type} (e : Docker.dkE X) : mgrE X
| GoCreation (ctx : Ctx) (params : MacOS.VirtualMachineParams) : mgrE unit.   (* go c.handleVirtualMachineCreation *)

(** The fields [MacOSClient] and [ContainerClient]. *)
(* src/pkg/client/vz.go : VzClientAPIs *)
Record Managers := { macos : MacOS.MacOSClient; docker : Docker.DockerClient }.

Definition set_macos (m : MacOS.MacOSClient) (s : Managers) : Managers := {| macos := m; docker := docker s |}.
Definition set_docker (d : Docker.DockerClient) (s : Managers) : Managers := {| macos := macos s; docker := d |}.

Definition newManagers : Managers := {| macos := MacOS.NewMacOSClient; docker := ContainerData.NewContainerData |}.

Definition mgr_local : local_handler mgrE Managers := fun X e =>
  match e in mgrE X return X -> Managers -> option (X * Managers) with
  | Mac e => fun x s => match MacOS.local _ e x (macos s) with Some (y, m) => Some (y, set_macos m s) | None => None end
  | Dk e => fun x s => match Docker.local _ e x (docker s) with Some (y, d) => Some (y, set_docker d s) | None => None end
  | GoCreation _ _ => fun x s => Some (x, s)
  end.

Program Definition in_macos : embedding MacOS.local mgr_local :=
  {| inj := fun X e => Mac e; get := macos; put := set_macos |}.
Solve Obligations with (intros; try done; by destruct u).

Program Definition in_docker : embedding Docker.local mgr_local :=
  {| inj := fun X e => Dk e; get := docker; put := set_docker |}.
Solve Obligations with (intros; try done; by destruct u).

Definition mac {A} (p : prog MacOS.macE A) : prog mgrE A := lift (fun X e => Mac e) p.
Definition dk {A} (p : prog Docker.dkE A) : prog mgrE A := lift (fun X e => Dk e) p.

(** The whole of [CreateVirtualMachine], with the goroutine it starts. *)
(* src/pkg/resourcemanager/macos.go : MacOSClient.CreateVirtualMachine *)
Definition createVirtualMachine (ctx : Ctx) (p : MacOS.VirtualMachineParams) : prog mgrE (option error) :=
  err <- mac (MacOS.CreateVirtualMachine p) ;;
  match err with
  | Some e => Ret (Some e)
  | None => perform (GoCreation ctx p) ;; Ret None
  end.

Section System.
Context `{PrintTable} `{Errdefs}.
Variables (Getenv : EnvCfg.environ) (cachePath : string) (hasCtr : bool).
Variables maxCPU minCPU maxMemory minMemory : Z.
Variables (imageDomain : string -> option string) (NewRepository : string -> option error).
Variable FormatRFC3339 : Time.t -> string.

(** ** The client's calls *)

Definition vm_calls X (e : Client.vmE X) : option (prog mgrE X) :=
  match e with
  | Client.CreateVirtualMachine ctx p => Some (createVirtualMachine ctx p)
  | Client.DeleteVirtualMachine ctx ns name gp => Some (mac (MacOS.DeleteVirtualMachine Getenv ctx ns name gp))
  | Client.GetVirtualMachine ns name => Some (mac (MacOS.GetVirtualMachine ns name))
  | Client.GetVirtualMachineListResult =>
      Some (l <- mac MacOS.GetVirtualMachineListResult ;; Ret (l, None))
  | Client.ExecInVirtualMachine ctx ns name cmd attach =>
      io ← attach; Some (mac (MacOS.ExecInVirtualMachine Getenv ctx ns name cmd io))
  | Client.GetVirtualMachineStats _ _ => None
  end.

Definition client_calls X (e : Client.cliE X) : option (prog mgrE X) :=
  match e with
  | Client.Vm e => vm_calls _ e
  | Client.Ctr e => Some (dk (Docker.client FormatRFC3339 _ e))
  | _ => None
  end.

Lemma client_passive X (e : Client.cliE X) q x u :
  client_calls X e = Some q -> Client.local X e x u = Some (x, u).
Proof. by destruct e. Qed.

(** The operations and the state of the client with its managers. *)
Abbreviation groupE := (over mgrE Client.cliE).
Definition group_local : local_handler groupE (Managers * Client.VzClientAPIs) := over_local Client.local mgr_local.

(** The methods of the client interface, all the way down. *)
Definition service X (e : Provider.vzE X) : prog groupE X :=
  linked client_calls
    (Provider.vzClient Getenv cachePath hasCtr maxCPU minCPU maxMemory minMemory imageDomain NewRepository X e).

(** ** The provider's calls *)

Definition provider_calls X (e : Provider.pvE X) : option (prog groupE X) :=
  match e with
  | Provider.Vz e => Some (service _ e)
  | _ => None
  end.

Lemma provider_passive X (e : Provider.pvE X) q x u :
  provider_calls X e = Some q -> Provider.local X e x u = Some (x, u).
Proof. done. Qed.

Abbreviation nodeE := (over groupE Provider.pvE).
Definition node_local : local_handler nodeE ((Managers * Client.VzClientAPIs) * unit) :=
  over_local Provider.local group_local.

Definition whole {A} (p : prog Provider.pvE A) : prog nodeE A := linked provider_calls p.

(** ** What the managers do, by themselves *)

(** A manager's program runs as it does alone; the other manager's state stays. *)
Lemma run_mac env {A} (q : prog MacOS.macE A) m :
  exists env', run (traced_handler mgr_local env) (mac q) (start m) =
    match run (traced_handler MacOS.local env') q (start (macos m)) with
    | Some (x, s1) => Some (x, Traced (clock s1) (map (call_inj in_macos) (trace s1)) (set_macos (own s1) m))
    | None => None
    end.
Proof.
  exists (env_inj in_macos env 0). etrans; [apply (run_inj in_macos env q (start m))|].
  cbn [start clock trace own get in_macos]. by destruct (run _ _ _) as [[x s1]|]; [rewrite app_nil_r|].
Qed.

Lemma run_dk env {A} (q : prog Docker.dkE A) m :
  exists env', run (traced_handler mgr_local env) (dk q) (start m) =
    match run (traced_handler Docker.local env') q (start (docker m)) with
    | Some (x, s1) => Some (x, Traced (clock s1) (map (call_inj in_docker) (trace s1)) (set_docker (own s1) m))
    | None => None
    end.
Proof.
  exists (env_inj in_docker env 0). etrans; [apply (run_inj in_docker env q (start m))|].
  cbn [start clock trace own get in_docker]. by destruct (run _ _ _) as [[x s1]|]; [rewrite app_nil_r|].
Qed.

(** A program of quiet operations returns and leaves the managers as they were. *)
Lemma run_mac_quiet env {A} (q : prog MacOS.macE A) m :
  all_ops MacOSProofs.quiet q ->
  exists x s1, run (traced_handler mgr_local env) (mac q) (start m) = Some (x, s1) /\ own s1 = m.
Proof.
  intros Hq. destruct (run_mac env q m) as [env' ->].
  destruct (twp_run (traced_handler MacOS.local env') q (fun _ s => own s = macos m) (start (macos m))) as (x & s1 & -> & Ho).
  - apply (twp_quiet _ _ MacOSProofs.quiet); [intros; by apply MacOSProofs.quiet_local | done | done].
  - eexists _, _. split; [done|]. cbn [own]. rewrite Ho. by destruct m.
Qed.

Lemma run_dk_quiet env {A} (q : prog Docker.dkE A) m :
  all_ops DockerProofs.quiet q ->
  exists x s1, run (traced_handler mgr_local env) (dk q) (start m) = Some (x, s1) /\ own s1 = m.
Proof.
  intros Hq. destruct (run_dk env q m) as [env' ->].
  destruct (twp_run (traced_handler Docker.local env') q (fun _ s => own s = docker m) (start (docker m))) as (x & s1 & -> & Ho).
  - apply (twp_quiet _ _ DockerProofs.quiet); [intros; by apply DockerProofs.docker_quiet_local | done | done].
  - eexists _, _. split; [done|]. cbn [own]. rewrite Ho. by destruct m.
Qed.

End System.
End System.
