(* ===== verification/SystemProofs.v ===== *)
(** * What the parts do together

    Theorems on [System], for every behaviour of what is outside the repository: every
    run of the whole is a run of the client that its own theorems cover; a deletion
    leaves neither a machine nor containers behind; a pod leaves Kubernetes only after
    they are gone; and what a creation that fails half-way leaves behind. *)
From Stdlib Require Import ZArith Lia.
From Stdlib Require Import String.
From stdpp Require Import base list gmap strings relations.
From S2P Require Import Prelude GoStrings GoFormat GoErrors GoTime Prog Link Once EnvCfg Utils Resource Instance K8s.
From S2P Require Import Event NodeIO Volumes Stores MacOS MacOSProofs ClientApi PodStatus DockerData Docker DockerProofs.
From S2P Require Import Client ClientProofs PullSecrets Provider System.
Local Open Scope string_scope.
Local Open Scope go_scope.

Module SystemProofs.
Import Api System.

(** ** What the managers' states do *)

(** The permits that the pod's entry holds. *)
Definition held (m : MacOS.MacOSClient) (k : NamespacedName) : nat :=
  match MacOS.vms m !! k with Some i => if VmData.PermitAcquired i then 1 else 0 | None => 0 end.

(** The channel has the token of the pod's entry, and the container store is well
    formed. *)
Definition sound (k : NamespacedName) (ms : Managers) : Prop :=
  (held (macos ms) k <= MacOS.vmPermits (macos ms))%nat /\ ContainerData.wf (docker ms).

(** The pod's entry is gone, with its permit, and nothing else. *)
Definition vm_removed (k : NamespacedName) (m m' : MacOS.MacOSClient) : Prop :=
  MacOS.vms m' = delete k (MacOS.vms m) /\ MacOS.vmPermits m' = (MacOS.vmPermits m - held m k)%nat.

Definition ctr_removed (k : NamespacedName) (d d' : Docker.DockerClient) : Prop :=
  ContainerData.view d' = delete k (ContainerData.view d).

Lemma vm_removed_held k m m' : vm_removed k m m' -> held m' k = 0%nat.
Proof. intros [Hv _]. unfold held. by rewrite Hv, lookup_delete_eq. Qed.

Lemma vm_removed_trans k m1 m2 m3 : vm_removed k m1 m2 -> vm_removed k m2 m3 -> vm_removed k m1 m3.
Proof.
  intros H1 [Hv Hp]. pose proof (vm_removed_held _ _ _ H1) as Hh. destruct H1 as [Hv1 Hp1]. split.
  - by rewrite Hv, Hv1, delete_delete_eq.
  - rewrite Hp, Hp1, Hh. lia.
Qed.

Lemma ctr_removed_trans k d1 d2 d3 : ctr_removed k d1 d2 -> ctr_removed k d2 d3 -> ctr_removed k d1 d3.
Proof. unfold ctr_removed. intros H1 H2. by rewrite H2, H1, delete_delete_eq. Qed.

(** Any number of removals, none included. *)
Definition upto {T} (R : T -> T -> Prop) (x y : T) : Prop := y = x \/ R x y.

Lemma upto_trans {T} (R : T -> T -> Prop) x y z :
  (forall a b c, R a b -> R b c -> R a c) -> upto R x y -> upto R y z -> upto R x z.
Proof. intros HR [-> |H1] [-> |H2]; unfold upto; eauto. Qed.

(** A removal among others. *)
Lemma upto_removed {T} (R : T -> T -> Prop) a b c d :
  (forall a b c, R a b -> R b c -> R a c) -> upto R a b -> R b c -> upto R c d -> R a d.
Proof. intros HR [-> |H1] H2 [-> |H3]; eauto. Qed.

Section Proofs.
Context `{PrintTable} `{EL : ErrdefsLaws}.
Variables (Getenv : EnvCfg.environ) (cachePath : string) (hasCtr : bool).
Variables maxCPU minCPU maxMemory minMemory : Z.
Variables (imageDomain : string -> option string) (NewRepository : string -> option error).
Variable FormatRFC3339 : Time.t -> string.

Abbreviation calls := (client_calls Getenv FormatRFC3339).
Abbreviation method := (Provider.vzClient Getenv cachePath hasCtr maxCPU minCPU maxMemory minMemory imageDomain NewRepository).
Abbreviation service := (service Getenv cachePath hasCtr maxCPU minCPU maxMemory minMemory imageDomain NewRepository FormatRFC3339).
Abbreviation run_client env := (run (traced_handler Client.local env)).
Abbreviation run_group env := (run (traced_handler group_local env)).

(** The managers' part of a deletion, so far. *)
Definition removing (k : NamespacedName) (ms ms' : Managers) : Prop :=
  sound k ms -> sound k ms' /\ upto (vm_removed k) (macos ms) (macos ms') /\
    upto (ctr_removed k) (docker ms) (docker ms') /\ (hasCtr = false -> docker ms' = docker ms).

#[local] Instance removing_refl k : Reflexive (removing k).
Proof. intros ms Hs. split_and!; [done | by left | by left | done]. Qed.

#[local] Instance removing_trans k : Transitive (removing k).
Proof.
  intros a b c Hab Hbc Hs. destruct (Hab Hs) as (Hs1 & V1 & C1 & N1). destruct (Hbc Hs1) as (Hs2 & V2 & C2 & N2).
  split_and!; [done | | | intros Hn; by rewrite N2, N1].
  - eapply upto_trans; [apply vm_removed_trans | done | done].
  - eapply upto_trans; [apply ctr_removed_trans | done | done].
Qed.

(** ** The whole refines the client *)

(** Every run of a method of the client over the two managers is a run of the
    client alone under some oracle, with the same result and the same client state, so
    that what [ClientProofs] shows for every oracle holds of the whole; the managers'
    states change by the calls in that run's trace, in their order, and by nothing
    else; and the client's other calls (files, contexts) are the same in both. *)
Lemma system_refines_client env X (e : Provider.vzE X) ms u r s' :
  run_group env (service X e) (start (ms, u)) = Some (r, s') ->
  exists env' c', run_client env' (method X e) (start u) = Some (r, c') /\ own c' = snd (own s') /\
    evolves mgr_local calls (rev (trace c')) ms (fst (own s')) /\
    omap here_call (trace s') = List.filter (is_own calls) (trace c').
Proof. apply link_refines, client_passive. Qed.

(** ** Deletion *)

Lemma delete_vm_effect env ctx ns name gp ms :
  let k := VmData.key ns name in
  sound k ms ->
  exists x s1, run (traced_handler mgr_local env) (mac (MacOS.DeleteVirtualMachine Getenv ctx ns name gp)) (start ms) = Some (x, s1) /\
    vm_removed k (macos ms) (macos (own s1)) /\ docker (own s1) = docker ms /\ sound k (own s1).
Proof.
  intros k [Hh Hw]. destruct (run_mac env (MacOS.DeleteVirtualMachine Getenv ctx ns name gp) ms) as [env' ->].
  assert (exists x s1, run (traced_handler MacOS.local env') (MacOS.DeleteVirtualMachine Getenv ctx ns name gp)
    (start (macos ms)) = Some (x, s1) /\ vm_removed k (macos ms) (own s1)) as (x & s1 & -> & Hr).
  2: { eexists _, _. split_and!; [done | done | done |]. split; [|done]. cbn. by rewrite (vm_removed_held _ _ _ Hr); lia. }
  unfold vm_removed. unfold held in *. destruct (MacOS.vms (macos ms) !! k) as [i|] eqn:Ei.
  - set (n := (MacOS.vmPermits (macos ms) - if VmData.PermitAcquired i then 1 else 0)%nat).
    assert (macos ms = MacOSProofs.mk (MacOS.vms (macos ms)) k i ((if VmData.PermitAcquired i then 1 else 0) + n)
              (MacOS.live (macos ms))) as Hm.
    { unfold MacOSProofs.mk. rewrite insert_id by done. replace (_ + n)%nat with (MacOS.vmPermits (macos ms)) by lia.
      by destruct (macos ms). }
    pose proof (MacOSProofs.twp_delete Getenv env' (MacOS.vms (macos ms)) ctx ns name gp i n (MacOS.live (macos ms))) as Ht.
    fold k in Ht. rewrite <- Hm in Ht. apply twp_run in Ht as (x & s1 & Hr & Ho & _).
    exists x, s1. split; [exact Hr|]. by rewrite Ho.
  - destruct (MacOSProofs.delete_unknown Getenv env' ctx ns name gp (start (macos ms)) Ei) as (s1 & -> & Ho).
    eexists _, _. split; [done|]. rewrite Ho. cbn [own start]. split; [|lia]. by rewrite delete_id.
Qed.

Lemma remove_ctrs_effect env k ns name gp ms :
  sound k ms ->
  exists x s1, run (traced_handler mgr_local env) (dk (Docker.RemoveContainers ns name gp)) (start ms) = Some (x, s1) /\
    ctr_removed (VmData.key ns name) (docker ms) (docker (own s1)) /\ macos (own s1) = macos ms /\ sound k (own s1).
Proof.
  intros [Hh Hw]. destruct (run_dk env (Docker.RemoveContainers ns name gp) ms) as [env' ->].
  destruct (twp_run _ _ _ _ (DockerProofs.twp_RemoveContainers env' ns name gp (docker ms) Hw))
    as (x & s1 & Hr & os & (_ & Hw1 & Hv) & _).
  unfold Docker.DockerClient in *. rewrite Hr. by eexists _, _.
Qed.

(** The calls of a deletion that reach the managers. *)
Definition deletes (k : NamespacedName) X (e : Client.cliE X) : Prop :=
  match e with
  | Client.Vm (Client.DeleteVirtualMachine _ ns name _) => VmData.key ns name = k
  | Client.Ctr (RemoveContainers ns name _) => VmData.key ns name = k /\ hasCtr = true
  | Client.Vm _ | Client.Ctr _ => False
  | _ => True
  end.

Lemma deletes_effect k X (e : Client.cliE X) q env ms :
  deletes k X e -> calls X e = Some q -> sound k ms ->
  exists x s1, run (traced_handler mgr_local env) q (start ms) = Some (x, s1) /\ sound k (own s1) /\ removing k ms (own s1) /\
    match e with
    | Client.Vm _ => vm_removed k (macos ms) (macos (own s1))
    | Client.Ctr _ => ctr_removed k (docker ms) (docker (own s1))
    | _ => True
    end.
Proof.
  intros Hd Hc Hs. destruct e as [X e|X e| | | | | | | | | | | | | | | |]; try done; destruct e; try done; simplify_eq/=.
  - destruct (delete_vm_effect env ctx ns name gracePeriod ms Hs) as (x & s1 & Hr & Hv & Hk & Hs1).
    exists x, s1. split_and!; try done. intros _. split_and!; [done | by right | left; by rewrite Hk | by intros].
  - destruct Hd as [<- Hx]. destruct (remove_ctrs_effect env _ ns name gracePeriod ms Hs) as (x & s1 & Hr & Hv & Hk & Hs1).
    exists x, s1. split_and!; try done. intros _. split_and!; [done | left; by rewrite Hk | by right | by rewrite Hx].
Qed.

Lemma deletion_ops ctx ns name gp :
  all_ops (deletes (VmData.key ns name)) (Client.DeleteVirtualizationGroup hasCtr ctx ns name gp).
Proof.
  unfold Client.DeleteVirtualizationGroup, Client.deleteBody, Client.both.
  repeat first
    [ exact I | reflexivity | by split
    | match goal with
      | |- all_ops _ (bind _ _) => apply all_ops_bind; [|intros]
      | |- all_ops _ (perform _) => apply all_ops_perform
      | |- all_ops _ (match ?x with _ => _ end) => destruct x eqn:?
      end ].
Qed.

Lemma deleteVM_call c v : ClientProofs.obs_of c = Some (ClientProofs.ODeleteVM v) ->
  exists ctx ns name gp, c = Call (Client.Vm (Client.DeleteVirtualMachine ctx ns name gp)) v.
Proof.
  destruct c as [X e x]. destruct e as [X e|X e| | | | | | | | | | | | | | | |]; try done; destruct e; try done.
  intros [= ->]. by eexists _, _, _, _.
Qed.

Lemma removeCtrs_call c v : ClientProofs.obs_of c = Some (ClientProofs.ORemoveCtrs v) ->
  exists ns name gp, c = Call (Client.Ctr (RemoveContainers ns name gp)) v.
Proof.
  destruct c as [X e x]. destruct e as [X e|X e| | | | | | | | | | | | | | | |]; try done; destruct e; try done.
  intros [= ->]. by eexists _, _, _.
Qed.

(** An observation is one of the calls, in their order. *)
Lemma seen_call o (s : traced Client.cliE Client.VzClientAPIs) :
  o ∈ ClientProofs.seen s -> exists c, c ∈ rev (trace s) /\ ClientProofs.obs_of c = Some o.
Proof.
  unfold ClientProofs.seen. rewrite list_elem_of_In, <- in_rev, <- list_elem_of_In, list_elem_of_omap.
  intros (c & Hc & Ho). exists c. by rewrite list_elem_of_In, <- in_rev, <- list_elem_of_In.
Qed.

(** Nothing of the pod is left, and everything else is as it was. *)
Record gone (ns name : string) (s s' : Managers * Client.VzClientAPIs) : Prop := {
  gone_vm : vm_removed (VmData.key ns name) (macos (fst s)) (macos (fst s'));
  gone_ctr : if hasCtr then ctr_removed (VmData.key ns name) (docker (fst s)) (docker (fst s'))
             else docker (fst s') = docker (fst s);
  gone_extras : Client.extras (snd s') = delete (VmData.key ns name) (Client.extras (snd s));
  gone_sound : sound (VmData.key ns name) (fst s')
}.

(** The managers over the calls of a deletion, and what one of the calls is enough for. *)
Lemma deletes_removing k X (e : Client.cliE X) q env t x s1 :
  deletes k X e -> calls X e = Some q -> run (traced_handler mgr_local env) q (start t) = Some (x, s1) ->
  removing k t (own s1).
Proof.
  intros He1 Hq Hr Hst. destruct (deletes_effect k X e q env t He1 Hq Hst) as (x' & s1' & Hr' & _ & Hre & _).
  rewrite Hr' in Hr. injection Hr as <- <-. by apply Hre.
Qed.

Lemma call_removes k X (e : Client.cliE X) x cs ms ms' :
  evolves mgr_local calls cs ms ms' -> Forall (on_call (deletes k)) cs -> sound k ms ->
  Call e x ∈ cs -> is_Some (calls X e) ->
  match e with
  | Client.Vm _ => vm_removed k (macos ms) (macos ms')
  | Client.Ctr _ => ctr_removed k (docker ms) (docker ms')
  | _ => True
  end.
Proof.
  intros He Hp Hs Hin [q Hq].
  destruct (evolves_elem mgr_local calls (removing k) (deletes k) _ _ _ _ (deletes_removing k) He Hp Hin)
    as (t1 & t2 & R1 & Heff & R2).
  destruct (R1 Hs) as (S1 & V1 & C1 & _). unfold effect in Heff. rewrite Hq in Heff. destruct Heff as (env & s1 & Hr & ->).
  rewrite Forall_forall in Hp. specialize (Hp _ Hin). simpl in Hp.
  destruct (deletes_effect k _ e q env t1 Hp Hq S1) as (x' & s1' & Hr' & S2 & _ & Hv).
  rewrite Hr' in Hr. injection Hr as <- <-. destruct (R2 S2) as (_ & V2 & C2 & _).
  destruct e as [Y e|Y e| | | | | | | | | | | | | | | |]; try done.
  - eapply upto_removed; [apply vm_removed_trans | done | done | done].
  - eapply upto_removed; [apply ctr_removed_trans | done | done | done].
Qed.

(** The two deletions of a client's run, on the managers. *)
Lemma deletions_gone k v c os ms ms' (c' : traced Client.cliE Client.VzClientAPIs) :
  evolves mgr_local calls (rev (trace c')) ms ms' -> Forall (on_call (deletes k)) (rev (trace c')) -> sound k ms ->
  ClientProofs.deletions hasCtr v c os -> os ⊆ ClientProofs.seen c' ->
  sound k ms' /\ vm_removed k (macos ms) (macos ms') /\
  (if hasCtr then ctr_removed k (docker ms) (docker ms') else docker ms' = docker ms).
Proof.
  intros He Hp Hs Hd Hos.
  destruct (evolves_rel mgr_local calls (removing k) (deletes k) _ _ _ (deletes_removing k) He Hp Hs) as (Hs' & _ & _ & Hk).
  assert (ClientProofs.ODeleteVM v ∈ os /\ (hasCtr = true -> ClientProofs.ORemoveCtrs c ∈ os)) as [Hv Hc].
  { unfold ClientProofs.deletions in Hd. destruct hasCtr; [destruct Hd as [-> | ->] | destruct Hd as [-> _]]; set_solver. }
  split_and!; [done | |].
  - apply Hos, seen_call in Hv as (cl & Hin & (ctx & ns & name & gp & ->)%deleteVM_call).
    by apply (call_removes k _ _ _ _ _ _ He Hp Hs Hin).
  - destruct hasCtr eqn:Eh; [|by apply Hk].
    specialize (Hc eq_refl). apply Hos, seen_call in Hc as (cl & Hin & (ns & name & gp & ->)%removeCtrs_call).
    by apply (call_removes k _ _ _ _ _ _ He Hp Hs Hin).
Qed.

(** Deleting a registered group, all the way down. *)
Lemma group_deleted env ctx ns name gp ms u ex :
  ClientProofs.idle ns name u ex -> sound (VmData.key ns name) ms ->
  exists r s', run_group env (service _ (Provider.DeleteVirtualizationGroup ctx ns name gp)) (start (ms, u)) = Some (r, s') /\
    gone ns name (ms, u) (own s').
Proof.
  intros Hi Hs. set (k := VmData.key ns name) in *.
  destruct (link_total Client.local mgr_local calls (client_passive Getenv FormatRFC3339) (sound k) (deletes k) env
    (Client.DeleteVirtualizationGroup hasCtr ctx ns name gp) ms u) as (r & s' & Hr & env' & c' & Hc & Ho & He & _).
  - intros X e q fenv t Hd Hq Ht. destruct (deletes_effect k X e q fenv t Hd Hq Ht) as (x & s1 & Hr & Hs1 & _). by exists x, s1.
  - apply deletion_ops.
  - done.
  - intros env'. destruct (twp_run _ _ _ _ (ClientProofs.twp_DeleteGroup env' hasCtr ns name ctx gp u ex Hi)) as (r & s' & -> & _).
    by eexists.
  - exists r, s'. split; [exact Hr|].
    destruct (twp_run _ _ _ _ (ClientProofs.twp_DeleteGroup env' hasCtr ns name ctx gp u ex Hi))
      as (r1 & c1 & Hc1 & v & c & ds & Hd & Hseen & Hext & _).
    rewrite Hc in Hc1. injection Hc1 as <- <-.
    assert (Forall (on_call (deletes k)) (rev (trace c'))) as Hp.
    { apply Forall_rev. eapply traced_on_calls; [apply deletion_ops | exact Hc | constructor]. }
    destruct (deletions_gone k v c ds ms (fst (own s')) c' He Hp Hs Hd) as (Hs' & Hv & Hcr).
    { rewrite Hseen. apply list_subseteq_app_l. done. }
    split; [exact Hv | exact Hcr | simpl; by rewrite <- Hext, Ho | exact Hs'].
Qed.


(** ** A group that nobody knows *)

Lemma delete_unregistered_group env ctx ns name gp ms u :
  Client.extras u !! VmData.key ns name = None ->
  exists s', run_group env (service _ (Provider.DeleteVirtualizationGroup ctx ns name gp)) (start (ms, u)) =
    Some (Some Client.errVirtualizationGroupNotFound, s') /\ own s' = (ms, u).
Proof.
  intros Hx. unfold service. cbn [Provider.vzClient]. unfold Client.DeleteVirtualizationGroup, linked.
  cbn [interp bind perform run link]. unfold traced_handler at 1. cbn. rewrite Hx. cbn. by eexists.
Qed.

Definition unknown (ns name : string) (ms : Managers) : Prop :=
  MacOS.vms (macos ms) !! VmData.key ns name = None /\
  (hasCtr = true -> ContainerData.view (docker ms) !! VmData.key ns name = None).

Lemma gone_unknown ns name s s' : gone ns name s s' -> unknown ns name (fst s').
Proof.
  intros [[Hv _] Hc _ _]. split; [by rewrite Hv, lookup_delete_eq|]. intros Hx. rewrite Hx in Hc.
  by rewrite Hc, lookup_delete_eq.
Qed.

(** What the managers answer about it. *)
Definition asks (ns name : string) X (e : Client.cliE X) : Prop :=
  match e with
  | Client.Vm (Client.GetVirtualMachine ns' name') => ns' = ns /\ name' = name
  | Client.Ctr (GetContainers ns' name') => ns' = ns /\ name' = name /\ hasCtr = true
  | _ => False
  end.

Definition saysMissing X (e : Client.cliE X) : X -> Prop :=
  match e in Client.cliE X return X -> Prop with
  | Client.Vm e => match e in Client.vmE X return X -> Prop with
                   | Client.GetVirtualMachine _ _ => fun x => IsNotFound (snd x) = true
                   | _ => fun _ => True
                   end
  | Client.Ctr e => match e in ctrE X return X -> Prop with
                    | GetContainers _ _ => fun x => IsNotFound (snd x) = true
                    | _ => fun _ => True
                    end
  | _ => fun _ => True
  end.

Lemma asks_effect ns name X (e : Client.cliE X) q env ms :
  unknown ns name ms -> asks ns name X e -> calls X e = Some q ->
  exists x s1, run (traced_handler mgr_local env) q (start ms) = Some (x, s1) /\ own s1 = ms /\ saysMissing X e x.
Proof.
  intros [Hv Hc] Ha Hq. destruct e as [X e|X e| | | | | | | | | | | | | | | |]; try done; destruct e; try done; injection Hq as <-.
  - destruct Ha as [-> ->]. destruct (run_mac env (MacOS.GetVirtualMachine ns name) ms) as [env' ->].
    unfold MacOS.GetVirtualMachine, MacOS.getVirtualMachineInfo. cbn [bind perform run].
    unfold traced_handler at 1. cbn [MacOS.local own start]. rewrite Hv. eexists _, _. split_and!; [reflexivity | by destruct ms | apply NotFound_is].
  - destruct Ha as (-> & -> & Hx). destruct (run_dk env (Docker.GetContainers ns name) ms) as [env' ->].
    specialize (Hc Hx). rewrite ContainerData.view_lookup in Hc.
    assert (ContainerData.outer (docker ms) !! ContainerData.key ns name = None) as Ho
      by (by apply fmap_None in Hc).
    unfold Docker.GetContainers, ContainerData.LoadAll, Docker.cd. cbn [bind perform run lift].
    unfold traced_handler at 1. cbn [Docker.local own start ContainerData.step]. rewrite Ho. eexists _, _. split_and!; [reflexivity | by destruct ms | apply NotFound_is].
Qed.

Definition missing (c : call Client.cliE) : Prop := match c with Call e x => saysMissing _ e x end.

Lemma asks_evolves ns name cs ms ms' :
  unknown ns name ms -> Forall (on_call (asks ns name)) cs -> evolves mgr_local calls cs ms ms' ->
  ms' = ms /\ Forall missing cs.
Proof.
  intros Hu Hp. induction Hp as [|[X e x] cs Ha Hp IH]; simpl; [by intros -> |].
  intros (t1 & He & Hcs). cbn in He. destruct (calls X e) as [q|] eqn:Eq.
  - destruct He as (env & s1 & Hr & ->). destruct (asks_effect ns name X e q env ms Hu Ha Eq) as (x' & s1' & Hr' & Ho & Hm).
    rewrite Hr' in Hr. injection Hr as -> ->. rewrite Ho in Hcs. destruct (IH Hcs). split; [done|]. by constructor.
  - subst t1. destruct (IH Hcs). split; [done|]. constructor; [|done].
    destruct e as [X e|X e| | | | | | | | | | | | | | | |]; try done; by destruct e.
Qed.

(** Nothing is asked of the managers but the two, and the answer is not found. *)
Lemma get_unknown env ns name ms u :
  unknown ns name ms ->
  exists s', run_group env (service _ (Provider.GetVirtualizationGroup ns name)) (start (ms, u)) =
      Some ((None, Some Client.errVirtualizationGroupNotFound), s') /\ own s' = (ms, u).
Proof.
  intros Hu.
  destruct (link_total Client.local mgr_local calls (client_passive Getenv FormatRFC3339) (fun m => m = ms) (asks ns name) env
    (Client.GetVirtualizationGroup hasCtr ns name) ms u) as (r & s' & Hr & env' & c' & Hc & Ho & He & _).
  - intros X e q fenv t Ha Hq ->. destruct (asks_effect ns name X e q fenv ms Hu Ha Hq) as (x & s1 & Hr & Hs1 & _). by exists x, s1.
  - unfold Client.GetVirtualizationGroup. destruct hasCtr eqn:Eh; cbn; repeat first [exact Eh | split | intros].
  - done.
  - intros env'. unfold Client.GetVirtualizationGroup. destruct hasCtr; cbn; by eexists.
  - assert (Forall (on_call (asks ns name)) (rev (trace c'))) as Hp.
    { apply Forall_rev. eapply traced_on_calls; [|exact Hc | constructor].
      unfold Client.GetVirtualizationGroup. destruct hasCtr eqn:Eh; cbn; repeat first [exact Eh | split | intros]. }
    destruct (asks_evolves ns name _ _ _ Hu Hp He) as [Hms Hm]. exists s'.
    assert (own s' = (ms, u) /\ r = (None, Some Client.errVirtualizationGroupNotFound)) as [Ho' ->]; [|by split].
    unfold Client.GetVirtualizationGroup in Hc. destruct hasCtr eqn:Eh; cbn in Hc; injection Hc as <- <-; cbn in Hm, Ho.
    + apply Forall_cons in Hm as [Hm1 Hm]. apply Forall_cons in Hm as [Hm2 _]. simpl in Hm1, Hm2.
      split; [destruct (own s'); simplify_eq/=; by f_equal|]. unfold Client.groupResult. by rewrite Hm1, Hm2.
    + apply Forall_cons in Hm as [Hm2 _]. simpl in Hm2.
      split; [destruct (own s'); simplify_eq/=; by f_equal|]. unfold Client.groupResult. rewrite Hm2. cbn [snd fst IsNotFound].
      by rewrite NotFound_is.
Qed.



(** ** Creation *)

(** No entry of the machines changes or goes. *)
Definition keepsVMs (ms ms' : Managers) : Prop :=
  forall k i, MacOS.vms (macos ms) !! k = Some i -> MacOS.vms (macos ms') !! k = Some i.

#[local] Instance keepsVMs_refl : Reflexive keepsVMs.
Proof. by intros ms k i. Qed.

#[local] Instance keepsVMs_trans : Transitive keepsVMs.
Proof. intros a b c Hab Hbc k i Hi. by apply Hbc, Hab. Qed.

(** Asking for a machine leaves an entry; when there was one, the answer is an error
    and the entry stays. *)
Lemma create_vm_effect env ctx p ms :
  exists x s1, run (traced_handler mgr_local env) (createVirtualMachine ctx p) (start ms) = Some (x, s1) /\
    keepsVMs ms (own s1) /\ is_Some (MacOS.vms (macos (own s1)) !! MacOS.p_key p) /\
    (is_Some (MacOS.vms (macos ms) !! MacOS.p_key p) -> is_Some x).
Proof.
  unfold createVirtualMachine. rewrite run_bind. destruct (run_mac env (MacOS.CreateVirtualMachine p) ms) as [env' ->].
  unfold MacOS.CreateVirtualMachine. cbn [bind perform run]. unfold traced_handler at 1. cbn [MacOS.local own start].
  unfold traced_handler at 1. cbn [MacOS.local own]. unfold VmData.LoadOrStore.
  assert (VmData.key (Namespace (MacOS.p_key p)) (Name (MacOS.p_key p)) = MacOS.p_key p) as -> by (by destruct p).
  destruct (MacOS.vms (macos ms) !! MacOS.p_key p) as [i|] eqn:Ei.
  - cbn. eexists _, _. split_and!; [reflexivity | | cbn; rewrite Ei; by eexists | by eexists]. by intros k j Hj.
  - cbn. eexists _, _. split_and!; [reflexivity | | | by intros [? ?]].
    + intros k j Hj. cbn. rewrite lookup_insert_ne; [done|]. intros <-. by rewrite Ei in Hj.
    + cbn. rewrite lookup_insert_eq. by eexists.
Qed.

Lemma create_ctr_effect env ctx p ms :
  exists x s1, run (traced_handler mgr_local env) (dk (Docker.CreateContainer ctx p)) (start ms) = Some (x, s1) /\
    macos (own s1) = macos ms.
Proof.
  destruct (run_dk env (Docker.CreateContainer ctx p) ms) as [env' ->].
  assert (is_Some (run (traced_handler Docker.local env') (Docker.CreateContainer ctx p) (start (docker ms)))) as [[x s1] ->];
    [|by eexists _, _].
  unfold Docker.CreateContainer, ContainerData.LoadOrStore, Docker.cd. cbn [bind perform run lift].
  unfold traced_handler at 1. cbn [Docker.local own start].
  destruct (ContainerData.step _ _) as [l s1]. cbn [bind run perform]. unfold traced_handler at 1. cbn [Docker.local own].
  destruct (ContainerData.step _ _) as [[i b] s2]. cbn [snd]. destruct b; cbn; by eexists.
Qed.

(** The calls of a creation that reach the managers. *)
Definition creates (k : NamespacedName) X (e : Client.cliE X) : Prop :=
  match e with
  | Client.Vm (Client.CreateVirtualMachine _ p) => MacOS.p_key p = k
  | Client.Ctr (CreateContainer _ _) => True
  | Client.Vm _ | Client.Ctr _ => False
  | _ => True
  end.

Lemma creates_effect k X (e : Client.cliE X) q env ms :
  creates k X e -> calls X e = Some q ->
  exists x s1, run (traced_handler mgr_local env) q (start ms) = Some (x, s1) /\ keepsVMs ms (own s1).
Proof.
  intros Hd Hc. destruct e as [X e|X e| | | | | | | | | | | | | | | |]; try done; destruct e; try done; injection Hc as <-.
  - destruct (create_vm_effect env ctx params ms) as (x & s1 & Hr & Hk & _). by exists x, s1.
  - destruct (create_ctr_effect env ctx params ms) as (x & s1 & Hr & Hk). exists x, s1. split; [done|].
    intros k' i. by rewrite Hk.
Qed.

Lemma creates_keep k X (e : Client.cliE X) q env t x s1 :
  creates k X e -> calls X e = Some q -> run (traced_handler mgr_local env) q (start t) = Some (x, s1) ->
  keepsVMs t (own s1).
Proof.
  intros Hd Hc Hr. destruct (creates_effect k X e q env t Hd Hc) as (x' & s1' & Hr' & Hk).
  rewrite Hr' in Hr. by injection Hr as <- <-.
Qed.

Lemma createVM_call c g p r : ClientProofs.obs_of c = Some (ClientProofs.OCreateVM g p r) ->
  c = Call (Client.Vm (Client.CreateVirtualMachine g p)) r.
Proof.
  destruct c as [X e x]. destruct e as [X e|X e| | | | | | | | | | | | | | | |]; try done; destruct e; try done.
  by intros [= -> -> ->].
Qed.

(** A machine that was asked for is there at the end; and the answer was an error if it
    was there from the start. *)
Lemma asked_for k g p r ms ms' (c' : traced Client.cliE Client.VzClientAPIs) :
  evolves mgr_local calls (rev (trace c')) ms ms' -> Forall (on_call (creates k)) (rev (trace c')) ->
  ClientProofs.OCreateVM g p r ∈ ClientProofs.seen c' ->
  is_Some (MacOS.vms (macos ms') !! k) /\ (is_Some (MacOS.vms (macos ms) !! k) -> is_Some r).
Proof.
  intros He Hp (cl & Hin & ->%createVM_call)%seen_call.
  destruct (evolves_elem mgr_local calls keepsVMs (creates k) _ _ _ _ (creates_keep k) He Hp Hin) as (t1 & t2 & R1 & Heff & R2).
  rewrite Forall_forall in Hp. specialize (Hp _ Hin). simpl in Hp. subst k.
  destruct Heff as (env & s1 & Hr & ->). destruct (create_vm_effect env g p t1) as (x & s1' & Hr' & _ & [i Hi] & Hx).
  rewrite Hr' in Hr. injection Hr as -> ->. split.
  - exists i. by apply R2.
  - intros [j Hj]. apply Hx. exists j. by apply R1.
Qed.

Section Pod.
Variables (pod : K8s.Pod) (token : string) (cms : gmap string K8s.ConfigMap) (creds : Creds.RegistryCredentialStore).
Abbreviation k := (Client.podKey pod).
Abbreviation create ctx := (Provider.CreateVirtualizationGroup ctx pod token cms creds).
Abbreviation root := (Client.getPodVolumeRoot cachePath pod).

Lemma mountsOf_creates r c : all_ops (creates k) (Client.mountsOf pod token cms r c).
Proof. by apply all_ops_lift. Qed.

Lemma createOne_ops r c call :
  (forall mounts, all_ops (creates k) (call mounts)) -> all_ops (creates k) (Client.createOne pod token cms r c call).
Proof.
  intros Hc. unfold Client.createOne. apply all_ops_bind; [apply mountsOf_creates|].
  intros [[e|]|mounts]; [done | done |]. by apply all_ops_bind.
Qed.

Lemma runGroup_ops l first :
  Forall (all_ops (creates k)) l -> all_ops (creates k) (Client.runGroup l first).
Proof.
  revert first. induction l as [|p l IH]; intros first Hl; cbn [Client.runGroup]; [done|].
  inversion_clear Hl. apply all_ops_bind; [done|]. intros [e|]; [by apply IH | done].
Qed.

Lemma creation_ops ctx : all_ops (creates k) (method _ (create ctx)).
Proof.
  cbn [Provider.vzClient]. unfold Client.CreateVirtualizationGroup. apply all_ops_bind; [by split|]. intros ex.
  apply all_ops_bind.
  - unfold Client.createBody. destruct (_ && _); [done|]. destruct (K8s.pod_Containers pod) as [|c cs]; [done|].
    destruct (Client.validate _ _ _ _ _ c) as [e|[cpu mem]]; [done|].
    apply all_ops_bind; [by split|]. intros gctx. apply all_ops_bind; [by split|]. intros [].
    apply all_ops_bind; [by split|]. intros []. unfold Client.group. apply all_ops_bind; [by split|]. intros o.
    apply runGroup_ops. rewrite ClientProofs.arrange_perm. constructor.
    + apply createOne_ops. by split.
    + apply Forall_map, Forall_forall. intros c' _. apply createOne_ops. by split.
  - intros [[e|]|]; [|done|done]. apply all_ops_bind; [|done]. unfold Client.createCleanup.
    apply all_ops_bind; [by split|]. intros []. apply all_ops_bind; [by split|]. intros x.
    apply all_ops_bind; [by split|]. intros a. by destruct (Client.cancelFunc x).
Qed.

(** The client's run under a creation of the whole. *)
Lemma creation_runs env ctx ms u :
  (forall env', is_Some (run_client env' (method _ (create ctx)) (start u))) ->
  exists r s' env' c', run_group env (service _ (create ctx)) (start (ms, u)) = Some (r, s') /\
    run_client env' (method _ (create ctx)) (start u) = Some (r, c') /\ own c' = snd (own s') /\
    evolves mgr_local calls (rev (trace c')) ms (fst (own s')) /\ Forall (on_call (creates k)) (rev (trace c')) /\
    keepsVMs ms (fst (own s')).
Proof.
  intros Ht. destruct (link_total Client.local mgr_local calls (client_passive Getenv FormatRFC3339) (fun _ => True) (creates k) env
    (method _ (create ctx)) ms u) as (r & s' & Hr & env' & c' & Hc & Ho & He & _); [| apply creation_ops | done | exact Ht |].
  { intros X e q fenv t Hd Hq _. destruct (creates_effect k X e q fenv t Hd Hq) as (x & s1 & Hr & _). by exists x, s1. }
  assert (Forall (on_call (creates k)) (rev (trace c'))) as Hp
    by (apply Forall_rev; eapply traced_on_calls; [apply creation_ops | exact Hc | constructor]).
  exists r, s', env', c'. split_and!; try done.
  exact (evolves_rel mgr_local calls keepsVMs (creates k) _ _ _ (creates_keep k) He Hp).
Qed.

(** A machine that its manager knows and the client does not. *)
Definition orphan (s : Managers * Client.VzClientAPIs) : Prop :=
  is_Some (MacOS.vms (macos (fst s)) !! k) /\ Client.extras (snd s) !! k = None.

(** C39: a creation in which a sidecar cannot be prepared (a config map it mounts was
    not fetched) fails, but the machine that was asked for meanwhile stays: its
    manager has an entry for the pod and the client has forgotten the group. *)
Theorem failed_sidecar_orphans_machine env ctx ms u c cs c' cpu mem :
  Volumes.itemsHaveFields pod -> K8s.pod_Containers pod = c :: cs -> hasCtr = true ->
  Client.validate maxCPU minCPU maxMemory minMemory NewRepository c = inr (cpu, mem) ->
  K8s.ct_VolumeMounts c = [] -> c' ∈ cs -> ~ Forall (Volumes.mountFetched pod cms) (K8s.ct_VolumeMounts c') ->
  exists e s', run_group env (service _ (create ctx)) (start (ms, u)) = Some (Client.Returned (Some e), s') /\
    orphan (own s').
Proof.
  intros Hi Hc Hctr Hv Hm Hin Hf.
  pose proof (fun env' => ClientProofs.create_failing env' Getenv cachePath hasCtr maxCPU minCPU maxMemory minMemory imageDomain
    NewRepository pod token cms creds ctx u c cs c' cpu mem Hi Hc Hctr Hv Hm Hin Hf) as Hcl.
  destruct (creation_runs env ctx ms u) as (r & s' & env' & c1 & Hr & Hrc & Ho & He & Hp & _).
  { intros env'. destruct (Hcl env') as (e & s1 & Hrun & _). by eexists. }
  destruct (Hcl env') as (e & s1 & Hrun & (g & p & rv & Hseen) & Hx).
  cbn [Provider.vzClient] in Hrc. rewrite Hrun in Hrc. injection Hrc as <- <-.
  exists e, s'. split; [done|]. split; [|by rewrite <- Ho]. by apply (asked_for k g p rv ms _ s1).
Qed.

(** C40: there is no way out of that state through the client: every creation of the
    pod, whatever it then contains, fails and leaves the state as bad as it was; every
    deletion answers not found without touching the managers, so the machine stays. *)
Theorem orphan_is_stuck env ctx gp ms u :
  orphan (ms, u) ->
  (Volumes.itemsHaveFields pod -> K8s.pod_Containers pod <> [] ->
     exists e s', run_group env (service _ (create ctx)) (start (ms, u)) = Some (Client.Returned (Some e), s') /\
       orphan (own s') /\ keepsVMs ms (fst (own s'))) /\
  exists s', run_group env (service _ (Provider.DeleteVirtualizationGroup ctx (K8s.pod_Namespace pod) (K8s.pod_Name pod) gp))
      (start (ms, u)) = Some (Some Client.errVirtualizationGroupNotFound, s') /\ own s' = (ms, u).
Proof.
  intros [Hvm Hx]. split.
  - intros Hi Hne.
    pose proof (fun env' => ClientProofs.create_returns env' Getenv cachePath hasCtr maxCPU minCPU maxMemory minMemory imageDomain
      NewRepository pod token cms creds ctx u Hi Hne) as Hcl.
    destruct (creation_runs env ctx ms u) as (r & s' & env' & c1 & Hr & Hrc & Ho & He & Hp & Hk).
    { intros env'. destruct (Hcl env') as (e & s1 & Hrun & _). by eexists. }
    destruct (Hcl env') as (re & s1 & Hrun & Hpost).
    cbn [Provider.vzClient] in Hrc. rewrite Hrun in Hrc. injection Hrc as <- <-.
    destruct re as [e|].
    + exists e, s'. split_and!; [done | | done]. destruct Hvm as [i Hvm]. split; [exists i; by apply Hk | by rewrite <- Ho].
    + destruct Hpost as (g & p & Hseen). destruct (asked_for k g p None ms _ s1 He Hp Hseen) as [_ Hn]. by destruct (Hn Hvm).
  - by apply delete_unregistered_group.
Qed.

End Pod.


(** ** The provider's deletion *)

(** A hook changes nothing that the components keep. *)
Definition execs X (e : Client.cliE X) : Prop :=
  match e with
  | Client.Vm (Client.ExecInVirtualMachine _ _ _ _ a) => a = Some Node.DiscardingExecIO
  | Client.Ctr (ExecInContainer _ _ _ _ _ a) => a = Some Node.DiscardingExecIO
  | Client.Ctr (IsContainerPresent _ _ _) => True
  | _ => False
  end.

Lemma execs_effect X (e : Client.cliE X) q env ms :
  execs X e -> calls X e = Some q ->
  exists x s1, run (traced_handler mgr_local env) q (start ms) = Some (x, s1) /\ own s1 = ms.
Proof.
  intros Ha Hc. destruct e as [X e|X e| | | | | | | | | | | | | | | |]; try done; destruct e; try done; simpl in Ha; subst;
    injection Hc as <-.
  - apply run_mac_quiet. eapply MacOSProofs.quiet_on_quiet, MacOSProofs.quiet_exec.
  - apply run_dk_quiet, DockerProofs.docker_quiet_exec.
  - destruct (run_dk env (Docker.IsContainerPresent ns name containerName) ms) as [env' ->].
    unfold Docker.IsContainerPresent, ContainerData.Load, Docker.cd. cbn [bind perform run lift].
    unfold traced_handler at 1. cbn [Docker.local own start ContainerData.step].
    destruct (ContainerData.outer (docker ms) !! _) as [l|]; cbn; eexists _, _; (split; [reflexivity | by destruct ms]).
Qed.

Lemma exec_ops ctx ns pod c cmd :
  all_ops execs (Client.ExecuteContainerCommand hasCtr ctx ns pod c cmd (Some Node.DiscardingExecIO)).
Proof.
  unfold Client.ExecuteContainerCommand, Client.isSidecar. destruct hasCtr; cbn; repeat first [done | split | intros [|] | intros].
Qed.

Lemma hook_effect env ctx ns pod c cmd ms u :
  exists x s', run_group env (service _ (Provider.ExecuteContainerCommand ctx ns pod c cmd (Some Node.DiscardingExecIO)))
      (start (ms, u)) = Some (x, s') /\ own s' = (ms, u).
Proof.
  destruct (link_total Client.local mgr_local calls (client_passive Getenv FormatRFC3339) (fun m => m = ms) execs env
    (Client.ExecuteContainerCommand hasCtr ctx ns pod c cmd (Some Node.DiscardingExecIO)) ms u)
    as (x & s' & Hr & env' & c' & Hc & Ho & He & _).
  - intros X e q fenv t Ha Hq ->. by apply execs_effect with (X := X) (e := e).
  - apply exec_ops.
  - done.
  - intros env'. destruct (ClientProofs.exec_routing env' hasCtr ctx ns pod c cmd (Some Node.DiscardingExecIO) u)
      as (s1 & x & -> & _). by eexists.
  - exists x, s'. split; [done|].
    destruct (ClientProofs.exec_routing env' hasCtr ctx ns pod c cmd (Some Node.DiscardingExecIO) u) as (s1 & x1 & Hc1 & Hu & _).
    rewrite Hc in Hc1. injection Hc1 as <- <-.
    assert (Forall (on_call execs) (rev (trace c'))) as Hp.
    { apply Forall_rev. eapply traced_on_calls; [apply exec_ops | exact Hc | constructor]. }
    assert (fst (own s') = ms) as Hms.
    { symmetry. apply (evolves_rel mgr_local calls eq execs _ _ _) with (2 := He); [|done].
      intros X e q fenv t y s2 Ha Hq Hr2. destruct (execs_effect X e q fenv t Ha Hq) as (y' & s2' & Hr2' & Ho2).
      rewrite Hr2' in Hr2. injection Hr2 as <- <-. by rewrite Ho2. }
    rewrite (surjective_pairing (own s')). by rewrite Hms, <- Ho, Hu.
Qed.

Section PodDeletion.
Variables (ns name : string).
Abbreviation k := (VmData.key ns name).
Abbreviation pcalls := (provider_calls Getenv cachePath hasCtr maxCPU minCPU maxMemory minMemory imageDomain NewRepository FormatRFC3339).
Abbreviation whole := (whole Getenv cachePath hasCtr maxCPU minCPU maxMemory minMemory imageDomain NewRepository FormatRFC3339).

(** Nobody deletes the pod's group, if there is one. *)
Definition settled (s : Managers * Client.VzClientAPIs) : Prop :=
  sound k (fst s) /\ forall ex, Client.extras (snd s) !! k = Some ex -> ClientProofs.idle ns name (snd s) ex.

Lemma gone_unregistered s s' : gone ns name s s' -> Client.extras (snd s') !! k = None.
Proof. intros Hg. rewrite (gone_extras _ _ _ _ Hg). apply lookup_delete_eq. Qed.

Lemma gone_settled s s' : gone ns name s s' -> settled s'.
Proof.
  intros Hg. split; [apply (gone_sound _ _ _ _ Hg)|]. intros ex. by rewrite (gone_unregistered _ _ Hg).
Qed.

Lemma gone_trans s1 s2 s3 : gone ns name s1 s2 -> gone ns name s2 s3 -> gone ns name s1 s3.
Proof.
  intros [V1 C1 X1 _] [V2 C2 X2 S2]. split; [by eapply vm_removed_trans | | by rewrite X2, X1, delete_delete_eq | done].
  destruct hasCtr; [by eapply ctr_removed_trans | by rewrite C2, C1].
Qed.

Lemma group_delete_effect env ctx gp s :
  settled s ->
  exists x s1, run_group env (service _ (Provider.DeleteVirtualizationGroup ctx ns name gp)) (start s) = Some (x, s1) /\
    (is_Some (Client.extras (snd s) !! k) -> gone ns name s (own s1)) /\
    (Client.extras (snd s) !! k = None -> own s1 = s /\ is_Some x).
Proof.
  intros [Hs Hi]. destruct s as [ms u]. cbn [fst snd] in *. destruct (Client.extras u !! k) as [ex|] eqn:Ex.
  - destruct (group_deleted env ctx ns name gp ms u ex (Hi ex eq_refl) Hs) as (x & s1 & Hr & Hg).
    exists x, s1. split_and!; [exact Hr | by intros _ | done].
  - destruct (delete_unregistered_group env ctx ns name gp ms u Ex) as (s1 & Hr & Ho).
    eexists _, s1. split_and!; [exact Hr | by intros [? ?] | by intros _].
Qed.

(** The provider's calls that a deletion of the pod makes. *)
Definition drops X (e : Provider.pvE X) : Prop :=
  match e with
  | Provider.Vz (Provider.DeleteVirtualizationGroup _ ns' name' _) => ns' = ns /\ name' = name
  | Provider.Vz (Provider.ExecuteContainerCommand _ _ _ _ _ a) => a = Some Node.DiscardingExecIO
  | Provider.Vz _ => False
  | _ => True
  end.

Definition dropping (s s' : Managers * Client.VzClientAPIs) : Prop :=
  settled s -> settled s' /\ upto (gone ns name) s s'.

#[local] Instance dropping_refl : Reflexive dropping.
Proof. intros s Hs. split; [done | by left]. Qed.

#[local] Instance dropping_trans : Transitive dropping.
Proof.
  intros a b c Hab Hbc Hs. destruct (Hab Hs) as (Hs1 & G1). destruct (Hbc Hs1) as (Hs2 & G2).
  split; [done|]. eapply upto_trans; [apply gone_trans | done | done].
Qed.

Lemma drops_effect X (e : Provider.pvE X) q env s :
  drops X e -> pcalls X e = Some q -> settled s ->
  exists x s1, run_group env q (start s) = Some (x, s1) /\ settled (own s1) /\ upto (gone ns name) s (own s1).
Proof.
  intros Hd Hq Hs. destruct e as [X e|X e| | | | |]; try done; destruct e; try done; injection Hq as <-.
  - destruct Hd as [-> ->]. destruct (group_delete_effect env ctx gracePeriod s Hs) as (x & s1 & Hr & H1 & H2).
    exists x, s1. split; [exact Hr|]. destruct (Client.extras (snd s) !! k) as [ex|].
    + split; [by eapply gone_settled, H1 | right; by apply H1].
    + destruct (H2 eq_refl) as [-> _]. split; [done | by left].
  - simpl in Hd. subst attach. destruct s as [ms u].
    destruct (hook_effect env ctx ns0 podName containerName cmd ms u) as (x & s1 & Hr & Ho).
    exists x, s1. rewrite Ho. split_and!; [exact Hr | done | by left].
Qed.

Lemma drops_dropping X (e : Provider.pvE X) q env t x s1 :
  drops X e -> pcalls X e = Some q -> run_group env q (start t) = Some (x, s1) -> dropping t (own s1).
Proof.
  intros Hd Hc Hr Hs. destruct (drops_effect X e q env t Hd Hc Hs) as (x' & s1' & Hr' & Hk).
  rewrite Hr' in Hr. by injection Hr as <- <-.
Qed.

End PodDeletion.

#[local] Existing Instances dropping_refl dropping_trans.

Abbreviation whole := (whole Getenv cachePath hasCtr maxCPU minCPU maxMemory minMemory imageDomain NewRepository FormatRFC3339).
Abbreviation run_node env := (run (traced_handler (node_local) env)).

Lemma pod_deletion_ops ctx pod :
  all_ops (drops (K8s.pod_Namespace pod) (K8s.pod_Name pod)) (Provider.handleDeletePod ctx pod).
Proof.
  unfold Provider.handleDeletePod. apply all_ops_bind.
  - destruct (Provider.runsHooks pod); [|done]. apply all_ops_bind; [|done]. unfold Provider.handlePreStopHooks.
    apply all_ops_bind; [by split|]. intros c. apply all_ops_bind; [by split|]. intros o.
    apply all_ops_bind; [|intros r; by split].
    generalize (Client.arrange o (Provider.preStopCommands pod)) (None : option error). intros l.
    induction l as [|h l IH]; intros first; cbn [foldM]; [done|]. apply all_ops_bind; [|intros b; apply IH].
    split; [done|]. intros [e|]; cbn; [by split | done].
  - intros fast. split; [done|]. intros [e|]; cbn; [done|]. destruct fast; cbn; [by split | done].
Qed.



(** ** Deletions of one group at once, all the way down *)

(** The steps that take the pod out of the stores. *)
Definition dropsVM X (e : mgrE X) : bool := match e with Mac (MacOS.VmsDelete _) => true | _ => false end.
Definition dropsCtrs X (e : mgrE X) : bool := match e with Dk (Docker.Cd (ContainerData.OLoadAndDelete _)) => true | _ => false end.

Abbreviation atMost isD := (crit isD (fun _ _ _ => None) (fun _ _ => false) free).

Definition isVmsDelete X (e : MacOS.macE X) : bool := match e with MacOS.VmsDelete _ => true | _ => false end.
Definition isLoadAndDelete X (e : Docker.dkE X) : bool :=
  match e with Docker.Cd (ContainerData.OLoadAndDelete _) => true | _ => false end.

Ltac none_tac :=
  repeat first
    [ exact I | reflexivity
    | match goal with
      | |- all_ops _ (bind _ _) => apply all_ops_bind; [|intros]
      | |- all_ops _ (perform _) => apply all_ops_perform
      | |- all_ops _ (match ?x with _ => _ end) => destruct x
      end ].

Lemma delete_vm_once ctx ns name gp :
  atMost isVmsDelete 1 (MacOS.DeleteVirtualMachine Getenv ctx ns name gp).
Proof.
  unfold MacOS.DeleteVirtualMachine. apply (crit_bind _ _ _ _ _ _ 0 1); [apply atMost_none; none_tac|].
  intros [i|]; [|done]. apply (crit_bind _ _ _ _ _ _ 0 1); [apply atMost_none; none_tac|]. intros [].
  apply (crit_bind _ _ _ _ _ _ 0 1).
  { apply atMost_none. unfold MacOS.stopVirtualMachine. none_tac.
    eapply all_ops_mono; [|eapply MacOSProofs.quiet_on_quiet, MacOSProofs.quiet_graceful]. intros X e. by destruct e. }
  intros err. apply (crit_bind _ _ _ _ _ _ 0 1); [apply atMost_none; none_tac|]. intros [].
  apply (crit_bind _ _ _ _ _ _ 0 1); [apply atMost_none; unfold MacOS.releasePermit; none_tac|]. intros [].
  simpl. unfold price, free. simpl. split_and!; [done | done | lia | done].
Qed.

Lemma remove_ctrs_once ns name gp : atMost isLoadAndDelete 1 (Docker.RemoveContainers ns name gp).
Proof.
  unfold Docker.RemoveContainers. apply (crit_bind _ _ _ _ _ _ 1 0).
  - unfold Docker.cd, ContainerData.LoadAndDelete. simpl. unfold price, free. simpl. split_and!; [done | done | lia |].
    intros [l|]; simpl; [|done]. unfold price. simpl. split_and!; [done | done | lia | done].
  - intros [m|]; [|done]. apply atMost_none, all_ops_bind; [|done].
    generalize (map_to_list m) ([] : list error). intros l. induction l as [|ci l IH]; intros es; cbn [foldM]; [done|].
    apply all_ops_bind; [|intros; apply IH]. unfold Docker.removeOne. none_tac.
Qed.

(** What a deletion's call does with each store. *)
Lemma deletes_once k ex isD isDF X (e : Client.cliE X) q :
  (isD = ClientProofs.isDeleteVM /\ isDF = dropsVM) \/ (isD = ClientProofs.isRemoveCtrs /\ isDF = dropsCtrs) ->
  deletes k X e -> calls X e = Some q ->
  (forall x, ClientProofs.wins ex X e x = None) /\ (forall x, ClientProofs.loadsEx ex X e x) /\
  atMost isDF (if isD X e then 1 else 0) q.
Proof.
  intros HD Hd Hc. destruct e as [X e|X e| | | | | | | | | | | | | | | |]; try done; destruct e; try done; injection Hc as <-;
    (split_and!; [done | done |]); destruct HD as [[-> ->]|[-> ->]]; cbn [ClientProofs.isDeleteVM ClientProofs.isRemoveCtrs].
  - apply (atMost_lift _ _ isVmsDelete); [by intros Y e; destruct e | apply delete_vm_once].
  - apply (atMost_lift _ _ (fun _ _ => false)); [done | by apply atMost_none, all_ops_any].
  - apply (atMost_lift _ _ (fun _ _ => false)); [done | by apply atMost_none, all_ops_any].
  - apply (atMost_lift _ _ isLoadAndDelete); [by intros Y e; destruct e | apply remove_ctrs_once].
Qed.

Abbreviation drops_of isDF := (count (S := Managers * Client.VzClientAPIs) (isD_over (E := Client.cliE) isDF)).

Lemma dropped_once isD isDF env ns name ms u ex reqs c :
  (isD = ClientProofs.isDeleteVM /\ isDF = dropsVM) \/ (isD = ClientProofs.isRemoveCtrs /\ isDF = dropsCtrs) ->
  Client.extras u = {[VmData.key ns name := ex]} ->
  rtc (pool_step (traced_handler group_local env) (option error) (fun _ _ => []))
    (map (linked calls) (map (fun '(ctx, gp) => Client.DeleteVirtualizationGroup hasCtr ctx ns name gp) reqs), start (ms, u)) c ->
  (drops_of isDF (snd c) <= 1)%nat.
Proof.
  intros HD Hx.
  apply (at_most_once_linked calls isD (ClientProofs.wins ex) ClientProofs.foreign (ClientProofs.loadsEx ex) isDF
    (deletes (VmData.key ns name))) with (J := ClientProofs.onlyEx ex) (fresh := ClientProofs.freshOnce ex).
  - intros X e q Hd Hq. exact (deletes_once (VmData.key ns name) ex isD isDF X e q HD Hd Hq).
  - apply ClientProofs.onlyEx_step.
  - apply ClientProofs.client_wins_step.
  - apply ClientProofs.client_fresh_step.
  - intros k r. rewrite Hx, lookup_singleton_Some. by intros [_ ->].
  - apply Forall_map, Forall_forall. intros [ctx gp] _. split; [apply deletion_ops|].
    apply ClientProofs.guarded_delete. destruct HD as [[-> _]|[-> _]]; auto.
Qed.

(** C4: however many deletions of one registered group run at once, with whatever
    contexts and grace periods, and however the steps of the client and of the managers
    interleave: the pod's machine is taken out of its store at most once, and its
    containers out of theirs at most once. *)
Theorem group_dropped_once env ns name ms u ex reqs c :
  Client.extras u = {[VmData.key ns name := ex]} ->
  rtc (pool_step (traced_handler group_local env) (option error) (fun _ _ => []))
    (map (fun '(ctx, gp) => service _ (Provider.DeleteVirtualizationGroup ctx ns name gp)) reqs, start (ms, u)) c ->
  (drops_of dropsVM (snd c) <= 1)%nat /\ (drops_of dropsCtrs (snd c) <= 1)%nat.
Proof.
  intros Hx Hr.
  assert (map (fun '(ctx, gp) => service _ (Provider.DeleteVirtualizationGroup ctx ns name gp)) reqs =
    map (linked calls) (map (fun '(ctx, gp) => Client.DeleteVirtualizationGroup hasCtr ctx ns name gp) reqs)) as Hreqs
    by (rewrite map_map; apply map_ext; by intros [ctx gp]).
  rewrite Hreqs in Hr. split; eapply dropped_once; eauto.
Qed.

End Proofs.

(** ** A concrete world, for the witnesses *)

(** The virtualization framework refuses, the engine and the file system work. *)
Definition world : oracle (over mgrE Client.cliE) := fun X n e =>
  match e with
  | Below e =>
      match e in mgrE X return X with
      | Mac e => MacOSProofs.failing _ n e
      | Dk e => DockerProofs.works _ n e
      | GoCreation _ _ => tt
      end
  | Here e => ClientProofs.works _ n e
  end.

Definition cluster : oracle (over (over mgrE Client.cliE) Provider.pvE) := fun X n e =>
  match e with Below e => world _ n e | Here e => Provider.sample_env _ n e end.

(** A pod with a machine that holds a permit, and one sidecar. *)
Definition sample_ms : Managers :=
  {| macos := MacOSProofs.mk ∅ (VmData.key "ci" "p") (MacOS.withPermit true MacOSProofs.sample_info) 1 ∅;
     docker := {| ContainerData.outer := {[VmData.key "ci" "p" := 0%nat]};
                  ContainerData.heap := {[0%nat := {["redis" := {| ContainerData.ID := "c1"; ContainerData.CError := None |}]}]};
                  ContainerData.next := 1%nat |} |}.

Lemma sample_sound : sound (VmData.key "ci" "p") sample_ms.
Proof.
  split; [apply Nat.leb_le; vm_compute; reflexivity|]. split; simpl.
  - intros k1 k2 l. rewrite !lookup_singleton_Some. by intros [<- _] [<- _].
  - intros k l. rewrite lookup_singleton_Some. intros [_ <-]. lia.
Qed.

Lemma sample_idle : ClientProofs.idle "ci" "p" ClientProofs.sample_state 0%nat.
Proof. split; [|split; [|split]]; vm_compute; reflexivity. Qed.

Abbreviation sample_service := (@service ClientProofs.noTable errdefs_model (fun _ => "") "/cache" true 8%Z 1%Z
  17179869184%Z 1073741824%Z (fun _ => None) (fun _ => None) (fun _ => "")).

Abbreviation sample_deletion := (Provider.DeleteVirtualizationGroup 0%nat "ci" "p" 30%Z).

Lemma system_refines_client_witness :
  exists r env' c', run (traced_handler Client.local env')
    (@Client.DeleteVirtualizationGroup errdefs_model true 0%nat "ci" "p" 30%Z) (start ClientProofs.sample_state) = Some (r, c').
Proof.
  destruct (run (traced_handler group_local world) (sample_service _ sample_deletion)
    (start (sample_ms, ClientProofs.sample_state))) as [[r s']|] eqn:E.
  - destruct (@system_refines_client _ _ _ _ _ _ _ _ _ _ _ _ world _ sample_deletion sample_ms ClientProofs.sample_state r s' E)
      as (env' & c' & H1 & _).
    exists r, env', c'. exact H1.
  - vm_compute in E. discriminate.
Defined.


Lemma sample_settled : settled "ci" "p" (sample_ms, ClientProofs.sample_state).
Proof. split; [exact sample_sound|]. intros ex [= <-]. exact sample_idle. Qed.

Abbreviation sample_node := (@whole ClientProofs.noTable errdefs_model (fun _ => "") "/cache" true 8%Z 1%Z
  17179869184%Z 1073741824%Z (fun _ => None) (fun _ => None) (fun _ => "") _).


(** A pod whose sidecar mounts a projected config map, and a machine that mounts
    nothing. *)
Definition mounting : K8s.Container :=
  {| K8s.ct_Name := "redis"; K8s.ct_Image := "img"; K8s.ct_ImagePullPolicy := K8s.PullAlways; K8s.ct_Command := [];
     K8s.ct_Args := []; K8s.ct_WorkingDir := ""; K8s.ct_Env := [];
     K8s.ct_VolumeMounts := [{| K8s.vmt_Name := "cfg"; K8s.vmt_MountPath := "/etc/cfg"; K8s.vmt_SubPath := "";
                                K8s.vmt_ReadOnly := true |}];
     K8s.ct_Requests := ∅; K8s.ct_Lifecycle := None; K8s.ct_TTY := false; K8s.ct_Stdin := false; K8s.ct_StdinOnce := false |}.

Definition projected : list K8s.VolumeProjection :=
  [{| K8s.vp_ServiceAccountToken := None;
      K8s.vp_ConfigMap := Some {| K8s.cmp_Name := "settings"; K8s.cmp_Items := [] |}; K8s.vp_DownwardAPI := None |}].

Definition mounting_pod : K8s.Pod :=
  {| K8s.pod_Namespace := "ci"; K8s.pod_Name := "p"; K8s.pod_UID := "u1"; K8s.pod_CreationTimestamp := 50%Z;
     K8s.pod_DeletionTimestamp := None; K8s.pod_DeletionGracePeriodSeconds := None;
     K8s.pod_Containers := [ClientProofs.sample_c (Some 4%Z); mounting];
     K8s.pod_Volumes := [{| K8s.vol_Name := "cfg"; K8s.vol_Source :=
       {| K8s.vs_HostPath := None; K8s.vs_EmptyDir := false; K8s.vs_Projected := Some projected |} |}];
     K8s.pod_ImagePullSecrets := []; K8s.pod_ServiceAccountName := ""; K8s.pod_AutomountServiceAccountToken := Some false;
     K8s.pod_Status := K8s.pod_Status PodStatus.sample_pod |}.

Lemma mounting_items : Volumes.itemsHaveFields mounting_pod.
Proof.
  intros v srcs s items it Hv Hs Hi. simpl in Hv. apply list_elem_of_singleton in Hv as ->. injection Hs as <-.
  apply list_elem_of_singleton in Hi as ->. done.
Qed.

Lemma mounting_not_fetched : ~ Forall (Volumes.mountFetched mounting_pod ∅) (K8s.ct_VolumeMounts mounting).
Proof.
  intros Hm. inversion_clear Hm as [|? ? Hf _]. specialize (Hf _ projected eq_refl eq_refl eq_refl eq_refl).
  inversion_clear Hf as [|? ? Hs _]. cbn in Hs. rewrite lookup_empty in Hs. by destruct Hs.
Qed.

Abbreviation sample_creation := (Provider.CreateVirtualizationGroup 0%nat mounting_pod "tok" ∅
  (Creds.NewRegistryCredentialStore None [])).

Lemma failed_sidecar_orphans_machine_witness :
  exists e s', run (traced_handler group_local world) (sample_service _ sample_creation) (start (newManagers, Client.noExtras)) =
      Some (Client.Returned (Some e), s') /\ orphan mounting_pod (own s').
Proof.
  exact (@failed_sidecar_orphans_machine ClientProofs.noTable errdefs_model (fun _ => "") "/cache" true 8%Z 1%Z
    17179869184%Z 1073741824%Z (fun _ => None) (fun _ => None) (fun _ => "") mounting_pod "tok" ∅
    (Creds.NewRegistryCredentialStore None []) world 0%nat newManagers Client.noExtras (ClientProofs.sample_c (Some 4%Z))
    [mounting] mounting 4%Z 8589934592%Z mounting_items eq_refl eq_refl ltac:(vm_compute; reflexivity) eq_refl
    ltac:(left) mounting_not_fetched).
Defined.

(** The state that creation leaves. *)
Definition orphaned : Managers * Client.VzClientAPIs := (sample_ms, Client.noExtras).

Lemma orphan_is_stuck_witness :
  exists e s1 s2,
    run (traced_handler group_local world) (sample_service _ sample_creation) (start orphaned) =
      Some (Client.Returned (Some e), s1) /\
    run (traced_handler group_local world) (sample_service _ sample_deletion) (start orphaned) =
      Some (Some Client.errVirtualizationGroupNotFound, s2) /\ own s2 = orphaned.
Proof.
  destruct (@orphan_is_stuck ClientProofs.noTable errdefs_model (fun _ => "") "/cache" true 8%Z 1%Z
    17179869184%Z 1073741824%Z (fun _ => None) (fun _ => None) (fun _ => "") mounting_pod "tok" ∅
    (Creds.NewRegistryCredentialStore None []) world 0%nat 30%Z sample_ms Client.noExtras) as [Hc (s2 & H2 & H3)].
  - split; [eexists; vm_compute; reflexivity | reflexivity].
  - destruct (Hc mounting_items ltac:(discriminate)) as (e & s1 & H1 & _).
    exists e, s1, s2. split; [exact H1 | split; [exact H2 | exact H3]].
Defined.


(** Two deletions, interleaved: the second waits for the first, which is under way. *)
Definition sample_reqs : list (prog (over mgrE Client.cliE) (option error)) :=
  map (fun '(ctx, gp) => sample_service _ (Provider.DeleteVirtualizationGroup ctx "ci" "p" gp)) [(0%nat, 30%Z); (1%nat, 0%Z)].

Definition sample_pool : option (config (E := over mgrE Client.cliE) (option error)) :=
  sched (traced_handler group_local world) (option error) (fun _ _ => []) [0; 1; 0; 0; 0; 0; 0; 0; 0; 0; 0]%nat
    (sample_reqs, start (sample_ms, ClientProofs.sample_state)).

Lemma group_dropped_once_witness :
  exists c, sample_pool = Some c /\
    (count (S := Managers * Client.VzClientAPIs) (isD_over (E := Client.cliE) dropsVM) (snd c) <= 1)%nat.
Proof.
  assert (is_some sample_pool = true) as Hs by (vm_compute; reflexivity).
  destruct sample_pool as [c|] eqn:E; [|discriminate]. exists c. split; [reflexivity|].
  exact (proj1 (@group_dropped_once ClientProofs.noTable errdefs_model (fun _ => "") "/cache" true 8%Z 1%Z
    17179869184%Z 1073741824%Z (fun _ => None) (fun _ => None) (fun _ => "") world "ci" "p" sample_ms ClientProofs.sample_state 0%nat
    [(0%nat, 30%Z); (1%nat, 0%Z)] c eq_refl (sched_rtc _ _ _ _ _ _ E))).
Defined.

End SystemProofs.
