(* ===== verification/Metrics.v ===== *)
(** * pkg/metrics: the statistics of the node

    [GetStatsSummary] scrapes every running pod in its own goroutine, and keeps the set
    of the pods whose scrape fails so that a log line is written when that changes; its
    state is behind a mutex, so a call runs alone.  A goroutine's slot in the results is
    its pod's position; the goroutines run one after the other in an order that the
    oracle chooses.  The collector turns a summary into the samples of one scrape; the
    registry that gathers them is the library's. *)
From Stdlib Require Import ZArith Lia Permutation.
From Stdlib Require Import Ascii String.
From stdpp Require Import base list gmap strings.
From S2P Require Import Prelude GoStrings GoFormat GoErrors GoTime Prog Utils Resource K8s Volumes NodeIO Stores.
From S2P Require Import ClientApi Client ClientProofs Provider.
Local Open Scope string_scope.
Local Open Scope go_scope.

Module Metrics.
Import Api.

(** ** The collector *)

(** [stats.PodStats] and [stats.Summary]: the fields the code writes. *)
Record PodStats := {
  ref_Name : string;
  ref_Namespace : string;
  ref_UID : string;
  st_StartTime : Time.t;
  st_Containers : list ContainerStats
}.

Record Summary := { sum_NodeName : string; sum_Pods : list PodStats }.

Inductive Kind := CounterValue | GaugeValue.

(** A sample as it is sent on the channel. *)
Record Metric := {
  m_Name : string;
  m_Kind : Kind;
  m_Value : F64.t;
  m_Labels : list (string * string);
  m_Time : option Time.t
}.

(* src/pkg/metrics/collectors/kubelet_resource_metrics.go : 10-32 containerCPUUsageDesc *)
Definition containerCPUUsageDesc : string := "container_cpu_usage_seconds_total".
Definition containerMemoryUsageDesc : string := "container_memory_working_set_bytes".
Definition resourceScrapeResultDesc : string := "scrape_error".

Definition sampleLabels (pod : PodStats) (s : ContainerStats) : list (string * string) :=
  [("container", sc_Name s); ("pod", ref_Name pod); ("namespace", ref_Namespace pod)].

(* src/pkg/metrics/collectors/kubelet_resource_metrics.go : resourceMetricsCollector.collectContainerCPUMetrics *)
Definition collectContainerCPUMetrics (pod : PodStats) (s : ContainerStats) : list Metric :=
  match sc_UsageCoreNanoSeconds s with
  | None => []
  | Some v =>
      [{| m_Name := containerCPUUsageDesc; m_Kind := CounterValue;
          m_Value := F64.div (F64.of_Z v) (F64.of_Z Time.Second);
          m_Labels := sampleLabels pod s; m_Time := Some (sc_Time s) |}]
  end.

(* src/pkg/metrics/collectors/kubelet_resource_metrics.go : resourceMetricsCollector.collectContainerMemoryMetrics *)
Definition collectContainerMemoryMetrics (pod : PodStats) (s : ContainerStats) : list Metric :=
  match sc_WorkingSetBytes s with
  | None => []
  | Some v =>
      [{| m_Name := containerMemoryUsageDesc; m_Kind := GaugeValue; m_Value := F64.of_Z v;
          m_Labels := sampleLabels pod s; m_Time := Some (sc_Time s) |}]
  end.

(* src/pkg/metrics/collectors/kubelet_resource_metrics.go : resourceMetricsCollector.DescribeWithStability *)
Definition DescribeWithStability : list string :=
  [containerCPUUsageDesc; containerMemoryUsageDesc; resourceScrapeResultDesc].

(** The counter of errors is never changed. *)
(* src/pkg/metrics/collectors/kubelet_resource_metrics.go : resourceMetricsCollector.CollectWithStability *)
Definition CollectWithStability (summary : Summary) : list Metric :=
  (flat_map (fun pod =>
     flat_map (fun c => collectContainerCPUMetrics pod c ++ collectContainerMemoryMetrics pod c) (st_Containers pod))
     (sum_Pods summary)
   ++ [{| m_Name := resourceScrapeResultDesc; m_Kind := GaugeValue; m_Value := F64.of_Z 0;
          m_Labels := []; m_Time := None |}])%list.

(** Only what was described is collected. *)
Lemma collected_described summary m : m ∈ CollectWithStability summary -> m_Name m ∈ DescribeWithStability.
Proof.
  unfold CollectWithStability, DescribeWithStability. rewrite elem_of_app, list_elem_of_singleton.
  intros [Hm| ->]; [|set_solver]. apply list_elem_of_In, in_flat_map in Hm as (pod & _ & Hm).
  apply in_flat_map in Hm as (c & _ & Hm). apply in_app_iff in Hm as [Hm|Hm].
  - unfold collectContainerCPUMetrics in Hm. destruct (sc_UsageCoreNanoSeconds c); [|done]. destruct Hm as [<-|[]]. set_solver.
  - unfold collectContainerMemoryMetrics in Hm. destruct (sc_WorkingSetBytes c); [|done]. destruct Hm as [<-|[]]. set_solver.
Qed.

(** ** The provider *)

(* src/pkg/metrics/metrics.go : MacOSVZPodMetricsProvider *)
Record MacOSVZPodMetricsProvider := { nodeName : string; failingPods : gset string }.

(* src/pkg/metrics/metrics.go : NewMacOSVZPodMetricsProvider *)
Definition NewMacOSVZPodMetricsProvider (nodeName : string) : MacOSVZPodMetricsProvider :=
  {| nodeName := nodeName; failingPods := ∅ |}.

Inductive mtE : Type -> Type :=
| Get : mtE MacOSVZPodMetricsProvider
| SetFailing (s : gset string) : mtE unit
| Vz {X : Type} (e : Provider.vzE X) : mtE X
| ListPods : mtE (list K8s.Pod * option error)
| CtxErr : mtE (option error)                          (* select: ctx.Done; or ctx.Err() *)
| Order : mtE (list nat)
| LogInfo (msg : string) : mtE unit
| LogWarn (msg : string) (e : error) : mtE unit
| Gather (ms : list Metric) : mtE (list Metric + error).   (* the registry's families *)

Definition local : local_handler mtE MacOSVZPodMetricsProvider := fun X e =>
  match e in mtE X return X -> MacOSVZPodMetricsProvider -> option (X * MacOSVZPodMetricsProvider) with
  | Get => fun _ s => Some (s, s)
  | SetFailing f => fun _ s => Some (tt, {| nodeName := nodeName s; failingPods := f |})
  | _ => fun x s => Some (x, s)
  end.

Definition exec (env : oracle mtE) {A} (p : prog mtE A) s := run (traced_handler local env) p (start s).

(** What a scrape left in its slot: statistics, or the error of the pod. *)
(* src/pkg/metrics/metrics.go : podStat *)
Record podStat := { pod : K8s.Pod; outcome : PodStats + error }.

(** A container without a start time gets the pod's creation. *)
Definition fillStart (t : Time.t) (c : ContainerStats) : ContainerStats :=
  if Time.IsZero (sc_StartTime c) then
    {| sc_Name := sc_Name c; sc_StartTime := t; sc_Time := sc_Time c; sc_UsageNanoCores := sc_UsageNanoCores c;
       sc_UsageCoreNanoSeconds := sc_UsageCoreNanoSeconds c; sc_UsageBytes := sc_UsageBytes c;
       sc_WorkingSetBytes := sc_WorkingSetBytes c; sc_RSSBytes := sc_RSSBytes c |}
  else c.

Definition podStats (p : K8s.Pod) (cs : list ContainerStats) : PodStats :=
  {| ref_Name := K8s.pod_Name p; ref_Namespace := K8s.pod_Namespace p; ref_UID := K8s.pod_UID p;
     st_StartTime := K8s.pod_CreationTimestamp p;
     st_Containers := map (fillStart (K8s.pod_CreationTimestamp p)) cs |}.

Definition slotOf (p : K8s.Pod) (r : error + list ContainerStats) : podStat :=
  {| pod := p; outcome := match r with inl e => inr e | inr cs => inl (podStats p cs) end |}.

(** How a goroutine ends: the scrape is over for all, the slot is filled, or a panic. *)
Inductive scraped := Fatal (e : error) | Slot (s : podStat) | Panicked.

(** One goroutine. *)
Definition scrapePod (p : K8s.Pod) : prog mtE scraped :=
  c <- perform CtxErr ;;
  match c with
  | Some e => Ret (Fatal e)
  | None =>
      r <- perform (Vz (Provider.GetVirtualizationGroupStats (K8s.pod_Namespace p) (K8s.pod_Name p)
                          (map K8s.ct_Name (K8s.pod_Containers p)))) ;;
      match r with
      | None => Ret Panicked
      | Some (inl e) =>
          c <- perform CtxErr ;;
          match c with Some e => Ret (Fatal e) | None => Ret (Slot (slotOf p (inl e))) end
      | Some (inr cs) => Ret (Slot (slotOf p (inr cs)))
      end
  end.

Definition isRunning (p : K8s.Pod) : bool := bool_decide (K8s.ps_Phase (K8s.pod_Status p) = K8s.PodRunning).

(** The pods that are dispatched, with their positions. *)
Definition dispatched (pods : list K8s.Pod) : list (nat * K8s.Pod) :=
  List.filter (fun ip => isRunning (snd ip)) (imap pair pods).

(** All goroutines, and [g.Wait]: the slots and the first error; [None] is a panic. *)
Fixpoint runScrapes (l : list (nat * K8s.Pod)) (results : list (option podStat)) (first : option error)
  : prog mtE (option (list (option podStat) * option error)) :=
  match l with
  | [] => Ret (Some (results, first))
  | (i, p) :: l =>
      r <- scrapePod p ;;
      match r with
      | Panicked => Ret None
      | Fatal e => runScrapes l results (match first with Some _ => first | None => Some e end)
      | Slot s => runScrapes l (<[i := Some s]> results) first
      end
  end.

Definition podName (p : K8s.Pod) : string := K8s.pod_Namespace p ++ "/" ++ K8s.pod_Name p.

(** One slot: the pods so far, and the pods that fail now. *)
Definition consume (was : gset string) (acc : list PodStats * gset string) (r : option podStat)
  : prog mtE (list PodStats * gset string) :=
  match r with
  | None => Ret acc
  | Some r =>
      let wasFailing := bool_decide (K8s.pod_UID (pod r) ∈ was) in
      match outcome r with
      | inl st =>
          (if wasFailing
           then perform (LogInfo ("virtualization group stats recovered for pod " ++ podName (pod r))) else Ret tt) ;;
          Ret (fst acc ++ [st], snd acc)%list
      | inr e =>
          (if wasFailing then Ret tt
           else perform (LogWarn ("virtualization group stats failing for pod " ++ podName (pod r)
                                  ++ "; skipping until it recovers") e)) ;;
          Ret (fst acc, {[K8s.pod_UID (pod r)]} ∪ snd acc)
      end
  end.

(** [None] is a panic. *)
(* src/pkg/metrics/metrics.go : MacOSVZPodMetricsProvider.GetStatsSummary *)
Definition GetStatsSummary : prog mtE (option (Summary + error)) :=
  c <- perform CtxErr ;;
  match c with
  | Some e => Ret (Some (inr e))
  | None =>
      l <- perform ListPods ;;
      let pods := fst l in
      o <- perform Order ;;
      g <- runScrapes (Client.arrange o (dispatched pods)) (replicate (List.length pods) None) None ;;
      match g with
      | None => Ret None
      | Some (_, Some e) => Ret (Some (inr (Errorf "failed to get stats for all pods" e)))
      | Some (results, None) =>
          s <- perform Get ;;
          r <- foldM (consume (failingPods s)) results ([], ∅) ;;
          (match snd l with None => perform (SetFailing (snd r)) | Some _ => Ret tt end) ;;
          Ret (Some (inl {| sum_NodeName := nodeName s; sum_Pods := fst r |}))
      end
  end.

(* src/pkg/metrics/metrics.go : MacOSVZPodMetricsProvider.GetMetricsResource *)
Definition GetMetricsResource : prog mtE (option (list Metric + error)) :=
  r <- GetStatsSummary ;;
  match r with
  | None => Ret None
  | Some (inr e) => Ret (Some (inr (Errorf "error fetching MetricsResource" e)))
  | Some (inl s) =>
      g <- perform (Gather (CollectWithStability s)) ;;
      Ret (Some (match g with inr e => inr (Errorf "error gathering metrics" e) | inl f => inl f end))
  end.

(** ** Observations *)

Inductive Log := Recovered (p : string) | Failing (p : string).

(** The statistics that were asked for, with the answers, and the edges that were
    logged, in order. *)
Definition asked (c : call mtE) : option (string * string * option (error + list ContainerStats)) :=
  match c with
  | Call e x =>
      match e in mtE X return X -> option (string * string * option (error + list ContainerStats)) with
      | Vz e => match e in Provider.vzE X return X -> option (string * string * option (error + list ContainerStats)) with
                | Provider.GetVirtualizationGroupStats ns name _ => fun r => Some (ns, name, r)
                | _ => fun _ => None
                end
      | _ => fun _ => None
      end x
  end.

Definition logged (c : call mtE) : option (bool * string) :=
  match c with
  | Call (LogInfo m) _ => Some (false, m)
  | Call (LogWarn m _) _ => Some (true, m)
  | _ => None
  end.

Definition askedAll (tr : list (call mtE)) := rev (omap asked tr).
Definition loggedAll (tr : list (call mtE)) := rev (omap logged tr).

(** ** The reference: one running pod after the other *)

Definition statsOf (s : podStat) : option PodStats := match outcome s with inl st => Some st | inr _ => None end.
Definition failingOf (s : podStat) : option string :=
  match outcome s with inl _ => None | inr _ => Some (K8s.pod_UID (pod s)) end.

(** The line for a slot, given the pods that failed before. *)
Definition edgeOf (was : gset string) (s : podStat) : option (bool * string) :=
  match outcome s, bool_decide (K8s.pod_UID (pod s) ∈ was) with
  | inl _, true => Some (false, "virtualization group stats recovered for pod " ++ podName (pod s))
  | inr _, false => Some (true, "virtualization group stats failing for pod " ++ podName (pod s)
                                ++ "; skipping until it recovers")
  | _, _ => None
  end.

Definition ask (p : K8s.Pod) (a : error + list ContainerStats) : string * string * option (error + list ContainerStats) :=
  (K8s.pod_Namespace p, K8s.pod_Name p, Some a).

Section Spec.
Variable env : oracle mtE.
Abbreviation hdl := (traced_handler local env).

Definition put (r : list (option podStat)) (x : (nat * K8s.Pod) * (error + list ContainerStats)) : list (option podStat) :=
  <[fst (fst x) := Some (slotOf (snd (fst x)) (snd x))]> r.

Lemma runScrapes_spec l results first n tr u :
  exists out n' tr', run hdl (runScrapes l results first) (Traced n tr u) = Some (out, Traced n' tr' u) /\
    loggedAll tr' = loggedAll tr /\
    match out with
    | None => exists ns name, (ns, name, None) ∈ askedAll tr'
    | Some (_, Some e) => first = Some e \/ exists k, env _ k CtxErr = Some e
    | Some (res, None) =>
        first = None /\ exists ans, List.length ans = List.length l /\
          askedAll tr' = (askedAll tr ++ zip_with ask (map snd l) ans)%list /\
          res = foldl put results (zip l ans)
    end.
Proof.
  revert results first n tr. induction l as [|[i p] l IH]; intros results first n tr.
  { exists (Some (results, first)), n, tr. split_and!; [done | done |].
    destruct first; [by left|]. split; [done|]. exists []. by rewrite app_nil_r. }
  cbn. destruct (env _ n CtxErr) as [e|] eqn:E1; cbn.
  { edestruct IH as (out & n' & tr' & Hr & Hl & Ho). eexists out, n', tr'. split; [exact Hr|]. split; [exact Hl|].
    destruct out as [[res [e'|]]|]; [|by destruct first, Ho|done].
    destruct Ho as [Ho|Ho]; [|by right]. destruct first; [by left | right; exists n; congruence]. }
  destruct (env _ (S n) (Vz _)) as [[e|cs]|] eqn:E2; cbn.
  3: { eexists None, _, _. split_and!; [done | done |]. eexists _, _. unfold askedAll. cbn.
       rewrite elem_of_app. right. apply list_elem_of_singleton. reflexivity. }
  - destruct (env _ (S (S n)) CtxErr) as [e'|] eqn:E3; cbn.
    { edestruct IH as (out & n' & tr' & Hr & Hl & Ho). eexists out, n', tr'. split; [exact Hr|]. split; [exact Hl|].
      destruct out as [[res [e2|]]|]; [|by destruct first, Ho|done].
      destruct Ho as [Ho|Ho]; [|by right]. destruct first; [by left | right; exists (S (S n)); congruence]. }
    edestruct IH as (out & n' & tr' & Hr & Hl & Ho). eexists out, n', tr'. split; [exact Hr|]. split; [exact Hl|].
    destruct out as [[res [e2|]]|]; [exact Ho | | done]. destruct Ho as (Hf & ans & Hlen & Ha & Hres).
    split; [done|]. exists (inl e :: ans). cbn. split; [by rewrite Hlen|]. split; [|exact Hres].
    rewrite Ha. unfold askedAll. cbn. by rewrite <- app_assoc.
  - edestruct IH as (out & n' & tr' & Hr & Hl & Ho). eexists out, n', tr'. split; [exact Hr|]. split; [exact Hl|].
    destruct out as [[res [e2|]]|]; [exact Ho | | done]. destruct Ho as (Hf & ans & Hlen & Ha & Hres).
    split; [done|]. exists (inr cs :: ans). cbn. split; [by rewrite Hlen|]. split; [|exact Hres].
    rewrite Ha. unfold askedAll. cbn. by rewrite <- app_assoc.
Qed.

Lemma consume_spec was results acc n tr u :
  exists n' tr' acc', run hdl (foldM (consume was) results acc) (Traced n tr u) = Some (acc', Traced n' tr' u) /\
    askedAll tr' = askedAll tr /\
    loggedAll tr' = (loggedAll tr ++ omap (edgeOf was) (omap id results))%list /\
    fst acc' = (fst acc ++ omap statsOf (omap id results))%list /\
    snd acc' = list_to_set (omap failingOf (omap id results)) ∪ snd acc.
Proof.
  revert acc n tr. induction results as [|[r|] results IH]; intros acc n tr.
  - exists n, tr, acc. cbn. rewrite !app_nil_r. split_and!; try done. set_solver.
  - cbn [foldM]. unfold consume at 1. destruct (outcome r) as [st|e] eqn:Eo.
    + destruct (bool_decide (K8s.pod_UID (pod r) ∈ was)) eqn:Ew; cbn;
        edestruct IH as (n' & tr' & acc' & Hr & Ha & Hl & Hf & Hs); eexists n', tr', acc';
        (split; [exact Hr|]); rewrite Ha, Hl, Hf, Hs; unfold edgeOf, statsOf, failingOf; rewrite Eo, ?Ew;
        unfold loggedAll; cbn; rewrite <- ?app_assoc; split_and!; done.
    + destruct (bool_decide (K8s.pod_UID (pod r) ∈ was)) eqn:Ew; cbn;
        edestruct IH as (n' & tr' & acc' & Hr & Ha & Hl & Hf & Hs); eexists n', tr', acc';
        (split; [exact Hr|]); rewrite Ha, Hl, Hf, Hs; unfold edgeOf, statsOf, failingOf; rewrite Eo, ?Ew;
        unfold loggedAll; cbn; rewrite <- ?app_assoc; split_and!; try done; set_solver.
  - cbn [foldM consume bind]. apply IH.
Qed.

(** *** The slots *)

Definition keysOf (z : list ((nat * K8s.Pod) * (error + list ContainerStats))) : list nat := map (fun x => fst (fst x)) z.
Definition slotsOf (z : list ((nat * K8s.Pod) * (error + list ContainerStats))) : list podStat :=
  map (fun x => slotOf (snd (fst x)) (snd x)) z.

Lemma put_length z r : List.length (foldl put r z) = List.length r.
Proof. revert r. induction z as [|x z IH]; intros r; [done|]. cbn. rewrite IH. apply length_insert. Qed.

Lemma slot_other z r i : i ∉ keysOf z -> foldl put r z !! i = r !! i.
Proof.
  revert r. induction z as [|x z IH]; intros r; [done|]. cbn [keysOf map].
  intros [Hne Hi]%not_elem_of_cons. cbn. rewrite IH by done. unfold put. by rewrite list_lookup_insert_ne by congruence.
Qed.

Lemma put_lookup z r i p a :
  NoDup (keysOf z) -> (forall x, x ∈ z -> (fst (fst x) < List.length r)%nat) ->
  ((i, p), a) ∈ z -> foldl put r z !! i = Some (Some (slotOf p a)).
Proof.
  revert r. induction z as [|x z IH]; intros r; [by rewrite elem_of_nil|].
  cbn [keysOf map]. intros [Hn Hd]%NoDup_cons Hb [<-|Hin]%elem_of_cons; cbn.
  - rewrite slot_other by done. unfold put. apply list_lookup_insert_eq. apply (Hb (i, p, a)). left.
  - apply IH; [done| |done]. intros y Hy. unfold put. rewrite length_insert. apply Hb. by right.
Qed.

Lemma key_bound k pods i p :
  (i, p) ∈ List.filter (fun ip => isRunning (snd ip)) (imap (fun j => pair (k + j)%nat) pods) ->
  (k <= i < k + List.length pods)%nat.
Proof.
  intros Hin%list_elem_of_In. apply filter_In in Hin as [Hin%list_elem_of_In _].
  apply elem_of_lookup_imap in Hin as (j & q & [= -> ->] & Hj). apply lookup_lt_Some in Hj. lia.
Qed.

Lemma dispatched_cons k p pods :
  List.filter (fun ip => isRunning (snd ip)) (imap (fun j => pair (k + j)%nat) (p :: pods)) =
  ((if isRunning p then [(k, p)] else []) ++
   List.filter (fun ip => isRunning (snd ip)) (imap (fun j => pair (S k + j)%nat) pods))%list.
Proof.
  cbn [imap List.filter snd]. rewrite Nat.add_0_r.
  assert (imap ((fun j => pair (k + j)%nat) ∘ S) pods = imap (fun j => pair (S k + j)%nat) pods) as ->.
  { apply imap_ext. intros j x _. cbn. f_equal. lia. }
  by destruct (isRunning p).
Qed.

Lemma slots_in_order pods k z res :
  map fst z = List.filter (fun ip => isRunning (snd ip)) (imap (fun j => pair (k + j)%nat) pods) ->
  List.length res = List.length pods ->
  (forall j p a, ((k + j, p)%nat, a) ∈ z -> res !! j = Some (Some (slotOf p a))) ->
  (forall j, (j < List.length pods)%nat -> (k + j)%nat ∉ keysOf z -> res !! j = Some None) ->
  omap id res = slotsOf z.
Proof.
  revert k z res. induction pods as [|p pods IH]; intros k z res Hz Hl Hin Hout.
  { destruct res; [|done]. by destruct z. }
  destruct res as [|r res]; [done|]. rewrite dispatched_cons in Hz.
  assert (forall z', map fst z' = List.filter (fun ip => isRunning (snd ip)) (imap (fun j => pair (S k + j)%nat) pods) ->
            (forall x, x ∈ z' -> x ∈ z) -> (forall j, (S k + j)%nat ∈ keysOf z -> (S k + j)%nat ∈ keysOf z') ->
            omap id res = slotsOf z') as Htail.
  { intros z' Hz' Hsub Hkeys. apply (IH (S k)); [done | by injection Hl | |].
    - intros j q a Hj. apply (Hin (S j)). replace (k + S j)%nat with (S k + j)%nat by lia. by apply Hsub.
    - intros j Hj Hnot. apply (Hout (S j)); [simpl; lia|]. replace (k + S j)%nat with (S k + j)%nat by lia.
      intros Hk. by apply Hnot, Hkeys. }
  destruct (isRunning p) eqn:Ep; cbn [app] in Hz.
  - destruct z as [|[ip a] z]; [done|]. injection Hz as -> Hz.
    assert (r = Some (slotOf p a)) as ->.
    { specialize (Hin 0 p a). rewrite Nat.add_0_r in Hin. specialize (Hin ltac:(left)). cbn in Hin. congruence. }
    cbn. f_equal. apply Htail; [done | intros x Hx; by right |].
    intros j [Hj|Hj]%elem_of_cons; [simpl in Hj; lia | done].
  - assert (r = None) as ->.
    { specialize (Hout 0 ltac:(simpl; lia)). rewrite Nat.add_0_r in Hout. cbn in Hout.
      assert (k ∉ keysOf z) as Hk; [|specialize (Hout Hk); congruence].
      intros Hk. unfold keysOf in Hk. apply list_elem_of_In, in_map_iff in Hk as ([[i q] a] & Hi & Hx).
      apply (in_map fst) in Hx. rewrite Hz in Hx. apply list_elem_of_In, (key_bound (S k)) in Hx. simpl in Hi. lia. }
    cbn. apply Htail; [done | done | done].
Qed.

Lemma dispatched_keys pods : NoDup (map fst (dispatched pods)).
Proof.
  unfold dispatched. change (imap pair pods) with (imap (fun j => pair (0 + j)%nat) pods).
  generalize 0%nat. induction pods as [|p pods IH]; intros k; [constructor|].
  rewrite dispatched_cons. specialize (IH (S k)). destruct (isRunning p); [|done].
  cbn. constructor; [|done]. intros ([i q] & Hi & Hx)%list_elem_of_In%in_map_iff.
  apply list_elem_of_In, (key_bound (S k)) in Hx. simpl in Hi. lia.
Qed.

Lemma dispatched_pods pods : map snd (dispatched pods) = List.filter isRunning pods.
Proof.
  unfold dispatched. change (imap pair pods) with (imap (fun j => pair (0 + j)%nat) pods).
  generalize 0%nat. induction pods as [|p pods IH]; intros k; [done|].
  rewrite dispatched_cons, map_app, IH. cbn [List.filter]. by destruct (isRunning p).
Qed.

(** Whatever the order of the goroutines, the slots are those of the running pods in
    the order of the list, each with the answer that its pod was given. *)
Lemma results_in_order pods l ans :
  l ≡ₚ dispatched pods -> List.length ans = List.length l ->
  exists ans', List.length ans' = List.length (List.filter isRunning pods) /\
    zip_with ask (map snd l) ans ≡ₚ zip_with ask (List.filter isRunning pods) ans' /\
    omap id (foldl put (replicate (List.length pods) None) (zip l ans))
    = zip_with slotOf (List.filter isRunning pods) ans'.
Proof.
  intros Hp Hlen. set (z := zip l ans).
  assert (map fst z = l) as Hfst by (apply fst_zip; lia).
  assert (map snd z = ans) as Hsnd by (apply snd_zip; lia). clearbody z.
  destruct (Permutation_map_inv fst z (l1 := dispatched pods)) as (z0 & Hz0 & Hzz).
  { by rewrite Hfst, Hp. }
  exists (map snd z0).
  assert (forall {B} (f : K8s.Pod -> error + list ContainerStats -> B)
              (zs : list ((nat * K8s.Pod) * (error + list ContainerStats))),
            zip_with f (map snd (map fst zs)) (map snd zs) = map (fun x => f (snd (fst x)) (snd x)) zs) as Hzw.
  { intros B f zs. induction zs as [|x zs IH]; [done|]. cbn. by rewrite IH. }
  assert (keysOf z ≡ₚ keysOf z0) as Hk by (unfold keysOf; by rewrite Hzz).
  assert (NoDup (keysOf z)) as Hnd.
  { rewrite Hk. unfold keysOf. rewrite <- (map_map fst fst), <- Hz0. apply dispatched_keys. }
  assert (forall x, x ∈ z -> (fst (fst x) < List.length pods)%nat) as Hb.
  { intros [[i p] a] Hx. rewrite Hzz in Hx. apply list_elem_of_In, (in_map fst) in Hx. rewrite <- Hz0 in Hx.
    apply list_elem_of_In, (key_bound 0) in Hx. simpl. lia. }
  split_and!.
  - rewrite length_map, <- (length_map fst z0), <- Hz0, <- (length_map snd), dispatched_pods. done.
  - rewrite <- dispatched_pods, Hz0, Hzw. rewrite <- Hfst, <- Hsnd, Hzw. by rewrite Hzz.
  - rewrite <- dispatched_pods, Hz0, Hzw. apply (slots_in_order pods 0).
    + by rewrite <- Hz0.
    + by rewrite put_length, length_replicate.
    + intros j p a Hj. apply put_lookup; [done | by rewrite length_replicate |]. by rewrite Hzz.
    + intros j Hj Hn. rewrite slot_other by (by rewrite Hk). by apply lookup_replicate_2.
Qed.

(** C26: the summary of a scrape is that of the sequential reference, whatever the order of
    the goroutines: every running pod is asked once; the summary has the statistics of
    those that answered, in the order of the list; a pod that fails is left out, logged
    only when it starts to fail and again when it recovers, and remembered unless the
    list itself failed; only the end of the scrape's own context makes it fail, and then
    nothing is remembered or logged. *)
Theorem summary_equiv s :
  exists r s', exec env GetStatsSummary s = Some (r, s') /\
    match r with
    | None => exists ns name, (ns, name, None) ∈ askedAll (trace s')
    | Some (inr e) => own s' = s /\ loggedAll (trace s') = [] /\
        exists k c, env _ k CtxErr = Some c /\ (e = c \/ e = Errorf "failed to get stats for all pods" c)
    | Some (inl sm) =>
        let '(pods, listErr) := env _ 1%nat ListPods in
        let running := List.filter isRunning pods in
        exists ans, List.length ans = List.length running /\
          askedAll (trace s') ≡ₚ zip_with ask running ans /\
          let slots := zip_with slotOf running ans in
          sum_Pods sm = omap statsOf slots /\ sum_NodeName sm = nodeName s /\
          loggedAll (trace s') = omap (edgeOf (failingPods s)) slots /\
          own s' = {| nodeName := nodeName s;
                      failingPods := if is_some listErr then failingPods s
                                     else list_to_set (omap failingOf slots) |}
    end.
Proof.
  unfold exec, start, GetStatsSummary. cbn. destruct (env _ 0%nat CtxErr) as [e|] eqn:E0; cbn.
  { eexists _, _. split; [done|]. cbn. split_and!; [done | done |]. exists 0%nat, e. by split; [|left]. }
  destruct (env _ 1%nat ListPods) as [pods listErr] eqn:El. cbn.
  set (o := env (list nat) 2%nat Order). rewrite run_bind. fold (dispatched pods).
  destruct (runScrapes_spec (Client.arrange o (dispatched pods)) (replicate (List.length pods) None) None 3%nat
              [Call Order o; Call ListPods (pods, listErr); Call CtxErr None] s) as (out & n' & tr' & -> & Hl & Ho).
  destruct out as [[res [e|]]|]; cbn.
  - destruct Ho as [|[k Hk]]; [done|]. eexists _, _. split; [done|]. cbn. split_and!; [done | exact Hl |].
    exists k, e. split; [done | by right].
  - destruct Ho as (_ & ans & Hlen & Ha & Hres). rewrite run_bind.
    destruct (consume_spec (failingPods s) res ([], ∅) (S n') (Call Get s :: tr') s)
      as (n2 & tr2 & acc & -> & Ha2 & Hl2 & Hf & Hs).
    destruct (results_in_order pods _ ans (ClientProofs.arrange_perm o _) Hlen) as (ans' & Hlen' & Hask & Hslots).
    rewrite <- Hres in Hslots. rewrite Hslots in Hl2, Hf, Hs.
    assert (askedAll tr2 ≡ₚ zip_with ask (List.filter isRunning pods) ans') as Hask2.
    { rewrite Ha2. change (askedAll (Call Get s :: tr')) with (askedAll tr'). rewrite Ha.
      change (askedAll _) with (@nil (string * string * option (error + list ContainerStats))) at 1. exact Hask. }
    assert (loggedAll tr2 = omap (edgeOf (failingPods s)) (zip_with slotOf (List.filter isRunning pods) ans')) as Hlog.
    { rewrite Hl2. change (loggedAll (Call Get s :: tr')) with (loggedAll tr'). by rewrite Hl. }
    destruct listErr as [e|]; cbn; eexists _, _; (split; [done|]); cbn;
      exists ans'; (split; [done|]); (split; [exact Hask2|]); rewrite Hf, ?Hs; cbn;
      split_and!; try done; [by destruct s | by rewrite union_empty_r_L].
  - destruct Ho as (ns & name & Hin). by eexists _, _; split; [done|]; exists ns, name.
Qed.

End Spec.

(** The error sample is zero whatever could not be scraped: a pod that fails has no
    samples and does not count. *)
Lemma scrape_error_zero sm :
  exists l, CollectWithStability sm = (l ++ [{| m_Name := resourceScrapeResultDesc; m_Kind := GaugeValue;
                                                m_Value := F64.of_Z 0; m_Labels := []; m_Time := None |}])%list /\
  Forall (fun m => m_Name m <> resourceScrapeResultDesc /\ is_Some (m_Time m)) l.
Proof.
  eexists. split; [done|]. apply Forall_flat_map, Forall_forall. intros p _.
  apply Forall_flat_map, Forall_forall. intros c _.
  unfold collectContainerCPUMetrics, collectContainerMemoryMetrics.
  destruct (sc_UsageCoreNanoSeconds c), (sc_WorkingSetBytes c); cbn; repeat constructor; done || by eexists.
Qed.

(** Nanoseconds become core seconds. *)
Example core_seconds :
  let c := {| sc_Name := "c"; sc_StartTime := 0%Z; sc_Time := 7%Z; sc_UsageNanoCores := None;
              sc_UsageCoreNanoSeconds := Some 2500000000%Z; sc_UsageBytes := None;
              sc_WorkingSetBytes := None; sc_RSSBytes := None |} in
  let p := {| ref_Name := "p"; ref_Namespace := "n"; ref_UID := "u"; st_StartTime := 0%Z; st_Containers := [c] |} in
  map m_Value (collectContainerCPUMetrics p c) = [F64.div (F64.of_Z 5) (F64.of_Z 2)].
Proof. vm_compute. reflexivity. Qed.

End Metrics.
