(* ===== verification/NodeCfg.v ===== *)
(** * pkg/provider/vk_node.go: the node that virtual-kubelet registers

    [ConfigureNode] fills a node object from what the host says, which the oracle
    answers; the provider remembers the address it found.  A node is returned as it is
    when an error comes up: what was written before stays. *)
From Stdlib Require Import ZArith Lia.
From Stdlib Require Import Ascii String.
From stdpp Require Import base list gmap strings.
From S2P Require Import Prelude GoStrings GoFormat GoErrors GoTime Prog Utils Resource NetUtil K8s Stores MacOS ClientApi.
From S2P Require Import Client Provider.
Local Open Scope string_scope.
Local Open Scope go_scope.

Module NodeCfg.
Import Provider.

(* src/pkg/provider/vk_node.go : 25-32 DefaultPods *)
Definition DefaultPods : Z := Z.of_nat MacOS.MaxVirtualMachines.
Definition LabelCPUModelName : string := "feature.node.kubernetes.io/cpu-model.name".

(** The label and resource names of [corev1]. *)
Definition LabelNodeExcludeBalancers : string := "node.kubernetes.io/exclude-from-external-load-balancers".
Definition LabelOSStable : string := "kubernetes.io/os".
Definition LabelArchStable : string := "kubernetes.io/arch".

Inductive NodeConditionType := NodeReady | NodeMemoryPressure | NodeDiskPressure | NodeNetworkUnavailable | NodePIDPressure.

Record NodeCondition := {
  nc_Type : NodeConditionType;
  nc_Status : bool;
  nc_LastHeartbeatTime : Time.t;
  nc_LastTransitionTime : Time.t;
  nc_Reason : string;
  nc_Message : string
}.

Inductive AddressType := NodeInternalIP | NodeHostName.

(** [corev1.Node]: the fields the code writes; the labels of a node without any are a
    nil map. *)
Record Node := {
  Labels : option (gmap string string);
  Capacity : gmap string Z;
  Allocatable : gmap string Z;
  Conditions : list NodeCondition;
  Addresses : list (AddressType * string);
  KubeletPort : Z;
  MachineID : string;
  KernelVersion : string;
  OSImage : string;
  ContainerRuntimeVersion : string;
  OperatingSystem : string;
  Architecture : string
}.

(** [host.InfoStat] of gopsutil. *)
Record InfoStat := {
  HostID : string;
  hi_KernelVersion : string;
  OS : string;
  Platform : string;
  PlatformVersion : string;
  KernelArch : string
}.

Inductive ndE : Type -> Type :=
| GetProvider : ndE MacOSVZProvider
| SetIPAddress (ip : string) : ndE unit
| MemTotal : ndE (Z + error)                       (* uint64 *)
| CpuCounts : ndE (Z + error)                      (* int *)
| DiskTotal : ndE (Z + error)                      (* uint64 *)
| Interfaces : ndE (list NetUtil.InterfaceStat + error)
| HostInfo : ndE (InfoStat + error)
| CpuInfo : ndE (list string + error)              (* the model names *)
| Now : ndE Time.t
| Warn (msg : string) (e : option error) : ndE unit.

Definition local : local_handler ndE MacOSVZProvider := fun X e =>
  match e in ndE X return X -> MacOSVZProvider -> option (X * MacOSVZProvider) with
  | GetProvider => fun _ p => Some (p, p)
  | SetIPAddress ip => fun _ p =>
      Some (tt, {| nodeName := nodeName p; nodeIPAddress := ip; platform := platform p;
                   daemonEndpointPort := daemonEndpointPort p |})
  | _ => fun x p => Some (x, p)
  end.

Definition exec (env : oracle ndE) {A} (q : prog ndE A) (p : MacOSVZProvider) := run (traced_handler local env) q (start p).

(* src/pkg/provider/vk_node.go : getNodeCapacity *)
Definition getNodeCapacity : prog ndE (gmap string Z + error) :=
  v <- perform MemTotal ;;
  match v with
  | inr e => Ret (inr e)
  | inl total =>
      c <- perform CpuCounts ;;
      match c with
      | inr e => Ret (inr e)
      | inl count =>
          d <- perform DiskTotal ;;
          match d with
          | inr e => Ret (inr e)
          | inl disk =>
              Ret (inl {["cpu" := count; "memory" := wrap_i64 total; "ephemeral-storage" := wrap_i64 disk;
                         "pods" := DefaultPods]})
          end
      end
  end.

Definition condition (t : NodeConditionType) (status : bool) (reason message : string) : prog ndE NodeCondition :=
  h <- perform Now ;;
  x <- perform Now ;;
  Ret {| nc_Type := t; nc_Status := status; nc_LastHeartbeatTime := h; nc_LastTransitionTime := x;
         nc_Reason := reason; nc_Message := message |}.

(* src/pkg/provider/vk_node.go : getNodeConditions *)
Definition getNodeConditions : prog ndE (list NodeCondition) :=
  a <- condition NodeReady true "KubeletReady" "kubelet is ready." ;;
  b <- condition NodeMemoryPressure false "KubeletHasSufficientMemory" "kubelet has sufficient memory available" ;;
  c <- condition NodeDiskPressure false "KubeletHasNoDiskPressure" "kubelet has no disk pressure" ;;
  d <- condition NodeNetworkUnavailable false "RouteCreated" "RouteController created a route" ;;
  e <- condition NodePIDPressure false "KubeletHasNoPIDPressure" "kubelet has no PID pressure" ;;
  Ret [a; b; c; d; e].

Section Node.
Variable ParseCIDR : string -> option NetUtil.ParsedIP.

(* src/pkg/provider/vk_node.go : retrieveNodeIPAddress *)
Definition retrieveNodeIPAddress : prog ndE (string * option error) :=
  r <- perform Interfaces ;;
  Ret (match r with
       | inr e => ("", Some e)
       | inl ifs => NetUtil.GetActiveInterface ParseCIDR ifs
       end).

(** The address is stored on an error too; it is empty then, so that the next call
    looks again. *)
(* src/pkg/provider/vk_node.go : MacOSVZProvider.nodeAddresses *)
Definition nodeAddresses : prog ndE (list (AddressType * string) + error) :=
  p <- perform GetProvider ;;
  err <- (if String.eqb (nodeIPAddress p) ""
          then r <- retrieveNodeIPAddress ;; perform (SetIPAddress (fst r)) ;; Ret (snd r)
          else Ret None) ;;
  match err with
  | Some e => Ret (inr e)
  | None =>
      p <- perform GetProvider ;;
      Ret (inl [(NodeInternalIP, nodeIPAddress p); (NodeHostName, nodeName p)])
  end.

(* src/pkg/provider/vk_node.go : MacOSVZProvider.nodeDaemonEndpoints *)
Definition nodeDaemonEndpoints (p : MacOSVZProvider) : Z := daemonEndpointPort p.

Definition withCapacity (c : gmap string Z) (n : Node) : Node :=
  {| Labels := Labels n; Capacity := c; Allocatable := c; Conditions := Conditions n; Addresses := Addresses n;
     KubeletPort := KubeletPort n; MachineID := MachineID n; KernelVersion := KernelVersion n; OSImage := OSImage n;
     ContainerRuntimeVersion := ContainerRuntimeVersion n; OperatingSystem := OperatingSystem n;
     Architecture := Architecture n |}.
Definition withConditions (c : list NodeCondition) (n : Node) : Node :=
  {| Labels := Labels n; Capacity := Capacity n; Allocatable := Allocatable n; Conditions := c; Addresses := Addresses n;
     KubeletPort := KubeletPort n; MachineID := MachineID n; KernelVersion := KernelVersion n; OSImage := OSImage n;
     ContainerRuntimeVersion := ContainerRuntimeVersion n; OperatingSystem := OperatingSystem n;
     Architecture := Architecture n |}.
Definition withAddresses (a : list (AddressType * string)) (port : Z) (n : Node) : Node :=
  {| Labels := Labels n; Capacity := Capacity n; Allocatable := Allocatable n; Conditions := Conditions n;
     Addresses := a; KubeletPort := port; MachineID := MachineID n; KernelVersion := KernelVersion n;
     OSImage := OSImage n; ContainerRuntimeVersion := ContainerRuntimeVersion n;
     OperatingSystem := OperatingSystem n; Architecture := Architecture n |}.
Definition withHost (h : InfoStat) (n : Node) : Node :=
  {| Labels := Labels n; Capacity := Capacity n; Allocatable := Allocatable n; Conditions := Conditions n;
     Addresses := Addresses n; KubeletPort := KubeletPort n; MachineID := HostID h;
     KernelVersion := hi_KernelVersion h; OSImage := OS h ++ " " ++ PlatformVersion h;
     ContainerRuntimeVersion := "vz://" ++ PlatformVersion h; OperatingSystem := Platform h;
     Architecture := KernelArch h |}.
Definition withLabels (l : gmap string string) (n : Node) : Node :=
  {| Labels := Some l; Capacity := Capacity n; Allocatable := Allocatable n; Conditions := Conditions n;
     Addresses := Addresses n; KubeletPort := KubeletPort n; MachineID := MachineID n;
     KernelVersion := KernelVersion n; OSImage := OSImage n; ContainerRuntimeVersion := ContainerRuntimeVersion n;
     OperatingSystem := OperatingSystem n; Architecture := Architecture n |}.

Definition hostLabels (h : InfoStat) (l : gmap string string) : gmap string string :=
  <[LabelArchStable := KernelArch h]> (<[LabelOSStable := Str.to_lower (Platform h)]>
    (<[LabelNodeExcludeBalancers := "true"]> l)).

(** [None] is the panic of a write to a nil map of labels. *)
(* src/pkg/provider/vk_node.go : MacOSVZProvider.ConfigureNode *)
Definition ConfigureNode (n : Node) : prog ndE (option (Node * option error)) :=
  capacity <- getNodeCapacity ;;
  match capacity with
  | inr e => Ret (Some (n, Some (Errorf "error getting node capacity" e)))
  | inl capacity =>
      let n := withCapacity capacity n in
      conds <- getNodeConditions ;;
      let n := withConditions conds n in
      addr <- nodeAddresses ;;
      match addr with
      | inr e => Ret (Some (n, Some (Errorf "error getting node addresses" e)))
      | inl addr =>
          p <- perform GetProvider ;;
          let n := withAddresses addr (nodeDaemonEndpoints p) n in
          hostInfo <- perform HostInfo ;;
          match hostInfo with
          | inr e => Ret (Some (n, Some (Errorf "error getting host information" e)))
          | inl hostInfo =>
              let n := withHost hostInfo n in
              match Labels n with
              | None => Ret None
              | Some l =>
                  let l := hostLabels hostInfo l in
                  c <- perform CpuInfo ;;
                  match c with
                  | inl (model :: _) =>
                      Ret (Some (withLabels (<[LabelCPUModelName := AppleCPU.SanitizeAppleCPUModelForK8sLabel model]> l) n,
                                 None))
                  | _ =>
                      perform (Warn "Error getting cpu information, skipping cpu model label"
                                 (match c with inr e => Some e | inl _ => None end)) ;;
                      Ret (Some (withLabels l n, None))
                  end
              end
          end
      end
  end.

(** ** What is registered *)

(** The address: the configured one, or that of an interface the host answered with,
    an Ethernet one if any has an address. *)
Definition addressFound (tr : list (call ndE)) (p : MacOSVZProvider) (ip : string) : Prop :=
  if String.eqb (nodeIPAddress p) "" then
    exists ifs i, Call Interfaces (inl ifs) ∈ tr /\ i ∈ ifs /\ NetUtil.findValidIP ParseCIDR i = Some ip /\
      (NetUtil.isEthernet (NetUtil.if_Name i) = false ->
       forall j, j ∈ ifs -> NetUtil.isEthernet (NetUtil.if_Name j) = true -> NetUtil.findValidIP ParseCIDR j = None)
  else ip = nodeIPAddress p.

(** The labels: the host's three, the CPU model's if the host knows it, and the ones
    that were there. *)
Definition labelsSet (h : InfoStat) (c : list string + error) (l l' : gmap string string) : Prop :=
  l' !! LabelArchStable = Some (KernelArch h) /\ l' !! LabelOSStable = Some (Str.to_lower (Platform h)) /\
  l' !! LabelNodeExcludeBalancers = Some "true" /\
  l' !! LabelCPUModelName = match c with
                            | inl (model :: _) => Some (AppleCPU.SanitizeAppleCPUModelForK8sLabel model)
                            | _ => l !! LabelCPUModelName
                            end /\
  (forall k, k ∉ [LabelArchStable; LabelOSStable; LabelNodeExcludeBalancers; LabelCPUModelName] -> l' !! k = l !! k).

Lemma hostLabels_set h c l : match c with inl (_ :: _) => False | _ => True end -> labelsSet h c l (hostLabels h l).
Proof.
  intros Hc. unfold hostLabels. split_and!; [by simplify_map_eq .. | |].
  - destruct c as [[|? ?]|?]; [by simplify_map_eq | done | by simplify_map_eq].
  - intros k Hk. rewrite !not_elem_of_cons in Hk. destruct Hk as (H1 & H2 & H3 & _).
    by rewrite !lookup_insert_ne by congruence.
Qed.

Lemma cpuLabel_set h l model ms :
  labelsSet h (inl (model :: ms)) l
    (<[LabelCPUModelName := AppleCPU.SanitizeAppleCPUModelForK8sLabel model]> (hostLabels h l)).
Proof.
  destruct (hostLabels_set h (inl []) l I) as (H1 & H2 & H3 & _ & Hk).
  split_and!; [by rewrite lookup_insert_ne by done .. | apply lookup_insert_eq |].
  intros k Hk'. rewrite lookup_insert_ne; [by apply Hk|]. intros <-. apply Hk'. set_solver.
Qed.

(** What a registered node is, given the calls made: all it says of the host is what
    the host answered. *)
Definition registered (p : MacOSVZProvider) (l : gmap string string) (tr : list (call ndE)) (ip : string) (n : Node) : Prop :=
  exists total count disk h c l',
    Call MemTotal (inl total) ∈ tr /\ Call CpuCounts (inl count) ∈ tr /\ Call DiskTotal (inl disk) ∈ tr /\
    Call HostInfo (inl h) ∈ tr /\ Call CpuInfo c ∈ tr /\
    Capacity n = {["cpu" := count; "memory" := wrap_i64 total; "ephemeral-storage" := wrap_i64 disk;
                   "pods" := Z.of_nat MacOS.MaxVirtualMachines]} /\
    Allocatable n = Capacity n /\
    map (fun c => (nc_Type c, nc_Status c)) (Conditions n) =
      [(NodeReady, true); (NodeMemoryPressure, false); (NodeDiskPressure, false);
       (NodeNetworkUnavailable, false); (NodePIDPressure, false)] /\
    Addresses n = [(NodeInternalIP, ip); (NodeHostName, nodeName p)] /\ addressFound tr p ip /\
    KubeletPort n = daemonEndpointPort p /\
    (MachineID n, KernelVersion n, OSImage n) = (HostID h, hi_KernelVersion h, OS h ++ " " ++ PlatformVersion h) /\
    (ContainerRuntimeVersion n, OperatingSystem n, Architecture n) =
      ("vz://" ++ PlatformVersion h, Platform h, KernelArch h) /\
    Labels n = Some l' /\ labelsSet h c l l'.

(** The step that failed, by the answer that made it fail. *)
Inductive Failed (tr : list (call ndE)) : error -> Prop :=
| MemFailed e : Call MemTotal (inr e) ∈ tr -> Failed tr (Errorf "error getting node capacity" e)
| CpuFailed e : Call CpuCounts (inr e) ∈ tr -> Failed tr (Errorf "error getting node capacity" e)
| DiskFailed e : Call DiskTotal (inr e) ∈ tr -> Failed tr (Errorf "error getting node capacity" e)
| InterfacesFailed e : Call Interfaces (inr e) ∈ tr -> Failed tr (Errorf "error getting node addresses" e)
| NoAddress ifs : Call Interfaces (inl ifs) ∈ tr -> (forall i, i ∈ ifs -> NetUtil.findValidIP ParseCIDR i = None) ->
    Failed tr (Errorf "error getting node addresses" (errNotFound "no valid IP address found"))
| HostFailed e : Call HostInfo (inr e) ∈ tr -> Failed tr (Errorf "error getting host information" e).

Ltac in_trace := repeat first [left; reflexivity | right].

Ltac finish_error c := eexists _, _, _; split; [done|]; cbn; split; [done | apply c; in_trace].

Ltac finish_node :=
  eexists _, _, _; split; [done|]; cbn; do 6 eexists;
  split_and!; [in_trace | in_trace | in_trace | in_trace | in_trace | done | done | done | done | | done | done | done | done
              | first [apply cpuLabel_set | by apply hostLabels_set]].

(** C31: the node that is registered says what the host answered: its memory, CPUs and
    disk, and as many pods as there can be machines, capacity and allocatable being
    equal; of the five conditions only Ready holds; the address is the configured one or
    that of an interface, and is remembered; the host's description; and the labels of
    the host's system, architecture and CPU model, the last as a label value and only
    when the host knows it, no other label being touched.  An error names the step that
    failed, with the error of that step, and leaves the labels alone. *)
Theorem configure_node env p n l :
  Labels n = Some l ->
  exists n' err s', exec env (ConfigureNode n) p = Some (Some (n', err), s') /\
    match err with
    | None => registered p l (trace s') (nodeIPAddress (own s')) n'
    | Some e => Labels n' = Labels n /\ Failed (trace s') e
    end.
Proof.
  intros Hl. unfold exec, start, ConfigureNode, getNodeCapacity.
  cbn. destruct (env _ 0%nat MemTotal) as [total|e]; cbn; [|finish_error MemFailed].
  destruct (env _ 1%nat CpuCounts) as [count|e]; cbn; [|finish_error CpuFailed].
  destruct (env _ 2%nat DiskTotal) as [disk|e]; cbn; [|finish_error DiskFailed].
  unfold registered, addressFound. destruct (String.eqb_spec (nodeIPAddress p) "") as [Hip|Hip]; cbn.
  - destruct (env _ 14%nat Interfaces) as [ifs|e]; cbn; [|finish_error InterfacesFailed].
    pose proof (NetUtil.GetActiveInterface_cases ParseCIDR ifs) as Hc.
    destruct (NetUtil.GetActiveInterface ParseCIDR ifs) as [ip [e|]]; cbn in *.
    { destruct Hc as [-> Hc]. eexists _, _, _; split; [done|]; cbn; split; [done|].
      apply (NoAddress _ ifs); [in_trace | done]. }
    destruct Hc as (i & Hi & Hf & He).
    destruct (env _ 18%nat HostInfo) as [h|e]; cbn; [|finish_error HostFailed].
    rewrite Hl. cbn. destruct (env _ 19%nat CpuInfo) as [[|model ms]|e]; cbn; finish_node;
      (exists ifs, i; split; [in_trace | done]).
  - destruct (env _ 16%nat HostInfo) as [h|e]; cbn; [|finish_error HostFailed].
    rewrite Hl. cbn. destruct (env _ 17%nat CpuInfo) as [[|model ms]|e]; cbn; finish_node; done.
Qed.

(** A node without labels is a panic, once the host has answered. *)
Lemma configure_node_nil_labels (env : oracle ndE) p n :
  Labels n = None -> nodeIPAddress p <> "" ->
  (exists t, env _ 0%nat MemTotal = inl t) -> (exists c, env _ 1%nat CpuCounts = inl c) ->
  (exists d, env _ 2%nat DiskTotal = inl d) -> (exists h, env _ 16%nat HostInfo = inl h) ->
  exists s', exec env (ConfigureNode n) p = Some (None, s').
Proof.
  intros Hl Hip [t Ht] [c Hc] [d Hd] [h Hh]. unfold exec, start, ConfigureNode, getNodeCapacity.
  cbn. rewrite Ht. cbn. rewrite Hc. cbn. rewrite Hd. cbn.
  destruct (String.eqb_spec (nodeIPAddress p) "") as [|_]; [done|]. cbn. rewrite Hh. cbn. rewrite Hl. cbn. by eexists.
Qed.

End Node.
(** A host with one interface, and the node that virtual-kubelet starts with. *)
Definition sample_env : oracle ndE := fun X n e =>
  match e in ndE X return X with
  | GetProvider => {| nodeName := "mac-1"; nodeIPAddress := ""; platform := "darwin"; daemonEndpointPort := 10250 |}
  | SetIPAddress _ => tt
  | MemTotal => inl 34359738368%Z
  | CpuCounts => inl 10%Z
  | DiskTotal => inl 494384795648%Z
  | Interfaces => inl [{| NetUtil.if_Name := "en0"; NetUtil.if_Addrs := ["10.0.0.7/24"] |}]
  | HostInfo => inl {| HostID := "id"; hi_KernelVersion := "24.6.0"; OS := "darwin"; Platform := "darwin";
                       PlatformVersion := "15.6"; KernelArch := "arm64" |}
  | CpuInfo => inl ["Apple M2 Pro"]
  | Now => 5%Z
  | Warn _ _ => tt
  end.

Definition sample_cidr (a : string) : option NetUtil.ParsedIP :=
  Some {| NetUtil.ip_String := fst (Str.cut "/" a); NetUtil.ip_is4 := true; NetUtil.ip_IsLoopback := false |}.

Definition sample_provider : MacOSVZProvider :=
  {| nodeName := "mac-1"; nodeIPAddress := ""; platform := "darwin"; daemonEndpointPort := 10250 |}.

Definition sample_node : Node :=
  {| Labels := Some {["type" := "virtual-kubelet"]}; Capacity := ∅; Allocatable := ∅; Conditions := [];
     Addresses := []; KubeletPort := 0; MachineID := ""; KernelVersion := ""; OSImage := "";
     ContainerRuntimeVersion := ""; OperatingSystem := ""; Architecture := "" |}.

Lemma configure_node_witness :
  exists n' err s', exec sample_env (ConfigureNode sample_cidr sample_node) sample_provider = Some (Some (n', err), s') /\
    match err with
    | None => registered sample_cidr sample_provider {["type" := "virtual-kubelet"]} (trace s') (nodeIPAddress (own s')) n'
    | Some e => Failed sample_cidr (trace s') e
    end.
Proof.
  destruct (configure_node sample_cidr sample_env sample_provider sample_node {["type" := "virtual-kubelet"]} eq_refl)
    as (n' & err & s' & Hr & H).
  exists n', err, s'. split; [exact Hr|]. destruct err as [e|]; [apply H | exact H].
Defined.

Example sample_registered :
  match exec sample_env (ConfigureNode sample_cidr sample_node) sample_provider with
  | Some (Some (n', None), s') =>
      nodeIPAddress (own s') = "10.0.0.7" /\ (Labels n' ≫= fun l => l !! LabelCPUModelName) = Some "M2_Pro"
  | _ => False
  end.
Proof. vm_compute. split; reflexivity. Qed.

End NodeCfg.
