(* ===== verification/Main.v ===== *)
(** * cmd/virtual-kubelet: the options of the process, tracing, and running the node

    [main.go] and [tracer.go].  The variables of the package are a record that does not
    change while the node runs, except the port.  nodeutil is code outside the
    repository: its options, [NewNode] and [WithTLSConfig] are the operations of the
    class [Nodeutil], and what the program relies on is [NodeutilLaws]. *)
From Stdlib Require Import ZArith Lia.
From Stdlib Require Import Ascii String.
From Stdlib Require Import Floats.SpecFloat.
From stdpp Require Import base list gmap strings.
From S2P Require Import Prelude GoStrings GoFormat GoErrors GoFloat GoTime Prog GoPath.
Local Open Scope string_scope.
Local Open Scope go_scope.

Module Main.

(** ** The variables of the package *)

(* src/cmd/virtual-kubelet/main.go : 49-80 appIdentifier *)
Record Vars := {
  buildVersion : string;
  taintKey : string; taintEffect : string; taintValue : string;
  logLevel : string; traceSampleRate : string;
  kubeConfigPath : string; startupTimeout : Z; disableTaint : bool;
  numberOfWorkers : Z; resync : Z; providerID : string;
  certPath : string; keyPath : string; clientCACert : string; clientNoVerify : bool;
  webhookAuth : bool; webhookAuthnCacheTTL : Z; webhookAuthzUnauthedCacheTTL : Z; webhookAuthzAuthedCacheTTL : Z;
  nodeName : string
}.

Definition appIdentifier : string := "com.agoda.fleet.virtualization".
Definition k8sVersion : string := "v1.35.6".
Definition defaultListenPort : Z := 10250.

(** ** The configuration of a node *)

Inductive TaintEffect := TaintNoSchedule | TaintNoExecute | TaintPreferNoSchedule.
Record Taint := { t_Key : string; t_Value : string; t_Effect : TaintEffect }.

Inductive ClientAuth := NoClientCert | RequestClientCert | OtherClientAuth (n : Z).
Record TLSConfig := { ClientAuth_ : ClientAuth; ClientCAs : option string; GetCertificate : bool }.

(** Who may call the kubelet's API: nobody is refused, or the API server is asked. *)
Inductive Auth := NoAuth | WebhookAuth_ (ref : nat).

(** An http.Handler: what a request passes through. *)
Inductive Handler :=
| NilHandler
| Mux                                     (* the ServeMux that the provider's routes are attached to *)
| WithAuth (a : Auth) (h : Handler)       (* nodeutil.WithAuth *)
| InstrumentHandler (h : Handler)         (* api.InstrumentHandler *)
| OtherHandler (n : Z).

(** [nodeutil.NodeConfig]: the fields that the program or the library's options set. *)
Record NodeConfig := {
  Taints : list Taint;
  ProviderID : string;
  KubeletVersion : string;
  HasClient : bool;
  TLS : TLSConfig;
  Handler_ : Handler;
  InformerResyncPeriod : Z;
  NumWorkers : Z;
  HTTPListenAddr : string
}.

Definition set_taints (l : list Taint) (c : NodeConfig) : NodeConfig :=
  {| Taints := l; ProviderID := ProviderID c; KubeletVersion := KubeletVersion c; HasClient := HasClient c;
     TLS := TLS c; Handler_ := Handler_ c; InformerResyncPeriod := InformerResyncPeriod c;
     NumWorkers := NumWorkers c; HTTPListenAddr := HTTPListenAddr c |}.
Definition set_providerID (p : string) (c : NodeConfig) : NodeConfig :=
  {| Taints := Taints c; ProviderID := p; KubeletVersion := KubeletVersion c; HasClient := HasClient c;
     TLS := TLS c; Handler_ := Handler_ c; InformerResyncPeriod := InformerResyncPeriod c;
     NumWorkers := NumWorkers c; HTTPListenAddr := HTTPListenAddr c |}.
Definition set_version (v : string) (c : NodeConfig) : NodeConfig :=
  {| Taints := Taints c; ProviderID := ProviderID c; KubeletVersion := v; HasClient := HasClient c;
     TLS := TLS c; Handler_ := Handler_ c; InformerResyncPeriod := InformerResyncPeriod c;
     NumWorkers := NumWorkers c; HTTPListenAddr := HTTPListenAddr c |}.
Definition set_client (c : NodeConfig) : NodeConfig :=
  {| Taints := Taints c; ProviderID := ProviderID c; KubeletVersion := KubeletVersion c; HasClient := true;
     TLS := TLS c; Handler_ := Handler_ c; InformerResyncPeriod := InformerResyncPeriod c;
     NumWorkers := NumWorkers c; HTTPListenAddr := HTTPListenAddr c |}.
Definition set_tls (t : TLSConfig) (c : NodeConfig) : NodeConfig :=
  {| Taints := Taints c; ProviderID := ProviderID c; KubeletVersion := KubeletVersion c; HasClient := HasClient c;
     TLS := t; Handler_ := Handler_ c; InformerResyncPeriod := InformerResyncPeriod c;
     NumWorkers := NumWorkers c; HTTPListenAddr := HTTPListenAddr c |}.
Definition set_handler (h : Handler) (c : NodeConfig) : NodeConfig :=
  {| Taints := Taints c; ProviderID := ProviderID c; KubeletVersion := KubeletVersion c; HasClient := HasClient c;
     TLS := TLS c; Handler_ := h; InformerResyncPeriod := InformerResyncPeriod c;
     NumWorkers := NumWorkers c; HTTPListenAddr := HTTPListenAddr c |}.
Definition set_server (period workers : Z) (addr : string) (c : NodeConfig) : NodeConfig :=
  {| Taints := Taints c; ProviderID := ProviderID c; KubeletVersion := KubeletVersion c; HasClient := HasClient c;
     TLS := TLS c; Handler_ := Handler_ c; InformerResyncPeriod := period;
     NumWorkers := workers; HTTPListenAddr := addr |}.

Definition set_clientAuth (a : ClientAuth) (t : TLSConfig) : TLSConfig :=
  {| ClientAuth_ := a; ClientCAs := ClientCAs t; GetCertificate := GetCertificate t |}.
Definition set_getCertificate (t : TLSConfig) : TLSConfig :=
  {| ClientAuth_ := ClientAuth_ t; ClientCAs := ClientCAs t; GetCertificate := true |}.

(** [nodeutil.WebhookAuthConfig] *)
Record WebhookAuthConfig := {
  AuthnCacheTTL : Z;
  ClientCertificateCA : option string;
  AuthzRetryBackoff : bool;                 (* the default backoff of the API server's options *)
  AllowCacheTTL : Z;
  DenyCacheTTL : Z
}.

(** How the three things that [run] waits for can end. *)
Inductive Selected :=
| NodeReturned (e : option error)
| CertWatcherFailed (e : error)
| ContextDone (e : error).

(** The configuration that the provider is made with. *)
Record ProviderSetup := {
  ps_NodeName : string; ps_Platform : string; ps_InternalIP : string; ps_DaemonEndpointPort : Z
}.

(** A sampler of the tracing library. *)
Inductive Sampler := AlwaysSample | NeverSample | TraceIDRatioBased (fraction : F64.t).

Inductive mainE : Type -> Type :=
(* the process *)
| LookupEnv (key : string) : mainE (option string)
| HomeDir : mainE string                                     (* empty when it fails *)
| Hostname : mainE (string + error)
| UserCacheDir : mainE (string + error)
| LoggerFatal (e : error) : mainE bool                       (* log.G(ctx).Fatal: whether the process ended *)
| ClientsetFromEnv (path : string) : mainE (option error)
| ParseFlags (defaults : Vars) : mainE (Vars + error)        (* cobra: the variables with the flags applied *)
| ParseLevel (level : string) : mainE (option error)
(* the port *)
| ReadPort : mainE Z
| SetPort (p : Z) : mainE unit
(* tracing *)
| NewExporter (endpoint : string) (insecure : bool) : mainE (option error)
| NewTraceResource (service : string) (attributes : list (string * string)) : mainE (option error)
| SetTracerProvider (s : Sampler) : mainE unit
| SetTraceAdapter : mainE unit
(* certificates, authentication *)
| NewCertWatcher (cert key : string) : mainE (option error)
| StartCertWatcher : mainE unit                              (* in the background *)
| CAFromPath (path : string) (t : TLSConfig) : mainE (TLSConfig + error)
| NewDynamicCA (path : string) : mainE (option error)
| RunCA : mainE unit
| WebhookDefaults (node : string) : mainE WebhookAuthConfig
| NewWebhookAuth (c : WebhookAuthConfig) : mainE (nat + error)
(* the provider *)
| PlatformInformation : mainE (string + error)
| StartEvents (node : string) : mainE unit
| NewDockerClient (host : option string) : mainE (option error)
| PingDocker : mainE (option error)
| Warn (e : error) : mainE unit
| NewVzClientAPIs (iface cachePath : string) (docker : bool) : mainE unit
| NewMacOSVZProvider (p : ProviderSetup) : mainE (option error)
| ConfigureNode : mainE (option error)
(* the node *)
| GoNodeRun (cfg : NodeConfig) : mainE unit
| Select : mainE Selected
| WaitReady (timeout : Z) : mainE (option error)
| NodeDone : mainE unit
| NodeErr : mainE (option error).

(** The state is the variable [listenPort]. *)
Definition local : local_handler mainE Z := fun X e =>
  match e in mainE X return X -> Z -> option (X * Z) with
  | ReadPort => fun _ p => Some (p, p)
  | SetPort p => fun _ _ => Some (tt, p)
  | _ => fun x p => Some (x, p)
  end.

Definition exec (env : oracle mainE) {A} (q : prog mainE A) (port : Z) := run (traced_handler local env) q (start port).

Definition getenv (key : string) : prog mainE string := v <- perform (LookupEnv key) ;; Ret (default "" v).

(* src/cmd/virtual-kubelet/main.go : envOrDefault *)
Definition envOrDefault (key defaultValue : string) : prog mainE string :=
  v <- perform (LookupEnv key) ;;
  Ret (match v with Some v => v | None => defaultValue end).

(** The values of the variables when the package is loaded, in the order of their
    declarations; [linked] is the version that the linker was given
    ([-X main.buildVersion], as a release is built), if any. *)
(* src/cmd/virtual-kubelet/main.go : 49-80 taintKey *)
Definition initialVars (linked : option string) : prog mainE Vars :=
  key <- envOrDefault "VKUBELET_TAINT_KEY" "virtual-kubelet.io/provider" ;;
  effect <- envOrDefault "VKUBELET_TAINT_EFFECT" "NoSchedule" ;;
  value <- envOrDefault "VKUBELET_TAINT_VALUE" "macos-vz" ;;
  kubeconfig <- getenv "KUBECONFIG" ;;
  cert <- getenv "APISERVER_CERT_LOCATION" ;;
  keyFile <- getenv "APISERVER_KEY_LOCATION" ;;
  Ret {| buildVersion := default "dev" linked; taintKey := key; taintEffect := effect; taintValue := value;
         logLevel := "info"; traceSampleRate := "";
         kubeConfigPath := kubeconfig; startupTimeout := 0; disableTaint := false;
         numberOfWorkers := 10; resync := 60 * Time.Second; providerID := "";
         certPath := cert; keyPath := keyFile; clientCACert := ""; clientNoVerify := false;
         webhookAuth := false; webhookAuthnCacheTTL := 0; webhookAuthzUnauthedCacheTTL := 0;
         webhookAuthzAuthedCacheTTL := 0;
         nodeName := "vk-macos-vz-test" |}.

(** [if err := c; err != nil { return wrap(err) }; k] *)
Definition guard (wrap : error -> error) (c : prog mainE (option error)) (k : prog mainE (option error))
  : prog mainE (option error) :=
  r <- c ;; match r with Some e => Ret (Some (wrap e)) | None => k end.

Definition sameErr (e : error) : error := e.

(** A call that succeeds with a value or fails. *)
Definition orErr {A B} : prog mainE (A + error) -> (A -> prog mainE (B + error)) -> prog mainE (B + error) :=
  attempt sameErr.

(** ** tracer.go *)

(* src/cmd/virtual-kubelet/tracer.go : determineSampler *)
Definition determineSampler `{PrintTable} (rate : string) : Sampler + error :=
  let l := Str.to_lower rate in
  if String.eqb l "" || String.eqb l "always" then inl AlwaysSample
  else if String.eqb l "never" then inl NeverSample
  else
    match Float.ParseFloat rate with
    | inr e => inr (AsInvalidInput (Errorf "parsing sample rate" e))
    | inl x =>
        if F64.ltb x (F64.of_Z 0) || F64.ltb (F64.of_Z 100) x
        then inr (AsInvalidInput (errMsg "sample rate must be between 0 and 100"))
        else inl (TraceIDRatioBased (F64.div x (F64.of_Z 100)))
    end.

(* src/cmd/virtual-kubelet/tracer.go : initTracerProvider *)
Definition initTracerProvider (service : string) (sampler : Sampler) (attributes : list (string * string))
  : prog mainE (option error) :=
  endpoint <- getenv "OTEL_EXPORTER_OTLP_ENDPOINT" ;;
  if String.eqb endpoint "" then Ret None
  else
    insecure <- getenv "OTEL_EXPORTER_OTLP_INSECURE" ;;
    guard sameErr (perform (NewExporter endpoint (String.eqb insecure "true")))
      (guard sameErr (perform (NewTraceResource service (("exporter", "otlp") :: attributes)))
        (perform (SetTracerProvider sampler) ;; Ret None)).

(* src/cmd/virtual-kubelet/tracer.go : configureTracing *)
Definition configureTracing `{PrintTable} (service rate : string) (attributes : list (string * string))
  : prog mainE (option error) :=
  match determineSampler rate with
  | inr e => Ret (Some (Errorf "determining sampler" e))
  | inl sampler =>
      guard (Errorf "initializing tracer provider") (initTracerProvider service sampler attributes)
        (perform SetTraceAdapter ;; Ret None)
  end.

(** ** main.go: the options of the node *)

Definition NodeOpt : Type := NodeConfig -> prog mainE (NodeConfig + error).

(** What the program calls of nodeutil, and the configuration that [NewNode] starts
    from. *)
Class Nodeutil := {
  WithClient : NodeOpt;
  WithTLSConfig : list (TLSConfig -> prog mainE (TLSConfig + error)) -> NodeOpt;
  AttachProviderRoutes : NodeOpt;                 (* to the mux that the handler then is *)
  defaults : string -> NodeConfig;
  NewNode : string -> prog mainE (option error) -> list NodeOpt -> prog mainE (NodeConfig + error)
}.

(** One option after another; the first error ends it. *)
Fixpoint applyOptions (opts : list NodeOpt) (c : NodeConfig) : prog mainE (NodeConfig + error) :=
  match opts with
  | [] => Ret (inl c)
  | o :: opts => orErr (o c) (applyOptions opts)
  end.

Section Options.
Context `{PrintTable} `{Nodeutil}.
Variable v : Vars.

(* src/cmd/virtual-kubelet/main.go : withTaint *)
Definition withTaint : NodeOpt := fun cfg =>
  if disableTaint v then Ret (inl cfg)
  else
    let add e := Ret (inl (set_taints (Taints cfg ++ [{| t_Key := taintKey v; t_Value := taintValue v; t_Effect := e |}])%list cfg)) in
    if String.eqb (taintEffect v) "NoSchedule" then add TaintNoSchedule
    else if String.eqb (taintEffect v) "NoExecute" then add TaintNoExecute
    else if String.eqb (taintEffect v) "PreferNoSchedule" then add TaintPreferNoSchedule
    else Ret (inr (InvalidInput ("taint effect " ++ Quote.quote (taintEffect v) ++ " is not supported"))).

(* src/cmd/virtual-kubelet/main.go : withProviderID *)
Definition withProviderID : NodeOpt := fun cfg => Ret (inl (set_providerID (providerID v) cfg)).

(* src/cmd/virtual-kubelet/main.go : withVersion *)
Definition withVersion : NodeOpt := fun cfg =>
  Ret (inl (set_version (Str.join "-" [k8sVersion; "vk-macos-vz"; buildVersion v]) cfg)).

(* src/cmd/virtual-kubelet/main.go : configureRoutes *)
Definition configureRoutes : NodeOpt := fun cfg => AttachProviderRoutes (set_handler Mux cfg).

(** The option of [nodeutil.WebhookAuth], up to the certificate authority. *)
Definition webhookTTLs (c : WebhookAuthConfig) : WebhookAuthConfig :=
  {| AuthnCacheTTL := if (0 <? webhookAuthnCacheTTL v)%Z then webhookAuthnCacheTTL v else AuthnCacheTTL c;
     ClientCertificateCA := ClientCertificateCA c;
     AuthzRetryBackoff := true;
     AllowCacheTTL :=
       (if (0 <? webhookAuthzUnauthedCacheTTL v)%Z then webhookAuthzUnauthedCacheTTL v
        else if (0 <? webhookAuthzAuthedCacheTTL v)%Z then webhookAuthzAuthedCacheTTL v
        else AllowCacheTTL c);
     DenyCacheTTL := DenyCacheTTL c |}.

Definition set_clientCA (path : string) (c : WebhookAuthConfig) : WebhookAuthConfig :=
  {| AuthnCacheTTL := AuthnCacheTTL c; ClientCertificateCA := Some path; AuthzRetryBackoff := AuthzRetryBackoff c;
     AllowCacheTTL := AllowCacheTTL c; DenyCacheTTL := DenyCacheTTL c |}.

Definition webhookOption (c : WebhookAuthConfig) : prog mainE (WebhookAuthConfig + error) :=
  let c := webhookTTLs c in
  if negb (String.eqb (clientCACert v) "") then
    r <- perform (NewDynamicCA (clientCACert v)) ;;
    match r with
    | Some e => Ret (inr e)
    | None => perform RunCA ;; Ret (inl (set_clientCA (clientCACert v) c))
    end
  else Ret (inl c).

(* src/cmd/virtual-kubelet/main.go : withWebhookAuth *)
Definition withWebhookAuth : NodeOpt := fun cfg =>
  if negb (webhookAuth v) then
    Ret (inl (set_handler (InstrumentHandler (WithAuth NoAuth (Handler_ cfg))) cfg))
  else
    d <- perform (WebhookDefaults (nodeName v)) ;;
    orErr (webhookOption d) (fun c =>
    orErr (perform (NewWebhookAuth c)) (fun a =>
    let cfg := set_tls (set_clientAuth RequestClientCert (TLS cfg)) cfg in
    Ret (inl (set_handler (InstrumentHandler (WithAuth (WebhookAuth_ a) (Handler_ cfg))) cfg)))).

(* src/cmd/virtual-kubelet/main.go : withClient *)
Definition withClient : NodeOpt := fun cfg => WithClient cfg.

(* src/cmd/virtual-kubelet/main.go : withCA *)
Definition withCA (t : TLSConfig) : prog mainE (TLSConfig + error) :=
  if String.eqb (clientCACert v) "" then Ret (inl t)
  else
    r <- perform (CAFromPath (clientCACert v) t) ;;
    Ret (match r with
         | inr e => inr (Errorf "error getting CA from path" e)
         | inl t => inl (if clientNoVerify v then set_clientAuth NoClientCert t else t)
         end).

(** The function literals among the options of [run]. *)
Definition withCertificate (t : TLSConfig) : prog mainE (TLSConfig + error) := Ret (inl (set_getCertificate t)).

Definition withServer : NodeOpt := fun cfg =>
  port <- perform ReadPort ;;
  Ret (inl (set_server (resync v) (numberOfWorkers v) (":" ++ Str.itoa port) cfg)).

(** The list that [run] passes to [NewNode], in its order. *)
(* src/cmd/virtual-kubelet/main.go : 366-388 run *)
Definition nodeOptions : list NodeOpt :=
  [withClient; withTaint; withProviderID; withVersion; WithTLSConfig [withCertificate; withCA];
   withWebhookAuth; configureRoutes; withServer].

(* src/cmd/virtual-kubelet/main.go : createDockerClient *)
Definition createDockerClient : prog mainE (option error) :=
  host <- getenv "DOCKER_HOST" ;;
  guard (Errorf "failed to create docker client")
    (perform (NewDockerClient (if String.eqb host "" then None else Some host)))
    (guard (Errorf "failed to ping docker client") (perform PingDocker) (Ret None)).

(** ParseInt(port, 10, 32): a value past 32 bits ends the reading. *)
Fixpoint digits32 (acc : Z) (s : string) : option Z :=
  match s with
  | EmptyString => Some acc
  | String c s =>
      if Str.is_digit c then
        let n := (acc * 10 + (Str.byte c - 48))%Z in
        if (2 ^ 32 <=? n)%Z then Some (2 ^ 32)%Z else digits32 n s
      else None
  end.

Definition ParseInt32 (s : string) : Z + error :=
  let numErr m := inr (errMsg ("strconv.ParseInt: parsing " ++ Quote.quote s ++ ": " ++ m)) in
  let '(neg, digits) := Float.sign_of s in
  if String.eqb digits "" then numErr "invalid syntax"
  else
    match digits32 0 digits with
    | None => numErr "invalid syntax"
    | Some n =>
        if (if neg : bool then (2 ^ 31 <? n)%Z else (2 ^ 31 <=? n)%Z) then numErr "value out of range"
        else inl (if neg then (- n)%Z else n)
    end.

(** KUBELET_PORT, when it is set, replaces the port. *)
Definition readKubeletPort : prog mainE (option error) :=
  port <- getenv "KUBELET_PORT" ;;
  if String.eqb port "" then Ret None
  else match ParseInt32 port with
       | inr e => Ret (Some e)
       | inl n => perform (SetPort n) ;; Ret None
       end.

(** The function literal that makes the provider. *)
(* src/cmd/virtual-kubelet/main.go : 304-365 run *)
Definition newProvider : prog mainE (option error) :=
  guard sameErr readKubeletPort
  (platform <- perform PlatformInformation ;;
   match platform with
   | inr e => Ret (Some e)
   | inl platform =>
       perform (StartEvents (nodeName v)) ;;
       docker <- createDockerClient ;;
       (match docker with Some e => perform (Warn e) | None => Ret tt end) ;;
       cache <- perform UserCacheDir ;;
       match cache with
       | inr e => Ret (Some e)
       | inl cache =>
           iface <- getenv "VZ_BRIDGE_INTERFACE" ;;
           perform (NewVzClientAPIs iface (Path.Join [cache; appIdentifier])
                      (match docker with None => true | Some _ => false end)) ;;
           ip <- getenv "VKUBELET_POD_IP" ;;
           port <- perform ReadPort ;;
           guard sameErr
             (perform (NewMacOSVZProvider {| ps_NodeName := nodeName v; ps_Platform := platform; ps_InternalIP := ip;
                                             ps_DaemonEndpointPort := wrap_i32 port |}))
             (guard sameErr (perform ConfigureNode) (Ret None))
       end
   end).

(* src/cmd/virtual-kubelet/main.go : 394-415 run *)
Definition runNode (node : NodeConfig) : prog mainE (option error) :=
  perform (GoNodeRun node) ;;
  s <- perform Select ;;
  match s with
  | NodeReturned (Some e) => Ret (Some (Errorf "error running the node" e))
  | CertWatcherFailed e => Ret (Some e)
  | ContextDone e => Ret (Some e)
  | NodeReturned None =>
      guard (Errorf "error waiting for node to be ready") (perform (WaitReady (startupTimeout v)))
        (perform NodeDone ;; perform NodeErr)
  end.

(* src/cmd/virtual-kubelet/main.go : run *)
Definition run_ : prog mainE (option error) :=
  name <- getenv "OTEL_SERVICE_NAME" ;;
  let service := if String.eqb name "" then nodeName v else name in
  guard sameErr
    (configureTracing service (traceSampleRate v)
       [("node.name", nodeName v); ("taint.key", taintKey v); ("taint.effect", taintEffect v); ("taint.value", taintValue v)])
    (guard (Errorf "failed to create certificate watcher") (perform (NewCertWatcher (certPath v) (keyPath v)))
      (perform StartCertWatcher ;;
       node <- NewNode (nodeName v) newProvider nodeOptions ;;
       match node with
       | inr e => Ret (Some e)
       | inl node => runNode node
       end)).

End Options.

(** ** main *)

(** How the process ends: normally, or by a fatal log entry. *)
Inductive ending := Normal | FatalExit (e : error).

Definition unlessCanceled (e : error) : ending := if errors_Is e errCanceled then Normal else FatalExit e.

Definition with_kubeConfig (path : string) (v : Vars) : Vars :=
  {| buildVersion := buildVersion v; taintKey := taintKey v; taintEffect := taintEffect v; taintValue := taintValue v; logLevel := logLevel v;
     traceSampleRate := traceSampleRate v; kubeConfigPath := path; startupTimeout := startupTimeout v;
     disableTaint := disableTaint v; numberOfWorkers := numberOfWorkers v; resync := resync v;
     providerID := providerID v; certPath := certPath v; keyPath := keyPath v; clientCACert := clientCACert v;
     clientNoVerify := clientNoVerify v; webhookAuth := webhookAuth v; webhookAuthnCacheTTL := webhookAuthnCacheTTL v;
     webhookAuthzUnauthedCacheTTL := webhookAuthzUnauthedCacheTTL v;
     webhookAuthzAuthedCacheTTL := webhookAuthzAuthedCacheTTL v; nodeName := nodeName v |}.

(** The defaults that the flags declare, where they are not the variable's value. *)
Definition flagDefaults (hostName ca : string) (v : Vars) : Vars :=
  {| buildVersion := buildVersion v; taintKey := taintKey v; taintEffect := taintEffect v; taintValue := taintValue v; logLevel := logLevel v;
     traceSampleRate := traceSampleRate v; kubeConfigPath := kubeConfigPath v; startupTimeout := startupTimeout v;
     disableTaint := disableTaint v; numberOfWorkers := numberOfWorkers v; resync := resync v;
     providerID := providerID v; certPath := certPath v; keyPath := keyPath v; clientCACert := ca;
     clientNoVerify := clientNoVerify v; webhookAuth := webhookAuth v; webhookAuthnCacheTTL := webhookAuthnCacheTTL v;
     webhookAuthzUnauthedCacheTTL := webhookAuthzUnauthedCacheTTL v;
     webhookAuthzAuthedCacheTTL := webhookAuthzAuthedCacheTTL v; nodeName := hostName |}.

(** [log.G(ctx).Fatal(err)], which ends the process when the logger in use does. *)
Definition fatalUnlessNil (c : prog mainE (option error)) (k : prog mainE ending) : prog mainE ending :=
  r <- c ;;
  match r with
  | None => k
  | Some e => ended <- perform (LoggerFatal e) ;; if ended : bool then Ret (FatalExit e) else k
  end.

Definition findKubeConfig (v : Vars) : prog mainE Vars :=
  if String.eqb (kubeConfigPath v) "" then
    home <- perform HomeDir ;;
    Ret (if String.eqb home "" then v else with_kubeConfig (Path.Join [home; ".kube"; "config"]) v)
  else Ret v.

(** The command's [Run]. *)
Definition runCommand `{PrintTable} `{Nodeutil} (v : Vars) : prog mainE ending :=
  lvl <- perform (ParseLevel (logLevel v)) ;;
  match lvl with
  | Some e => Ret (FatalExit e)
  | None =>
      r <- run_ v ;;
      Ret (match r with None => Normal | Some e => unlessCanceled e end)
  end.

(* src/cmd/virtual-kubelet/main.go : main *)
Definition main `{PrintTable} `{Nodeutil} (linked : option string) : prog mainE ending :=
  v <- initialVars linked ;;
  v <- findKubeConfig v ;;
  fatalUnlessNil (perform (ClientsetFromEnv (kubeConfigPath v)))
    (hn <- perform Hostname ;;
     let hostName := match hn with inl h => Str.to_lower h | inr _ => "" end in
     fatalUnlessNil (Ret (match hn with inl _ => None | inr e => Some e end))
       (ca <- getenv "APISERVER_CA_CERT_LOCATION" ;;
        r <- perform (ParseFlags (flagDefaults hostName ca v)) ;;
        match r with
        | inr e => Ret (unlessCanceled e)
        | inl v => runCommand v
        end)).

(** ** What the program relies on *)

(** The library runs no node before [Run]. *)
Definition not_run (X : Type) (e : mainE X) : Prop := match e with GoNodeRun _ => False | _ => True end.

Class NodeutilLaws `{Nodeutil} : Prop := {
  WithClient_sets c : succeeds (fun c' => c' = set_client c) (WithClient c);
  WithTLSConfig_sets opts c : succeeds (fun c' => exists t, c' = set_tls t c) (WithTLSConfig opts c);
  AttachProviderRoutes_keeps c : succeeds (fun c' => c' = c) (AttachProviderRoutes c);
  (** the configuration of a node is the defaults with the options applied in order *)
  NewNode_applies name np opts R :
    succeeds R (applyOptions opts (defaults name)) -> succeeds R (NewNode name np opts);
  WithClient_quiet c : all_ops not_run (WithClient c);
  WithTLSConfig_quiet opts c :
    (forall o t, o ∈ opts -> all_ops not_run (o t)) -> all_ops not_run (WithTLSConfig opts c);
  AttachProviderRoutes_quiet c : all_ops not_run (AttachProviderRoutes c);
  NewNode_quiet name np opts :
    all_ops not_run np -> (forall o c, o ∈ opts -> all_ops not_run (o c)) -> all_ops not_run (NewNode name np opts)
}.

Definition effectOf (s : string) : option TaintEffect :=
  if String.eqb s "NoSchedule" then Some TaintNoSchedule
  else if String.eqb s "NoExecute" then Some TaintNoExecute
  else if String.eqb s "PreferNoSchedule" then Some TaintPreferNoSchedule
  else None.

(** The taint that the flags ask for; [None] when they ask for one that is not known. *)
Definition taintsOf (v : Vars) : option (list Taint) :=
  if disableTaint v then Some []
  else option_map (fun e => [{| t_Key := taintKey v; t_Value := taintValue v; t_Effect := e |}]) (effectOf (taintEffect v)).

(** The configuration that a node is started with. *)
Record configured `{Nodeutil} (v : Vars) (c : NodeConfig) : Prop := {
  c_handler : Handler_ c = Mux;
  c_taints : exists l, taintsOf v = Some l /\ Taints c = app (Taints (defaults (nodeName v))) l;
  c_providerID : ProviderID c = providerID v;
  c_version : KubeletVersion c = "v1.35.6-vk-macos-vz-" ++ buildVersion v;
  c_client : HasClient c = true;
  c_resync : InformerResyncPeriod c = resync v;
  c_workers : NumWorkers c = numberOfWorkers v
}.

Section Proofs.
Context `{PrintTable} `{L : NodeutilLaws}.
Variable v : Vars.

Lemma withTaint_sets c :
  succeeds (fun c' => exists l, taintsOf v = Some l /\ c' = set_taints (app (Taints c) l) c) (withTaint v c).
Proof using.
  unfold withTaint, taintsOf, effectOf. destruct (disableTaint v).
  { exists []. split; [done|]. rewrite app_nil_r. by destruct c. }
  repeat match goal with |- context [String.eqb ?a ?b] => destruct (String.eqb a b) end; hnf; eauto.
Qed.

Lemma withWebhookAuth_sets c :
  succeeds (fun c' => exists t h, c' = set_handler h (set_tls t c)) (withWebhookAuth v c).
Proof using.
  unfold withWebhookAuth. destruct (negb (webhookAuth v)).
  { simpl. exists (TLS c). eexists. by destruct c. }
  intros d. unfold orErr. eapply succeeds_attempt; [apply succeeds_any|]. intros wc _.
  eapply succeeds_attempt; [apply succeeds_any|]. intros a _. simpl. by do 2 eexists.
Qed.

Lemma nodeOptions_configure :
  succeeds (configured v) (applyOptions (nodeOptions v) (defaults (nodeName v))).
Proof using L.
  unfold nodeOptions. cbn [applyOptions]. unfold orErr.
  eapply succeeds_attempt; [apply WithClient_sets|]. intros c1 ->.
  eapply succeeds_attempt; [apply withTaint_sets|]. intros c2 (l & Hl & ->).
  eapply (succeeds_attempt (fun c => c = _)); [done|]. intros c3 ->.
  eapply (succeeds_attempt (fun c => c = _)); [done|]. intros c4 ->.
  eapply succeeds_attempt; [apply WithTLSConfig_sets|]. intros c5 (t & ->).
  eapply succeeds_attempt; [apply withWebhookAuth_sets|]. intros c6 (t' & h & ->).
  eapply succeeds_attempt; [apply AttachProviderRoutes_keeps|]. intros c7 ->.
  intros port. split; try done. by exists l.
Qed.

Lemma createDockerClient_quiet : all_ops not_run createDockerClient.
Proof using.
  split; [done|]. intros h. split; [done|]. intros [e|]; [done|]. split; [done|]. by intros [e|].
Qed.

Lemma newProvider_quiet : all_ops not_run (newProvider v).
Proof using.
  unfold newProvider, guard. apply all_ops_bind.
  { split; [done|]. intros p. cbn [bind]. destruct (String.eqb (default "" p) ""); [done|].
    destruct (ParseInt32 _); [by split | done]. }
  intros [e|]; [done|]. split; [done|]. intros [pf|e]; [|done]. split; [done|]. intros ?. cbn [bind].
  apply all_ops_bind; [apply createDockerClient_quiet|]. intros d.
  apply all_ops_bind; [by destruct d|]. intros ?.
  split; [done|]. intros [cache|e]; [|done]. split; [done|]. intros i. split; [done|]. intros ?.
  split; [done|]. intros ip. split; [done|]. intros port. split; [done|]. intros [e|]; [done|].
  split; [done|]. by intros [e|].
Qed.

Lemma nodeOptions_quiet o c : o ∈ nodeOptions v -> all_ops not_run (o c).
Proof using L.
  unfold nodeOptions. rewrite !elem_of_cons, elem_of_nil.
  intros [->|[->|[->|[->|[->|[->|[->|[->|[]]]]]]]]].
  - apply WithClient_quiet.
  - unfold withTaint. destruct (disableTaint v); [done|].
    repeat match goal with |- context [String.eqb ?a ?b] => destruct (String.eqb a b) end; done.
  - done.
  - done.
  - apply WithTLSConfig_quiet. intros o t. rewrite !elem_of_cons, elem_of_nil. intros [->|[->|[]]]; [done|].
    unfold withCA. destruct (String.eqb (clientCACert v) ""); [done|]. by split.
  - unfold withWebhookAuth. destruct (negb (webhookAuth v)); [done|]. split; [done|]. intros d.
    eapply all_ops_attempt; [|apply succeeds_any|].
    { unfold webhookOption. destruct (negb _); [|done]. split; [done|]. by intros [e|]. }
    intros wc _. eapply all_ops_attempt; [by split | apply succeeds_any | done].
  - apply AttachProviderRoutes_quiet.
  - by split.
Qed.

(** Only a node with the configuration of the flags is started. *)
Definition starts_configured (X : Type) (e : mainE X) : Prop :=
  match e with GoNodeRun c => configured v c | _ => True end.

Lemma quiet_starts {A} (p : prog mainE A) : all_ops not_run p -> all_ops starts_configured p.
Proof using. apply all_ops_mono. by intros X []. Qed.

Lemma configureTracing_quiet service rate attrs : all_ops not_run (configureTracing service rate attrs).
Proof using.
  unfold configureTracing. destruct (determineSampler rate); [|done]. unfold guard. apply all_ops_bind.
  - split; [done|]. intros ep. cbn [bind]. destruct (String.eqb (default "" ep) ""); [done|].
    split; [done|]. intros i. split; [done|]. intros [e|]; [done|]. split; [done|]. intros [e|]; [done|]. by split.
  - intros [e|]; [done|]. by split.
Qed.

Lemma run_starts : all_ops starts_configured (run_ v).
Proof using L.
  unfold run_, guard. split; [done|]. intros name. cbn [bind].
  apply all_ops_bind; [apply quiet_starts, configureTracing_quiet|]. intros [e|]; [done|].
  split; [done|]. intros [e|]; [done|]. split; [done|]. intros ?. cbn [bind].
  eapply all_ops_bind_res; [apply quiet_starts, NewNode_quiet; [apply newProvider_quiet | apply nodeOptions_quiet]
                           | exact (NewNode_applies _ _ _ _ nodeOptions_configure)|].
  intros [node|e] Hnode; [|done]. split; [exact Hnode|]. intros ?. split; [done|].
  intros [[e|]|e|e]; [done| |done..]. split; [done|]. intros [e|]; [done|]. by split; [|intros; split].
Qed.

End Proofs.

Lemma main_total X (e : mainE X) x p : is_Some (local X e x p).
Proof. destruct e; simpl; eauto. Qed.

(** C24: [run] always returns, and a node is only ever started with the configuration
    that the flags ask for: the taint (one that is not supported starts none), the
    provider ID, the version, the workers and the resync period.  The handler is the
    bare mux of the provider's routes whatever the flags say, because the option that
    attaches the routes comes after the one that wraps the handler in authentication:
    with or without the webhook, requests to the kubelet's API are not checked. *)
Theorem started_node `{PrintTable} `{NodeutilLaws} env v port :
  exists r s, exec env (run_ v) port = Some (r, s) /\
  forall c x, Call (GoNodeRun c) x ∈ trace s -> configured v c.
Proof.
  destruct (traced_run_total local env (run_ v) (start port) main_total) as [[r s] Hr].
  exists r, s. split; [exact Hr|]. intros c x Hc.
  pose proof (traced_on_calls local env _ _ _ _ _ (run_starts v) Hr ltac:(constructor)) as Hf.
  rewrite Forall_forall in Hf. exact (Hf _ Hc).
Qed.

(** The readiness of the node is only waited for once it has stopped without an error:
    the startup timeout bounds nothing while the node starts. *)
Definition waits (c : call mainE) : bool := match c with Call (WaitReady _) _ => true | _ => false end.
Definition stopped_cleanly (c : call mainE) : bool :=
  match c with Call Select (NodeReturned None) => true | _ => false end.

Lemma startup_timeout_late env v node port :
  exists r s, exec env (runNode v node) port = Some (r, s) /\
  (existsb waits (trace s) = true -> existsb stopped_cleanly (trace s) = true).
Proof.
  unfold exec, runNode. cbn.
  destruct (env _ _ Select) as [[e|]|e|e]; cbn; [by eexists _, _ | | by eexists _, _ ..].
  by destruct (env _ _ (WaitReady _)) as [e|]; cbn; eexists _, _.
Qed.

(** *** tracer.go *)

(** A rate that is accepted and is not a word is a number from 0 to 100, or not a
    number at all. *)
Lemma determineSampler_ratio `{PrintTable} rate f :
  determineSampler rate = inl (TraceIDRatioBased f) ->
  exists x, Float.ParseFloat rate = inl x /\ f = F64.div x (F64.of_Z 100) /\
    F64.ltb x (F64.of_Z 0) = false /\ F64.ltb (F64.of_Z 100) x = false.
Proof.
  unfold determineSampler. destruct (_ || _); [done|]. destruct (String.eqb _ "never"); [done|].
  destruct (Float.ParseFloat rate) as [x|e]; [|done].
  destruct (F64.ltb x _) eqn:E1, (F64.ltb _ x) eqn:E2; simpl; try done. intros [= <-]. by exists x.
Qed.

Lemma nan_is_accepted `{PrintTable} : determineSampler "nan" = inl (TraceIDRatioBased S754_nan).
Proof. reflexivity. Qed.

(** *** The webhook's caches *)

(** The time for refusals replaces the one for approvals, and is not used for refusals. *)
Lemma deny_ttl_untouched v c :
  DenyCacheTTL (webhookTTLs v c) = DenyCacheTTL c /\
  ((0 < webhookAuthzUnauthedCacheTTL v)%Z -> AllowCacheTTL (webhookTTLs v c) = webhookAuthzUnauthedCacheTTL v).
Proof. split; [done|]. intros Hp. simpl. apply Z.ltb_lt in Hp. by rewrite Hp. Qed.

(** ** A library that keeps its promises, and runs with it *)

Definition bareTLS : TLSConfig := {| ClientAuth_ := OtherClientAuth 4; ClientCAs := None; GetCertificate := false |}.

Fixpoint applyTLS (opts : list (TLSConfig -> prog mainE (TLSConfig + error))) (t : TLSConfig)
  : prog mainE (TLSConfig + error) :=
  match opts with
  | [] => Ret (inl t)
  | o :: opts => orErr (o t) (applyTLS opts)
  end.

#[local] Instance library : Nodeutil := {|
  WithClient c := Ret (inl (set_client c));
  WithTLSConfig opts c := orErr (applyTLS opts (TLS c)) (fun t => Ret (inl (set_tls t c)));
  AttachProviderRoutes c := Ret (inl c);
  defaults name := {| Taints := []; ProviderID := ""; KubeletVersion := ""; HasClient := false; TLS := bareTLS;
                      Handler_ := NilHandler; InformerResyncPeriod := 60 * Time.Second; NumWorkers := 8;
                      HTTPListenAddr := ":10250" |};
  NewNode name np opts :=
    orErr (applyOptions opts {| Taints := []; ProviderID := ""; KubeletVersion := ""; HasClient := false; TLS := bareTLS;
                      Handler_ := NilHandler; InformerResyncPeriod := 60 * Time.Second; NumWorkers := 8;
                      HTTPListenAddr := ":10250" |})
      (fun c => r <- np ;; Ret (match r with Some e => inr e | None => inl c end))
|}.

Lemma apply_quiet {C} (P : forall X, mainE X -> Prop) (opts : list (C -> prog mainE (C + error)))
    (apply : list (C -> prog mainE (C + error)) -> C -> prog mainE (C + error)) c :
  (forall c, apply [] c = Ret (inl c)) -> (forall o l c, apply (o :: l) c = orErr (o c) (apply l)) ->
  (forall o c, o ∈ opts -> all_ops P (o c)) -> all_ops P (apply opts c).
Proof.
  intros Hn Hc. revert c. induction opts as [|o l IH]; intros c Ho; [by rewrite Hn|]. rewrite Hc.
  eapply all_ops_attempt; [apply Ho; by left | apply succeeds_any|]. intros c' _. apply IH.
  intros o' c'' Hin. apply Ho. by right.
Qed.

#[local] Instance library_laws : NodeutilLaws.
Proof.
  split; simpl; try done.
  - intros opts c. eapply succeeds_attempt; [apply succeeds_any|]. intros t _. by exists t.
  - intros name np opts R HR. eapply succeeds_attempt; [exact HR|]. intros c Hc.
    eapply all_results_bind; [apply all_results_any|]. by intros [e|] _.
  - intros opts c Ho. eapply all_ops_attempt; [by apply (apply_quiet _ _ applyTLS) | apply succeeds_any | done].
  - intros name np opts Hnp Ho.
    eapply all_ops_attempt; [by apply (apply_quiet _ _ applyOptions) | apply succeeds_any|]. intros c _.
    apply all_ops_bind; [done | by intros [e|]].
Qed.

Definition flags (rate : string) : Vars :=
  {| buildVersion := "dev"; taintKey := "virtual-kubelet.io/provider"; taintEffect := "NoSchedule"; taintValue := "macos-vz";
     logLevel := "info"; traceSampleRate := rate; kubeConfigPath := ""; startupTimeout := 30 * Time.Second;
     disableTaint := false; numberOfWorkers := 10; resync := 60 * Time.Second; providerID := "mac-7";
     certPath := "/tls.crt"; keyPath := "/tls.key"; clientCACert := "/ca.crt"; clientNoVerify := false;
     webhookAuth := true; webhookAuthnCacheTTL := 0; webhookAuthzUnauthedCacheTTL := 0;
     webhookAuthzAuthedCacheTTL := 0; nodeName := "mac-7" |}.

(** A host on which everything works, with the port set in the environment. *)
Definition host : oracle mainE := fun X n e =>
  match e in mainE X return X with
  | LookupEnv k => if String.eqb k "KUBELET_PORT" then Some "10260" else None
  | HomeDir => "/Users/k" | Hostname => inl "Mac-7" | UserCacheDir => inl "/cache"
  | LoggerFatal _ => false | ParseFlags d => inl d | ReadPort => 0%Z
  | CAFromPath p t => inl {| ClientAuth_ := OtherClientAuth 4; ClientCAs := Some p; GetCertificate := GetCertificate t |}
  | WebhookDefaults _ => {| AuthnCacheTTL := 1; ClientCertificateCA := None; AuthzRetryBackoff := false;
                            AllowCacheTTL := 2; DenyCacheTTL := 3 |}
  | NewWebhookAuth _ => inl 1%nat
  | PlatformInformation => inl "darwin"
  | Select => ContextDone errCanceled
  | ClientsetFromEnv _ | ParseLevel _ | NewExporter _ _ | NewTraceResource _ _ | NewCertWatcher _ _
  | NewDynamicCA _ | NewDockerClient _ | PingDocker | NewMacOSVZProvider _ | ConfigureNode | WaitReady _
  | NodeErr => None
  | SetPort _ | SetTracerProvider _ | SetTraceAdapter | StartCertWatcher | RunCA | StartEvents _ | Warn _
  | NewVzClientAPIs _ _ _ | GoNodeRun _ | NodeDone => tt
  end.

#[local] Instance printable : PrintTable := fun _ => true.

(** The nodes that were started. *)
Definition nodes (tr : list (call mainE)) : list NodeConfig :=
  omap (fun c => match c with Call (GoNodeRun n) _ => Some n | _ => None end) tr.

Definition providers (tr : list (call mainE)) : list ProviderSetup :=
  omap (fun c => match c with Call (NewMacOSVZProvider p) _ => Some p | _ => None end) tr.

Lemma started_node_witness :
  exists s n, exec host (run_ (flags "12.5")) defaultListenPort = Some (Some errCanceled, s) /\
    Call (GoNodeRun n) tt ∈ trace s /\ webhookAuth (flags "12.5") = true /\ Handler_ n = Mux.
Proof.
  destruct (started_node host (flags "12.5") defaultListenPort) as (r & s & Hr & Hc).
  assert (r = Some errCanceled /\ exists n, Call (GoNodeRun n) tt ∈ trace s) as [-> [n Hn]].
  { vm_compute in Hr. injection Hr as <- <-. split; [reflexivity|]. eexists. simpl.
    repeat first [apply list_elem_of_here | apply list_elem_of_further]. }
  exists s, n. split; [exact Hr|]. split; [exact Hn|]. split; [reflexivity|]. apply (Hc n tt Hn).
Defined.

(** With the two options the other way round the handler is the authenticated one. *)
Lemma routes_first_keeps_auth :
  let v := flags "" in
  let opts := [withClient; withTaint v; configureRoutes; withWebhookAuth v] in
  exists c s, exec host (applyOptions opts (defaults "mac-7")) 0 = Some (inl c, s) /\
    Handler_ c = InstrumentHandler (WithAuth (WebhookAuth_ 1) Mux).
Proof. eexists _, _. split; [vm_compute; reflexivity | reflexivity]. Qed.

(** A library that makes the provider once the options are applied: the port from the
    environment is reported by the provider and not listened on. *)
Lemma kubelet_port_not_listened_on :
  exists r s, exec host (run_ (flags "")) defaultListenPort = Some (r, s) /\
    map ps_DaemonEndpointPort (providers (trace s)) = [10260%Z] /\
    map HTTPListenAddr (nodes (trace s)) = [":10250"].
Proof. eexists _, _. split; [vm_compute; reflexivity|]. split; reflexivity. Qed.

End Main.
